(* ===== verification/_CoqProject ===== *)
-Q . S2P
Prelude.v
JsString.v
JsNumber.v
JsNumberFacts.v
Rounding.v
JsCollections.v
JsRegex.v
Vdom.v
Model.v
QueryState.v
Format.v
FormatFacts.v
Accuracy.v
Sparkline.v
Poller.v
Loop.v
Tab.v
QueryList.v
QueryListFacts.v
QueryHeader.v
Stage.v
QueryInfo.v
Samples.v
Timeline.v
StaticPages.v
Graph.v
StageDetail.v
StageDetailFacts.v
StageDetailView.v
OperatorDialog.v
LivePlan.v
LivePlanFacts.v
QueryDetail.v
QueryDetailFacts.v
Histogram.v
QueryDetailView.v
QueryPages.v
ClusterHUD.v
PageTitle.v
WorkerList.v
WorkerStatus.v
WorkerThreadList.v
QueryListView.v
QueryListPage.v
QueryTree.v
SharedDocuments.v
PageSurvival.v
Targets.v
ChartOptions.v
Pages.v
Libraries.v
PageTabs.v
WorkerPage.v
