(* ===== verification/Prelude.v ===== *)
(** * The web interface of Trino, verified

    The program is the web interface that a Trino coordinator serves, the JavaScript under
    core/trino-main/src/main/resources/webapp/src: a library of helpers (utils.js) and React
    components (components/), one to three per page, mounted by an entry point per page (index.jsx
    and so on).  Every component polls a REST resource of the coordinator, keeps the last
    documents and some histories in its state, and renders them.  Three scripts stand apart: those
    of timeline.html and login.html, and the version menu of the documentation
    (docs/src/main/sphinx/static/javascripts/version_dropdown.js).

    ** The language

    The sources are translated into executable functions on the values of JavaScript.
    - [Prelude]: exceptions as values ([res], with [Throw]), booleans, lists, tactics and the hint
      database [webui].
    - [JsString]: strings as lists of code units; [split], [join], [trim], [indexOf], decimals.
    - [JsNumber], [JsNumberFacts], [Rounding]: numbers as IEEE 754 doubles ([SpecFloat]), with
      [toFixed], [toString], [parseFloat], [parseInt], the conversion of strings, [Math.round] and
      so on, the facts about rounding, order and exactness below 2^53 that the components need,
      and the relative error of sums, differences and quotients.
    - [JsCollections]: [Array.prototype.sort] as an interface with its laws ([JsSort],
      [JsSortLaws]; insertion sort and merge sort are instances), [Map], and objects as
      dictionaries with their enumeration order and inherited properties.
    - [JsRegex]: the backtracking matcher of ECMA-262 for the patterns that are used: classes,
      sequences, repetition, groups and anchors.
    - [Vdom]: what the [render] methods return, with the event handlers and the child components
      that keep a state of their own.

    ** The refresh loop

    [Poller] models [componentDidMount], [refreshLoop] and [resetTimer] once, with the timers and
    outstanding requests of the browser, as a step relation over a type class that a page
    implements ([poll_init], [on_response], [on_failure], [keep_polling], [on_user]).  Its lemmas
    show that there is one series of requests, that invariants of the handlers hold in every
    reachable state, when a loop never dies, and that a stopped loop stays stopped.  A handler
    that throws ([Escaped]) never reaches [resetTimer].  [run] records the responses received.
    Handlers that go on for good answers keep the loop alive until its guard stops it and silent
    from then on ([step_on], [goes_on]), and [lockstep] carries a relation between two pages,
    answer by answer, to all their reachable states.

    [Loop] is the specification of the loop: a component is requesting, waiting or stopped, and
    nothing else is observable.  [page_refines_loop] shows that timers and requests implement it,
    in both directions.  [Tab] puts several components into one browser tab, where they share the
    counter of timer identifiers and [clearTimeout] could remove any timer;
    [components_independent] shows that each still implements its own loop.

    ** The components

    - utils.js: [QueryState] (colours, state texts, progress bar), [Sparkline] (histories),
      [Format] with [FormatFacts] and [Accuracy] (identifiers, URLs, parsers and printers, and how
      far a printed size is from the real one), [Graph] and [Stage] ([initializeGraph],
      [initializeSvg], [getChildren]).  A graph is the list of the calls that build it; a canvas
      is its groups, size, listener and zoom.
    - The documents of the coordinator: [Model] (BasicQueryInfo), [Stage] (stages, tasks,
      operators, plans, with the traversals of the pages), [QueryInfo] (QueryInfo), [Samples].
    - components/QueryList.jsx: [QueryList] (state, refresh, handlers, search timer, query text),
      [QueryListFacts] (its theorems), [QueryListView] (the views), [QueryListPage] (the component
      with its view as a [Poller] instance that takes any answer of the coordinator).
    - components/QueryHeader.jsx: [QueryHeader].
    - components/StageDetail.jsx: [StageDetail] (operator graphs and their labels, whose rendering
      can throw, and details of an operator), [StageDetailFacts], [StageDetailView] (views,
      canvas, state and refresh), [OperatorDialog] (the dialog of an operator, a second root that
      React keeps by its key).
    - components/LivePlan.jsx: [LivePlan] (flattening, the graph, size and zoom of the canvas,
      views, state and refresh), [LivePlanFacts].
    - components/QueryDetail.jsx: [QueryDetail] (task list, histograms, stack traces, session),
      [QueryDetailFacts], [Histogram] (the bars of a stage), [QueryDetailView] (views, state and
      refresh), [QueryPages], the theorems about the query and the stage page over time,
      [QueryTree], the page together with its StageSummary children, which React keeps by their
      keys, and [SharedDocuments], the same page with its documents in a store: the state holds
      references to them, and [componentDidUpdate] of a stage sorts its tasks in place.
    - components/ClusterHUD.jsx, PageTitle.jsx, WorkerList.jsx, WorkerStatus.jsx and
      WorkerThreadList.jsx: the files [ClusterHUD], [PageTitle], [WorkerList], [WorkerStatus] and
      [WorkerThreadList].
    - [PageSurvival]: the stage page and the live plan while the documents are complete.
    - [Targets]: the elements into which charts are drawn and those that copy buttons name.
    - [ChartOptions]: the options objects of the charts, in a store, because [$.extend] changes
      its first argument and the constants of the modules are shared by all charts.
    - The entry points, webpack.config.js and the elements of the HTML pages: [Pages], with the
      addresses that the components request, the links between pages, and the overview as a tab;
      [PageTabs], the tabs of query.html, plan.html, stage.html and workers.html; [WorkerPage],
      the page of a worker, where the thread list shares the thread of the scripts with the title
      bar and the status; [Libraries], the scripts that the two pages of the live plan load and
      what [componentDidMount] does without one of them.
    - The scripts: [Timeline] (timeline.html) and [StaticPages] (login.html and
      version_dropdown.js).

    Definitions keep the names of the sources; [ql_], [qd_], [sd_], [lp_], [hud_], [title_],
    [wl_], [ws_] and [wt_] mark the state, the handlers and the views of the ten components where
    the sources use the same name in several of them.  A method that sets the state is a function
    from state to state; one that may throw returns a [res]; [setState] is synchronous in response
    handlers (React 16), renders at once, and an exception of [render] or [componentDidUpdate]
    removes the component, after which updates have no effect ([tr_crashed], [sd_crashed],
    [lp_crashed], [ml_removed]).

    ** What the theorems show

    - The list of queries: what a refresh shows when reordering is due and when it is not
      ([refresh_reorders], [refresh_keeps_rows]), what every handler shows ([handlers_show]),
      independence of the browser's sorting ([rows_independent_of_sort]), and the dedented query
      text ([query_text_kept]).  Over all interleavings of refreshes, failures and clicks: for any
      answers, only queries of the last answer and not too many of them are shown, and none twice
      when the answers have distinct ids ([rows_invariant]).  The page is rendered while the
      answers are complete and distinct ([good_response]), and an answer with a query that cannot
      be shown can remove it ([overview_renders]).  The title and the charts of the overview go on
      for any answers, the list for good ones ([overview_page_alive]).
    - The graphs: every operator is in one chain ([operators_shown_once]); a chain is drawn with
      one box per operator exactly when the labels of all of them can be rendered ([chain_drawn]);
      a click finds its operator ([click_finds_operator]).  The plan is flattened completely and
      its graph has no dangling edge ([plan_flattened], [plan_graph_closed],
      [remote_sources_roundtrip]), and it is drawn at the right size ([plan_drawn]).  The library
      rejects graphs with loose ends; the graphs of complete documents have none ([drawable],
      [DagreLaws]), so that neither page is ever removed and both go on until the final document
      ([stage_page_survives], [plan_page_survives]).
    - The query, plan and stage pages: polling stops with the final document, also in a tab with
      the title bar, which goes on; workers.html never stops ([workers_page_alive]).  Series stay
      aligned, frozen stages stay frozen ([query_page_stops], [finished_tabs_quiet],
      [query_histories_aligned], [refresh_off_freezes_stages]).  With complete documents
      ([good_info]) no rendering of the page or of a stage throws, and the page polls until the
      final document has been received and is silent afterwards ([query_page_survives]); the page
      with its stages refines the page alone ([tree_refines_query]), and a refresh keeps what is
      expanded and filtered ([stage_settings_kept], [stage_toggle_local]).  That several fields
      refer to one document and that the charts sort its tasks in place is not visible: the page
      with the store refines the page with values up to the order of the tasks, which no chart and
      no count depends on ([sharing_invisible], [shared_page_survives]).  A histogram counts every
      task in one of its bars, whatever the rounding errors of its buckets
      ([histogram_counts_all]); a stack trace elides the longest common tail
      ([stack_trace_elision]); then names and the order of tasks.
    - The cluster pages: series ([hud_series], [status_series]), memory pool
      ([pool_queries_listed]), order of workers, outages, the grouping of threads with its
      termination ([threads_grouped]) and when a snapshot is shown ([snapshot_shown_iff]).  The
      title and the status of a worker go on for ever unless a snapshot makes the grouping
      endless, which stops the whole page ([worker_page_alive]).
    - The dialog of an operator always shows the values of the operator that was clicked, and its
      charts as long as the document has not changed since the dialog was opened; afterwards the
      charts are stale ([operator_dialog]).
    - Libraries: embedded_plan.html does not load clipboard.js, so that the plan is lost there and
      the page polls for ever ([embedded_plan_lost]).
    - Options: drawing a chart changes no object that existed before, neither a constant nor the
      options of another chart, and each gets its own settings over the constant of its module
      ([chart_options_independent]).
    - Selectors: charts and copy buttons find their elements, with one exception
      ([targets_found]); a query is highlighted with its first document or never
      ([query_highlighted]).
    - Navigation: components are mounted on elements that exist ([mounts_found]), and links lead
      to pages that request the same query, stage or worker ([query_links_followed],
      [stage_click_followed], [worker_links_followed]).
    - The scripts: the bars of the timeline ([timeline_bars]), the redirect after a login
      ([login_returns]), the links of the version menu ([version_menu]).
    - Parsers and printers: grammars, round trips, widths ([parseDataSize_grammar],
      [parseDataSize_roundtrip], [parseDuration_roundtrip], [id_roundtrip], [formatCount_width]),
      and the distance of a printed size from the size ([formatDataSize_accurate]).
    - Behaviour that differs from what the code or its comments intend is stated as it is:
      [failed_state_text], [history_is_window], [snapshot_breaks], [only_snapshots_break],
      [live_plan_lost_without_output_stage], [outage_shown], and, among others,
      [all_queries_click_empties], [search_cancelled_by_refresh], [stage_selection_reverted],
      [canvas_lost_after_first_failure], [task_order_inconsistent], [worker_failures_hidden],
      [removed_page_polls], [removed_stage_page_polls], [attempts_collide],
      [timeline_needs_output_stage], and parts of [worker_page_alive], [operator_dialog],
      [embedded_plan_lost], [targets_found] and [query_highlighted].

    ** Bounds and fuel

    Recursion over documents is structural.  [star_iter] of [JsRegex] runs with the length of the
    rest of the input as fuel, which suffices since an iteration that consumes nothing is
    abandoned.  [split_fuel] and [digits_fuel] have the length of the string and the number of
    bits as fuel.  [process_loop] of [WorkerThreadList] models a loop that need not end: its fuel
    is a parameter, [threads_grouped] gives a bound that suffices and [snapshot_breaks] the case
    where none does.  [zeros_below] of [QueryDetail] has fuel 177, one more than the bound of at
    most 176 of its loop; [merge_rounds] of [JsCollections] has the length of the list.  Numbers
    are doubles of 53 bits throughout; round trips are stated below 2^53, and the histogram for
    values of up to 2^100 milliseconds that are equal or 2^-100 milliseconds apart.

    ** Parameters

    What depends on the browser or on code that is not here is a type class with the documented
    laws where a theorem needs them: [JsSort], [LocaleCompare], [DateParse], [LocalTime],
    [UrlParser], [LowerCase], [PlanParser] ([JSON.parse]), [TimeString], [DagreRender] (the layout
    of a graph: its size, or an exception; [DagreLaws]: graphs without loose ends are drawn) and
    [PlanBox] (the computed size of the plan container).

    ** Not modelled

    How dagre-d3 lays out and d3, vis and the sparklines draw what they are given, tooltips,
    clipboard and syntax highlighting (only their arguments are modelled), Reactable (the user's
    sorting of the task table), the generated bundles (webapp/dist, the output of webpack and
    Babel for the sources modelled here, with the third-party packages in it) and the vendored
    scripts (webapp/vendor).  Of webpack.config.js only the entries and the names of the bundles
    are modelled: the loader, the resolution of the imports and the bundling are webpack's, and
    package.json only names packages.  The clock is read once per handler where the code reads it
    several times within one step, except in [ClusterHUD] and [QueryList]. *)

From Stdlib Require Export Permutation.
From stdpp Require Export base list numbers decidable option tactics sets.

(** ** Errors as values

    A JavaScript expression that throws is a value [Throw e].  The only
    exceptions the modelled code can raise are those of the language itself. *)

Inductive js_error : Type :=
| TypeError        (* property access on null/undefined, call of a non-function, invalid URL *)
| SyntaxError.     (* JSON.parse of a text that is not JSON *)

#[export] Instance js_error_eq_dec : EqDecision js_error.
Proof. solve_decision. Defined.

Inductive res (A : Type) : Type :=
| Ok (a : A)
| Throw (e : js_error).
Arguments Ok {A} a.
Arguments Throw {A} e.

#[export] Instance res_ret : MRet res := @Ok.
#[export] Instance res_bind : MBind res :=
  λ A B f m, match m with Ok a => f a | Throw e => Throw e end.
#[export] Instance res_fmap : FMap res :=
  λ A B f m, match m with Ok a => Ok (f a) | Throw e => Throw e end.

(** Reading a property of [null] or [undefined] throws a [TypeError]. *)
Definition deref {A} (o : option A) : res A :=
  match o with Some a => Ok a | None => Throw TypeError end.

Definition is_ok {A} (m : res A) : bool :=
  match m with Ok _ => true | Throw _ => false end.

Lemma res_bind_ok {A B} (f : A → res B) (m : res A) b :
  m ≫= f = Ok b ↔ ∃ a, m = Ok a ∧ f a = Ok b.
Proof.
  destruct m as [a|e]; simpl; [|naive_solver].
  split; [eauto | by intros (a' & [= <-] & ?)].
Qed.

Lemma Ok_inj {A} (a b : A) : Ok a = Ok b → a = b.
Proof. congruence. Qed.

(** ** Booleans *)

Create HintDb webui.
Create Rewrite HintDb boolrew.

#[export] Hint Rewrite andb_true_iff orb_true_iff negb_true_iff negb_false_iff
  andb_false_iff orb_false_iff bool_decide_eq_true bool_decide_eq_false : boolrew.

(** Turns boolean (in)equalities of the context and the goal into propositions. *)
Ltac boolp := autorewrite with boolrew in *.

(** Case analysis on every [if] and [match] on a boolean or option in the goal. *)
Ltac cases :=
  repeat match goal with
  | |- context [if ?b then _ else _] => destruct b eqn:?
  | |- context [match ?o with Some _ => _ | None => _ end] => destruct o eqn:?
  end; try done.

(** ** Lists *)

Section lists.
Context {A : Type}.
Implicit Types (l : list A) (p : A → bool).

(** [Array.prototype.slice(start)] for a start within the array. *)
Lemma length_drop_le n l : length (drop n l) ≤ length l.
Proof. rewrite length_drop. lia. Qed.

Lemma filter_length_le p l : length (List.filter p l) ≤ length l.
Proof. induction l as [|x l IH]; simpl; [done|]. destruct (p x); simpl; lia. Qed.

Lemma elem_of_filter_bool p l x : x ∈ List.filter p l ↔ x ∈ l ∧ p x = true.
Proof. rewrite !list_elem_of_In. apply filter_In. Qed.

Lemma filter_sublist p l : List.filter p l `sublist_of` l.
Proof. induction l as [|x l IH]; simpl; [constructor|]. destruct (p x); by constructor. Qed.

Lemma filter_bool_ext p q l :
  (∀ x, x ∈ l → p x = q x) → List.filter p l = List.filter q l.
Proof.
  induction l as [|x l IH]; intros H; simpl; [done|].
  rewrite (H x) by apply list_elem_of_here.
  rewrite IH by (intros y Hy; apply H; by apply list_elem_of_further).
  done.
Qed.

Lemma filter_bool_none p l : (∀ x, x ∈ l → p x = false) → List.filter p l = [].
Proof.
  intros H. rewrite (filter_bool_ext p (λ _, false)) by done. clear H. by induction l.
Qed.

Lemma filter_bool_all p l : (∀ x, x ∈ l → p x = true) → List.filter p l = l.
Proof.
  intros H. rewrite (filter_bool_ext p (λ _, true)) by done.
  clear H. induction l as [|x l IH]; simpl; by rewrite ?IH.
Qed.

Lemma filter_filter_bool p q l :
  List.filter p (List.filter q l) = List.filter (λ x, p x && q x) l.
Proof.
  induction l as [|x l IH]; simpl; [done|].
  destruct (q x) eqn:E; simpl; [|by rewrite andb_false_r].
  rewrite andb_true_r. destruct (p x); by rewrite IH.
Qed.

Lemma Permutation_filter_bool p l1 l2 :
  l1 ≡ₚ l2 → List.filter p l1 ≡ₚ List.filter p l2.
Proof.
  induction 1 as [|x l1 l2 _ IH|x y l|l1 l2 l3 _ IH1 _ IH2]; simpl.
  - done.
  - destruct (p x); [by constructor|done].
  - destruct (p x), (p y); try done. constructor.
  - by etrans.
Qed.
End lists.

Lemma list_bind_single {A B} (f : A → list B) x : [x] ≫= f = f x.
Proof. apply app_nil_r. Qed.

#[export] Hint Resolve filter_length_le filter_sublist : webui.

(** [indexOf] on arrays: the first index holding [x], if any ([None] is JavaScript's -1). *)
Fixpoint index_of {A} `{EqDecision A} (x : A) (l : list A) : option nat :=
  match l with
  | [] => None
  | y :: l' => if decide (x = y) then Some 0 else S <$> index_of x l'
  end.

Lemma index_of_None {A} `{EqDecision A} (x : A) l : index_of x l = None ↔ x ∉ l.
Proof.
  induction l as [|y l IH]; simpl; [set_solver|].
  case_decide; [set_solver|].
  rewrite fmap_None, IH. set_solver.
Qed.

Lemma index_of_Some_lookup {A} `{EqDecision A} (x : A) l i :
  index_of x l = Some i → l !! i = Some x.
Proof.
  revert i. induction l as [|y l IH]; simpl; intros i H; [done|].
  case_decide; simplify_eq; [done|].
  apply fmap_Some in H as (j & Hj & ->). by apply IH.
Qed.

(** [Array.prototype.splice(start, deleteCount)] used as a deletion. *)
Definition splice {A} (start count : nat) (l : list A) : list A :=
  take start l ++ drop (start + count) l.

Lemma splice_tail {A} (n : nat) (l : list A) :
  n ≤ length l → splice n (length l - n) l = take n l.
Proof.
  intros H. unfold splice.
  replace (n + (length l - n)) with (length l) by lia.
  by rewrite drop_all, app_nil_r.
Qed.
