(* ===== verification/JsString.v ===== *)
(** * JavaScript strings

    A JavaScript string is a sequence of UTF-16 code units; the operations of
    [String.prototype] that the web interface uses are defined on that
    representation (ECMA-262, chapter 22.1), so lengths and indices are counted
    in code units as the code counts them. *)

From S2P Require Import Prelude.
From Stdlib Require Strings.String Strings.Ascii.
Export String.StringSyntax.

Definition jstring := list N.

(** String literals of the source. *)
Definition js (s : String.string) : jstring := map Ascii.N_of_ascii (String.list_ascii_of_string s).
Arguments js s%_string_scope.

#[export] Instance jstring_eq_dec : EqDecision jstring.
Proof. unfold jstring. apply _. Defined.

(** The [===] of two strings. *)
Definition jeqb (a b : jstring) : bool := bool_decide (a = b).

Lemma jeqb_eq a b : jeqb a b = true ↔ a = b.
Proof. apply bool_decide_eq_true. Qed.

Lemma jeqb_refl a : jeqb a a = true.
Proof. by apply jeqb_eq. Qed.

#[export] Hint Rewrite jeqb_eq jeqb_refl : boolrew.

(** A string is truthy when it is not empty. *)
Definition truthy (s : jstring) : bool := match s with [] => false | _ => true end.

(** The code units of the source's special characters. *)
Definition NEWLINE : N := 10.
Definition TAB : N := 9.
Definition NBSP : N := 160.
Definition DOT : N := 46.
Definition COMMA : N := 44.
Definition DASH : N := 45.
Definition AMP : N := 38.
Definition UNDERSCORE : N := 95.

(** ** Character classes of regular expressions *)

(** [\s]: white space and line terminators. *)
Definition is_space (c : N) : bool :=
  bool_decide (c ∈ [9; 10; 11; 12; 13; 32; 160; 5760; 8232; 8233; 8239; 8287; 12288; 65279]%N)
  || ((8192 <=? c) && (c <=? 8202))%N.
(** [\d] *)
Definition is_digit (c : N) : bool := ((48 <=? c) && (c <=? 57))%N.
(** [[A-Z]] *)
Definition is_upper (c : N) : bool := ((65 <=? c) && (c <=? 90))%N.
(** [[a-zA-Z]] *)
Definition is_letter (c : N) : bool := is_upper c || ((97 <=? c) && (c <=? 122))%N.
(** [\w] *)
Definition is_word (c : N) : bool := is_letter c || is_digit c || (c =? UNDERSCORE)%N.

Lemma digit_not_space c : is_digit c = true → is_space c = false.
Proof.
  unfold is_digit, is_space. rewrite andb_true_iff, N.leb_le, N.leb_le. intros [? ?].
  apply orb_false_iff; split.
  - apply bool_decide_eq_false. rewrite list_elem_of_In; simpl. lia.
  - apply andb_false_iff; left. apply N.leb_gt. lia.
Qed.

Lemma letter_not_space c : is_letter c = true → is_space c = false.
Proof.
  unfold is_letter, is_upper, is_space.
  rewrite orb_true_iff, !andb_true_iff, !N.leb_le. intros ?.
  apply orb_false_iff; split.
  - apply bool_decide_eq_false. rewrite list_elem_of_In; simpl. lia.
  - apply andb_false_iff; left. apply N.leb_gt. lia.
Qed.

Lemma letter_not_digit c : is_letter c = true → is_digit c = false.
Proof.
  unfold is_letter, is_upper, is_digit.
  rewrite orb_true_iff, !andb_true_iff, !N.leb_le, andb_false_iff, !N.leb_gt. lia.
Qed.

(** ** Searching *)

Fixpoint starts_with (p s : jstring) : bool :=
  match p, s with
  | [], _ => true
  | c :: p', d :: s' => (c =? d)%N && starts_with p' s'
  | _ :: _, [] => false
  end.

(** [s.indexOf(p)]; [None] is the -1 of JavaScript. *)
Fixpoint indexOf (p s : jstring) : option nat :=
  if starts_with p s then Some 0
  else match s with
       | [] => None
       | _ :: s' => S <$> indexOf p s'
       end.

Definition includes (p s : jstring) : bool :=
  match indexOf p s with Some _ => true | None => false end.

Lemma starts_with_spec p s : starts_with p s = true ↔ ∃ t, s = p ++ t.
Proof.
  revert s. induction p as [|c p IH]; intros s; simpl; [naive_solver|].
  destruct s as [|d s]; [naive_solver|].
  rewrite andb_true_iff, N.eqb_eq, IH. split.
  - intros [-> [t ->]]. by exists t.
  - intros [t [= -> ->]]. eauto.
Qed.

Lemma indexOf_Some p s i :
  indexOf p s = Some i → ∃ a b, s = a ++ p ++ b ∧ length a = i.
Proof.
  revert i. induction s as [|c s IH]; intros i; simpl.
  - destruct (starts_with p []) eqn:E; intros [= <-].
    apply starts_with_spec in E as [t E]. by exists [], t.
  - destruct (starts_with p (c :: s)) eqn:E.
    + intros [= <-]. apply starts_with_spec in E as [t E]. by exists [], t.
    + intros (j & Hj & ->)%fmap_Some. destruct (IH j Hj) as (a & b & -> & <-).
      by exists (c :: a), b.
Qed.

Lemma indexOf_complete p a b : indexOf p (a ++ p ++ b) ≠ None.
Proof.
  induction a as [|c a IH]; simpl.
  - assert (starts_with p (p ++ b) = true) as E by (apply starts_with_spec; eauto).
    destruct (p ++ b); simpl; by rewrite E.
  - destruct (starts_with p _); [done|].
    destruct (indexOf p (a ++ p ++ b)); done.
Qed.

(** [includes] decides the substring relation. *)
Lemma includes_spec p s : includes p s = true ↔ ∃ a b, s = a ++ p ++ b.
Proof.
  unfold includes. destruct (indexOf p s) eqn:E; split; try done.
  - intros _. apply indexOf_Some in E as (a & b & ? & _). eauto.
  - intros (a & b & ->). by apply indexOf_complete in E.
Qed.

(** For a one-character needle the match found is the first one. *)
Lemma indexOf_char_first c a b :
  c ∉ a → indexOf [c] (a ++ c :: b) = Some (length a).
Proof.
  induction a as [|d a IH]; intros Hc; simpl.
  - by rewrite N.eqb_refl.
  - apply not_elem_of_cons in Hc as [Hne Hc].
    destruct (N.eqb_spec c d); [done|]. simpl. by rewrite IH.
Qed.

Lemma indexOf_char_None c s : indexOf [c] s = None ↔ c ∉ s.
Proof.
  induction s as [|d s IH]; simpl; [set_solver|].
  destruct (N.eqb_spec c d) as [->|?]; simpl; [set_solver|].
  rewrite fmap_None, IH. set_solver.
Qed.

(** ** Extracting *)

(** [s.substring(a, b)] for [a <= b]; both ends are clamped to the length. *)
Definition substring (a b : nat) (s : jstring) : jstring := take (b - a) (drop a s).
(** [s.substring(a)] *)
Definition substring_from (a : nat) (s : jstring) : jstring := drop a s.
(** [s.charAt(i)] is the empty string out of range. *)
Definition charAt (i : nat) (s : jstring) : jstring :=
  match s !! i with Some c => [c] | None => [] end.

(** ** White space *)

Fixpoint trimStart (s : jstring) : jstring :=
  match s with
  | [] => []
  | c :: s' => if is_space c then trimStart s' else s
  end.
(** [s.replace(/\s+$/g, '')] *)
Definition trimEnd (s : jstring) : jstring := reverse (trimStart (reverse s)).
Definition trim (s : jstring) : jstring := trimEnd (trimStart s).
(** [s.search(/\S/)]; [None] is -1. *)
Fixpoint search_nonspace (s : jstring) : option nat :=
  match s with
  | [] => None
  | c :: s' => if is_space c then S <$> search_nonspace s' else Some 0
  end.

Lemma trimStart_decomp s :
  ∃ w, s = w ++ trimStart s ∧ Forall (λ c, is_space c = true) w.
Proof.
  induction s as [|c s (w & E & Hw)]; simpl; [by exists []|].
  destruct (is_space c) eqn:Ec; [|by exists []].
  exists (c :: w). simpl. split; [congruence|by constructor].
Qed.

Lemma trimStart_head s c t : trimStart s = c :: t → is_space c = false.
Proof.
  induction s as [|d s IH]; simpl; [done|].
  destruct (is_space d) eqn:E; [done|]. naive_solver.
Qed.

Lemma trimEnd_decomp s :
  ∃ w, s = trimEnd s ++ w ∧ Forall (λ c, is_space c = true) w.
Proof.
  destruct (trimStart_decomp (reverse s)) as (w & E & Hw).
  exists (reverse w). unfold trimEnd. split.
  - by rewrite <-reverse_app, <-E, reverse_involutive.
  - by apply Forall_reverse.
Qed.

Lemma trimEnd_last s t c : trimEnd s = t ++ [c] → is_space c = false.
Proof.
  unfold trimEnd. intros E. apply (f_equal reverse) in E.
  rewrite reverse_involutive, reverse_snoc in E. by apply trimStart_head in E.
Qed.

Lemma trimStart_nil s : trimStart s = [] ↔ Forall (λ c, is_space c = true) s.
Proof.
  induction s as [|c s IH]; simpl; [done|]. rewrite Forall_cons.
  destruct (is_space c); [naive_solver|]. split; [done|naive_solver].
Qed.

Lemma trim_nil s : trim s = [] ↔ Forall (λ c, is_space c = true) s.
Proof.
  assert (∀ l : jstring, reverse l = [] ↔ l = []) as Hrev.
  { intros l. split; [|by intros ->]. intros E. apply (f_equal reverse) in E.
    by rewrite reverse_involutive in E. }
  unfold trim, trimEnd. rewrite Hrev, trimStart_nil, Forall_reverse. destruct (trimStart_decomp s) as (w & E & Hw).
  split; [|].
  - intros H. rewrite E, Forall_app. done.
  - intros H. by rewrite (proj2 (trimStart_nil s) H).
Qed.

Lemma search_nonspace_Some s i :
  search_nonspace s = Some i →
  Forall (λ c, is_space c = true) (take i s) ∧
  ∃ c, s !! i = Some c ∧ is_space c = false.
Proof.
  revert i. induction s as [|c s IH]; intros i; simpl; [done|].
  destruct (is_space c) eqn:E.
  - intros (j & Hj & ->)%fmap_Some. destruct (IH j Hj) as [? ?]. simpl. split; [by constructor|done].
  - intros [= <-]. simpl. split; [constructor|eauto].
Qed.

Lemma search_nonspace_None s :
  search_nonspace s = None ↔ Forall (λ c, is_space c = true) s.
Proof.
  induction s as [|c s IH]; simpl; [done|]. rewrite Forall_cons.
  destruct (is_space c); [rewrite fmap_None, IH; naive_solver|]. split; [done|naive_solver].
Qed.

(** ** Splitting and joining *)

(** [s.split(sep)] for a non-empty separator.  Each round consumes a separator or
    one character, so [S (length s)] rounds are enough ([join_split]). *)
Fixpoint split_fuel (fuel : nat) (sep acc s : jstring) : list jstring :=
  match fuel with
  | O => [acc]
  | S fuel' =>
    if starts_with sep s then acc :: split_fuel fuel' sep [] (drop (length sep) s)
    else match s with
         | [] => [acc]
         | c :: s' => split_fuel fuel' sep (acc ++ [c]) s'
         end
  end.
Definition split (sep s : jstring) : list jstring := split_fuel (S (length s)) sep [] s.

(** [parts.join(sep)] *)
Fixpoint join (sep : jstring) (parts : list jstring) : jstring :=
  match parts with
  | [] => []
  | [p] => p
  | p :: ps => p ++ sep ++ join sep ps
  end.

(** [s.replace(p, r)] with a string pattern replaces the first occurrence. *)
Definition replace_first (p r s : jstring) : jstring :=
  match indexOf p s with
  | Some i => take i s ++ r ++ drop (i + length p) s
  | None => s
  end.

Lemma replace_first_char c r a b : c ∉ a → replace_first [c] r (a ++ c :: b) = a ++ r ++ b.
Proof.
  intros Hc. unfold replace_first. rewrite (indexOf_char_first c a b Hc).
  rewrite take_app_length. do 2 f_equal.
  change (c :: b) with ([c] ++ b). rewrite app_assoc. rewrite drop_app_ge by (rewrite length_app; simpl; lia).
  rewrite length_app. simpl. by rewrite Nat.sub_diag.
Qed.

Lemma split_fuel_nonempty fuel sep acc s : split_fuel fuel sep acc s ≠ [].
Proof.
  revert acc s. induction fuel as [|fuel IH]; intros acc s; simpl; [done|].
  destruct (starts_with sep s); [done|]. destruct s; [done|]. apply IH.
Qed.

Lemma join_cons sep p ps : ps ≠ [] → join sep (p :: ps) = p ++ sep ++ join sep ps.
Proof. by destruct ps. Qed.

Lemma join_split_fuel fuel sep acc s :
  sep ≠ [] → length s < fuel → join sep (split_fuel fuel sep acc s) = acc ++ s.
Proof.
  intros Hsep. revert acc s. induction fuel as [|fuel IH]; intros acc s Hf; [lia|].
  simpl. destruct (starts_with sep s) eqn:E.
  - apply starts_with_spec in E as [t ->].
    rewrite join_cons by apply split_fuel_nonempty.
    rewrite drop_app_length, IH; [done|].
    rewrite length_app in Hf. destruct sep; simpl in *; [done|lia].
  - destruct s as [|c s]; simpl; [by rewrite app_nil_r|].
    simpl in Hf. rewrite IH by lia. by rewrite <-app_assoc.
Qed.

(** Joining the parts of a split gives the string back. *)
Lemma join_split sep s : sep ≠ [] → join sep (split sep s) = s.
Proof. intros. unfold split. rewrite join_split_fuel; [done|done|lia]. Qed.

(** Splitting at a separator whose first character the string does not contain. *)
Lemma split_fuel_absent fuel c t acc s :
  c ∉ s → length s < fuel → split_fuel fuel (c :: t) acc s = [acc ++ s].
Proof.
  revert acc s. induction fuel as [|fuel IH]; intros acc s Hc Hf; [lia|].
  simpl. destruct s as [|d s]; simpl; [by rewrite app_nil_r|].
  apply not_elem_of_cons in Hc as [Hne Hc].
  destruct (N.eqb_spec c d); [done|]. simpl in *.
  rewrite IH by (done || lia). by rewrite <-app_assoc.
Qed.

Lemma split_fuel_cons fuel c t acc a b :
  c ∉ a → length (a ++ (c :: t) ++ b) < fuel →
  split_fuel fuel (c :: t) acc (a ++ (c :: t) ++ b)
  = (acc ++ a) :: split_fuel (fuel - S (length a)) (c :: t) [] b.
Proof.
  revert fuel acc. induction a as [|d a IH]; intros fuel acc Hc Hf;
    (destruct fuel as [|fuel]; [simpl in Hf; lia|]); cbn [split_fuel app].
  - assert (starts_with (c :: t) (c :: t ++ b) = true) as ->
      by (apply starts_with_spec; by exists b).
    change (c :: t ++ b) with ((c :: t) ++ b). rewrite drop_app_length, app_nil_r. simpl. by rewrite Nat.sub_0_r.
  - apply not_elem_of_cons in Hc as [Hne Hc]. cbn [starts_with].
    destruct (N.eqb_spec c d); [done|]. simpl in *.
    rewrite IH by (done || (simpl; lia)). by rewrite <-app_assoc.
Qed.

Lemma split_fuel_more sep acc s f1 f2 :
  sep ≠ [] → length s < f1 → length s < f2 → split_fuel f1 sep acc s = split_fuel f2 sep acc s.
Proof.
  intros Hsep. revert acc s f2. induction f1 as [|f1 IH]; intros acc s f2 H1 H2; [lia|].
  destruct f2 as [|f2]; [lia|]. cbn [split_fuel].
  destruct (starts_with sep s) eqn:E.
  - apply starts_with_spec in E as [t ->]. rewrite drop_app_length. rewrite length_app in *.
    destruct sep; [done|]. simpl in *. f_equal. apply IH; lia.
  - destruct s; [done|]. simpl in *. apply IH; lia.
Qed.

(** Splitting a joined list gives the parts back when none contains the separator's start. *)
Lemma split_join_sep c t parts :
  parts ≠ [] → Forall (λ p, c ∉ p) parts → split (c :: t) (join (c :: t) parts) = parts.
Proof.
  intros Hne H. induction H as [|p ps Hp Hps IH]; [done|].
  destruct ps as [|q ps].
  - simpl. unfold split. by rewrite split_fuel_absent by (done || lia).
  - rewrite join_cons by done. unfold split.
    rewrite split_fuel_cons by (done || lia).
    rewrite app_nil_l. f_equal. etrans; [|apply IH; done].
    unfold split. apply split_fuel_more; [done|..]; rewrite ?length_app; simpl; rewrite ?length_app; lia.
Qed.

Lemma split_join c parts :
  parts ≠ [] → Forall (λ p, c ∉ p) parts → split [c] (join [c] parts) = parts.
Proof. apply split_join_sep. Qed.

(** ** Decimal numerals *)

Fixpoint digits_fuel (fuel : nat) (n : N) : jstring :=
  match fuel with
  | O => []
  | S fuel' =>
    if (n <? 10)%N then [(48 + n)%N]
    else digits_fuel fuel' (n / 10)%N ++ [(48 + n mod 10)%N]
  end.
(** The decimal representation; [log2 n + 1] bounds the number of decimal digits. *)
Definition dec (n : N) : jstring := digits_fuel (S (N.to_nat (N.log2 n))) n.
Definition dec_nat (n : nat) : jstring := dec (N.of_nat n).
Definition dec_Z (z : Z) : jstring :=
  match z with
  | Zneg p => DASH :: dec (Npos p)
  | _ => dec (Z.to_N z)
  end.

(** The value of a string of decimal digits. *)
Definition decval (s : jstring) : N := fold_left (λ acc c, (acc * 10 + (c - 48))%N) s 0%N.

Lemma decval_snoc s c : decval (s ++ [c]) = (decval s * 10 + (c - 48))%N.
Proof. unfold decval. by rewrite fold_left_app. Qed.

Lemma digits_fuel_spec fuel n :
  (n < 10 ^ N.of_nat fuel)%N → fuel ≠ 0 →
  decval (digits_fuel fuel n) = n ∧
  Forall (λ c, is_digit c = true) (digits_fuel fuel n) ∧
  digits_fuel fuel n ≠ [].
Proof.
  revert n. induction fuel as [|fuel IH]; intros n Hn Hf; [done|].
  simpl. destruct (N.ltb_spec n 10) as [Hlt|Hge].
  - split; [unfold decval; simpl; lia|]. split; [|done].
    constructor; [|constructor]. unfold is_digit. rewrite andb_true_iff, !N.leb_le. lia.
  - rewrite Nat2N.inj_succ, N.pow_succ_r' in Hn.
    assert (n / 10 < 10 ^ N.of_nat fuel)%N as Hdiv by (apply N.Div0.div_lt_upper_bound; lia).
    assert (n mod 10 < 10)%N as Hmod by (apply N.mod_lt; lia).
    assert (fuel ≠ 0) as Hf'.
    { intros ->. simpl in Hdiv. assert (1 <= n / 10)%N by (apply N.div_le_lower_bound; lia). lia. }
    destruct (IH _ Hdiv Hf') as (E & HF & _).
    rewrite decval_snoc, E. split; [|split].
    + pose proof (N.Div0.div_mod n 10) as Hdm.
      assert (∀ q r : N, n = 10 * q + r → q * 10 + (48 + r - 48) = n)%N as Hq by (clear; lia).
      by apply Hq.
    + apply Forall_app; split; [done|]. constructor; [|constructor].
      unfold is_digit. rewrite andb_true_iff, !N.leb_le.
      revert Hmod. generalize (n mod 10)%N. clear. lia.
    + by destruct (digits_fuel fuel (n / 10)%N).
Qed.

Lemma dec_fuel_enough n : (n < 10 ^ N.of_nat (S (N.to_nat (N.log2 n))))%N.
Proof.
  rewrite Nat2N.inj_succ, N2Nat.id. destruct (N.eq_0_gt_0_cases n) as [->|Hn]; [done|].
  destruct (N.log2_spec n Hn) as [_ H]. eapply N.lt_le_trans; [exact H|].
  apply N.pow_le_mono_l. lia.
Qed.

(** Decimal printing round-trips and yields a non-empty string of digits. *)
Lemma decval_dec n : decval (dec n) = n.
Proof. apply digits_fuel_spec; [apply dec_fuel_enough|done]. Qed.
Lemma dec_digits n : Forall (λ c, is_digit c = true) (dec n).
Proof. apply digits_fuel_spec; [apply dec_fuel_enough|done]. Qed.
Lemma dec_nonempty n : dec n ≠ [].
Proof. apply digits_fuel_spec; [apply dec_fuel_enough|done]. Qed.

Lemma dec_inj n m : dec n = dec m → n = m.
Proof. intros E. by rewrite <-(decval_dec n), E, decval_dec. Qed.

Lemma dec_no_char n c : is_digit c = false → c ∉ dec n.
Proof.
  intros Hc Hin. pose proof (dec_digits n) as H. rewrite Forall_forall in H.
  rewrite (H c Hin) in Hc. done.
Qed.

(** A numeral below [10^k] has at most [k] digits. *)
Lemma length_digits_fuel fuel n k :
  (n < 10 ^ N.of_nat (S k))%N → length (digits_fuel fuel n) ≤ S k.
Proof.
  revert n k. induction fuel as [|fuel IH]; intros n k Hn; simpl; [lia|].
  destruct (N.ltb_spec n 10); [simpl; lia|]. rewrite length_app. simpl.
  destruct k as [|k]; [simpl in Hn; lia|].
  assert (length (digits_fuel fuel (n / 10)) ≤ S k); [|lia].
  apply IH. apply N.Div0.div_lt_upper_bound.
  rewrite Nat2N.inj_succ, N.pow_succ_r' in Hn. lia.
Qed.

Lemma length_dec_lt n k : (n < 10 ^ N.of_nat (S k))%N → length (dec n) ≤ S k.
Proof. apply length_digits_fuel. Qed.

(** The longest prefix satisfying a predicate, and the rest. *)
Fixpoint span (p : N → bool) (s : jstring) : jstring * jstring :=
  match s with
  | [] => ([], [])
  | c :: s' => if p c then let '(a, b) := span p s' in (c :: a, b) else ([], s)
  end.

Lemma span_app p a b :
  Forall (λ c, p c = true) a → (match b with [] => True | c :: _ => p c = false end) →
  span p (a ++ b) = (a, b).
Proof.
  intros Ha Hb. induction Ha as [|c a Hc _ IH]; simpl.
  - destruct b as [|c b]; simpl; [done|]. by rewrite Hb.
  - by rewrite Hc, IH.
Qed.

Lemma span_spec p s a b :
  span p s = (a, b) →
  s = a ++ b ∧ Forall (λ c, p c = true) a ∧
  (match b with [] => True | c :: _ => p c = false end).
Proof.
  revert a b. induction s as [|c s IH]; intros a b; simpl.
  - intros [= <- <-]. done.
  - destruct (p c) eqn:E.
    + destruct (span p s) as [a' b'] eqn:Es. intros [= <- <-].
      destruct (IH a' b' eq_refl) as (-> & ? & ?). naive_solver.
    + intros [= <- <-]. done.
Qed.
