(* ===== verification/JsNumber.v ===== *)
(** * JavaScript numbers

    A JavaScript number is an IEEE 754 double.  The model computes with the
    executable specification of binary floating point of the Standard Library
    ([SpecFloat]) at precision 53 and maximal exponent 1024, so every rounding,
    overflow and NaN of the source is reproduced, and no axiom is used.  The
    conversions to strings follow ECMA-262 (chapters 6.1.6.1.20 and 21.1.3.3). *)

From S2P Require Import Prelude JsString.
From Stdlib Require Export Floats.SpecFloat.

Definition number := spec_float.

Abbreviation prec := 53%Z.
Abbreviation emax := 1024%Z.
Abbreviation eminZ := (-1074)%Z.

Definition nadd (x y : number) : number := SFadd prec emax x y.
Definition nsub (x y : number) : number := SFsub prec emax x y.
Definition nmul (x y : number) : number := SFmul prec emax x y.
Definition ndiv (x y : number) : number := SFdiv prec emax x y.
Definition nsqrt (x : number) : number := SFsqrt prec emax x.
Definition nneg (x : number) : number := SFopp x.
Definition nltb (x y : number) : bool := SFltb x y.
Definition ngtb (x y : number) : bool := SFltb y x.
Definition nleb (x y : number) : bool := SFleb x y.
Definition ngeb (x y : number) : bool := SFleb y x.
(** [===] on numbers: NaN differs from itself and the two zeros are equal. *)
Definition neqb (x y : number) : bool := SFeqb x y.

Definition nan : number := S754_nan.
Definition is_nan (x : number) : bool := match x with S754_nan => true | _ => false end.
Definition infinity : number := S754_infinity false.
Definition neg_infinity : number := S754_infinity true.

(** The double nearest to an integer. *)
Definition of_Z (z : Z) : number := binary_normalize prec emax z 0 false.
Definition of_nat (n : nat) : number := of_Z (Z.of_nat n).
(** The double nearest to [m / 10^k], [m] and [k] non-negative: a decimal literal. *)
Definition of_decimal (m : N) (k : nat) : number :=
  match m with
  | N0 => S754_zero false
  | Npos p =>
    match k with
    | O => of_Z (Zpos p)
    | S _ => ndiv (S754_finite false p 0) (S754_finite false (10 ^ Pos.of_nat k)%positive 0)
    end
  end.

Abbreviation zero := (S754_zero false).

(** A number is falsy when it is zero or NaN. *)
Definition ntruthy (x : number) : bool :=
  match x with S754_zero _ | S754_nan => false | _ => true end.

(** [ToNumber] of a number or null: [null] converts to 0. *)
Definition num_of_nullable (o : option number) : number := default zero o.

(** ** Rounding functions *)

(** A non-zero integer as a double, zero keeping the sign of the rounded operand. *)
Definition of_Z_signed (s : bool) (z : Z) : number :=
  match z with Z0 => S754_zero s | _ => of_Z z end.

(** [Math.floor] *)
Definition nfloor (x : number) : number :=
  match x with
  | S754_finite s m e =>
    if (0 <=? e)%Z then x
    else of_Z_signed s (cond_Zopp s (Zpos m) / 2 ^ (- e))%Z
  | _ => x
  end.

(** [Math.round]: the nearest integer, ties towards positive infinity. *)
Definition nround (x : number) : number :=
  match x with
  | S754_finite s m e =>
    if (0 <=? e)%Z then x
    else of_Z_signed s ((2 * cond_Zopp s (Zpos m) + 2 ^ (- e)) / 2 ^ (- e + 1))%Z
  | _ => x
  end.

(** [Math.max] and [Math.min] of two numbers (NaN is contagious). *)
Definition nmax (x y : number) : number :=
  if is_nan x || is_nan y then nan
  else if nltb x y then y
  else if neqb x y then match x with S754_zero true => y | _ => x end else x.
Definition nmin (x y : number) : number :=
  if is_nan x || is_nan y then nan
  else if nltb y x then y
  else if neqb x y then match y with S754_zero true => y | _ => x end else x.

(** ** Conversion to strings *)

(** The integer value of an integral double, if it is one. *)
Definition to_integer (x : number) : option Z :=
  match x with
  | S754_zero _ => Some 0%Z
  | S754_finite s m e =>
    if (0 <=? e)%Z then Some (cond_Zopp s (Zpos m * 2 ^ e))%Z
    else if (Zpos m mod 2 ^ (- e) =? 0)%Z then Some (cond_Zopp s (Zpos m / 2 ^ (- e)))%Z
    else None
  | _ => None
  end.

(** [s * 10^j] rounded to a double. *)
Definition scale10 (s : N) (j : Z) : number :=
  match j with
  | Zneg k => of_decimal s (Pos.to_nat k)
  | _ => of_Z (Z.of_N s * 10 ^ j)
  end.

(** The number of decimal digits before the point of a positive rational [a/b]:
    the least [n] with [a/b < 10^n], searched from a lower bound of it. *)
Fixpoint dec_exponent (fuel : nat) (a b : Z) (n : Z) : Z :=
  match fuel with
  | O => n
  | S fuel' =>
    let lt := match n with
              | Zneg k => (a * 10 ^ Zpos k <? b)%Z
              | _ => (a <? b * 10 ^ n)%Z
              end in
    if lt then n else dec_exponent fuel' a b (n + 1)
  end.

(** The exact value of a positive finite double as a fraction. *)
Definition fraction (m : positive) (e : Z) : Z * Z :=
  match e with Zneg k => (Zpos m, 2 ^ Zpos k)%Z | _ => (Zpos m * 2 ^ e, 1)%Z end.

(** The shortest decimal [s * 10^(n-k)], [s] of [k] digits, that rounds to [x]
    (ECMA-262 6.1.6.1.20, step 5; 17 digits always suffice). *)
Fixpoint shortest (fuel : nat) (x : number) (a b n : Z) (k : Z) : N * Z :=
  let '(p, q) := match (k - n)%Z with
                 | Zneg d => (a, b * 10 ^ Zpos d)%Z
                 | d => (a * 10 ^ d, b)%Z
                 end in
  let lo := Z.to_N (p / q) in
  let hi := (lo + 1)%N in
  let ok s := neqb (scale10 s (n - k)) x in
  let lo_nearer := (2 * (p mod q) <=? q)%Z in
  match fuel with
  | O => (lo, k)
  | S fuel' =>
    if ok lo && (lo_nearer || negb (ok hi)) then (lo, k)
    else if ok hi then (hi, k)
    else shortest fuel' x a b n (k + 1)
  end.

Definition zeros (n : nat) : jstring := replicate n 48%N.

(** Layout of the digits (steps 6 to 12). *)
Definition layout (digits : jstring) (k n : Z) : jstring :=
  if (k <=? n)%Z && (n <=? 21)%Z then digits ++ zeros (Z.to_nat (n - k))
  else if (0 <? n)%Z && (n <=? 21)%Z then
    take (Z.to_nat n) digits ++ [DOT] ++ drop (Z.to_nat n) digits
  else if (-6 <? n)%Z && (n <=? 0)%Z then js "0." ++ zeros (Z.to_nat (- n)) ++ digits
  else
    let exp := (n - 1)%Z in
    let sgn := if (exp <? 0)%Z then js "-" else js "+" in
    (match digits with
     | [d] => [d]
     | d :: ds => [d] ++ [DOT] ++ ds
     | [] => []
     end) ++ js "e" ++ sgn ++ dec (Z.abs_N exp).

Definition toString_pos (x : number) (m : positive) (e : Z) : jstring :=
  let '(a, b) := fraction m e in
  (* 2^l <= x < 2^(l+1): a lower bound of the exponent, at most 3 below it *)
  let l := (Z.log2 (Zpos m) + e)%Z in
  let n := dec_exponent 6 a b (l * (if (0 <=? l)%Z then 30102 else 30104) / 100000) in
  let '(s, k) := shortest 17 x a b n 1 in
  (* a digit string such as 10 for k = 1 is the digit 1 one place higher *)
  let '(s, k, n) := if (Z.of_N s =? 10 ^ k)%Z then (1%N, 1%Z, (n + 1)%Z) else (s, k, n) in
  layout (dec s) k n.

(** [ToString] of a number; safe integers print as their decimal numeral. *)
Definition toString (x : number) : jstring :=
  match x with
  | S754_nan => js "NaN"
  | S754_infinity false => js "Infinity"
  | S754_infinity true => js "-Infinity"
  | S754_zero _ => js "0"
  | S754_finite s m e =>
    match to_integer x with
    | Some z => if (Z.abs z <=? 2 ^ 53)%Z then dec_Z z
                else (if s then js "-" else []) ++ toString_pos (SFabs x) m e
    | None => (if s then js "-" else []) ++ toString_pos (SFabs x) m e
    end
  end.

(** [x.toFixed(f)]: the integer nearest to [x * 10^f] (the larger one on ties),
    printed with [f] decimals; from 10^21 on the plain string. *)
Definition fixed_digits (f : nat) (n : N) : jstring :=
  let d := dec n in
  let d := zeros (S f - length d) ++ d in
  match f with
  | O => d
  | S _ => take (length d - f) d ++ [DOT] ++ drop (length d - f) d
  end.

(** The integer nearest to [m * 2^e * 10^f]. *)
Definition fixed_int (m : positive) (e : Z) (f : nat) : Z :=
  let p := (10 ^ Z.of_nat f)%Z in
  if (0 <=? e)%Z then (Zpos m * 2 ^ e * p)%Z
  else ((2 * Zpos m * p + 2 ^ (- e)) / 2 ^ (- e + 1))%Z.

Definition toFixed (f : nat) (x : number) : jstring :=
  match x with
  | S754_nan => js "NaN"
  | S754_infinity _ => toString x
  | S754_zero _ => fixed_digits f 0
  | S754_finite s m e =>
    (if s then js "-" else []) ++
    (if ngeb (SFabs x) (of_Z (10 ^ 21)) then toString (SFabs x)
     else fixed_digits f (Z.to_N (fixed_int m e f)))
  end.

(** ** Conversion from strings *)

(** [parseFloat] on an unsigned decimal literal without exponent, the only shape
    the data-size and duration patterns capture. *)
Definition parseFloat (s : jstring) : number :=
  let '(int, rest) := span is_digit s in
  match rest with
  | c :: rest' =>
    if (c =? DOT)%N then
      let '(frac, _) := span is_digit rest' in
      match int ++ frac with
      | [] => nan
      | ds => of_decimal (decval ds) (length frac)
      end
    else match int with [] => nan | _ => of_decimal (decval int) 0 end
  | [] => match int with [] => nan | _ => of_decimal (decval int) 0 end
  end.

Definition is_hex (c : N) : bool :=
  is_digit c || ((97 <=? c) && (c <=? 102))%N || ((65 <=? c) && (c <=? 70))%N.
Definition hexval (s : jstring) : N :=
  fold_left (λ acc c, (acc * 16 + (if is_digit c then c - 48
                                   else if (97 <=? c) then c - 87 else c - 55))%N) s 0%N.

(** [parseInt] with no radix. *)
Definition parseInt (s : jstring) : number :=
  let s := trimStart s in
  let neg := starts_with (js "-") s in
  let s := if neg || starts_with (js "+") s then drop 1 s else s in
  let signed (n : N) : number :=
    if neg then nneg (of_Z (Z.of_N n)) else of_Z (Z.of_N n) in
  if starts_with (js "0x") s || starts_with (js "0X") s then
    match (span is_hex (drop 2 s)).1 with [] => nan | ds => signed (hexval ds) end
  else match (span is_digit s).1 with [] => nan | ds => signed (decval ds) end.

(** [StringToNumber] (ECMA-262, 7.1.4.1): the whole text has to be a literal. *)
Definition string_exponent (s : jstring) : option Z :=
  match s with
  | [] => Some 0%Z
  | c :: s' =>
    if ((c =? 101) || (c =? 69))%N then
      let neg := starts_with (js "-") s' in
      let ds := if neg || starts_with (js "+") s' then drop 1 s' else s' in
      if match ds with [] => false | _ => forallb is_digit ds end
      then Some (if neg then - Z.of_N (decval ds) else Z.of_N (decval ds))%Z else None
    else None
  end.

Definition unsigned_decimal (s : jstring) : number :=
  if jeqb s (js "Infinity") then infinity
  else
    let '(int, rest) := span is_digit s in
    let '(frac, rest) := match rest with
                         | c :: rest' => if (c =? DOT)%N then span is_digit rest' else ([], rest)
                         | [] => ([], [])
                         end in
    match int ++ frac, string_exponent rest with
    | [], _ | _, None => nan
    | ds, Some e => scale10 (decval ds) (e - Z.of_nat (length frac))
    end.

Definition prefixed_integer (is_digit : N → bool) (base : N) (digits : jstring) : number :=
  match digits with
  | [] => nan
  | _ => if forallb is_digit digits
         then of_Z (Z.of_N (fold_left (λ acc c, (acc * base + hexval [c])%N) digits 0%N)) else nan
  end.
Definition is_octal (c : N) : bool := ((48 <=? c) && (c <=? 55))%N.
Definition is_binary (c : N) : bool := ((48 <=? c) && (c <=? 49))%N.

Definition number_of_string (s : jstring) : number :=
  let s := trim s in
  if starts_with (js "0x") s || starts_with (js "0X") s then prefixed_integer is_hex 16 (drop 2 s)
  else if starts_with (js "0o") s || starts_with (js "0O") s then prefixed_integer is_octal 8 (drop 2 s)
  else if starts_with (js "0b") s || starts_with (js "0B") s then prefixed_integer is_binary 2 (drop 2 s)
  else match s with
       | [] => zero
       | _ => if starts_with (js "-") s then nneg (unsigned_decimal (drop 1 s))
              else unsigned_decimal (if starts_with (js "+") s then drop 1 s else s)
       end.

Example number_samples :
  map number_of_string [js ""; js " 12.5 "; js "0.0"; js "3.10"; js "-1e3"; js "0x1F"; js "0b11"; js "1.2.3"; js "e5"] =
  [zero; of_decimal 125 1; zero; of_decimal 31 1; of_Z (-1000); of_Z 31; of_Z 3; nan; nan].
Proof. vm_compute. reflexivity. Qed.
Example toString_tenth : toString (of_decimal 1 1) = js "0.1".
Proof. vm_compute. reflexivity. Qed.
Example toString_third : toString (ndiv (of_Z 1) (of_Z 3)) = js "0.3333333333333333".
Proof. vm_compute. reflexivity. Qed.
Example toString_1e23 : toString (scale10 1 23) = js "1e+23".
Proof. vm_compute. reflexivity. Qed.
Example toString_1e21 : toString (scale10 1 21) = js "1e+21".
Proof. vm_compute. reflexivity. Qed.
Example toString_small : toString (scale10 5 (-324)) = js "5e-324".
Proof. vm_compute. reflexivity. Qed.
Example toString_sum : toString (nadd (of_decimal 1 1) (of_decimal 2 1)) = js "0.30000000000000004".
Proof. vm_compute. reflexivity. Qed.
Example toFixed_1005 : toFixed 2 (of_decimal 1005 3) = js "1.00".
Proof. vm_compute. reflexivity. Qed.
Example toFixed_neg : toFixed 2 (nneg (of_decimal 15 1)) = js "-1.50".
Proof. vm_compute. reflexivity. Qed.
Example round_half : nround (of_decimal 25 1) = of_Z 3.
Proof. vm_compute. reflexivity. Qed.
Example round_half_neg : nround (nneg (of_decimal 25 1)) = of_Z (-2).
Proof. vm_compute. reflexivity. Qed.
Example parseInt_frac : parseInt (js " 12.5") = of_Z 12.
Proof. vm_compute. reflexivity. Qed.
