(* ===== verification/JsNumberFacts.v ===== *)
(** * Facts on JavaScript numbers

    Exact values of doubles and the correctness of comparison; the sign of a
    rounded difference is the sign of the exact one; the arithmetic operations
    yield canonical doubles.  These are the facts the comparators of
    [Array.prototype.sort] and the formatting functions rely on. *)

From S2P Require Import Prelude JsString JsNumber.
From Stdlib Require Import ZArith Lia.

Local Open Scope Z_scope.

(** A canonical double (every number of a JavaScript program is one). *)
Definition valid (x : number) : bool := valid_binary prec emax x.

Definition is_finite (x : number) : bool :=
  match x with S754_zero _ | S754_finite _ _ _ => true | _ => false end.

(** The exact value of a finite double in units of the least positive one, 2^-1074. *)
Definition sval (x : number) : Z :=
  match x with
  | S754_finite s m e => cond_Zopp s (Zpos m * 2 ^ (e + 1074))
  | _ => 0
  end.

(** ** Binary digits *)

Lemma digits2_bounds m :
  2 ^ (Zpos (digits2_pos m) - 1) <= Zpos m < 2 ^ Zpos (digits2_pos m).
Proof.
  induction m as [m IH|m IH|]; simpl digits2_pos; [| |done].
  all: rewrite Pos2Z.inj_succ.
  all: replace (Z.succ (Zpos (digits2_pos m)) - 1) with (Z.succ (Zpos (digits2_pos m) - 1)) by lia.
  all: rewrite !Z.pow_succ_r by lia; lia.
Qed.

Lemma digits2_unique m d : 0 < d → 2 ^ (d - 1) <= Zpos m < 2 ^ d → Zpos (digits2_pos m) = d.
Proof.
  intros Hd [H1 H2]. destruct (digits2_bounds m) as [H3 H4].
  assert (Zpos (digits2_pos m) - 1 < d) by (eapply Z.pow_lt_mono_r_iff with (a := 2); lia).
  assert (d - 1 < Zpos (digits2_pos m)) by (eapply Z.pow_lt_mono_r_iff with (a := 2); lia).
  lia.
Qed.

(** Digits of a non-negative integer shifted right. *)
Lemma Zdigits2_shiftr z n :
  0 < z → 0 <= n < Zdigits2 z →
  0 < z / 2 ^ n ∧ Zdigits2 (z / 2 ^ n) = Zdigits2 z - n.
Proof.
  intros Hz [Hn1 Hn2]. destruct z as [|m|]; try lia. simpl in *.
  destruct (digits2_bounds m) as [H1 H2].
  assert (0 < 2 ^ n) by (apply Z.pow_pos_nonneg; lia).
  assert (2 ^ (Zpos (digits2_pos m) - 1 - n) <= Zpos m / 2 ^ n) as Hlo.
  { apply Z.div_le_lower_bound; [lia|]. rewrite <-Z.pow_add_r by lia.
    replace (n + (Zpos (digits2_pos m) - 1 - n)) with (Zpos (digits2_pos m) - 1) by lia. done. }
  assert (Zpos m / 2 ^ n < 2 ^ (Zpos (digits2_pos m) - n)) as Hhi.
  { apply Z.div_lt_upper_bound; [lia|]. rewrite <-Z.pow_add_r by lia.
    replace (n + (Zpos (digits2_pos m) - n)) with (Zpos (digits2_pos m)) by lia. done. }
  assert (0 < 2 ^ (Zpos (digits2_pos m) - 1 - n)) by (apply Z.pow_pos_nonneg; lia).
  split; [lia|]. destruct (Zpos m / 2 ^ n) as [|q|] eqn:E; try lia. simpl.
  apply digits2_unique; [lia|].
  replace (Zpos (digits2_pos m) - n - 1) with (Zpos (digits2_pos m) - 1 - n) by lia. lia.
Qed.

Lemma Zdigits2_shiftr_all z n : 0 <= z → Zdigits2 z <= n → z / 2 ^ n = 0.
Proof.
  intros Hz Hn. destruct z as [|m|]; [apply Z.div_0_l; by apply Z.pow_nonzero; simpl in *|..]; try lia.
  simpl in Hn. destruct (digits2_bounds m) as [_ H]. apply Z.div_small. split; [lia|].
  eapply Z.lt_le_trans; [exact H|]. apply Z.pow_le_mono_r; lia.
Qed.

(** ** Shifting with sticky bits *)

Lemma shr_1_m mrs : 0 <= shr_m mrs → shr_m (shr_1 mrs) = Z.shiftr (shr_m mrs) 1.
Proof. destruct mrs as [m r s]. simpl. intros Hm. by destruct m as [|[p|p|]|]. Qed.

Lemma iter_shr_1_m p mrs :
  0 <= shr_m mrs → shr_m (SpecFloat.iter_pos shr_1 p mrs) = Z.shiftr (shr_m mrs) (Zpos p).
Proof.
  revert mrs. induction p as [p IH|p IH|]; intros mrs Hm; simpl.
  - assert (0 <= shr_m (shr_1 mrs)) as H1 by (rewrite shr_1_m by done; by apply Z.shiftr_nonneg).
    assert (0 <= shr_m (SpecFloat.iter_pos shr_1 p (shr_1 mrs))) as H2
      by (rewrite IH by done; by apply Z.shiftr_nonneg).
    rewrite IH, IH, shr_1_m, !Z.shiftr_shiftr by (done || lia). f_equal. lia.
  - assert (0 <= shr_m (SpecFloat.iter_pos shr_1 p mrs)) as H2
      by (rewrite IH by done; by apply Z.shiftr_nonneg).
    rewrite IH, IH, Z.shiftr_shiftr by (done || lia). f_equal. lia.
  - by apply shr_1_m.
Qed.

(** The exponent after normalisation is the larger of the given and the canonical one. *)
Lemma shr_fexp_spec m e l mrs e' :
  0 <= m → shr_fexp prec emax m e l = (mrs, e') →
  let f := fexp prec emax (Zdigits2 m + e) in
  e' = Z.max e f ∧ shr_m mrs = Z.shiftr m (e' - e) ∧ 0 <= shr_m mrs.
Proof.
  intros Hm. unfold shr_fexp. set (f := fexp prec emax (Zdigits2 m + e)).
  assert (shr_m (shr_record_of_loc m l) = m) as El by (by destruct l as [|[]]).
  unfold shr. destruct (f - e) as [|p|p] eqn:Ed; intros [= <- <-].
  - rewrite El. replace (e - e) with 0 by lia. split; [lia|]. by rewrite Z.shiftr_0_r.
  - rewrite iter_shr_1_m by (by rewrite El). rewrite El.
    replace (e + Zpos p - e) with (Zpos p) by lia.
    split; [lia|]. split; [done|]. by apply Z.shiftr_nonneg.
  - rewrite El. replace (e - e) with 0 by lia. split; [lia|]. by rewrite Z.shiftr_0_r.
Qed.

Lemma round_nearest_even_cases m l :
  round_nearest_even m l = m ∨ round_nearest_even m l = m + 1.
Proof. destruct l as [|[]]; simpl; auto. destruct (Z.even m); auto. Qed.

Lemma fexp_max e : fexp prec emax e = Z.max (e - 53) eminZ.
Proof. done. Qed.

(** Rounding a positive mantissa whose exponent is in range never yields zero. *)
Lemma shr_fexp_pos m e l mrs e' :
  0 < m → eminZ <= e → shr_fexp prec emax m e l = (mrs, e') →
  0 < shr_m mrs ∧ eminZ <= e'.
Proof.
  intros Hm He H. apply shr_fexp_spec in H as (-> & -> & _); [|lia].
  rewrite fexp_max. split; [|lia].
  assert (0 < Zdigits2 m) by (by destruct m).
  rewrite Z.shiftr_div_pow2 by lia. apply Zdigits2_shiftr; lia.
Qed.

Lemma binary_round_aux_pos s m e l :
  0 < m → eminZ <= e →
  ∃ m' e', binary_round_aux prec emax s m e l = S754_finite s m' e' ∨
           binary_round_aux prec emax s m e l = S754_infinity s.
Proof.
  intros Hm He. unfold binary_round_aux.
  destruct (shr_fexp prec emax m e l) as [mrs1 e1] eqn:E1.
  apply shr_fexp_pos in E1 as [Hm1 He1]; [|done..].
  set (m1 := round_nearest_even _ _).
  assert (0 < m1) as Hm1' by (destruct (round_nearest_even_cases (shr_m mrs1) (loc_of_shr_record mrs1)); lia).
  destruct (shr_fexp prec emax m1 e1 loc_Exact) as [mrs2 e2] eqn:E2.
  apply shr_fexp_pos in E2 as [Hm2 He2]; [|done..].
  destruct (shr_m mrs2) as [|p|p]; [lia| |lia].
  exists p, e2. destruct (e2 <=? _); auto.
Qed.

Lemma iter_xO m d : Zpos (Pos.iter xO m d) = Zpos m * 2 ^ Zpos d.
Proof.
  induction d as [|d IH] using Pos.peano_ind; [simpl; lia|].
  rewrite Pos.iter_succ, Pos2Z.inj_succ, Z.pow_succ_r, Pos2Z.inj_xO by lia.
  rewrite IH. lia.
Qed.

Lemma shl_align_spec m e e' m1 e1 :
  shl_align m e e' = (m1, e1) → e1 = Z.min e e' ∧ Zpos m1 = Zpos m * 2 ^ (e - e1).
Proof.
  unfold shl_align. destruct (e' - e) as [|d|d] eqn:E; intros [= <- <-].
  - replace (e - e) with 0 by lia. split; lia.
  - replace (e - e) with 0 by lia. split; lia.
  - rewrite iter_xO. split; [lia|]. f_equal. f_equal. lia.
Qed.

Lemma shl_align_fst m e e' :
  e' <= e → Zpos (fst (shl_align m e e')) = Zpos m * 2 ^ (e - e').
Proof.
  intros H. destruct (shl_align m e e') as [m1 e1] eqn:E.
  apply shl_align_spec in E as [He1 Hm1]. simpl. rewrite Hm1, He1. by rewrite Z.min_r.
Qed.

Lemma binary_round_pos s m e :
  eminZ <= e →
  ∃ m' e', binary_round prec emax s m e = S754_finite s m' e' ∨
           binary_round prec emax s m e = S754_infinity s.
Proof.
  intros He. unfold binary_round.
  destruct (shl_align m e _) as [mz ez] eqn:E. apply shl_align_spec in E as [-> _].
  apply binary_round_aux_pos; [done|]. rewrite fexp_max. lia.
Qed.

(** The sign of a rounded integer is the sign of the integer. *)
Lemma binary_normalize_sign z e :
  eminZ <= e →
  let r := binary_normalize prec emax z e false in
  nltb r zero = (z <? 0) ∧ nltb zero r = (0 <? z) ∧ is_nan r = false.
Proof.
  intros He. destruct z as [|p|p]; simpl; [done|..].
  - destruct (binary_round_pos false p e He) as (m' & e' & [-> | ->]); done.
  - destruct (binary_round_pos true p e He) as (m' & e' & [-> | ->]); done.
Qed.

(** ** Canonical doubles *)

Lemma valid_finite s m e :
  valid (S754_finite s m e) = true →
  eminZ <= e <= 971 ∧ Zpos (digits2_pos m) <= 53 ∧
  (eminZ < e → Zpos (digits2_pos m) = 53).
Proof.
  unfold valid, valid_binary, bounded, canonical_mantissa.
  rewrite andb_true_iff, Z.eqb_eq, Z.leb_le, fexp_max. lia.
Qed.

Lemma valid_intro s m e :
  fexp prec emax (Zpos (digits2_pos m) + e) = e → e <= 971 →
  valid (S754_finite s m e) = true.
Proof.
  intros H1 H2. unfold valid, valid_binary, bounded, canonical_mantissa.
  rewrite andb_true_iff, Z.eqb_eq, Z.leb_le. done.
Qed.

Lemma finite_lt m1 e1 m2 e2 :
  Zpos (digits2_pos m1) <= 53 → Zpos (digits2_pos m2) = 53 →
  eminZ <= e1 → e1 < e2 →
  Zpos m1 * 2 ^ (e1 + 1074) < Zpos m2 * 2 ^ (e2 + 1074).
Proof.
  intros Hd1 Hd2 He1 He. destruct (digits2_bounds m1) as [_ H1], (digits2_bounds m2) as [H2 _].
  rewrite Hd2 in H2.
  assert (Zpos m1 < 2 ^ 53) by (eapply Z.lt_le_trans; [exact H1|]; apply Z.pow_le_mono_r; lia).
  assert (2 ^ (e1 + 1 + 1074) <= 2 ^ (e2 + 1074)) by (apply Z.pow_le_mono_r; lia).
  replace (e1 + 1 + 1074) with (Z.succ (e1 + 1074)) in * by lia.
  rewrite Z.pow_succ_r in * by lia.
  assert (0 < 2 ^ (e1 + 1074)) by (apply Z.pow_pos_nonneg; lia).
  change (2 ^ (53 - 1)) with (2 ^ 52) in H2. change (2 ^ 53) with (2 * 2 ^ 52) in *. nia.
Qed.

Lemma sval_pos s m e : valid (S754_finite s m e) = true → 0 < Zpos m * 2 ^ (e + 1074).
Proof.
  intros H. apply valid_finite in H as (? & ? & ?).
  assert (0 < 2 ^ (e + 1074)) by (apply Z.pow_pos_nonneg; lia). nia.
Qed.

Lemma compare_magnitude s1 m1 e1 s2 m2 e2 :
  valid (S754_finite s1 m1 e1) = true → valid (S754_finite s2 m2 e2) = true →
  match e1 ?= e2 with Lt => Lt | Gt => Gt | Eq => Pos.compare_cont Eq m1 m2 end
  = (Zpos m1 * 2 ^ (e1 + 1074) ?= Zpos m2 * 2 ^ (e2 + 1074)).
Proof.
  intros H1 H2. apply valid_finite in H1 as (? & ? & ?). apply valid_finite in H2 as (? & ? & ?).
  destruct (Z.compare_spec e1 e2) as [->|Hlt|Hgt].
  - change (Pos.compare_cont Eq m1 m2) with (Zpos m1 ?= Zpos m2).
    rewrite <-Zmult_compare_compat_r; [done|]. apply Z.lt_gt, Z.pow_pos_nonneg; lia.
  - symmetry. apply Z.compare_lt_iff. apply finite_lt; lia.
  - symmetry. apply Z.compare_gt_iff. apply finite_lt; lia.
Qed.

(** Comparison of finite doubles is comparison of their exact values. *)
Lemma compare_sval x y :
  valid x = true → valid y = true → is_finite x = true → is_finite y = true →
  SFcompare x y = Some (sval x ?= sval y).
Proof.
  intros Hx Hy Fx Fy.
  destruct x as [sx|sx| |sx mx ex], y as [sy|sy| |sy my ey]; try done; cbn [SFcompare sval].
  - pose proof (sval_pos _ _ _ Hy). destruct sy; cbn [cond_Zopp]; f_equal; symmetry;
      [apply Z.compare_gt_iff|apply Z.compare_lt_iff]; lia.
  - pose proof (sval_pos _ _ _ Hx). destruct sx; cbn [cond_Zopp]; f_equal; symmetry;
      [apply Z.compare_lt_iff|apply Z.compare_gt_iff]; lia.
  - pose proof (sval_pos _ _ _ Hx). pose proof (sval_pos _ _ _ Hy).
    pose proof (compare_magnitude _ _ _ _ _ _ Hx Hy) as Hc.
    destruct sx, sy; cbn [cond_Zopp]; f_equal.
    + rewrite Z.compare_opp, (Z.compare_antisym (Zpos mx * _)), <-Hc. by destruct (ex ?= ey).
    + symmetry. apply Z.compare_lt_iff. lia.
    + symmetry. apply Z.compare_gt_iff. lia.
    + done.
Qed.

(** ** The sign of a difference *)

Lemma aligned_value s m e ez :
  eminZ <= ez → ez <= e →
  cond_Zopp s (Zpos m * 2 ^ (e + 1074))
  = cond_Zopp s (Zpos (fst (shl_align m e ez))) * 2 ^ (ez + 1074).
Proof.
  intros H1 H2. rewrite shl_align_fst by done.
  assert (2 ^ (e + 1074) = 2 ^ (e - ez) * 2 ^ (ez + 1074)) as ->
    by (rewrite <-Z.pow_add_r by lia; f_equal; lia).
  destruct s; cbn [cond_Zopp]; ring.
Qed.

(** The rounded difference of two doubles compares with zero as the doubles compare
    with each other; in particular it does not vanish by underflow. *)
Lemma sub_sign x y :
  valid x = true → valid y = true → is_nan x = false → is_nan y = false →
  nltb (nsub x y) zero = nltb x y ∧ nltb zero (nsub x y) = nltb y x.
Proof.
  intros Hx Hy Nx Ny.
  destruct x as [sx|sx| |sx mx ex], y as [sy|sy| |sy my ey]; try done;
    try (destruct sx, sy; done); try (destruct sx; done); try (destruct sy; done).
  unfold nsub, nltb, SFltb at 2 4.
  rewrite !compare_sval by done. cbn [sval]. cbn [SFsub].
  set (ez := Z.min ex ey).
  pose proof (valid_finite _ _ _ Hx) as (? & _ & _). pose proof (valid_finite _ _ _ Hy) as (? & _ & _).
  rewrite (aligned_value sx mx ex ez), (aligned_value sy my ey ez) by lia.
  set (a := cond_Zopp sx _). set (b := cond_Zopp sy _).
  destruct (binary_normalize_sign (a - b) ez ltac:(lia)) as (E1 & E2 & _).
  unfold nltb in E1, E2. rewrite E1, E2.
  assert (0 < 2 ^ (ez + 1074)) as Hp by (apply Z.pow_pos_nonneg; lia).
  rewrite <-!(Zmult_compare_compat_r _ _ (2 ^ (ez + 1074))) by lia.
  unfold Z.ltb. rewrite (Z.compare_sub a b), (Z.compare_antisym a b).
  rewrite (Z.compare_antisym (a - b) 0), (Z.compare_sub a b). by destruct (a - b ?= 0).
Qed.

(** ** Exactness *)

(** A canonical mantissa is not rounded. *)
Lemma binary_round_aux_exact s m e :
  fexp prec emax (Zpos (digits2_pos m) + e) = e → e <= 971 →
  binary_round_aux prec emax s (Zpos m) e loc_Exact = S754_finite s m e.
Proof.
  intros Hf He. unfold binary_round_aux, shr_fexp. cbn [Zdigits2]. rewrite Hf, Z.sub_diag. simpl shr.
  cbn [shr_record_of_loc shr_m loc_of_shr_record round_nearest_even Zdigits2].
  rewrite Hf, Z.sub_diag. simpl shr. cbn [shr_m].
  destruct (Z.leb_spec e (emax - prec)); [done|lia].
Qed.

(** Integers below 2^53 are represented exactly. *)
Lemma of_Z_pos_exact m :
  Zpos m < 2 ^ 53 →
  ∃ m' e, of_Z (Zpos m) = S754_finite false m' e ∧ valid (of_Z (Zpos m)) = true ∧
          e <= 0 ∧ Zpos m' = Zpos m * 2 ^ (- e).
Proof.
  intros Hm. unfold of_Z, binary_normalize, binary_round.
  destruct (digits2_bounds m) as [H1 H2]. set (d := Zpos (digits2_pos m)) in *.
  assert (d - 1 < 53) as Hd by (eapply Z.pow_lt_mono_r_iff with (a := 2); lia).
  assert (1 <= d) by lia.
  rewrite Z.add_0_r. destruct (shl_align m 0 _) as [mz ez] eqn:E.
  rewrite fexp_max in E. apply shl_align_spec in E as [-> Hz].
  rewrite (Z.max_l (d - 53)) in Hz |- * by lia. rewrite Z.min_r in Hz |- * by lia.
  assert (Zpos (digits2_pos mz) = 53) as Hd53.
  { apply digits2_unique; [lia|]. rewrite Hz.
    replace (53 - 1) with ((d - 1) + (0 - (d - 53))) by lia.
    replace 53 with (d + (0 - (d - 53))) at 4 by lia.
    rewrite !(Z.pow_add_r 2) by lia.
    assert (0 < 2 ^ (0 - (d - 53))) by (apply Z.pow_pos_nonneg; lia). nia. }
  rewrite binary_round_aux_exact by (rewrite ?fexp_max; lia).
  exists mz, (d - 53). split; [done|]. split; [|split; [lia|rewrite Hz; f_equal; f_equal; lia]].
  apply valid_intro; [rewrite fexp_max; lia|lia].
Qed.

Lemma of_Z_exact z :
  Z.abs z < 2 ^ 53 →
  valid (of_Z z) = true ∧ is_finite (of_Z z) = true ∧ sval (of_Z z) = z * 2 ^ 1074.
Proof.
  intros Hz. destruct z as [|m|m]; [done|..].
  - destruct (of_Z_pos_exact m Hz) as (m' & e & E & V & He & Hm). split; [done|].
    rewrite E in V |- *. split; [done|]. cbn [sval cond_Zopp]. rewrite Hm.
    apply valid_finite in V as (? & _ & _).
    rewrite <-Z.mul_assoc, <-Z.pow_add_r by lia. f_equal. f_equal. lia.
  - destruct (of_Z_pos_exact m Hz) as (m' & e & E & V & He & Hm).
    assert (of_Z (Zneg m) = SFopp (of_Z (Zpos m))) as ->.
    { unfold of_Z, binary_normalize, binary_round in *.
      destruct (shl_align m 0 _) as [mz ez]. unfold binary_round_aux in *.
      destruct (shr_fexp _ _ (Zpos mz) ez loc_Exact) as [r1 e1].
      destruct (shr_fexp _ _ _ e1 loc_Exact) as [r2 e2].
      destruct (shr_m r2) as [|p|p]; try done. destruct (e2 <=? _); done. }
    rewrite E in V |- *. cbn [SFopp negb]. split; [done|]. split; [done|].
    cbn [sval cond_Zopp]. rewrite Hm.
    apply valid_finite in V as (? & _ & _).
    rewrite <-Z.mul_assoc, <-Z.pow_add_r by lia. replace (- e + (e + 1074)) with 1074 by lia. lia.
Qed.

Lemma sval_inj x y :
  valid x = true → valid y = true → is_finite x = true → is_finite y = true →
  sval x ≠ 0 → sval x = sval y → x = y.
Proof.
  intros Vx Vy Fx Fy Hnz E. pose proof (compare_sval x y Vx Vy Fx Fy) as Hc.
  rewrite E, Z.compare_refl in Hc.
  destruct x as [sx|sx| |sx mx ex], y as [sy|sy| |sy my ey]; try done; try (by destruct Hnz);
    simpl in Hc; simplify_eq.
  assert (∀ a b, Pos.compare_cont Eq a b = Eq → a = b) as Hpc
    by (intros a b Hab; by apply Pos.compare_eq).
  destruct sx, sy; simplify_eq; destruct (Z.compare_spec ex ey); simplify_eq; f_equal.
  - apply Hpc. by destruct (Pos.compare_cont Eq mx my).
  - by apply Hpc.
Qed.

(** ** The operations yield canonical doubles *)

Lemma Zdigits2_nonneg m : 0 <= Zdigits2 m.
Proof. by destruct m. Qed.

Lemma Zdigits2_succ m : 0 <= m → Zdigits2 m <= Zdigits2 (m + 1) <= Zdigits2 m + 1.
Proof.
  intros Hm. destruct m as [|p|p]; [done| |lia].
  replace (Zpos p + 1) with (Zpos (p + 1)) by lia. cbn [Zdigits2].
  destruct (digits2_bounds p) as [H1 H2], (digits2_bounds (p + 1)) as [H3 H4].
  set (d := Zpos (digits2_pos p)) in *. set (d' := Zpos (digits2_pos (p + 1))) in *.
  split.
  - enough (d - 1 < d') by lia. eapply Z.pow_lt_mono_r_iff with (a := 2); lia.
  - enough (d' - 1 < d + 1) by lia.
    assert (2 ^ (d + 1) = 2 * 2 ^ d) by (rewrite Z.add_1_r, Z.pow_succ_r by lia; done).
    eapply Z.pow_lt_mono_r_iff with (a := 2); lia.
Qed.

(** After a normalising shift the exponent is canonical, except that a mantissa that
    was shifted out keeps the least exponent. *)
Lemma shr_fexp_canonical m e l mrs e' :
  0 <= m → e <= fexp prec emax (Zdigits2 m + e) →
  shr_fexp prec emax m e l = (mrs, e') →
  e' = fexp prec emax (Zdigits2 m + e) ∧
  0 <= shr_m mrs ∧
  (0 < shr_m mrs → fexp prec emax (Zdigits2 (shr_m mrs) + e') = e') ∧
  (shr_m mrs = 0 → m = 0 ∨ e' = eminZ).
Proof.
  intros Hm He H. apply shr_fexp_spec in H as (Ee & Es & Hs); [|done].
  rewrite Z.max_r in Ee by done. split; [done|]. split; [done|].
  rewrite Z.shiftr_div_pow2 in Es by lia.
  pose proof (Zdigits2_nonneg m).
  assert (0 < m → e' - e < Zdigits2 m → 0 < shr_m mrs ∧ Zdigits2 (shr_m mrs) = Zdigits2 m - (e' - e)) as Hpos
    by (intros; rewrite Es; apply Zdigits2_shiftr; lia).
  destruct (Z.lt_ge_cases (e' - e) (Zdigits2 m)) as [Hlt|Hge].
  - assert (0 < m) as Hm' by (destruct m; simpl in *; lia).
    destruct (Hpos Hm' Hlt) as [? ->]. split; [|lia].
    intros _. rewrite Ee at 3. f_equal. lia.
  - assert (shr_m mrs = 0) as E0 by (rewrite Es; by apply Zdigits2_shiftr_all).
    rewrite E0. split; [lia|]. intros _. rewrite fexp_max in Ee.
    destruct (Z.eq_dec m 0); [by left|right].
    assert (0 < Zdigits2 m) by (destruct m; simpl in *; lia). lia.
Qed.

Lemma binary_round_aux_valid s m e l :
  0 <= m → e <= fexp prec emax (Zdigits2 m + e) →
  valid (binary_round_aux prec emax s m e l) = true.
Proof.
  intros Hm He. unfold binary_round_aux.
  destruct (shr_fexp prec emax m e l) as [mrs1 e1] eqn:E1.
  apply shr_fexp_canonical in E1 as (Ee1 & Hm1 & Hc1 & Hz1); [|done..].
  set (m1 := round_nearest_even _ _).
  assert (m1 = shr_m mrs1 ∨ m1 = shr_m mrs1 + 1) as Hr by apply round_nearest_even_cases.
  assert (e1 <= fexp prec emax (Zdigits2 m1 + e1)) as He1.
  { pose proof (Zdigits2_succ (shr_m mrs1) Hm1). destruct (Z.eq_dec (shr_m mrs1) 0) as [Ez|Ez].
    - destruct (Hz1 Ez) as [->| ->]; [|rewrite fexp_max; lia].
      rewrite fexp_max in *. simpl in *. pose proof (Zdigits2_nonneg m1). lia.
    - assert (fexp prec emax (Zdigits2 (shr_m mrs1) + e1) = e1) as Hf by (apply Hc1; lia).
      rewrite fexp_max in *. destruct Hr as [-> | ->]; lia. }
  destruct (shr_fexp prec emax m1 e1 loc_Exact) as [mrs2 e2] eqn:E2.
  apply shr_fexp_canonical in E2 as (Ee2 & Hm2 & Hc2 & _); [|lia|done].
  destruct (shr_m mrs2) as [|p|p]; [done| |done].
  destruct (Z.leb_spec e2 (emax - prec)); [|done].
  apply valid_intro; [by apply Hc2|lia].
Qed.

Lemma binary_round_valid s m e : valid (binary_round prec emax s m e) = true.
Proof.
  unfold binary_round. destruct (shl_align m e _) as [mz ez] eqn:E.
  apply shl_align_spec in E as [He Hz]. apply binary_round_aux_valid; [done|].
  assert (Zdigits2 (Zpos mz) = Zpos (digits2_pos m) + (e - ez)) as ->.
  { cbn [Zdigits2]. destruct (digits2_bounds m) as [H1 H2]. apply digits2_unique; [lia|].
    rewrite Hz. replace (Zpos (digits2_pos m) + (e - ez) - 1) with ((Zpos (digits2_pos m) - 1) + (e - ez)) by lia.
    rewrite !Z.pow_add_r by lia.
    assert (0 < 2 ^ (e - ez)) by (apply Z.pow_pos_nonneg; lia). nia. }
  replace (Zpos (digits2_pos m) + (e - ez) + ez) with (Zpos (digits2_pos m) + e) by lia. lia.
Qed.

Lemma binary_normalize_valid z e s : valid (binary_normalize prec emax z e s) = true.
Proof. destruct z; simpl; [done|..]; apply binary_round_valid. Qed.

Lemma of_Z_valid z : valid (of_Z z) = true.
Proof. apply binary_normalize_valid. Qed.

Lemma nadd_valid x y : valid x = true → valid y = true → valid (nadd x y) = true.
Proof.
  intros Hx Hy. destruct x as [[]|[]| |sx mx ex], y as [[]|[]| |sy my ey]; try done.
  all: apply binary_normalize_valid.
Qed.

Lemma nsub_valid x y : valid x = true → valid y = true → valid (nsub x y) = true.
Proof.
  intros Hx Hy. destruct x as [[]|[]| |sx mx ex], y as [[]|[]| |sy my ey]; try done.
  all: apply binary_normalize_valid.
Qed.

Lemma digits2_mul p q :
  Zpos (digits2_pos p) + Zpos (digits2_pos q) - 1 <= Zpos (digits2_pos (p * q)).
Proof.
  destruct (digits2_bounds p) as [H1 _], (digits2_bounds q) as [H2 _], (digits2_bounds (p * q)) as [_ H3].
  set (a := Zpos (digits2_pos p)) in *. set (b := Zpos (digits2_pos q)) in *.
  set (c := Zpos (digits2_pos (p * q))) in *.
  enough (a - 1 + (b - 1) < c) by lia. eapply Z.pow_lt_mono_r_iff with (a := 2); [lia..|].
  rewrite Z.pow_add_r by lia. rewrite Pos2Z.inj_mul in H3. nia.
Qed.

Lemma nmul_valid x y : valid x = true → valid y = true → valid (nmul x y) = true.
Proof.
  intros Hx Hy. destruct x as [sx|sx| |sx mx ex], y as [sy|sy| |sy my ey]; try done.
  apply valid_finite in Hx as (? & ? & Hdx). apply valid_finite in Hy as (? & ? & Hdy).
  apply binary_round_aux_valid; [done|]. cbn [Zdigits2]. rewrite fexp_max.
  pose proof (digits2_mul mx my). lia.
Qed.

Lemma ndiv_core_digits m1 e1 m2 e2 q e' l :
  SFdiv_core_binary prec emax (Zpos m1) e1 (Zpos m2) e2 = (q, e', l) →
  0 <= q ∧ e' <= fexp prec emax (Zdigits2 q + e').
Proof.
  unfold SFdiv_core_binary. cbn [Zdigits2].
  set (d1 := Zpos (digits2_pos m1)). set (d2 := Zpos (digits2_pos m2)).
  set (ez := Z.min _ _). set (s := e1 - e2 - ez).
  assert (0 <= s) as Hs by lia.
  assert (match s with Zpos _ => Z.shiftl (Zpos m1) s | 0 => Zpos m1 | Zneg _ => 0 end
          = Zpos m1 * 2 ^ s) as ->.
  { rewrite <-Z.shiftl_mul_pow2 by done. destruct s; [done|done|lia]. }
  destruct (Z.div_eucl (Zpos m1 * 2 ^ s) (Zpos m2)) as [q' r] eqn:E. intros [= <- <- <-].
  assert (q' = Zpos m1 * 2 ^ s / Zpos m2) as Hq by (unfold Z.div; by rewrite E).
  assert (0 < 2 ^ s) by (apply Z.pow_pos_nonneg; lia).
  split; [rewrite Hq; apply Z.div_pos; lia|].
  destruct (digits2_bounds m1) as [H1 _], (digits2_bounds m2) as [_ H2]. fold d1 in H1. fold d2 in H2.
  (* the quotient has at least [d1 + s - d2] digits *)
  assert (d1 + s - d2 <= Zdigits2 q') as Hd.
  { destruct (Z.le_gt_cases (d1 + s - d2) 0) as [|Hpos]; [pose proof (Zdigits2_nonneg q'); lia|].
    assert (2 ^ (d1 + s - d2 - 1) <= q') as Hlo.
    { rewrite Hq. apply Z.div_le_lower_bound; [lia|].
      assert (2 ^ (d1 - 1) * 2 ^ s = 2 ^ d2 * 2 ^ (d1 + s - d2 - 1)) as Hp
        by (rewrite <-!Z.pow_add_r by lia; f_equal; lia).
      assert (0 < 2 ^ (d1 + s - d2 - 1)) by (apply Z.pow_pos_nonneg; lia). nia. }
    assert (0 < 2 ^ (d1 + s - d2 - 1)) by (apply Z.pow_pos_nonneg; lia).
    destruct q' as [|p|p]; try lia. cbn [Zdigits2].
    destruct (digits2_bounds p) as [_ H3].
    enough (d1 + s - d2 - 1 < Zpos (digits2_pos p)) by lia.
    eapply Z.pow_lt_mono_r_iff with (a := 2); lia. }
  rewrite fexp_max in *. subst ez s. rewrite fexp_max in *. lia.
Qed.

Lemma ndiv_valid x y : valid x = true → valid y = true → valid (ndiv x y) = true.
Proof.
  intros Hx Hy. destruct x as [sx|sx| |sx mx ex], y as [sy|sy| |sy my ey]; try done.
  unfold ndiv, SFdiv. destruct (SFdiv_core_binary _ _ _ _ _ _) as [[q e'] l] eqn:E.
  apply ndiv_core_digits in E as [? ?]. by apply binary_round_aux_valid.
Qed.

Lemma of_decimal_valid m k : valid (of_decimal m k) = true.
Proof.
  destruct m as [|p]; [done|]. destruct k as [|k]; [apply of_Z_valid|].
  unfold of_decimal, ndiv, SFdiv. destruct (SFdiv_core_binary _ _ _ _ _ _) as [[q e'] l] eqn:E.
  apply ndiv_core_digits in E as [? ?]. by apply binary_round_aux_valid.
Qed.

(** A decimal fraction with few digits is not rounded to zero. *)
Lemma ndiv_core_pos m1 m2 q e' l :
  Zpos (digits2_pos m2) <= 1000 → SFdiv_core_binary prec emax (Zpos m1) 0 (Zpos m2) 0 = (q, e', l) →
  0 < q ∧ eminZ <= e'.
Proof.
  intros Hm2. unfold SFdiv_core_binary. cbn [Zdigits2].
  set (d1 := Zpos (digits2_pos m1)). set (d2 := Zpos (digits2_pos m2)). fold d2 in Hm2.
  set (ez := Z.min _ _). set (s := 0 - 0 - ez).
  assert (0 <= s) as Hs by lia.
  assert (match s with Zpos _ => Z.shiftl (Zpos m1) s | 0 => Zpos m1 | Zneg _ => 0 end
          = Zpos m1 * 2 ^ s) as ->.
  { rewrite <-Z.shiftl_mul_pow2 by done. destruct s; [done|done|lia]. }
  destruct (Z.div_eucl (Zpos m1 * 2 ^ s) (Zpos m2)) as [q' r] eqn:E. intros [= <- <- <-].
  assert (q' = Zpos m1 * 2 ^ s / Zpos m2) as -> by (unfold Z.div; by rewrite E).
  destruct (digits2_bounds m1) as [H1 _], (digits2_bounds m2) as [_ H2]. fold d1 in H1. fold d2 in H2.
  assert (0 < d1) by done. assert (ez = Z.min (Z.max (d1 - d2 - 53) eminZ) 0) as Ez
    by (subst ez; rewrite fexp_max; f_equal; f_equal; lia).
  split; [|lia]. apply Z.div_str_pos. split; [lia|].
  assert (2 ^ d2 <= 2 ^ (d1 - 1) * 2 ^ s) as Hp
    by (rewrite <-Z.pow_add_r by lia; apply Z.pow_le_mono_r; lia).
  assert (0 < 2 ^ s) by (apply Z.pow_pos_nonneg; lia). nia.
Qed.

Lemma digits2_power10 k : (0 < k)%nat → Zpos (digits2_pos (10 ^ Pos.of_nat k)) <= 4 * Z.of_nat k.
Proof.
  intros Hk. destruct (digits2_bounds (10 ^ Pos.of_nat k)) as [H1 _].
  rewrite Pos2Z.inj_pow in H1.
  replace (Zpos (Pos.of_nat k)) with (Z.of_nat k) in H1 by lia.
  assert (10 ^ Z.of_nat k < 2 ^ (4 * Z.of_nat k)) as H2.
  { rewrite Z.pow_mul_r by lia. change (2 ^ 4) with 16. apply Z.pow_lt_mono_l; lia. }
  enough (Zpos (digits2_pos (10 ^ Pos.of_nat k)) - 1 < 4 * Z.of_nat k) by lia.
  apply (Z.pow_lt_mono_r_iff 2); lia.
Qed.

Lemma of_decimal_zero m k : (k <= 100)%nat → neqb (of_decimal m k) zero = (m =? 0)%N.
Proof.
  intros Hk. destruct m as [|p]; [done|].
  assert (∀ x, (∃ m' e', x = S754_finite false m' e' ∨ x = S754_infinity false) → neqb x zero = false) as Hx
    by (intros x (m' & e' & [-> | ->]); done).
  destruct k as [|k].
  - apply Hx. unfold of_decimal, of_Z. by apply (binary_round_pos false p 0).
  - apply Hx. unfold of_decimal, ndiv, SFdiv.
    destruct (SFdiv_core_binary _ _ _ _ _ _) as [[q e'] l] eqn:E.
    pose proof (digits2_power10 (S k) ltac:(lia)).
    apply ndiv_core_pos in E as [? ?]; [|lia]. by apply binary_round_aux_pos.
Qed.

#[export] Hint Resolve of_Z_valid nadd_valid nsub_valid nmul_valid ndiv_valid of_decimal_valid : webui.

(** ** Order *)

Lemma nltb_sval x y :
  valid x = true → valid y = true → is_finite x = true → is_finite y = true →
  nltb x y = (sval x <? sval y).
Proof.
  intros. unfold nltb, SFltb. rewrite compare_sval by done.
  unfold Z.ltb. by destruct (sval x ?= sval y).
Qed.

Lemma nleb_sval x y :
  valid x = true → valid y = true → is_finite x = true → is_finite y = true →
  nleb x y = (sval x <=? sval y).
Proof.
  intros. unfold nleb, SFleb. rewrite compare_sval by done.
  unfold Z.leb. by destruct (sval x ?= sval y).
Qed.

Lemma neqb_sval x y :
  valid x = true → valid y = true → is_finite x = true → is_finite y = true →
  neqb x y = (sval x =? sval y).
Proof.
  intros. unfold neqb, SFeqb. rewrite compare_sval by done. rewrite Z.eqb_compare.
  by destruct (sval x ?= sval y).
Qed.

Lemma nleb_trans x y z :
  valid x = true → valid y = true → valid z = true →
  nleb x y = true → nleb y z = true → nleb x z = true.
Proof.
  intros Vx Vy Vz. destruct (is_finite x) eqn:Fx, (is_finite y) eqn:Fy, (is_finite z) eqn:Fz;
    [rewrite !nleb_sval, !Z.leb_le by done; lia|..];
    destruct x as [|[]| |], y as [|[]| |], z as [|[]| |]; done.
Qed.

Lemma nltb_of_Z a b :
  Z.abs a < 2 ^ 53 → Z.abs b < 2 ^ 53 → nltb (of_Z a) (of_Z b) = (a <? b).
Proof.
  intros Ha Hb. destruct (of_Z_exact a Ha) as (? & ? & Ea), (of_Z_exact b Hb) as (? & ? & Eb).
  rewrite nltb_sval, Ea, Eb by done.
  assert (0 < 2 ^ 1074) by (apply Z.pow_pos_nonneg; lia).
  destruct (Z.ltb_spec a b); [apply Z.ltb_lt|apply Z.ltb_ge]; nia.
Qed.

Lemma nleb_of_Z a b :
  Z.abs a < 2 ^ 53 → Z.abs b < 2 ^ 53 → nleb (of_Z a) (of_Z b) = (a <=? b).
Proof.
  intros Ha Hb. destruct (of_Z_exact a Ha) as (? & ? & Ea), (of_Z_exact b Hb) as (? & ? & Eb).
  rewrite nleb_sval, Ea, Eb by done.
  assert (0 < 2 ^ 1074) by (apply Z.pow_pos_nonneg; lia).
  destruct (Z.leb_spec a b); [apply Z.leb_le|apply Z.leb_gt]; nia.
Qed.

Lemma of_Z_inj a b : Z.abs a < 2 ^ 53 → Z.abs b < 2 ^ 53 → of_Z a = of_Z b → a = b.
Proof.
  intros Ha Hb E. destruct (of_Z_exact a Ha) as (_ & _ & Ea), (of_Z_exact b Hb) as (_ & _ & Eb).
  rewrite E, Eb in Ea. assert (0 < 2 ^ 1074) by (apply Z.pow_pos_nonneg; lia). nia.
Qed.

(** Between two finite bounds there are only finite doubles. *)
Lemma between_finite a b x :
  is_finite a = true → is_finite b = true → nleb a x = true → nleb x b = true →
  is_finite x = true.
Proof. destruct a as [|[]| |], b as [|[]| |], x as [|[]| |]; try done. Qed.

(** The exact value of a finite double with a negative exponent. *)
Lemma sval_neg_exp s m e :
  eminZ <= e < 0 → sval (S754_finite s m e) * 2 ^ (- e) = cond_Zopp s (Zpos m) * 2 ^ 1074.
Proof.
  intros He. cbn [sval].
  assert (2 ^ (e + 1074) * 2 ^ (- e) = 2 ^ 1074) as Hp by (rewrite <-Z.pow_add_r by lia; f_equal; lia).
  destruct s; cbn [cond_Zopp]; rewrite <-Hp; ring.
Qed.

Lemma of_Z_signed_order s z lo hi :
  Z.abs lo < 2 ^ 53 → Z.abs hi < 2 ^ 53 → lo <= z <= hi →
  nleb (of_Z lo) (of_Z_signed s z) = true ∧ nleb (of_Z_signed s z) (of_Z hi) = true.
Proof.
  intros Hlo Hhi Hz. unfold of_Z_signed. destruct z as [|p|p].
  - assert (∀ x, nleb x (S754_zero true) = nleb x (of_Z 0)) as H1 by (by intros [| | |]).
    assert (∀ x, nleb (S754_zero true) x = nleb (of_Z 0) x) as H2 by (by intros [| | |]).
    destruct s; [|change zero with (of_Z 0)];
      rewrite ?H1, ?H2, !nleb_of_Z, !Z.leb_le by lia; lia.
  - rewrite !nleb_of_Z, !Z.leb_le by lia. lia.
  - rewrite !nleb_of_Z, !Z.leb_le by lia. lia.
Qed.

(** [Math.round] and [Math.floor] do not leave an interval with integer ends. *)
Lemma nround_bounds lo hi x :
  Z.abs lo < 2 ^ 53 → Z.abs hi < 2 ^ 53 → valid x = true →
  nleb (of_Z lo) x = true → nleb x (of_Z hi) = true →
  nleb (of_Z lo) (nround x) = true ∧ nleb (nround x) (of_Z hi) = true.
Proof.
  intros Hlo Hhi Vx H1 H2.
  destruct (of_Z_exact lo Hlo) as (V1 & F1 & E1), (of_Z_exact hi Hhi) as (V2 & F2 & E2).
  assert (is_finite x = true) as Fx by (by apply (between_finite (of_Z lo) (of_Z hi))).
  destruct x as [s| | |s m e]; try done.
  unfold nround. destruct (Z.leb_spec 0 e) as [|He]; [done|].
  apply of_Z_signed_order; [done..|].
  pose proof (valid_finite _ _ _ Vx) as ([He0 _] & _ & _).
  rewrite nleb_sval, E1, Z.leb_le in H1 by done. rewrite nleb_sval, E2, Z.leb_le in H2 by done.
  pose proof (sval_neg_exp s m e ltac:(lia)) as Hs.
  set (z := cond_Zopp s (Zpos m)) in *. set (k := - e) in *.
  assert (0 < 2 ^ k) as Hk by (apply Z.pow_pos_nonneg; lia).
  assert (0 < 2 ^ 1074) as Hp by (apply Z.pow_pos_nonneg; lia).
  rewrite Z.add_1_r, Z.pow_succ_r by lia.
  assert (lo * 2 ^ k <= z <= hi * 2 ^ k) as [Hz1 Hz2] by nia.
  split; [apply Z.div_le_lower_bound; nia|].
  apply Z.lt_succ_r. apply Z.div_lt_upper_bound; nia.
Qed.

(** ** Exact products *)

Lemma iter_shr_1_exact p m :
  SpecFloat.iter_pos shr_1 p (Build_shr_record (Zpos m * 2 ^ Zpos p) false false)
  = Build_shr_record (Zpos m) false false.
Proof.
  assert (∀ q, shr_1 (Build_shr_record (Zpos q * 2) false false) = Build_shr_record (Zpos q) false false) as H1.
  { intros q. replace (Zpos q * 2) with (Zpos q~0) by lia. done. }
  assert (∀ q d, ∃ q', Zpos q * 2 ^ Zpos d = Zpos q') as Hq.
  { intros q d. exists (Pos.iter xO q d). symmetry. apply iter_xO. }
  revert m. induction p as [p IH|p IH|]; intros m; cbn [SpecFloat.iter_pos].
  - rewrite (Pos2Z.inj_xI p). replace (2 * Zpos p + 1) with (Zpos p + Zpos p + 1) by lia.
    rewrite !Z.pow_add_r by lia. destruct (Hq m p) as [q Eq]. destruct (Hq q p) as [q2 Eq2].
    rewrite !Z.mul_assoc, Eq, Eq2. change (2 ^ 1) with 2. rewrite H1, <-Eq2, IH, <-Eq. apply IH.
  - rewrite (Pos2Z.inj_xO p). replace (2 * Zpos p) with (Zpos p + Zpos p) by lia.
    rewrite Z.pow_add_r by lia. destruct (Hq m p) as [q Eq].
    rewrite Z.mul_assoc, Eq, IH, <-Eq. apply IH.
  - change (2 ^ 1) with 2. apply H1.
Qed.

Lemma digits2_shift m d :
  0 <= d → ∀ q, Zpos q = Zpos m * 2 ^ d → Zpos (digits2_pos q) = Zpos (digits2_pos m) + d.
Proof.
  intros Hd q Hq. destruct (digits2_bounds m) as [H1 H2]. apply digits2_unique; [lia|].
  rewrite Hq. replace (Zpos (digits2_pos m) + d - 1) with ((Zpos (digits2_pos m) - 1) + d) by lia.
  rewrite !Z.pow_add_r by lia. assert (0 < 2 ^ d) by (apply Z.pow_pos_nonneg; lia). nia.
Qed.

(** A value that is representable is not changed by rounding. *)
Lemma binary_round_aux_representable s q e m' e' :
  e <= e' → Zpos q = Zpos m' * 2 ^ (e' - e) → valid (S754_finite s m' e') = true →
  binary_round_aux prec emax s (Zpos q) e loc_Exact = S754_finite s m' e'.
Proof.
  intros He Hq V.
  assert (fexp prec emax (Zpos (digits2_pos m') + e') = e' ∧ e' <= 971) as [Hf Hmax].
  { unfold valid, valid_binary, bounded, canonical_mantissa in V.
    rewrite andb_true_iff, Z.eqb_eq, Z.leb_le in V. done. }
  unfold binary_round_aux, shr_fexp. cbn [Zdigits2].
  rewrite (digits2_shift m' (e' - e) ltac:(lia) q Hq).
  replace (Zpos (digits2_pos m') + (e' - e) + e) with (Zpos (digits2_pos m') + e') by lia.
  rewrite Hf.
  assert (shr (shr_record_of_loc (Zpos q) loc_Exact) e (e' - e)
          = (Build_shr_record (Zpos m') false false, e')) as ->.
  { unfold shr. cbn [shr_record_of_loc]. rewrite Hq. destruct (e' - e) as [|p|p] eqn:Ed; [| |lia].
    - f_equal; [f_equal; lia|lia].
    - rewrite iter_shr_1_exact. f_equal. lia. }
  cbn [shr_m loc_of_shr_record round_nearest_even Zdigits2]. rewrite Hf, Z.sub_diag. cbn [shr shr_m shr_record_of_loc].
  destruct (Z.leb_spec e' (emax - prec)); [done|lia].
Qed.

(** Products of integers that stay below 2^53 are exact. *)
Lemma nmul_of_Z a b :
  0 < a → 0 < b → a * b < 2 ^ 53 → nmul (of_Z a) (of_Z b) = of_Z (a * b).
Proof.
  intros Ha Hb Hab. destruct a as [|pa|], b as [|pb|]; try lia.
  destruct (of_Z_pos_exact pa ltac:(nia)) as (ma & ea & Ea & Va & Hea & Hma).
  destruct (of_Z_pos_exact pb ltac:(nia)) as (mb & eb & Eb & Vb & Heb & Hmb).
  change (Zpos pa * Zpos pb) with (Zpos (pa * pb)) in *.
  destruct (of_Z_pos_exact (pa * pb) Hab) as (mc & ec & Ec & Vc & Hec & Hmc).
  rewrite Ea, Eb, Ec in *. unfold nmul, SFmul. cbn [xorb].
  apply valid_finite in Va as (? & Hda & _). apply valid_finite in Vb as (? & Hdb & _).
  pose proof (valid_finite _ _ _ Vc) as (? & Hdc & Hdc').
  assert (Zpos (ma * mb) = Zpos (pa * pb) * 2 ^ (- (ea + eb))) as Hm.
  { rewrite !Pos2Z.inj_mul, Hma, Hmb. replace (- (ea + eb)) with (- ea + - eb) by lia.
    rewrite Z.pow_add_r by lia. ring. }
  assert (ea + eb <= ec) as Hle.
  { destruct (Z.le_gt_cases (ea + eb) ec); [done|].
    (* the exact product would have fewer than 53 digits at a larger exponent *)
    assert (Zpos mc = Zpos (ma * mb) * 2 ^ (ea + eb - ec)) as E.
    { rewrite Hm, Hmc, <-Z.mul_assoc, <-Z.pow_add_r by lia. f_equal. f_equal. lia. }
    pose proof (digits2_shift (ma * mb) (ea + eb - ec) ltac:(lia) mc E).
    pose proof (digits2_mul ma mb).
    pose proof (digits2_shift pa (- ea) ltac:(lia) ma Hma).
    pose proof (digits2_shift pb (- eb) ltac:(lia) mb Hmb).
    pose proof (digits2_shift (pa * pb) (- ec) ltac:(lia) mc Hmc).
    destruct (of_Z_pos_exact pa ltac:(nia)) as (ma' & ea' & Ea' & Va' & _).
    rewrite Ea in Ea'. injection Ea' as <- <-. rewrite Ea in Va'.
    apply valid_finite in Va' as (_ & _ & Hd53). lia. }
  apply binary_round_aux_representable; [done| |done].
  rewrite Hm, Hmc, <-Z.mul_assoc, <-Z.pow_add_r by lia. f_equal. f_equal. lia.
Qed.

(** ** Integral doubles and their strings *)

Lemma to_integer_of_Z z : Z.abs z < 2 ^ 53 → to_integer (of_Z z) = Some z.
Proof.
  intros Hz. destruct z as [|p|p]; [done|..].
  - destruct (of_Z_pos_exact p Hz) as (m & e & -> & _ & He & Hm). cbn [to_integer cond_Zopp].
    destruct (Z.leb_spec 0 e) as [H0|H0].
    + assert (e = 0) as -> by lia. f_equal. simpl in Hm. lia.
    + assert (2 ^ (- e) ≠ 0) by (apply Z.pow_nonzero; lia).
      rewrite Hm, Z.mod_mul, Z.div_mul by done. done.
  - destruct (of_Z_pos_exact p Hz) as (m & e & E & V & He & Hm).
    destruct (of_Z_exact (Zneg p) ltac:(simpl; lia)) as (V' & F' & S').
    assert (of_Z (Zneg p) = S754_finite true m e) as ->.
    { apply sval_inj; try done; [by rewrite E in V| |].
      - rewrite S'. assert (0 < 2 ^ 1074) by (apply Z.pow_pos_nonneg; lia). lia.
      - rewrite S'. cbn [sval cond_Zopp]. rewrite Hm. rewrite E in V. apply valid_finite in V as (? & _ & _).
        rewrite <-Z.mul_assoc, <-Z.pow_add_r by lia. replace (- e + (e + 1074)) with 1074 by lia. lia. }
    cbn [to_integer cond_Zopp]. destruct (Z.leb_spec 0 e) as [H0|H0].
    + assert (e = 0) as -> by lia. f_equal. simpl in Hm. lia.
    + assert (2 ^ (- e) ≠ 0) by (apply Z.pow_nonzero; lia).
      rewrite Hm, Z.mod_mul, Z.div_mul by done. done.
Qed.

Lemma toString_integer x z : to_integer x = Some z → Z.abs z <= 2 ^ 53 → toString x = dec_Z z.
Proof.
  intros E Hz. destruct x as [s|s| |s m e]; try done.
  - by injection E as <-.
  - unfold toString. rewrite E. destruct (Z.leb_spec (Z.abs z) (2 ^ 53)); [done|lia].
Qed.

Lemma toString_of_Z z : Z.abs z < 2 ^ 53 → toString (of_Z z) = dec_Z z.
Proof. intros Hz. apply toString_integer; [by apply to_integer_of_Z|lia]. Qed.

(** [Math.round] of a number between two integers is an integer between them. *)
Lemma nround_integer lo hi x :
  Z.abs lo < 2 ^ 53 → Z.abs hi < 2 ^ 53 → valid x = true →
  nleb (of_Z lo) x = true → nleb x (of_Z hi) = true →
  ∃ z, lo <= z <= hi ∧ to_integer (nround x) = Some z.
Proof.
  intros Hlo Hhi Vx H1 H2.
  destruct (of_Z_exact lo Hlo) as (V1 & F1 & E1), (of_Z_exact hi Hhi) as (V2 & F2 & E2).
  assert (is_finite x = true) as Fx by (by apply (between_finite (of_Z lo) (of_Z hi))).
  assert (0 < 2 ^ 1074) as Hp by (apply Z.pow_pos_nonneg; lia).
  rewrite nleb_sval, E1, Z.leb_le in H1 by done. rewrite nleb_sval, E2, Z.leb_le in H2 by done.
  destruct x as [s| | |s m e]; try done.
  { exists 0. simpl in *. split; [nia|done]. }
  unfold nround. pose proof (valid_finite _ _ _ Vx) as ([He0 _] & _ & _).
  destruct (Z.leb_spec 0 e) as [He|He].
  - exists (cond_Zopp s (Zpos m * 2 ^ e)). split.
    + cbn [sval] in *. rewrite Z.pow_add_r in * by lia. destruct s; cbn [cond_Zopp] in *; nia.
    + cbn [to_integer]. destruct (Z.leb_spec 0 e); [done|lia].
  - pose proof (sval_neg_exp s m e ltac:(lia)) as Hs.
    set (z := cond_Zopp s (Zpos m)) in *. set (k := - e) in *.
    assert (0 < 2 ^ k) as Hk by (apply Z.pow_pos_nonneg; lia).
    rewrite Z.add_1_r, Z.pow_succ_r by lia.
    assert (lo * 2 ^ k <= z <= hi * 2 ^ k) as [Hz1 Hz2] by nia.
    set (r := (2 * z + 2 ^ k) / (2 * 2 ^ k)).
    assert (lo <= r) by (apply Z.div_le_lower_bound; nia).
    assert (r <= hi) by (apply Z.lt_succ_r, Z.div_lt_upper_bound; nia).
    exists r. split; [lia|]. unfold of_Z_signed.
    destruct r as [|p|p] eqn:Er; [done|..]; apply to_integer_of_Z; lia.
Qed.

(** ** Division keeps the sign *)

Lemma binary_round_aux_sign s m e l :
  0 <= m → nleb zero (binary_round_aux prec emax false m e l) = true ∧
           binary_round_aux prec emax s m e l ≠ S754_nan.
Proof.
  intros Hm. unfold binary_round_aux.
  destruct (shr_fexp prec emax m e l) as [mrs1 e1] eqn:E1. apply shr_fexp_spec in E1 as (_ & _ & H1); [|done].
  set (m1 := round_nearest_even _ _).
  assert (0 <= m1) as Hm1 by (destruct (round_nearest_even_cases (shr_m mrs1) (loc_of_shr_record mrs1)); lia).
  destruct (shr_fexp prec emax m1 e1 loc_Exact) as [mrs2 e2] eqn:E2. apply shr_fexp_spec in E2 as (_ & _ & H2); [|done].
  destruct (shr_m mrs2) as [|p|p]; [done| |lia]. by destruct (e2 <=? _).
Qed.

Lemma ndiv_nonneg x y :
  nleb zero x = true → nltb zero y = true → is_finite y = true → nleb zero (ndiv x y) = true.
Proof.
  intros Hx Hy Fy. destruct x as [sx|[]| |[] mx ex], y as [sy|sy| |[] my ey]; try done.
  unfold ndiv, SFdiv. destruct (SFdiv_core_binary _ _ _ _ _ _) as [[q e'] l] eqn:E.
  apply ndiv_core_digits in E as [Hq _]. cbn [xorb]. by apply (binary_round_aux_sign false).
Qed.

(** ** [toFixed] *)

Lemma fixed_int_bounds m e f b :
  valid (S754_finite false m e) = true → 0 <= b < 2 ^ 53 →
  nleb (S754_finite false m e) (of_Z b) = true → 0 <= fixed_int m e f <= b * 10 ^ Z.of_nat f.
Proof.
  intros V Hb Hle. destruct (of_Z_exact b ltac:(lia)) as (Vb & Fb & Eb).
  rewrite nleb_sval, Eb, Z.leb_le in Hle by done. unfold fixed_int.
  assert (0 < 10 ^ Z.of_nat f) by (apply Z.pow_pos_nonneg; lia).
  assert (0 < 2 ^ 1074) as Hp by (apply Z.pow_pos_nonneg; lia).
  pose proof (valid_finite _ _ _ V) as ([He0 _] & _ & _).
  destruct (Z.leb_spec 0 e) as [He|He].
  - cbn [sval cond_Zopp] in Hle. rewrite Z.pow_add_r in Hle by lia.
    assert (0 < 2 ^ e) by (apply Z.pow_pos_nonneg; lia).
    assert (Zpos m * 2 ^ e <= b) by nia. nia.
  - pose proof (sval_neg_exp false m e ltac:(lia)) as Hs. cbn [cond_Zopp] in Hs. set (k := - e) in *.
    assert (0 < 2 ^ k) as Hk by (apply Z.pow_pos_nonneg; lia).
    assert (Zpos m <= b * 2 ^ k) as Hm by nia.
    rewrite Z.add_1_r, Z.pow_succ_r by lia. split; [apply Z.div_pos; nia|].
    apply Z.lt_succ_r, Z.div_lt_upper_bound; nia.
Qed.

(** ** [Math.round] and [Math.max] *)

Lemma nltb_false_nleb x y :
  is_nan x = false → is_nan y = false → nltb x y = false → nleb y x = true.
Proof.
  unfold nltb, nleb, SFltb, SFleb.
  destruct x as [[]|[]| |[] m1 e1], y as [[]|[]| |[] m2 e2]; try done; intros _ _; cbn [SFcompare].
  all: rewrite (Z.compare_antisym e2 e1); destruct (e2 ?= e1)%Z; cbn [CompOpp]; try done.
  all: change (Pos.compare_cont Eq m1 m2) with (m1 ?= m2)%positive;
       change (Pos.compare_cont Eq m2 m1) with (m2 ?= m1)%positive;
       rewrite (Pos.compare_antisym m1 m2); by destruct (m1 ?= m2)%positive.
Qed.

Lemma of_Z_not_nan z : is_nan (of_Z z) = false.
Proof. by apply (binary_normalize_sign z 0). Qed.

Lemma nround_not_nan x : is_nan x = false → is_nan (nround x) = false.
Proof.
  destruct x as [| | |s m e]; try done. intros _. unfold nround. case_match; [done|].
  unfold of_Z_signed. case_match; [done|apply of_Z_not_nan..].
Qed.

Lemma nmax_ge x y : is_nan x = false → is_nan y = false → nleb y (nmax x y) = true.
Proof.
  intros Hx Hy. unfold nmax. rewrite Hx, Hy. cbn [orb].
  assert (nleb y y = true) as Hyy.
  { apply nltb_false_nleb; try done. unfold nltb, SFltb. destruct y as [[]|[]| |[] m e]; try done; cbn [SFcompare];
      rewrite Z.compare_refl, Pos.compare_cont_refl; done. }
  destruct (nltb x y) eqn:E; [done|].
  destruct (neqb x y) eqn:Eq; [|by apply nltb_false_nleb].
  destruct x as [[]|[]| |[] m e]; try done; by apply nltb_false_nleb.
Qed.
