(* ===== verification/Rounding.v ===== *)
(** * The error of the arithmetic on doubles

    Where the result is a normal number, a sum, a difference or a quotient of positive
    doubles is within one unit in the last place of the exact one, and a square root is at
    least 1 when its argument is. *)

From S2P Require Import Prelude JsString JsNumber JsNumberFacts.
Local Open Scope Z_scope.

(** The exact value of 1. *)
Abbreviation unit_ := (2 ^ 1074).

Lemma unit_pos : 0 < unit_.
Proof. apply Z.pow_pos_nonneg; lia. Qed.

(** [a] is [b] up to a relative error of [2^-52]. *)
Definition close (a b : Z) : Prop := a * (2 ^ 52 - 1) <= 2 ^ 52 * b ∧ 2 ^ 52 * b <= a * (2 ^ 52 + 1).

Lemma close_intro r0 r p v :
  2 ^ 52 <= r0 → r0 <= r <= r0 + 1 → 0 < p → r0 * p <= v <= (r0 + 1) * p → close (r * p) v.
Proof.
  unfold close. set (c := 2 ^ 52). assert (0 < c) by done. clearbody c. intros Hc Hr Hp [Hl Hu]. split.
  - assert ((r - 1) * p <= v) by nia. assert (r * (c - 1) <= c * (r - 1)) by nia. nia.
  - assert (v <= (r + 1) * p) by nia. assert (c * (r + 1) <= r * (c + 1)) by nia. nia.
Qed.

Lemma digits_bounds r : 0 < r → 2 ^ (Zdigits2 r - 1) <= r < 2 ^ Zdigits2 r.
Proof. destruct r as [|p|p]; [lia| |lia]. intros _. apply digits2_bounds. Qed.

Lemma digits_pos r : 0 < r → 0 < Zdigits2 r.
Proof. by destruct r. Qed.

(** Rounding a mantissa with enough digits to a normal number takes one of its two neighbours. *)
Lemma round_faithful m e l :
  0 < m → e <= Zdigits2 m + e - 53 → eminZ < Zdigits2 m + e - 53 <= 970 →
  let E := Zdigits2 m + e - 53 in
  let x := binary_round_aux prec emax false m e l in
  2 ^ 52 <= m / 2 ^ (E - e) ∧ valid x = true ∧ is_finite x = true ∧
  ∃ r, m / 2 ^ (E - e) <= r <= m / 2 ^ (E - e) + 1 ∧ sval x = r * 2 ^ (E + 1074).
Proof.
  intros Hm He HE E x. assert (fexp prec emax (Zdigits2 m + e) = E) as HfE by (rewrite fexp_max; lia).
  destruct (Zdigits2_shiftr m (E - e) Hm) as [Hr0 Hd]; [lia|]. set (r0 := m / 2 ^ (E - e)) in *.
  pose proof (digits_bounds r0 Hr0) as Hb. replace (Zdigits2 r0) with 53 in Hb by lia.
  split; [exact (proj1 Hb)|]. split; [apply binary_round_aux_valid; lia|].
  unfold x, binary_round_aux. destruct (shr_fexp prec emax m e l) as [mrs1 e1] eqn:E1.
  apply shr_fexp_spec in E1 as (Ee1 & Em1 & _); [|lia]. rewrite HfE, Z.max_r in Ee1 by lia. subst e1.
  rewrite Z.shiftr_div_pow2 in Em1 by lia. fold r0 in Em1.
  pose proof (round_nearest_even_cases (shr_m mrs1) (loc_of_shr_record mrs1)) as Hr.
  set (r := round_nearest_even _ _) in *. rewrite Em1 in Hr.
  destruct (shr_fexp prec emax r E loc_Exact) as [mrs2 e2] eqn:E2. apply shr_fexp_spec in E2 as (Ee2 & Em2 & _); [|lia].
  assert (e2 = E ∧ shr_m mrs2 = r ∨ e2 = E + 1 ∧ shr_m mrs2 * 2 = r) as Hcase.
  { rewrite fexp_max in Ee2. pose proof (Zdigits2_succ r0 ltac:(lia)) as Hs.
    assert (Zdigits2 r = 53 ∨ Zdigits2 r = 54) as [D|D] by (destruct Hr as [-> | ->]; lia); rewrite D in Ee2.
    - left. assert (e2 = E) as -> by lia. split; [done|]. by rewrite Em2, Z.sub_diag, Z.shiftr_0_r.
    - right. assert (e2 = E + 1) as -> by lia. split; [done|].
      pose proof (digits_bounds r ltac:(lia)) as Hb2. rewrite D in Hb2.
      assert (r = 2 ^ 53) as -> by (change (2 ^ 53) with (2 ^ (54 - 1)) in *; lia).
      rewrite Em2. replace (E + 1 - E) with 1 by lia. done. }
  assert (0 < r) as Hr1 by lia.
  destruct (shr_m mrs2) as [|p|p]; [lia| |lia]. destruct (Z.leb_spec e2 (emax - prec)); [|lia].
  split; [done|]. exists r. split; [lia|]. cbn [sval cond_Zopp]. destruct Hcase as [[-> Hc]|[-> Hc]]; rewrite <-Hc; [done|].
  replace (E + 1 + 1074) with (1 + (E + 1074)) by lia. rewrite Z.pow_add_r by lia. lia.
Qed.

(** ** Sums and differences *)

Lemma normalize_close p e :
  let v := Zpos p * 2 ^ (e + 1074) in
  eminZ <= e → 2 ^ 54 <= v < 2 ^ 2040 →
  let x := binary_normalize prec emax (Zpos p) e false in
  valid x = true ∧ is_finite x = true ∧ close (sval x) v.
Proof.
  intros v He Hv x. set (d := Zpos (digits2_pos p)). pose proof (digits2_bounds p) as [Hp1 Hp2]. fold d in Hp1, Hp2.
  assert (0 < 2 ^ (e + 1074)) as Hpe by (apply Z.pow_pos_nonneg; lia).
  assert (54 < d + (e + 1074)) as Hlo.
  { eapply Z.pow_lt_mono_r_iff with (a := 2); [lia..|]. rewrite Z.pow_add_r by lia. unfold v in Hv. nia. }
  assert (d - 1 + (e + 1074) < 2040) as Hhi.
  { eapply Z.pow_lt_mono_r_iff with (a := 2); [lia..|]. rewrite Z.pow_add_r by lia. unfold v in Hv. nia. }
  unfold x. cbn [binary_normalize]. unfold binary_round. fold d. rewrite fexp_max.
  destruct (shl_align p e _) as [mz ez] eqn:E. apply shl_align_spec in E as [Eez Emz].
  assert (Zdigits2 (Zpos mz) = d + (e - ez)) as Hd by (cbn [Zdigits2]; apply digits2_shift; [lia|done]).
  destruct (round_faithful (Zpos mz) ez loc_Exact) as (Hr0 & V & F & r & Hr & Es); [lia..|].
  split; [done|]. split; [done|]. rewrite Hd in *. replace (d + (e - ez) + ez - 53) with (d + e - 53) in * by lia.
  set (E := d + e - 53) in *. rewrite Es. eapply close_intro; [exact Hr0|exact Hr|apply Z.pow_pos_nonneg; lia|].
  assert (v = Zpos mz * 2 ^ (ez + 1074)) as ->.
  { unfold v. rewrite Emz, <-Z.mul_assoc, <-Z.pow_add_r by lia. do 2 f_equal. lia. }
  assert (2 ^ (E + 1074) = 2 ^ (E - ez) * 2 ^ (ez + 1074)) as -> by (rewrite <-Z.pow_add_r by lia; f_equal; lia).
  assert (0 < 2 ^ (E - ez)) as H1 by (apply Z.pow_pos_nonneg; lia).
  assert (0 < 2 ^ (ez + 1074)) as H2 by (apply Z.pow_pos_nonneg; lia).
  pose proof (Z.div_mod (Zpos mz) (2 ^ (E - ez)) ltac:(lia)) as Hdm.
  pose proof (Z.mod_pos_bound (Zpos mz) (2 ^ (E - ez)) H1) as Hmod. clear -H1 H2 Hdm Hmod. nia.
Qed.

Lemma close_refl a : 0 <= a → close a a.
Proof. unfold close. lia. Qed.

(** A positive difference. *)
Lemma nsub_close x y :
  valid x = true → valid y = true → is_finite x = true → is_finite y = true →
  2 ^ 54 <= sval x - sval y < 2 ^ 2040 →
  valid (nsub x y) = true ∧ is_finite (nsub x y) = true ∧ close (sval (nsub x y)) (sval x - sval y).
Proof.
  intros Vx Vy Fx Fy Hv. destruct x as [sx|sx| |sx mx ex], y as [sy|sy| |sy my ey]; try done.
  - cbn [sval] in Hv. lia.
  - split; [exact Vy|]. split; [done|]. assert (sval (nsub (S754_zero sx) (S754_finite sy my ey)) = - sval (S754_finite sy my ey)) as ->
      by (unfold nsub; cbn [SFsub sval]; by destruct sy; cbn [negb cond_Zopp]; rewrite ?Z.opp_involutive).
    cbn [sval] in *. apply close_refl. lia.
  - split; [exact Vx|]. split; [done|]. unfold nsub. cbn [SFsub]. change (sval (S754_zero sy)) with 0 in *. rewrite Z.sub_0_r in *.
    apply close_refl. lia.
  - unfold nsub. cbn [SFsub]. set (ez := Z.min ex ey).
    pose proof (valid_finite _ _ _ Vx) as (? & _ & _). pose proof (valid_finite _ _ _ Vy) as (? & _ & _).
    revert Hv. cbn [sval]. rewrite (aligned_value sx mx ex ez), (aligned_value sy my ey ez) by lia.
    set (a := cond_Zopp sx _). set (b := cond_Zopp sy _). rewrite <-Z.mul_sub_distr_r. intros Hv.
    assert (0 < 2 ^ (ez + 1074)) as Hp by (apply Z.pow_pos_nonneg; lia).
    destruct (a - b) as [|p|p]; [lia| |nia]. apply normalize_close; [lia|done].
Qed.

(** A sum of positive numbers. *)
Lemma nadd_close x y :
  valid x = true → valid y = true → is_finite x = true → is_finite y = true →
  0 < sval x → 0 < sval y → 2 ^ 54 <= sval x + sval y < 2 ^ 2040 →
  valid (nadd x y) = true ∧ is_finite (nadd x y) = true ∧ close (sval (nadd x y)) (sval x + sval y).
Proof.
  intros Vx Vy Fx Fy Px Py Hv. destruct x as [sx|sx| |sx mx ex], y as [sy|sy| |sy my ey]; try done.
  unfold nadd. cbn [SFadd]. set (ez := Z.min ex ey).
  pose proof (valid_finite _ _ _ Vx) as (? & _ & _). pose proof (valid_finite _ _ _ Vy) as (? & _ & _).
  revert Hv. cbn [sval]. rewrite (aligned_value sx mx ex ez), (aligned_value sy my ey ez) by lia.
  set (a := cond_Zopp sx _). set (b := cond_Zopp sy _). rewrite <-Z.mul_add_distr_r. intros Hv.
  assert (0 < 2 ^ (ez + 1074)) as Hp by (apply Z.pow_pos_nonneg; lia).
  destruct (a + b) as [|p|p]; [lia| |nia]. apply normalize_close; [lia|done].
Qed.

(** ** Quotients *)

Lemma div_core_spec m1 e1 m2 e2 q e' l :
  SFdiv_core_binary prec emax (Zpos m1) e1 (Zpos m2) e2 = (q, e', l) →
  e' = Z.min (Z.max (Zpos (digits2_pos m1) + e1 - (Zpos (digits2_pos m2) + e2) - 53) eminZ) (e1 - e2) ∧
  q = Zpos m1 * 2 ^ (e1 - e2 - e') / Zpos m2.
Proof.
  unfold SFdiv_core_binary. cbn [Zdigits2]. rewrite fexp_max. set (ez := Z.min _ _). set (s := e1 - e2 - ez).
  assert (match s with Zpos _ => Z.shiftl (Zpos m1) s | 0 => Zpos m1 | Zneg _ => 0 end = Zpos m1 * 2 ^ s) as ->
    by (rewrite <-Z.shiftl_mul_pow2 by lia; destruct s eqn:?; [done|done|lia]).
  destruct (Z.div_eucl (Zpos m1 * 2 ^ s) (Zpos m2)) as [q' r] eqn:E. intros [= <- <- <-]. split; [done|].
  unfold Z.div. fold s. by rewrite E.
Qed.

(** [a * 2^k] for a [k] given as a sum. *)
Lemma pow_split a b c : 0 <= a → 0 <= b → c = a + b → 2 ^ c = 2 ^ a * 2 ^ b.
Proof. intros ? ? ->. by apply Z.pow_add_r. Qed.

(** The quotient of two positive doubles; [2^1074] is the scale of [sval]. *)
Lemma ndiv_close x y :
  valid x = true → valid y = true → is_finite x = true → is_finite y = true → 0 < sval x → 0 < sval y →
  sval y * 2 ^ 54 <= sval x * unit_ < sval y * 2 ^ 2040 →
  valid (ndiv x y) = true ∧ is_finite (ndiv x y) = true ∧ close (sval (ndiv x y) * sval y) (sval x * unit_).
Proof.
  intros Vx Vy Fx Fy Px Py [Hlo Hhi]. destruct x as [sx|sx| |sx m1 e1], y as [sy|sy| |sy m2 e2]; try done.
  destruct sx, sy; try (cbn [sval cond_Zopp] in *; lia).
  unfold ndiv, SFdiv. cbn [xorb]. destruct (SFdiv_core_binary _ _ _ _ _ _) as [[q e'] l] eqn:E.
  pose proof (ndiv_core_digits _ _ _ _ _ _ _ E) as [Hq0 Hdig]. apply div_core_spec in E as [Ee' Eq].
  pose proof (valid_finite _ _ _ Vx) as ([? _] & _ & _). pose proof (valid_finite _ _ _ Vy) as ([? _] & _ & _).
  cbn [sval cond_Zopp] in *. rewrite fexp_max in Hdig.
  set (s := e1 - e2 - e') in *. set (w := e' + e2 + 2148). assert (0 <= s ∧ 0 <= w) as [Hs Hw] by lia.
  set (X := Zpos m1 * 2 ^ s) in *. assert (0 < 2 ^ w) as Hpw by (apply Z.pow_pos_nonneg; lia).
  assert (Zpos m1 * 2 ^ (e1 + 1074) * unit_ = X * 2 ^ w) as EX.
  { unfold X. rewrite <-!Z.mul_assoc, <-!Z.pow_add_r by lia. do 2 f_equal. lia. }
  rewrite EX in *. clear EX.
  pose proof (Z.div_mod X (Zpos m2) ltac:(lia)) as Hdm. pose proof (Z.mod_pos_bound X (Zpos m2) ltac:(lia)) as Hmod.
  rewrite <-Eq in Hdm.
  set (d := Zdigits2 q) in *. assert (0 <= d) as Hd0 by apply Zdigits2_nonneg.
  assert (q < 2 ^ d) as Hqd by (destruct q as [|p|p]; [done|apply (digits2_bounds p)|lia]).
  assert (e2 + 1128 < d + w) as Hd1.
  { apply (Z.pow_lt_mono_r_iff 2); [lia..|]. rewrite (pow_split d w (d + w)) by lia.
    rewrite (pow_split (e2 + 1074) 54 (e2 + 1128)) by lia. apply (Z.mul_lt_mono_pos_l (Zpos m2)); [lia|].
    assert (X < Zpos m2 * 2 ^ d) as HX by (clear -Hdm Hmod Hqd; nia).
    apply (Z.mul_lt_mono_pos_r (2 ^ w)) in HX; [|done]. lia. }
  assert (0 < q) as Hq1.
  { destruct (Z.eq_dec q 0) as [E0|]; [|lia]. exfalso. unfold d in *. rewrite E0 in *. cbn [Zdigits2] in *. lia. }
  pose proof (digits_bounds q Hq1) as [Hq2 _]. fold d in Hq2. pose proof (digits_pos q Hq1) as Hd2. fold d in Hd2.
  assert (d - 1 + w < e2 + 3114) as Hd3.
  { apply (Z.pow_lt_mono_r_iff 2); [lia..|]. rewrite (pow_split (d - 1) w (d - 1 + w)) by lia.
    rewrite (pow_split (e2 + 1074) 2040 (e2 + 3114)) by lia. apply (Z.mul_lt_mono_pos_l (Zpos m2)); [lia|].
    assert (Zpos m2 * 2 ^ (d - 1) <= X) as HX by (clear -Hdm Hmod Hq2; nia).
    apply (Z.mul_le_mono_nonneg_r _ _ (2 ^ w)) in HX; [|lia]. lia. }
  destruct (round_faithful q e' l) as (Hr0 & V & F & r & Hr & Es); [lia..|]. fold d in Hr0, Hr, Es.
  split; [done|]. split; [done|]. set (E := d + e' - 53) in *. rewrite Es.
  set (k := E - e') in *. assert (0 <= k) as Hk by lia. assert (0 < 2 ^ k) as Hpk by (apply Z.pow_pos_nonneg; lia).
  assert (r * 2 ^ (E + 1074) * (Zpos m2 * 2 ^ (e2 + 1074)) = r * (Zpos m2 * 2 ^ k * 2 ^ w)) as ->.
  { rewrite <-!Z.mul_assoc, <-(Z.pow_add_r 2 k w) by lia. rewrite (pow_split (E + 1074) (e2 + 1074) (k + w)) by lia. lia. }
  eapply close_intro; [exact Hr0|exact Hr|lia|].
  rewrite Eq, Z.div_div by lia. set (Y := Zpos m2 * 2 ^ k). assert (0 < Y) as HY by lia.
  pose proof (Z.div_mod X Y ltac:(lia)) as Hdm2. pose proof (Z.mod_pos_bound X Y HY) as Hmod2. clear -Hdm2 Hmod2 Hpw. nia.
Qed.

(** ** Square roots *)

Lemma nsqrt_ge_1 x :
  valid x = true → is_finite x = true → unit_ <= sval x →
  valid (nsqrt x) = true ∧ is_finite (nsqrt x) = true ∧ unit_ <= sval (nsqrt x).
Proof.
  intros V F Hx. destruct x as [s|s| |s m e]; try done. destruct s; [cbn [sval cond_Zopp] in Hx; lia|].
  cbn [sval cond_Zopp] in Hx. pose proof (valid_finite _ _ _ V) as ([He1 He2] & Hd & _).
  unfold nsqrt, SFsqrt, SFsqrt_core_binary. cbn [Zdigits2]. set (d := Zpos (digits2_pos m)) in *. rewrite fexp_max.
  rewrite !Z.div2_div. set (h := (d + e + 1) / 2). set (e' := Z.min _ _). set (s := e - 2 * e').
  pose proof (Z.div_mod (d + e + 1) 2 ltac:(lia)) as Hh1. pose proof (Z.mod_pos_bound (d + e + 1) 2 ltac:(lia)) as Hh2. fold h in Hh1.
  pose proof (Z.div_mod e 2 ltac:(lia)) as Hg1. pose proof (Z.mod_pos_bound e 2 ltac:(lia)) as Hg2.
  assert (0 <= s) as Hs by lia.
  assert (match s with Zpos _ => Z.shiftl (Zpos m) s | 0 => Zpos m | Zneg _ => 0 end = Zpos m * 2 ^ s) as ->
    by (rewrite <-Z.shiftl_mul_pow2 by lia; destruct s eqn:?; [done|done|lia]).
  set (X := Zpos m * 2 ^ s). assert (0 < 2 ^ s) as Hps by (apply Z.pow_pos_nonneg; lia). assert (0 < X) as HX by lia.
  pose proof (Z.sqrtrem_spec X ltac:(lia)) as Hsq. destruct (Z.sqrtrem X) as [q r]. destruct Hsq as [Hq Hr].
  set (l := if (r =? 0) then _ else _). assert (0 < q) as Hq1 by nia.
  pose proof (digits2_bounds m) as [Hm1 Hm2]. fold d in Hm1, Hm2.
  pose proof (digits_bounds q Hq1) as [Hq2 Hq3]. pose proof (digits_pos q Hq1) as Hq4. set (c := Zdigits2 q) in *.
  assert (d - 1 + s < 2 * c) as Ha.
  { apply (Z.pow_lt_mono_r_iff 2); [lia..|]. rewrite (pow_split (d - 1) s (d - 1 + s)), (pow_split c c (2 * c)) by lia.
    assert (2 ^ (d - 1) * 2 ^ s <= X) by (apply Z.mul_le_mono_nonneg_r; lia). clear -H Hq Hr Hq3 Hq1. nia. }
  assert (2 * (c - 1) < d + s) as Hb.
  { apply (Z.pow_lt_mono_r_iff 2); [lia..|]. rewrite (pow_split d s (d + s)), (pow_split (c - 1) (c - 1) (2 * (c - 1))) by lia.
    assert (X < 2 ^ d * 2 ^ s) by (apply Z.mul_lt_mono_pos_r; lia). clear -H Hq Hr Hq2 Hq1. nia. }
  assert (1074 < d + (e + 1074)) as Hc.
  { apply (Z.pow_lt_mono_r_iff 2); [lia..|]. rewrite Z.pow_add_r by lia. eapply Z.le_lt_trans; [exact Hx|].
    apply Z.mul_lt_mono_pos_r; [apply Z.pow_pos_nonneg; lia|done]. }
  destruct (round_faithful q e' l) as (Hr0 & V' & F' & r' & Hr' & Es); [lia..|]. fold c in Hr0, Hr', Es.
  split; [done|]. split; [done|]. rewrite Es. set (E := c + e' - 53) in *.
  destruct (Z.le_gt_cases 0 E) as [HE|HE].
  { rewrite (pow_split E 1074 (E + 1074)) by lia. assert (0 < 2 ^ E) by (apply Z.pow_pos_nonneg; lia).
    assert (0 < unit_) by (apply Z.pow_pos_nonneg; lia). assert (1 <= r' * 2 ^ E) by (clear -Hr0 Hr' H; nia). nia. }
  assert (2 ^ (- e') <= q) as Hqe.
  { apply Z.le_ngt. intros Hlt. assert (X < 2 ^ (- e') * 2 ^ (- e')) as HX2 by (clear -Hlt Hq Hr Hq1; nia).
    rewrite <-Z.pow_add_r in HX2 by lia. apply (Z.mul_lt_mono_pos_r (2 ^ (2 * e' + 1074))) in HX2; [|apply Z.pow_pos_nonneg; lia].
    revert HX2. unfold X. rewrite <-Z.mul_assoc, <-!Z.pow_add_r by lia.
    replace (s + (2 * e' + 1074)) with (e + 1074) by lia. replace (- e' + - e' + (2 * e' + 1074)) with 1074 by lia. lia. }
  assert (2 ^ (- E) <= r') as HrE.
  { etrans; [|exact (proj1 Hr')]. apply Z.div_le_lower_bound; [apply Z.pow_pos_nonneg; lia|].
    by rewrite <-Z.pow_add_r, (Z.add_comm (E - e')), Z.add_sub_assoc, Z.add_opp_diag_l by lia. }
  rewrite (pow_split (- E) (E + 1074) 1074) by lia. apply Z.mul_le_mono_nonneg_r; [apply Z.pow_nonneg; lia|done].
Qed.

(** ** [Math.floor] *)

(** The integer below a number between 0 and 2^53. *)
Lemma nfloor_integer x :
  valid x = true → is_finite x = true → 0 <= sval x < 2 ^ 53 * unit_ →
  to_integer (nfloor x) = Some (sval x / unit_).
Proof.
  intros V F Hx. assert (0 < unit_) as HU by (apply Z.pow_pos_nonneg; lia).
  destruct x as [s|s| |s m e]; try done. pose proof (valid_finite _ _ _ V) as ([He1 _] & _ & _).
  assert (0 < 2 ^ (e + 1074)) as Hp by (apply Z.pow_pos_nonneg; lia).
  destruct s; cbn [sval cond_Zopp] in *; [lia|]. unfold nfloor. destruct (Z.leb_spec 0 e) as [He|He].
  - cbn [to_integer]. destruct (Z.leb_spec 0 e); [|lia]. f_equal. cbn [cond_Zopp].
    rewrite Z.pow_add_r, Z.mul_assoc by lia. by rewrite Z.div_mul by lia.
  - cbn [cond_Zopp]. set (z := Zpos m / 2 ^ (- e)).
    assert (Zpos m * 2 ^ (e + 1074) / unit_ = z) as Ez.
    { rewrite (pow_split (- e) (e + 1074) 1074) by lia. apply Z.div_mul_cancel_r; [|lia].
      assert (0 < 2 ^ (- e)) by (apply Z.pow_pos_nonneg; lia). lia. }
    rewrite Ez. assert (0 <= z < 2 ^ 53) as Hz.
    { rewrite <-Ez. split; [apply Z.div_pos; lia|]. apply Z.div_lt_upper_bound; [done|]. lia. }
    unfold of_Z_signed. destruct z as [|p|p]; [done| |lia]. apply to_integer_of_Z. lia.
Qed.
