(* ===== verification/JsCollections.v ===== *)
(** * Arrays, maps and objects

    [Array.prototype.sort] as an interface (any conforming implementation), the
    insertion-ordered [Map] of JavaScript, and objects used as dictionaries with
    the enumeration order of [for ... in] and [Object.keys]. *)

From S2P Require Import Prelude JsString JsNumber JsNumberFacts.
From stdpp Require Import sorting.

(** ** Sorting

    ECMA-262 (23.1.3.30) leaves the algorithm open: the result is a permutation of
    the array, and it is sorted and stable when the comparator is consistent. *)

(** The comparator's verdict that [a] may stand before [b]; NaN counts as 0. *)
Definition cmp_le {A} (cmp : A → A → number) (a b : A) : Prop := ngtb (cmp a b) zero = false.
Definition cmp_eq {A} (cmp : A → A → number) (a b : A) : Prop := cmp_le cmp a b ∧ cmp_le cmp b a.

#[export] Instance cmp_le_dec {A} (cmp : A → A → number) a b : Decision (cmp_le cmp a b).
Proof. unfold cmp_le. apply _. Defined.
#[export] Instance cmp_eq_dec {A} (cmp : A → A → number) a b : Decision (cmp_eq cmp a b).
Proof. unfold cmp_eq. apply _. Defined.

(** A comparator that orders the elements of [l] consistently. *)
Record consistent {A} (cmp : A → A → number) (l : list A) : Prop := {
  consistent_sym a b : a ∈ l → b ∈ l → nltb (cmp a b) zero = ngtb (cmp b a) zero;
  consistent_trans a b c : a ∈ l → b ∈ l → c ∈ l → cmp_le cmp a b → cmp_le cmp b c → cmp_le cmp a c;
}.

Class JsSort : Type := js_sort : ∀ {A}, (A → A → number) → list A → list A.

Class JsSortLaws `{JsSort} : Prop := {
  js_sort_perm {A} (cmp : A → A → number) l : js_sort cmp l ≡ₚ l;
  js_sort_sorted {A} (cmp : A → A → number) l :
    consistent cmp l → StronglySorted (cmp_le cmp) (js_sort cmp l);
  js_sort_stable {A} (cmp : A → A → number) l a :
    consistent cmp l → a ∈ l →
    filter (cmp_eq cmp a) (js_sort cmp l) = filter (cmp_eq cmp a) l;
}.

Section sort_facts.
Context `{JsSortLaws}.
Context {A : Type}.
Implicit Types (cmp : A → A → number) (l : list A).

Lemma js_sort_elem cmp l x : x ∈ js_sort cmp l ↔ x ∈ l.
Proof. by rewrite (js_sort_perm cmp l). Qed.

Lemma js_sort_length cmp l : length (js_sort cmp l) = length l.
Proof. by rewrite (js_sort_perm cmp l). Qed.

Lemma consistent_incl cmp l1 l2 :
  (∀ x, x ∈ l2 → x ∈ l1) → consistent cmp l1 → consistent cmp l2.
Proof. intros Hs [Hsym Htr]. split; eauto. Qed.

Lemma consistent_total cmp l a b :
  consistent cmp l → a ∈ l → b ∈ l → cmp_le cmp a b ∨ cmp_le cmp b a.
Proof.
  intros Hc Ha Hb. unfold cmp_le. destruct (ngtb (cmp a b) zero) eqn:E; [|by left].
  right. rewrite <-(consistent_sym _ _ Hc b a Hb Ha) in E.
  unfold ngtb, nltb in *. destruct (cmp b a) as [[]|[]| |[]]; done.
Qed.
End sort_facts.

(** A sorted and stable arrangement is unique, so the result of sorting with a
    consistent comparator does not depend on the implementation. *)
Lemma sorted_stable_unique {A} (cmp : A → A → number) (l l1 l2 : list A) :
  (∀ a b, a ∈ l → b ∈ l → cmp_le cmp a b ∨ cmp_le cmp b a) →
  (∀ x, x ∈ l1 → x ∈ l) → l1 ≡ₚ l2 →
  StronglySorted (cmp_le cmp) l1 → StronglySorted (cmp_le cmp) l2 →
  (∀ a, a ∈ l1 → filter (cmp_eq cmp a) l1 = filter (cmp_eq cmp a) l2) →
  l1 = l2.
Proof.
  intros Htot. revert l2. induction l1 as [|a l1 IH]; intros l2 Hin Hp Hs1 Hs2 Hst.
  { by apply Permutation_nil_l in Hp. }
  destruct l2 as [|b l2]; [by apply Permutation_nil_r in Hp|].
  apply StronglySorted_cons in Hs1 as [Ha Hs1]. apply StronglySorted_cons in Hs2 as [Hb Hs2].
  rewrite Forall_forall in Ha, Hb.
  assert (cmp_le cmp a a) as Haa by (destruct (Htot a a); set_solver).
  assert (a = b) as ->.
  { assert (b ∈ a :: l1) as Hb1 by (rewrite Hp; set_solver).
    assert (a ∈ b :: l2) as Ha2 by (rewrite <-Hp; set_solver).
    apply elem_of_cons in Hb1 as [->|Hb1]; [done|].
    apply elem_of_cons in Ha2 as [->|Ha2]; [done|].
    specialize (Hst a ltac:(set_solver)).
    rewrite !filter_cons in Hst. rewrite !decide_True in Hst by (split; auto). congruence. }
  f_equal. apply IH; [set_solver| |done|done|].
  - by apply Permutation_cons_inv in Hp.
  - intros x Hx. specialize (Hst x ltac:(set_solver)). rewrite !filter_cons in Hst.
    by case_decide; simplify_eq.
Qed.

(** Sorting a sorted array again changes nothing. *)
Lemma js_sort_idemp `{JsSortLaws} {A} (cmp : A → A → number) l :
  consistent cmp l → js_sort cmp (js_sort cmp l) = js_sort cmp l.
Proof.
  intros Hc. assert (consistent cmp (js_sort cmp l)) as Hc' by (eapply consistent_incl, Hc; intros x; apply js_sort_elem).
  apply (sorted_stable_unique cmp l).
  - intros a b. by apply consistent_total.
  - intros x. by rewrite !js_sort_elem.
  - apply js_sort_perm.
  - by apply js_sort_sorted.
  - by apply js_sort_sorted.
  - intros a Ha. apply js_sort_elem in Ha. by apply js_sort_stable.
Qed.

(** ** A conforming implementation: stable insertion sort *)

Section insertion.
Context {A : Type} (cmp : A → A → number).

Fixpoint insert_sorted (x : A) (l : list A) : list A :=
  match l with
  | [] => [x]
  | y :: l' => if decide (cmp_le cmp x y) then x :: l else y :: insert_sorted x l'
  end.
Definition insertion_sort (l : list A) : list A := foldr insert_sorted [] l.

Lemma insert_sorted_perm x l : insert_sorted x l ≡ₚ x :: l.
Proof.
  induction l as [|y l IH]; simpl; [done|]. case_decide; [done|].
  rewrite IH. constructor.
Qed.

Lemma insertion_sort_perm l : insertion_sort l ≡ₚ l.
Proof. induction l as [|x l IH]; simpl; [done|]. by rewrite insert_sorted_perm, IH. Qed.

Lemma insert_sorted_sorted x l :
  consistent cmp (x :: l) → StronglySorted (cmp_le cmp) l →
  StronglySorted (cmp_le cmp) (insert_sorted x l).
Proof.
  intros Hc Hs. induction l as [|y l IH]; simpl; [by repeat constructor|].
  apply StronglySorted_cons in Hs as [Hy Hs].
  assert (consistent cmp (x :: l)) as Hc' by (eapply consistent_incl, Hc; set_solver).
  case_decide as Hle; apply StronglySorted_cons.
  - split; [|by apply StronglySorted_cons]. constructor; [done|].
    rewrite Forall_forall in *. intros z Hz.
    eapply (consistent_trans _ _ Hc x y z); set_solver.
  - split; [|by apply IH]. rewrite Forall_forall in *. intros z Hz.
    rewrite insert_sorted_perm in Hz. apply elem_of_cons in Hz as [->|Hz]; [|by apply Hy].
    destruct (consistent_total cmp _ x y Hc); set_solver.
Qed.

Lemma insertion_sort_sorted l :
  consistent cmp l → StronglySorted (cmp_le cmp) (insertion_sort l).
Proof.
  induction l as [|x l IH]; intros Hc; simpl; [constructor|].
  apply insert_sorted_sorted.
  - eapply consistent_incl, Hc. intros y. by rewrite insertion_sort_perm.
  - apply IH. eapply consistent_incl, Hc. set_solver.
Qed.

Lemma insert_sorted_stable x l a :
  consistent cmp (a :: x :: l) →
  filter (cmp_eq cmp a) (insert_sorted x l) = filter (cmp_eq cmp a) (x :: l).
Proof.
  intros Hc. induction l as [|y l IH]; simpl; [done|].
  case_decide as Hle; [done|].
  assert (consistent cmp (a :: x :: l)) as Hc' by (eapply consistent_incl, Hc; set_solver).
  rewrite filter_cons, IH by done. rewrite !filter_cons.
  destruct (decide (cmp_eq cmp a y)) as [[Hay Hya]|]; [|done].
  destruct (decide (cmp_eq cmp a x)) as [[Hax Hxa]|]; [|done].
  exfalso. apply Hle. eapply (consistent_trans _ _ Hc x a y); set_solver.
Qed.

Lemma insertion_sort_stable l a :
  consistent cmp l → a ∈ l →
  filter (cmp_eq cmp a) (insertion_sort l) = filter (cmp_eq cmp a) l.
Proof.
  intros Hc Ha. assert (consistent cmp (a :: l)) as Hc' by (eapply consistent_incl, Hc; set_solver).
  clear Hc Ha. induction l as [|x l IH]; simpl; [done|].
  rewrite insert_sorted_stable, !filter_cons, IH; [done|..].
  - eapply consistent_incl, Hc'. set_solver.
  - eapply consistent_incl, Hc'. intros y. rewrite !elem_of_cons, insertion_sort_perm. set_solver.
Qed.
End insertion.

#[export] Instance insertion_js_sort : JsSort := @insertion_sort.
#[export] Instance insertion_js_sort_laws : JsSortLaws.
Proof.
  split; intros A cmp l.
  - apply insertion_sort_perm.
  - apply insertion_sort_sorted.
  - apply insertion_sort_stable.
Qed.

(** ** Another conforming implementation: merge sort

    The algorithm of most browsers; it compares other pairs of elements. *)

Section merge.
Context {A : Type} (cmp : A → A → number).

(** Merges two sorted runs; of two equal elements, the one of the first run comes first. *)
Fixpoint merge_runs (l1 l2 : list A) : list A :=
  let fix with_second l2 :=
    match l1, l2 with
    | [], _ => l2
    | _, [] => l1
    | x :: l1', y :: l2' =>
      if decide (cmp_le cmp x y) then x :: merge_runs l1' l2 else y :: with_second l2'
    end in
  with_second l2.

(** Halving a list of length [n] takes fewer than [n] rounds. *)
Fixpoint merge_rounds (n : nat) (l : list A) : list A :=
  match n, l with
  | S n, _ :: _ :: _ =>
    let half := length l / 2 in merge_runs (merge_rounds n (take half l)) (merge_rounds n (drop half l))
  | _, _ => l
  end.
Definition merging_sort (l : list A) : list A := merge_rounds (length l) l.

Lemma merge_runs_perm l1 l2 : merge_runs l1 l2 ≡ₚ l1 ++ l2.
Proof.
  revert l2. induction l1 as [|x l1 IH1]; intros l2; [by destruct l2|].
  induction l2 as [|y l2 IH2]; [by rewrite app_nil_r|]. cbn. case_decide; [by rewrite IH1|].
  change (y :: merge_runs (x :: l1) l2 ≡ₚ x :: l1 ++ y :: l2). rewrite IH2.
  apply (Permutation_middle (x :: l1)).
Qed.

Lemma merge_rounds_perm n l : merge_rounds n l ≡ₚ l.
Proof.
  revert l. induction n as [|n IH]; intros [|x [|y l]]; try done. cbn [merge_rounds].
  by rewrite merge_runs_perm, !IH, take_drop.
Qed.

Lemma merge_runs_sorted l1 l2 :
  consistent cmp (l1 ++ l2) → StronglySorted (cmp_le cmp) l1 → StronglySorted (cmp_le cmp) l2 →
  StronglySorted (cmp_le cmp) (merge_runs l1 l2).
Proof.
  revert l2. induction l1 as [|x l1 IH1]; intros l2 Hc Hs1 Hs2; [by destruct l2|].
  induction l2 as [|y l2 IH2]; [done|]. cbn.
  pose proof Hs1 as [Hx Hs1']%StronglySorted_cons. pose proof Hs2 as [Hy Hs2']%StronglySorted_cons.
  rewrite Forall_forall in Hx, Hy. case_decide as Hle; apply StronglySorted_cons; (split; [apply Forall_forall; intros z Hz|]).
  - rewrite merge_runs_perm in Hz. apply elem_of_app in Hz as [Hz|[->|Hz]%elem_of_cons]; [by apply Hx|done|].
    eapply (consistent_trans _ _ Hc x y z); set_solver.
  - apply IH1; [|done..]. eapply consistent_incl, Hc. set_solver.
  - change (z ∈ merge_runs (x :: l1) l2) in Hz. rewrite merge_runs_perm in Hz.
    apply elem_of_app in Hz as [Hz|Hz]; [|by apply Hy].
    assert (cmp_le cmp y x) as Hyx by (destruct (consistent_total cmp _ x y Hc); set_solver).
    apply elem_of_cons in Hz as [->|Hz]; [done|]. eapply (consistent_trans _ _ Hc y x z); set_solver.
  - apply IH2; [|done]. eapply consistent_incl, Hc. set_solver.
Qed.

Lemma merge_runs_stable l1 l2 a :
  consistent cmp (a :: l1 ++ l2) → StronglySorted (cmp_le cmp) l1 →
  filter (cmp_eq cmp a) (merge_runs l1 l2) = filter (cmp_eq cmp a) (l1 ++ l2).
Proof.
  revert l2. induction l1 as [|x l1 IH1]; intros l2 Hc Hs; [by destruct l2|].
  pose proof Hs as [Hx Hs']%StronglySorted_cons. rewrite Forall_forall in Hx.
  induction l2 as [|y l2 IH2]; [by rewrite app_nil_r|]. cbn [merge_runs]. case_decide as Hle.
  - rewrite filter_cons, IH1 by (done || (eapply consistent_incl, Hc; set_solver)).
    by rewrite <-app_comm_cons, filter_cons.
  - change (filter (cmp_eq cmp a) (y :: merge_runs (x :: l1) l2) = filter (cmp_eq cmp a) ((x :: l1) ++ y :: l2)).
    rewrite filter_cons, IH2 by (eapply consistent_incl, Hc; set_solver).
    rewrite !filter_app, (filter_cons _ y). case_decide as Hy; [|done].
    destruct (filter (cmp_eq cmp a) (x :: l1)) as [|z l] eqn:E; [done|].
    assert (z ∈ filter (cmp_eq cmp a) (x :: l1)) as Hz by (rewrite E; set_solver).
    apply list_elem_of_filter in Hz as [[Haz Hza] Hz]. destruct Hle.
    assert (cmp_le cmp x a) as Hxa.
    { apply elem_of_cons in Hz as [->|Hz]; [done|]. eapply (consistent_trans _ _ Hc x z a); set_solver. }
    eapply (consistent_trans _ _ Hc x a y); [set_solver..|done|apply Hy].
Qed.

Lemma merge_rounds_sorted n l :
  length l ≤ n → consistent cmp l → StronglySorted (cmp_le cmp) (merge_rounds n l).
Proof.
  revert l. induction n as [|n IH]; intros [|x [|y l]] Hn Hc; try by repeat constructor.
  - cbn [length] in Hn. lia.
  - cbn [merge_rounds]. set (half := _ / _). assert (0 < half < S (S (length l))) as Hh.
    { subst half. cbn [length]. split; [apply Nat.div_str_pos|apply Nat.div_lt]; lia. }
    assert (∀ z, z ∈ take half (x :: y :: l) ++ drop half (x :: y :: l) → z ∈ x :: y :: l) as Hin
      by (intros z; by rewrite take_drop).
    apply merge_runs_sorted.
    + eapply consistent_incl, Hc. intros z. rewrite elem_of_app, !merge_rounds_perm, <-elem_of_app. apply Hin.
    + apply IH; [rewrite length_take; cbn [length] in *; lia|]. eapply consistent_incl, Hc. set_solver.
    + apply IH; [rewrite length_drop; cbn [length] in *; lia|]. eapply consistent_incl, Hc. set_solver.
Qed.

Lemma merge_rounds_stable n l a :
  length l ≤ n → consistent cmp (a :: l) →
  filter (cmp_eq cmp a) (merge_rounds n l) = filter (cmp_eq cmp a) l.
Proof.
  revert l. induction n as [|n IH]; intros [|x [|y l]] Hn Hc; try done.
  cbn [merge_rounds]. set (half := _ / _). assert (0 < half < S (S (length l))) as Hh.
  { subst half. cbn [length]. split; [apply Nat.div_str_pos|apply Nat.div_lt]; lia. }
  assert (∀ z, z ∈ take half (x :: y :: l) ++ drop half (x :: y :: l) → z ∈ x :: y :: l) as Hin
    by (intros z; by rewrite take_drop).
  assert (length (take half (x :: y :: l)) ≤ n) as Ht by (rewrite length_take; cbn [length] in *; lia).
  assert (length (drop half (x :: y :: l)) ≤ n) as Hd by (rewrite length_drop; cbn [length] in *; lia).
  rewrite merge_runs_stable.
  - rewrite filter_app, !IH; [by rewrite <-filter_app, take_drop|done| |done|]; eapply consistent_incl, Hc; set_solver.
  - eapply consistent_incl, Hc. intros z. rewrite !elem_of_cons, elem_of_app, !merge_rounds_perm, <-elem_of_app.
    intros [->|Hz]; [by left|]. right. apply Hin in Hz. by rewrite !elem_of_cons in Hz.
  - apply merge_rounds_sorted; [done|]. eapply consistent_incl, Hc. set_solver.
Qed.
End merge.

Definition merge_js_sort : JsSort := @merging_sort.
Lemma merge_js_sort_laws : @JsSortLaws merge_js_sort.
Proof.
  split; intros A cmp l.
  - apply merge_rounds_perm.
  - by apply merge_rounds_sorted.
  - intros a Hc Ha. apply merge_rounds_stable; [done|]. eapply consistent_incl, Hc. set_solver.
Qed.

(** The comparator [(a, b) => key(a) - key(b)] and its negation. *)
Definition by_key {A} (key : A → number) (a b : A) : number := nsub (key a) (key b).

Lemma SFlt_trans x y z :
  valid x = true → valid y = true → valid z = true → is_nan y = false →
  nltb y x = false → nltb z y = false → nltb z x = false.
Proof.
  intros Vx Vy Vz Ny.
  assert (∀ u v, valid u = true → valid v = true → is_finite u = true → is_finite v = true →
           nltb u v = (sval u <? sval v)%Z) as Hlt.
  { intros u v ????. unfold nltb, SFltb. rewrite compare_sval by done.
    unfold Z.ltb. by destruct (sval u ?= sval v)%Z. }
  destruct (is_finite x) eqn:Fx, (is_finite y) eqn:Fy, (is_finite z) eqn:Fz;
    [rewrite !Hlt by done; rewrite !Z.ltb_ge; lia|..];
    destruct x as [|[]| |], y as [|[]| |], z as [|[]| |]; done.
Qed.

Lemma by_key_sign {A} (key : A → number) a b :
  valid (key a) = true → valid (key b) = true →
  is_nan (key a) = false → is_nan (key b) = false →
  nltb (by_key key a b) zero = nltb (key a) (key b) ∧
  ngtb (by_key key a b) zero = nltb (key b) (key a).
Proof. intros. unfold by_key, ngtb. by apply sub_sign. Qed.

(** Subtraction of valid, non-NaN keys is a consistent comparator. *)
Lemma by_key_consistent {A} (key : A → number) l :
  Forall (λ a, valid (key a) = true ∧ is_nan (key a) = false) l → consistent (by_key key) l.
Proof.
  rewrite Forall_forall. intros Hk. split.
  - intros a b Ha Hb. destruct (Hk a Ha), (Hk b Hb).
    destruct (by_key_sign key a b) as [-> _]; [done..|].
    by destruct (by_key_sign key b a) as [_ ->].
  - intros a b c Ha Hb Hc. destruct (Hk a Ha), (Hk b Hb), (Hk c Hc). unfold cmp_le.
    destruct (by_key_sign key a b) as [_ ->]; [done..|].
    destruct (by_key_sign key b c) as [_ ->]; [done..|].
    destruct (by_key_sign key a c) as [_ ->]; [done..|].
    intros Hab Hbc. by apply (SFlt_trans _ (key b)).
Qed.

Lemma nneg_sign x : nltb (nneg x) zero = ngtb x zero ∧ ngtb (nneg x) zero = nltb x zero.
Proof. destruct x as [[]|[]| |[]]; done. Qed.

(** The negated comparator is consistent as well. *)
Lemma consistent_neg {A} (cmp : A → A → number) l :
  consistent cmp l → consistent (λ a b, nneg (cmp a b)) l.
Proof.
  intros Hc. split.
  - intros a b Ha Hb. destruct (nneg_sign (cmp a b)) as [-> _], (nneg_sign (cmp b a)) as [_ ->].
    symmetry. by apply Hc.
  - intros a b c Ha Hb Hcc. unfold cmp_le.
    destruct (nneg_sign (cmp a b)) as [_ ->], (nneg_sign (cmp b c)) as [_ ->], (nneg_sign (cmp a c)) as [_ ->].
    rewrite !(consistent_sym _ _ Hc) by done. intros. by eapply (consistent_trans _ _ Hc c b a).
Qed.

(** ** [Map]: insertion-ordered, a later [set] of a present key keeps its place *)

Section jsmap.
Context {K V : Type} `{EqDecision K}.
Implicit Types m : list (K * V).

Fixpoint map_get (k : K) m : option V :=
  match m with
  | [] => None
  | (k', v) :: m' => if decide (k = k') then Some v else map_get k m'
  end.
Definition map_has (k : K) m : bool := match map_get k m with Some _ => true | None => false end.
Fixpoint map_set (k : K) (v : V) m : list (K * V) :=
  match m with
  | [] => [(k, v)]
  | (k', v') :: m' => if decide (k = k') then (k, v) :: m' else (k', v') :: map_set k v m'
  end.
Definition map_keys m : list K := m.*1.
Definition map_values m : list V := m.*2.

Lemma map_get_set_eq k v m : map_get k (map_set k v m) = Some v.
Proof.
  induction m as [|[k' v'] m IH]; simpl; [by rewrite decide_True|].
  case_decide; simpl; [by rewrite decide_True|by rewrite decide_False].
Qed.

Lemma map_get_set_ne k k' v m : k ≠ k' → map_get k (map_set k' v m) = map_get k m.
Proof.
  intros Hne. induction m as [|[k1 v1] m IH]; simpl; [by rewrite decide_False|].
  destruct (decide (k' = k1)) as [->|]; simpl; [by rewrite !decide_False|].
  by rewrite IH.
Qed.

Lemma map_get_Some k v m : map_get k m = Some v → (k, v) ∈ m.
Proof.
  induction m as [|[k' v'] m IH]; [done|]. cbn [map_get]. case_decide as Hk.
  - intros [= ->]. subst. apply list_elem_of_here.
  - intros E. by apply list_elem_of_further, IH.
Qed.

Lemma map_get_None k m : map_get k m = None ↔ k ∉ map_keys m.
Proof.
  induction m as [|[k' v'] m IH]; simpl; [set_solver|].
  case_decide; [subst; set_solver|]. rewrite IH. set_solver.
Qed.

Lemma map_has_spec k m : map_has k m = true ↔ k ∈ map_keys m.
Proof.
  unfold map_has. pose proof (map_get_None k m) as Hn.
  destruct (map_get k m); [|naive_solver]. split; [|done]. intros _.
  destruct (decide (k ∈ map_keys m)) as [|Hk]; [done|]. by apply Hn in Hk.
Qed.

Lemma map_keys_set k v m :
  map_keys (map_set k v m) = if map_has k m then map_keys m else map_keys m ++ [k].
Proof.
  unfold map_has. induction m as [|[k' v'] m IH]; simpl; [done|].
  case_decide; simpl; [by subst|]. rewrite IH. by destruct (map_get k m).
Qed.

Lemma map_keys_set_elem k v m x : x ∈ map_keys (map_set k v m) ↔ x = k ∨ x ∈ map_keys m.
Proof.
  rewrite map_keys_set. destruct (map_has k m) eqn:E; [|set_solver].
  apply map_has_spec in E. set_solver.
Qed.

Lemma map_set_NoDup k v m : NoDup (map_keys m) → NoDup (map_keys (map_set k v m)).
Proof.
  intros H. rewrite map_keys_set. destruct (map_has k m) eqn:E; [done|].
  apply NoDup_app. split; [done|]. split; [|apply NoDup_singleton].
  intros x Hx ->%list_elem_of_singleton. apply map_has_spec in Hx. congruence.
Qed.

Lemma map_set_fresh k v m : k ∉ map_keys m → map_set k v m = m ++ [(k, v)].
Proof.
  induction m as [|[k' v'] m IH]; simpl; intros Hk; [done|].
  rewrite decide_False by set_solver. rewrite IH by set_solver. done.
Qed.

Lemma map_has_false k m : map_has k m = false ↔ k ∉ map_keys m.
Proof. rewrite <-map_has_spec. by destruct (map_has k m). Qed.

Lemma map_set_elem k v m e : e ∈ map_set k v m → e = (k, v) ∨ e ∈ m.
Proof.
  induction m as [|[k' v'] m IH]; simpl; [set_solver|]. case_decide; set_solver.
Qed.

Lemma map_get_elem k v m : NoDup (map_keys m) → map_get k m = Some v ↔ (k, v) ∈ m.
Proof.
  induction m as [|[k' v'] m IH]; simpl; intros Hnd; [set_solver|].
  apply NoDup_cons in Hnd as [Hk' Hnd]. specialize (IH Hnd).
  rewrite elem_of_cons. case_decide as Hk.
  - subst. split; [intros [= ->]; auto|]. intros [[= ->]|Hin]; [done|].
    destruct Hk'. apply list_elem_of_fmap. by exists (k', v).
  - rewrite IH. naive_solver.
Qed.

(** A loop that only calls [set] leaves the value of the last [set] of each key. *)
Definition map_of_list (l : list (K * V)) : list (K * V) :=
  fold_left (λ m kv, map_set kv.1 kv.2 m) l [].

Lemma fold_map_set_NoDup l m :
  NoDup (map_keys m) → NoDup (map_keys (fold_left (λ m kv, map_set kv.1 kv.2 m) l m)).
Proof. revert m. induction l as [|[k v] l IH]; intros m Hm; simpl; [done|]. apply IH. by apply map_set_NoDup. Qed.

Lemma fold_map_set_keys l m x :
  x ∈ map_keys (fold_left (λ m kv, map_set kv.1 kv.2 m) l m) ↔ x ∈ map_keys m ∨ x ∈ l.*1.
Proof.
  revert m. induction l as [|[k v] l IH]; intros m; simpl; [set_solver|].
  rewrite IH, map_keys_set_elem. set_solver.
Qed.
End jsmap.

(** ** Objects as dictionaries *)

(** The value of an array-index key: the canonical numeral of an integer below 2^32 - 1. *)
Definition array_index (k : jstring) : option N :=
  let n := decval k in
  if bool_decide (dec n = k) && (n <? 4294967295)%N then Some n else None.

Definition index_le {V} (a b : jstring * V) : Prop :=
  (default 0%N (array_index a.1) <= default 0%N (array_index b.1))%N.
#[export] Instance index_le_dec {V} (a b : jstring * V) : Decision (index_le a b).
Proof. unfold index_le. apply _. Defined.

(** The order of [for ... in], [Object.keys] and [Object.entries]: array indices first
    in ascending order, the other keys in the order of their creation. *)
Definition obj_order {V} (o : list (jstring * V)) : list (jstring * V) :=
  merge_sort index_le
    (List.filter (λ kv, bool_decide (is_Some (array_index kv.1))) o)
  ++ List.filter (λ kv, negb (bool_decide (is_Some (array_index kv.1)))) o.

Lemma obj_order_perm {V} (o : list (jstring * V)) : obj_order o ≡ₚ o.
Proof.
  unfold obj_order. rewrite merge_sort_Permutation.
  induction o as [|kv o IH]; simpl; [done|].
  case_bool_decide; simpl; [by rewrite IH|]. by rewrite <-Permutation_middle, IH.
Qed.

Lemma obj_order_strings {V} (o : list (jstring * V)) :
  Forall (λ kv, array_index kv.1 = None) o → obj_order o = o.
Proof.
  intros Ho. unfold obj_order.
  assert (List.filter (λ kv, bool_decide (is_Some (array_index kv.1))) o = []) as ->.
  { induction Ho as [|kv o Hk Ho IH]; simpl; [done|]. rewrite bool_decide_eq_false_2; [done|].
    rewrite Hk. by intros [? ?]. }
  unfold merge_sort; simpl.
  induction Ho as [|kv o Hk Ho IH]; simpl; [done|].
  rewrite bool_decide_eq_false_2; simpl; [by rewrite IH|]. rewrite Hk. by intros [? ?].
Qed.

(** The properties every object inherits from [Object.prototype]: [in] and member
    access find them on an empty dictionary too. *)
Definition prototype_keys : list jstring :=
  [js "constructor"; js "__defineGetter__"; js "__defineSetter__";
   js "hasOwnProperty"; js "__lookupGetter__"; js "__lookupSetter__";
   js "isPrototypeOf"; js "propertyIsEnumerable"; js "toString";
   js "valueOf"; js "__proto__"; js "toLocaleString"].
