(* ===== verification/JsRegex.v ===== *)
(** * Regular expressions

    The backtracking matcher of ECMA-262 (22.2.2) for the fragment the web
    interface uses: character classes, sequences, alternatives, greedy and lazy repetition,
    optional and capturing groups, and the anchors [^] and [$].  A matcher maps a
    position to the list of all its outcomes in the order backtracking tries
    them, so the match of JavaScript is the first element. *)

From S2P Require Import Prelude JsString.

Inductive regex : Type :=
| RChar (p : N → bool)                   (* a character class *)
| RSeq (r1 r2 : regex)
| RStar (greedy : bool) (r : regex)      (* r* and r*? *)
| ROpt (r : regex)                       (* (?:r)? *)
| RGroup (n : nat) (r : regex)           (* the capturing group number n *)
| REnd.                                  (* $ *)

(** [r+] *)
Definition RPlus (r : regex) : regex := RSeq r (RStar true r).
(** A literal string. *)
Fixpoint RLit (s : jstring) (k : regex) : regex :=
  match s with
  | [] => k
  | c :: s' => RSeq (RChar (N.eqb c)) (RLit s' k)
  end.

(** The rest of the input and the groups captured so far, the newest first. *)
Definition mstate : Type := jstring * list (nat * jstring).

(** Repetition; an iteration that consumes nothing is abandoned, so [length] of the
    rest bounds the number of iterations. *)
Fixpoint star_iter (f : mstate → list mstate) (greedy : bool) (fuel : nat) (st : mstate)
  : list mstate :=
  match fuel with
  | O => [st]
  | S fuel' =>
    let more := st' ← f st;
                if length st'.1 <? length st.1 then star_iter f greedy fuel' st' else [] in
    if greedy then more ++ [st] else st :: more
  end.

Fixpoint rmatch (r : regex) (st : mstate) : list mstate :=
  match r with
  | RChar p =>
    match st.1 with
    | c :: s' => if p c then [(s', st.2)] else []
    | [] => []
    end
  | RSeq r1 r2 => rmatch r1 st ≫= rmatch r2
  | RStar greedy r => star_iter (rmatch r) greedy (length st.1) st
  | ROpt r => rmatch r st ++ [st]
  | RGroup n r =>
    st' ← rmatch r st;
    [(st'.1, (n, take (length st.1 - length st'.1) st.1) :: st'.2)]
  | REnd => match st.1 with [] => [st] | _ => [] end
  end.

(** [re.exec(s)] for a pattern that starts with [^]. *)
Definition exec_anchored (r : regex) (s : jstring) : option (list (nat * jstring)) :=
  snd <$> head (rmatch r (s, [])).

(** [re.exec(s)] otherwise: the first position where the pattern matches. *)
Fixpoint exec (r : regex) (s : jstring) : option (list (nat * jstring)) :=
  match head (rmatch r (s, [])), s with
  | Some st, _ => Some st.2
  | None, [] => None
  | None, _ :: s' => exec r s'
  end.

(** [match[n]]: the last capture of a group ([None] is undefined). *)
Fixpoint group (n : nat) (caps : list (nat * jstring)) : option jstring :=
  match caps with
  | [] => None
  | (k, s) :: caps' => if n =? k then Some s else group n caps'
  end.

(** ** Characterisation of the outcomes *)

Lemma elem_of_rmatch_seq r1 r2 st st' :
  st' ∈ rmatch (RSeq r1 r2) st ↔ ∃ st1, st1 ∈ rmatch r1 st ∧ st' ∈ rmatch r2 st1.
Proof. cbn [rmatch]. rewrite list_elem_of_bind. naive_solver. Qed.

Lemma elem_of_rmatch_char p s c st' :
  st' ∈ rmatch (RChar p) (s, c) ↔ ∃ x, s = x :: st'.1 ∧ p x = true ∧ st'.2 = c.
Proof.
  destruct st' as [s' c']. cbn [rmatch fst snd]. destruct s as [|x s]; simpl; [set_solver|].
  destruct (p x) eqn:E; simpl.
  - rewrite list_elem_of_singleton. naive_solver.
  - split; [set_solver|]. intros (? & [= -> ->] & ? & ->). congruence.
Qed.

Lemma elem_of_star_char p g s c st' :
  st' ∈ rmatch (RStar g (RChar p)) (s, c) ↔
  ∃ a, s = a ++ st'.1 ∧ Forall (λ x, p x = true) a ∧ st'.2 = c.
Proof.
  cbn [rmatch fst]. revert st'. remember (length s) as n eqn:Hn. revert s Hn.
  induction n as [|n IH]; intros s Hn [s' c'].
  - destruct s; [|done]. cbn [star_iter]. rewrite list_elem_of_singleton. simpl. split.
    + intros [= -> ->]. by exists [].
    + intros (a & E & _ & ->). symmetry in E. by apply app_nil in E as [-> ->].
  - destruct s as [|x s]; [done|]. simpl in Hn. injection Hn as Hn. specialize (IH s Hn).
    assert (∀ P : Prop,
      ((s', c') ∈ (st'0 ← rmatch (RChar p) (x :: s, c);
         if length st'0.1 <? length (x :: s) then star_iter (rmatch (RChar p)) g n st'0 else [])
       ∨ (s', c') = (x :: s, c) ↔ P) →
      ((s', c') ∈ star_iter (rmatch (RChar p)) g (S n) (x :: s, c) ↔ P)) as Hstep.
    { intros P HP. rewrite <-HP. cbn [star_iter fst]. destruct g; set_solver. }
    apply Hstep. cbn [rmatch fst snd]. destruct (p x) eqn:Ep.
    + assert ((length s <? length (x :: s)) = true) as Hlt by (apply Nat.ltb_lt; simpl; lia).
      rewrite list_bind_single. cbn [fst]. rewrite Hlt, IH. simpl. split.
      * intros [(a & -> & Ha & ->)|[= -> ->]]; [by exists (x :: a); auto|by exists []].
      * intros (a & E & Ha & ->). destruct a as [|y a]; simplify_eq/=; [by right|].
        left. apply Forall_cons in Ha as [_ Ha]. eauto.
    + simpl. split.
      * intros [H|[= -> ->]]; [set_solver|]. by exists [].
      * intros (a & E & Ha & ->). destruct a as [|y a]; simplify_eq/=; [by right|].
        apply Forall_cons in Ha as [? _]. congruence.
Qed.

Lemma elem_of_plus_char p s c st' :
  st' ∈ rmatch (RPlus (RChar p)) (s, c) ↔
  ∃ a, s = a ++ st'.1 ∧ a ≠ [] ∧ Forall (λ x, p x = true) a ∧ st'.2 = c.
Proof.
  unfold RPlus. rewrite elem_of_rmatch_seq. split.
  - intros ([s1 c1] & H1 & H2). apply elem_of_rmatch_char in H1 as (x & Hs & Hx & Hc).
    apply elem_of_star_char in H2 as (a & Hs1 & Ha & Hc1). simpl in *. subst.
    exists (x :: a). naive_solver.
  - intros (a & -> & Hne & Ha & <-). destruct a as [|x a]; [done|].
    apply Forall_cons in Ha as [Hx Ha]. exists (a ++ st'.1, st'.2).
    rewrite elem_of_rmatch_char, elem_of_star_char. simpl. naive_solver.
Qed.

Lemma elem_of_group n r s c st' :
  st' ∈ rmatch (RGroup n r) (s, c) ↔
  ∃ st1, st1 ∈ rmatch r (s, c) ∧ st'.1 = st1.1 ∧
         st'.2 = (n, take (length s - length st1.1) s) :: st1.2.
Proof.
  cbn [rmatch]. rewrite list_elem_of_bind. split.
  - intros (st1 & Hin & H1). apply list_elem_of_singleton in Hin as ->. eauto.
  - intros (st1 & ? & ? & ?). exists st1. rewrite list_elem_of_singleton.
    destruct st'. naive_solver.
Qed.

Lemma elem_of_opt r st st' : st' ∈ rmatch (ROpt r) st ↔ st' ∈ rmatch r st ∨ st' = st.
Proof. cbn [rmatch]. set_solver. Qed.

Lemma elem_of_end st st' : st' ∈ rmatch REnd st ↔ st' = st ∧ st.1 = [].
Proof. cbn [rmatch]. destruct st as [[|x s] c]; simpl; set_solver. Qed.

(** [exec] fails exactly when no outcome exists. *)
Lemma exec_anchored_None r s : exec_anchored r s = None ↔ ∀ st, st ∉ rmatch r (s, []).
Proof.
  unfold exec_anchored. destruct (rmatch r (s, [])) as [|st l]; simpl; [set_solver|].
  split; [done|]. intros H. destruct (H st). set_solver.
Qed.

Lemma exec_anchored_Some r s caps :
  exec_anchored r s = Some caps → ∃ rest, (rest, caps) ∈ rmatch r (s, []).
Proof.
  unfold exec_anchored. destruct (rmatch r (s, [])) as [|st l]; simpl; [done|].
  intros [= <-]. exists st.1. destruct st. set_solver.
Qed.

#[global] Arguments rmatch : simpl never.
