(* ===== verification/Vdom.v ===== *)
(** * The virtual DOM

    What the [render] methods return: a tree of elements with attributes, texts
    and numbers as React displays them.  [C] are the child components that keep a
    state of their own, [H] the event handlers. *)

From S2P Require Import Prelude JsString JsNumber.

Section vdom.
Context {C H : Type}.

Inductive attr :=
| AText (s : jstring)
| ANum (n : number)
| AStyle (style : list (jstring * jstring))
| AHandler (h : H)
| ANull.

Inductive vnode :=
| VText (s : jstring)
| VNum (n : number)
| VNothing                               (* null, undefined, false: nothing is shown *)
| VElem (tag : jstring) (attrs : list (jstring * attr)) (children : list vnode)
| VList (children : list vnode)          (* an array *)
| VComp (c : C).

(** Markup as in the sources. *)
Definition el (tag : String.string) (attrs : list (jstring * attr)) (children : list vnode) : vnode :=
  VElem (js tag) attrs children.
Definition A (name value : String.string) : jstring * attr := (js name, AText (js value)).
Definition AX (name : String.string) (value : jstring) : jstring * attr := (js name, AText value).
Definition AN (name : String.string) (value : number) : jstring * attr := (js name, ANum value).
Definition AO (name : String.string) (value : option number) : jstring * attr :=
  (js name, match value with Some n => ANum n | None => ANull end).
Definition ASt (name : String.string) (style : list (jstring * jstring)) : jstring * attr :=
  (js name, AStyle style).
Definition AH (name : String.string) (h : H) : jstring * attr := (js name, AHandler h).
Definition T (s : String.string) : vnode := VText (js s).
(** A field that may be missing. *)
Definition VOpt (o : option jstring) : vnode := match o with Some s => VText s | None => VNothing end.
(** [condition && <element/>] *)
Definition VWhen (b : bool) (v : vnode) : vnode := if b then v else VNothing.

(** Induction over a tree. *)
Section vnode_induction.
Context (P : vnode → Prop).
Hypothesis text : ∀ s, P (VText s).
Hypothesis num : ∀ n, P (VNum n).
Hypothesis nothing : P VNothing.
Hypothesis elem : ∀ tag attrs children, Forall P children → P (VElem tag attrs children).
Hypothesis arr : ∀ children, Forall P children → P (VList children).
Hypothesis comp : ∀ c, P (VComp c).
Fixpoint vnode_tree_ind (v : vnode) : P v :=
  let all := fix all l : Forall P l :=
    match l with
    | [] => Forall_nil_2 P
    | v :: l => Forall_cons_2 P v l (vnode_tree_ind v) (all l)
    end in
  match v with
  | VText s => text s
  | VNum n => num n
  | VNothing => nothing
  | VElem tag attrs children => elem tag attrs children (all children)
  | VList children => arr children (all children)
  | VComp c => comp c
  end.
End vnode_induction.

(** The text a reader sees, without the children that keep their own state. *)
Fixpoint text_of (v : vnode) : jstring :=
  match v with
  | VText s => s
  | VNum n => toString n
  | VNothing | VComp _ => []
  | VElem _ _ l | VList l => concat (map text_of l)
  end.

(** The elements with a given tag, in document order. *)
Fixpoint elements_by_tag (tag : jstring) (v : vnode) : list (list (jstring * attr) * list vnode) :=
  match v with
  | VElem t attrs l => (if jeqb t tag then [(attrs, l)] else []) ++ concat (map (elements_by_tag tag) l)
  | VList l => concat (map (elements_by_tag tag) l)
  | _ => []
  end.

(** The value of an attribute. *)
Definition attribute (name : jstring) (attrs : list (jstring * attr)) : option attr :=
  snd <$> List.find (λ a, jeqb a.1 name) attrs.

(** The handlers attached in a tree, in document order. *)
Fixpoint handlers (v : vnode) : list H :=
  match v with
  | VElem _ attrs l =>
    omap (λ a, match a.2 with AHandler h => Some h | _ => None end) attrs ++ concat (map handlers l)
  | VList l => concat (map handlers l)
  | _ => []
  end.

(** The child components in a tree, in document order. *)
Fixpoint child_components (v : vnode) : list C :=
  match v with
  | VComp c => [c]
  | VElem _ _ l | VList l => concat (map child_components l)
  | _ => []
  end.
End vdom.
Arguments attr : clear implicits.
Arguments vnode : clear implicits.
Arguments el {C H} tag%_string_scope attrs children.
Arguments A {H} (name value)%_string_scope.
Arguments AX {H} name%_string_scope value.
Arguments AN {H} name%_string_scope value.
Arguments AO {H} name%_string_scope value.
Arguments ASt {H} name%_string_scope style.
Arguments AH {H} name%_string_scope h.
Arguments T {C H} s%_string_scope.

(** A view inside another component's view: its children and handlers are embedded. *)
Fixpoint vmap {C H C' H'} (f : C → C') (g : H → H') (v : vnode C H) : vnode C' H' :=
  let amap a := match a with
                | AText s => AText s | ANum n => ANum n | AStyle st => AStyle st
                | AHandler h => AHandler (g h) | ANull => ANull
                end in
  match v with
  | VText s => VText s
  | VNum n => VNum n
  | VNothing => VNothing
  | VElem tag attrs l => VElem tag (map (λ '(n, a), (n, amap a)) attrs) (map (vmap f g) l)
  | VList l => VList (map (vmap f g) l)
  | VComp c => VComp (f c)
  end.

Lemma handlers_vmap {C H C' H'} (f : C → C') (g : H → H') v :
  handlers (vmap f g v) = map g (handlers v).
Proof.
  assert (∀ l : list (vnode C H), Forall (λ v, handlers (vmap f g v) = map g (handlers v)) l →
    concat (map handlers (map (vmap f g) l)) = map g (concat (map handlers l))) as Hl.
  { induction 1 as [|v' l Hv _ IH]; cbn [map concat]; [done|]. by rewrite Hv, IH, map_app. }
  induction v as [s|n| |tag attrs l IH|l IH|c] using vnode_tree_ind; try done; cbn [vmap handlers].
  - rewrite Hl, map_app by done. f_equal.
    induction attrs as [|[n a] attrs IHa]; [done|]. destruct a; try exact IHa. simpl. f_equal. exact IHa.
  - by apply Hl.
Qed.

Lemma child_components_vmap {C H C' H'} (f : C → C') (g : H → H') v :
  child_components (vmap f g v) = map f (child_components v).
Proof.
  assert (∀ l : list (vnode C H), Forall (λ v, child_components (vmap f g v) = map f (child_components v)) l →
    concat (map child_components (map (vmap f g) l)) = map f (concat (map child_components l))) as Hl.
  { induction 1 as [|v' l Hv _ IH]; cbn [map concat]; [done|]. by rewrite Hv, IH, map_app. }
  induction v as [s|n| |tag attrs l IH|l IH|c] using vnode_tree_ind; try done; cbn [vmap child_components];
    by apply Hl.
Qed.

(** Rendering a list of items with a function that may throw. *)
Fixpoint res_map {A B} (f : A → res B) (l : list A) : res (list B) :=
  match l with
  | [] => Ok []
  | x :: l' => y ← f x; rest ← res_map f l'; Ok (y :: rest)
  end.

Lemma res_map_ok {A B} (f : A → res B) l l' :
  res_map f l = Ok l' ↔ Forall2 (λ x y, f x = Ok y) l l'.
Proof.
  revert l'. induction l as [|x l IH]; intros l'; cbn [res_map].
  - split; [intros [= <-]; constructor|]. by inversion 1.
  - rewrite res_bind_ok. split.
    + intros (y & Hy & Hr). apply res_bind_ok in Hr as (rest & Hr & [= <-]).
      constructor; [done|]. by apply IH.
    + inversion 1 as [|?? ? rest Hy Hr]; subst. exists y. split; [done|].
      apply res_bind_ok. exists rest. split; [by apply IH|done].
Qed.
