(* ===== verification/Model.v ===== *)
(** * The JSON documents the interface receives

    The fields of the coordinator's responses that the code reads.  A field the
    code tests for presence is an [option] ([None] is [null] or [undefined]);
    reading a property of such a field without a test is [deref], which throws. *)

From S2P Require Import Prelude JsString JsNumber.

(** [BasicQueryInfo.errorCode] *)
Record error_code := { ec_name : jstring; ec_code : number }.

(** [queryStats]: the statistics of [BasicQueryInfo] and of [QueryInfo] that both pages use. *)
Record query_stats := {
  createTime : jstring;
  elapsedTime : jstring;
  executionTime : jstring;
  totalCpuTime : jstring;
  completedDrivers : number;
  runningDrivers : number;
  queuedDrivers : number;
  totalDrivers : number;
  failedTasks : number;
  fullyBlocked : bool;
  blockedReasons : option (list jstring);
  progressPercentage : option number;
  totalMemoryReservation : jstring;
  peakTotalMemoryReservation : jstring;
  userMemoryReservation : jstring;
  cumulativeUserMemory : number;
}.

(** [BasicQueryInfo], the part of [QueryInfo] that the list of queries shows too. *)
Record query := {
  queryId : jstring;
  q_state : jstring;
  scheduled : bool;
  memoryPool : option jstring;
  errorType : option jstring;
  errorCode : option error_code;
  queryStats : option query_stats;
  sessionUser : option jstring;
  sessionSource : option jstring;
  sessionPrincipal : option jstring;
  resourceGroupId : option (list jstring);
  queryTextPreview : jstring;
  retryPolicy : option jstring;
}.

(** Equality of an optional string field with a literal. *)
Definition feq (o : option jstring) (s : jstring) : bool :=
  match o with Some t => jeqb t s | None => false end.

(** A truthy optional string. *)
Definition ftruthy (o : option jstring) : bool :=
  match o with Some t => truthy t | None => false end.

(** A [switch] whose cases fall through: from the first case that matches on, every
    later body runs as well. *)
Fixpoint switch_fallthrough {A} (v : option jstring) (cases : list (jstring * (A → res A)))
  (a : A) : res A :=
  match cases with
  | [] => Ok a
  | (label, body) :: cases' =>
    if feq v label then foldl (λ m c, m ≫= c.2) (body a) cases'
    else switch_fallthrough v cases' a
  end.
