(* ===== verification/QueryState.v ===== *)
(** * Query and stage states (utils.js, "Query display")

    Colours, human-readable states and the progress bar. *)

From S2P Require Import Prelude JsString JsNumber JsNumberFacts Model.

(** ** Constants *)

Definition GLYPHICON_DEFAULT : jstring := js "#1edcff".
Definition GLYPHICON_HIGHLIGHT : jstring := js "#999999".
Definition EMDASH : jstring := [8212%N].

Record state_colors := {
  c_QUEUED : jstring; c_RUNNING : jstring; c_PLANNING : jstring; c_FINISHED : jstring;
  c_BLOCKED : jstring; c_USER_ERROR : jstring; c_CANCELED : jstring;
  c_INSUFFICIENT_RESOURCES : jstring; c_EXTERNAL_ERROR : jstring; c_UNKNOWN_ERROR : jstring;
}.
Definition STATE_COLOR_MAP : state_colors := {|
  c_QUEUED := js "#1b8f72";
  c_RUNNING := js "#19874e";
  c_PLANNING := js "#674f98";
  c_FINISHED := js "#1a4629";
  c_BLOCKED := js "#61003b";
  c_USER_ERROR := js "#9a7d66";
  c_CANCELED := js "#858959";
  c_INSUFFICIENT_RESOURCES := js "#7f5b72";
  c_EXTERNAL_ERROR := js "#ca7640";
  c_UNKNOWN_ERROR := js "#943524";
|}.

(** ** Colours *)

Definition getQueryStateColor (q : query) : res jstring :=
  let st := q_state q in
  if jeqb st (js "QUEUED") then Ok (c_QUEUED STATE_COLOR_MAP)
  else if jeqb st (js "PLANNING") then Ok (c_PLANNING STATE_COLOR_MAP)
  else if jeqb st (js "STARTING") || jeqb st (js "FINISHING") || jeqb st (js "RUNNING") then
    Ok (if match queryStats q with Some s => fullyBlocked s | None => false end
        then c_BLOCKED STATE_COLOR_MAP else c_RUNNING STATE_COLOR_MAP)
  else if jeqb st (js "FAILED") then
    if feq (errorType q) (js "USER_ERROR") then
      code ← deref (errorCode q);
      Ok (if jeqb (ec_name code) (js "USER_CANCELED")
          then c_CANCELED STATE_COLOR_MAP else c_USER_ERROR STATE_COLOR_MAP)
    else if feq (errorType q) (js "EXTERNAL") then Ok (c_EXTERNAL_ERROR STATE_COLOR_MAP)
    else if feq (errorType q) (js "INSUFFICIENT_RESOURCES") then
      Ok (c_INSUFFICIENT_RESOURCES STATE_COLOR_MAP)
    else Ok (c_UNKNOWN_ERROR STATE_COLOR_MAP)
  else if jeqb st (js "FINISHED") then Ok (c_FINISHED STATE_COLOR_MAP)
  else Ok (c_QUEUED STATE_COLOR_MAP).

(** The stage's state and its [stageStats.fullyBlocked] ([false] when there are no stats). *)
Definition getStageStateColor (state : jstring) (blocked : bool) : jstring :=
  if jeqb state (js "PLANNED") then c_QUEUED STATE_COLOR_MAP
  else if jeqb state (js "SCHEDULING") || jeqb state (js "SCHEDULING_SPLITS")
          || jeqb state (js "SCHEDULED") then c_PLANNING STATE_COLOR_MAP
  else if jeqb state (js "RUNNING") then
    if blocked then c_BLOCKED STATE_COLOR_MAP else c_RUNNING STATE_COLOR_MAP
  else if jeqb state (js "FINISHED") then c_FINISHED STATE_COLOR_MAP
  else if jeqb state (js "CANCELED") || jeqb state (js "ABORTED") then c_CANCELED STATE_COLOR_MAP
  else if jeqb state (js "FAILED") then c_UNKNOWN_ERROR STATE_COLOR_MAP
  else js "#b5b5b5".

(** ** Human-readable state *)

(** The title of a running query that has been scheduled. *)
Definition runningTitle (q : query) (s : query_stats) : jstring :=
  let title :=
    if fullyBlocked s then
      match blockedReasons s with
      | Some ((_ :: _) as reasons) => js "BLOCKED" ++ js " (" ++ join (js ", ") reasons ++ js ")"
      | _ => js "BLOCKED"
      end
    else js "RUNNING" in
  if feq (memoryPool q) (js "reserved") then title ++ js " (RESERVED)" else title.

(** The [switch (query.errorType)], whose cases have no [break]. *)
Definition errorCases (q : query) : list (jstring * (jstring → res jstring)) :=
  [(js "USER_ERROR", λ _,
      code ← deref (errorCode q);
      Ok (if jeqb (ec_name code) (js "USER_CANCELED") then js "USER CANCELED" else js "USER ERROR"));
   (js "INTERNAL_ERROR", λ _, Ok (js "INTERNAL ERROR"));
   (js "INSUFFICIENT_RESOURCES", λ _, Ok (js "INSUFFICIENT RESOURCES"));
   (js "EXTERNAL", λ _, Ok (js "EXTERNAL ERROR"))].

Definition getHumanReadableState (q : query) (forOverviewPage : bool) : res jstring :=
  let rest : res jstring :=
    if jeqb (q_state q) (js "FAILED") then
      errorMsg ← switch_fallthrough (errorType q) (errorCases q) [];
      Ok (match errorCode q with
          | Some code =>
            if forOverviewPage && truthy (ec_name code)
            then errorMsg ++ js " " ++ EMDASH ++ js " " ++ ec_name code
            else errorMsg
          | None => errorMsg
          end)
    else Ok (q_state q) in
  if jeqb (q_state q) (js "RUNNING") then
    if scheduled q then
      s ← deref (queryStats q);
      if ngtb (totalDrivers s) zero && ngeb (runningDrivers s) zero
      then Ok (runningTitle q s) else rest
    else rest
  else rest.

(** ** Progress bar *)

Definition getProgressBarPercentage (q : query) : res number :=
  s ← deref (queryStats q);
  match progressPercentage s with
  | Some progress =>
    if negb (ntruthy progress) || negb (jeqb (q_state q) (js "RUNNING"))
    then Ok (of_Z 100) else Ok (nround progress)
  | None => Ok (of_Z 100)
  end.

Definition getProgressBarTitle (q : query) (forOverviewPage : bool) : res jstring :=
  s ← deref (queryStats q);
  if match progressPercentage s with Some p => ntruthy p | None => false end
     && jeqb (q_state q) (js "RUNNING")
  then
    title ← getHumanReadableState q forOverviewPage;
    pct ← getProgressBarPercentage q;
    Ok (title ++ js " (" ++ toString pct ++ js "%)")
  else getHumanReadableState q forOverviewPage.

Definition isQueryEnded (q : query) : bool :=
  bool_decide (q_state q ∈ [js "FINISHED"; js "FAILED"; js "CANCELED"]).

(** ** Properties *)

Section query_state_properties.
Implicit Types q : query.

(** States compared with literals: reduces the comparisons of a known state. *)
Lemma getHumanReadableState_failed q b :
  q_state q = js "FAILED" →
  getHumanReadableState q b =
    (errorMsg ← switch_fallthrough (errorType q) (errorCases q) [];
     Ok (match errorCode q with
         | Some code =>
           if b && truthy (ec_name code)
           then errorMsg ++ js " " ++ EMDASH ++ js " " ++ ec_name code else errorMsg
         | None => errorMsg
         end)).
Proof. intros H. unfold getHumanReadableState. by rewrite H. Qed.

Lemma feq_Some o s : feq o s = true ↔ o = Some s.
Proof. destruct o; simpl; [rewrite jeqb_eq|]; naive_solver. Qed.

Lemma errorCases_external q code t :
  errorCode q = Some code →
  errorType q = Some t →
  t ∈ [js "USER_ERROR"; js "INTERNAL_ERROR"; js "INSUFFICIENT_RESOURCES"; js "EXTERNAL"] →
  switch_fallthrough (errorType q) (errorCases q) [] = Ok (js "EXTERNAL ERROR").
Proof.
  intros Hc Ht Hin. rewrite Ht.
  apply list_elem_of_In in Hin. simpl in Hin.
  destruct Hin as [<-|[<-|[<-|[<-|[]]]]]; simpl; try done. by rewrite Hc.
Qed.
End query_state_properties.

(** C39: Because the cases of the inner [switch] fall through, the state text of a failed
    query is "EXTERNAL ERROR" for every one of the four error types, a cancellation by the
    user included; only the error name appended on the overview page tells them apart. *)
Theorem failed_state_text (q : query) (code : error_code) (t : jstring) (b : bool) :
  q_state q = js "FAILED" → errorCode q = Some code → errorType q = Some t →
  t ∈ [js "USER_ERROR"; js "INTERNAL_ERROR"; js "INSUFFICIENT_RESOURCES"; js "EXTERNAL"] →
  getHumanReadableState q b =
    Ok (js "EXTERNAL ERROR" ++
        if b && truthy (ec_name code) then js " " ++ EMDASH ++ js " " ++ ec_name code else []).
Proof.
  intros Hs Hc Ht Hin. rewrite getHumanReadableState_failed by done.
  rewrite (errorCases_external q code t) by done. simpl. rewrite Hc.
  destruct (b && truthy (ec_name code)); by rewrite ?app_nil_r.
Qed.

(** A query for witnesses. *)
Definition sample_stats : query_stats := {|
  createTime := js "2022-05-11T09:10:11.123Z"; elapsedTime := js "12.50s";
  executionTime := js "11.00s"; totalCpuTime := js "3.00m";
  completedDrivers := of_Z 10; runningDrivers := of_Z 4; queuedDrivers := of_Z 2;
  totalDrivers := of_Z 16; failedTasks := zero; fullyBlocked := false;
  blockedReasons := None; progressPercentage := Some (of_decimal 625 1);
  totalMemoryReservation := js "1.5GB"; peakTotalMemoryReservation := js "2GB";
  userMemoryReservation := js "512MB"; cumulativeUserMemory := of_Z 123456 |}.

Definition sample_query (id st : jstring) (ety : option jstring) (code : option error_code) : query := {|
  queryId := id; q_state := st; scheduled := true; memoryPool := None;
  errorType := ety; errorCode := code; queryStats := Some sample_stats;
  sessionUser := Some (js "alice"); sessionSource := Some (js "trino-cli");
  sessionPrincipal := None; resourceGroupId := Some [js "global"; js "adhoc"];
  queryTextPreview := js "SELECT 1"; retryPolicy := None |}.

Lemma failed_state_text_witness :
  getHumanReadableState
    (sample_query (js "q1") (js "FAILED") (Some (js "USER_ERROR"))
       (Some {| ec_name := js "USER_CANCELED"; ec_code := of_Z 19 |})) false
  = Ok (js "EXTERNAL ERROR").
Proof.
  apply (failed_state_text _ {| ec_name := js "USER_CANCELED"; ec_code := of_Z 19 |} (js "USER_ERROR") false).
  - reflexivity.
  - reflexivity.
  - reflexivity.
  - by apply (bool_decide_unpack _).
Defined.

(** The colour of a query is always defined, except that a failed query of error type
    USER_ERROR without an error code raises a TypeError. *)
Theorem query_color_throws_iff (q : query) :
  getQueryStateColor q = Throw TypeError ↔
  q_state q = js "FAILED" ∧ errorType q = Some (js "USER_ERROR") ∧ errorCode q = None.
Proof.
  unfold getQueryStateColor. split.
  - repeat match goal with
           | |- (if ?b then _ else _) = _ → _ => destruct b eqn:?
           end; try done.
    boolp. destruct (errorCode q) eqn:Ec; simpl; [done|].
    rewrite feq_Some in *. done.
  - intros (-> & -> & ->). reflexivity.
Qed.

(** A progress value between 0 and 100 gives a bar between 0 and 100 percent wide, in
    every state of the query, and the bar of a query that is not running is full. *)
Theorem progress_bar_bounds (q : query) (s : query_stats) :
  queryStats q = Some s →
  (∀ p, progressPercentage s = Some p →
        valid p = true ∧ nleb zero p = true ∧ nleb p (of_Z 100) = true) →
  ∃ pct, getProgressBarPercentage q = Ok pct ∧
         nleb zero pct = true ∧ nleb pct (of_Z 100) = true ∧
         (q_state q ≠ js "RUNNING" → pct = of_Z 100).
Proof.
  intros Hs Hp. unfold getProgressBarPercentage. rewrite Hs. simpl.
  destruct (progressPercentage s) as [p|]; [|by exists (of_Z 100)].
  destruct (Hp p eq_refl) as (V & H1 & H2).
  destruct (negb (ntruthy p) || negb (jeqb (q_state q) (js "RUNNING"))) eqn:E;
    [by exists (of_Z 100)|].
  exists (nround p). split; [done|].
  destruct (nround_bounds 0 100 p) as [? ?]; [done..|].
  split; [done|]. split; [done|]. boolp. intros []. by apply E.
Qed.

Lemma progress_bar_bounds_witness :
  ∃ pct, getProgressBarPercentage (sample_query (js "q1") (js "RUNNING") None None) = Ok pct ∧
         nleb zero pct = true ∧ nleb pct (of_Z 100) = true ∧
         (js "RUNNING" ≠ js "RUNNING" → pct = of_Z 100).
Proof.
  apply (progress_bar_bounds (sample_query (js "q1") (js "RUNNING") None None) sample_stats).
  - reflexivity.
  - intros p [= <-]. vm_compute. auto.
Defined.
