(* ===== verification/Format.v ===== *)
(** * Utility functions (utils.js, "Utility functions")

    Identifiers, URLs, rates, and the parsers and printers of counts, durations,
    data sizes and times. *)

From S2P Require Import Prelude JsString JsNumber JsNumberFacts JsRegex.

(** ** Strings and identifiers *)

(** [truncateString] returns [null] and [undefined] as they are. *)
Definition truncateString (inputString : option jstring) (len : nat) : option jstring :=
  match inputString with
  | Some s =>
    if truthy s && (len <? length s) then Some (substring 0 len s ++ js "...") else Some s
  | None => None
  end.

(** [s.slice(s.indexOf('.') + 1, s.length)]: without a dot the whole string. *)
Definition after_dot (s : jstring) : jstring :=
  match indexOf [DOT] s with Some i => drop (i + 1) s | None => s end.

Definition getStageNumber (stageId : jstring) : number := parseInt (after_dot stageId).

Definition getTaskIdSuffix (taskId : jstring) : jstring := after_dot taskId.

Definition getTaskNumber (taskId : jstring) : number :=
  parseInt (getTaskIdSuffix (getTaskIdSuffix taskId)).

Definition getFirstParameter (searchString : jstring) : jstring :=
  let searchText := substring_from 1 searchString in
  match indexOf [AMP] searchText with
  | Some i => substring 0 i searchText
  | None => searchText
  end.

(** ** URLs

    The WHATWG URL parser of the browser: [new URL(s)] throws on an invalid URL. *)

Record url := { hostname : jstring; port : jstring }.
Class UrlParser := new_URL : jstring → res url.

Section urls.
Context `{UrlParser}.

Definition getHostname (s : jstring) : res jstring :=
  u ← new_URL s;
  let hostname := hostname u in
  if jeqb (charAt 0 hostname) (js "[") && jeqb (charAt (length hostname - 1) hostname) (js "]")
  then Ok (take (length hostname - 2) (drop 1 hostname))
  else Ok hostname.

Definition getPort (s : jstring) : res jstring := port <$> new_URL s.

Definition getHostAndPort (s : jstring) : res jstring :=
  u ← new_URL s; Ok (hostname u ++ js ":" ++ port u).
End urls.

(** ** Rates and rounding *)

(** The operands may be [null] (an unparsable size or duration), which counts as 0 in
    arithmetic but is not [=== 0]. *)
Definition computeRate (count ms : option number) : number :=
  if match ms with Some m => neqb m zero | None => false end then zero
  else nmul (ndiv (num_of_nullable count) (num_of_nullable ms)) (of_Z 1000).

Definition precisionRound (n : number) : jstring :=
  if nltb n (of_Z 10) then toFixed 2 n
  else if nltb n (of_Z 100) then toFixed 1 n
  else toString (nround n).

(** ** Printers

    [undefined] behaves as NaN in all of them; [null] reaches [null.toFixed] and throws. *)

Definition scaleDuration (duration : number) : number * jstring :=
  let '(d, unit) := (duration, js "ms") in
  let '(d, unit) := if ngtb d (of_Z 1000) then (ndiv d (of_Z 1000), js "s") else (d, unit) in
  let '(d, unit) := if jeqb unit (js "s") && ngtb d (of_Z 60) then (ndiv d (of_Z 60), js "m") else (d, unit) in
  let '(d, unit) := if jeqb unit (js "m") && ngtb d (of_Z 60) then (ndiv d (of_Z 60), js "h") else (d, unit) in
  let '(d, unit) := if jeqb unit (js "h") && ngtb d (of_Z 24) then (ndiv d (of_Z 24), js "d") else (d, unit) in
  let '(d, unit) := if jeqb unit (js "d") && ngtb d (of_Z 7) then (ndiv d (of_Z 7), js "w") else (d, unit) in
  (d, unit).

Definition formatDuration (duration : number) : jstring :=
  let '(d, unit) := scaleDuration duration in precisionRound d ++ unit.

(** One [if (count > 1000) { count /= 1000; unit = ...; }]. *)
Definition scaleStep (over : number → bool) (by_ : number) (unit : jstring)
  (cu : number * jstring) : number * jstring :=
  if over cu.1 then (ndiv cu.1 by_, unit) else cu.

Definition scaleCount (count : number) : number * jstring :=
  let step := scaleStep (λ c, ngtb c (of_Z 1000)) (of_Z 1000) in
  step (js "Q") (step (js "T") (step (js "B") (step (js "M") (step (js "K") (count, js ""))))).

Definition formatCount (count : number) : jstring :=
  let '(c, unit) := scaleCount count in precisionRound c ++ unit.

Definition formatRows (count : number) : jstring :=
  if neqb count (of_Z 1) then js "1 row" else formatCount count ++ js " rows".

Definition scaleDataSize (size : number) (minUnit : jstring) : number * jstring :=
  let step u := scaleStep (λ c, ngeb c (of_Z 1024)) (of_Z 1024) (u ++ minUnit) in
  step (js "P") (step (js "T") (step (js "G") (step (js "M") (step (js "K") (size, minUnit))))).

Definition formatDataSizeMinUnit (size : number) (minUnit : jstring) : jstring :=
  if neqb size zero then js "0" ++ minUnit
  else let '(c, unit) := scaleDataSize size minUnit in precisionRound c ++ unit.

Definition formatDataSizeBytes (size : number) : jstring := formatDataSizeMinUnit size [].

Definition formatDataSize (size : number) : jstring := formatDataSizeMinUnit size (js "B").

(** A printer applied to the result of a parser: [null.toFixed] is a TypeError. *)
Definition on_nullable (f : number → jstring) (o : option number) : res jstring :=
  n ← deref o; Ok (f n).

(** ** Parsers *)

(** [/^\s*(\d+(?:\.\d+)?)\s*([a-zA-Z]+)\s*$/] *)
Definition QUANTITY_PATTERN : regex :=
  RSeq (RStar true (RChar is_space))
  (RSeq (RGroup 1 (RSeq (RPlus (RChar is_digit))
                        (ROpt (RSeq (RChar (N.eqb DOT)) (RPlus (RChar is_digit))))))
  (RSeq (RStar true (RChar is_space))
  (RSeq (RGroup 2 (RPlus (RChar is_letter)))
  (RSeq (RStar true (RChar is_space))
  REnd)))).
Definition DATA_SIZE_PATTERN : regex := QUANTITY_PATTERN.
Definition DURATION_PATTERN : regex := QUANTITY_PATTERN.

Definition parseDataSize (value : jstring) : option number :=
  caps ← exec_anchored DATA_SIZE_PATTERN value;
  m1 ← group 1 caps;
  m2 ← group 2 caps;
  let number := parseFloat m1 in
  if jeqb m2 (js "B") then Some number
  else if jeqb m2 (js "kB") then Some (nmul number (of_Z (2 ^ 10)))
  else if jeqb m2 (js "MB") then Some (nmul number (of_Z (2 ^ 20)))
  else if jeqb m2 (js "GB") then Some (nmul number (of_Z (2 ^ 30)))
  else if jeqb m2 (js "TB") then Some (nmul number (of_Z (2 ^ 40)))
  else if jeqb m2 (js "PB") then Some (nmul number (of_Z (2 ^ 50)))
  else None.

Definition parseAndFormatDataSize (value : jstring) : jstring :=
  match parseDataSize value with
  | None => []
  | Some parsed => formatDataSize parsed
  end.

Definition parseDuration (value : jstring) : option number :=
  caps ← exec_anchored DURATION_PATTERN value;
  m1 ← group 1 caps;
  m2 ← group 2 caps;
  let number := parseFloat m1 in
  if jeqb m2 (js "ns") then Some (ndiv number (of_Z 1000000))
  else if jeqb m2 (js "us") then Some (ndiv number (of_Z 1000))
  else if jeqb m2 (js "ms") then Some number
  else if jeqb m2 (js "s") then Some (nmul number (of_Z 1000))
  else if jeqb m2 (js "m") then Some (nmul (nmul number (of_Z 1000)) (of_Z 60))
  else if jeqb m2 (js "h") then Some (nmul (nmul (nmul number (of_Z 1000)) (of_Z 60)) (of_Z 60))
  else if jeqb m2 (js "d") then
    Some (nmul (nmul (nmul (nmul number (of_Z 1000)) (of_Z 60)) (of_Z 60)) (of_Z 24))
  else None.

(** ** Times *)

(** The local calendar fields of a [Date]; the fields of an invalid one are NaN. *)
Record calendar := {
  getFullYear : Z; getMonth : N; getDate : N; getHours : N; getMinutes : N;
}.
Inductive date := InvalidDate | ValidDate (c : calendar).

(** [Date.parse]: milliseconds since the epoch, or NaN; the formats beyond ISO 8601 are up to
    the browser. *)
Class DateParse := Date_parse : jstring → number.
(** [new Date(ms)] read in the time zone of the browser. *)
Class LocalTime := local_date : number → date.

Definition formatShortTime (d : date) : jstring :=
  match d with
  | InvalidDate => js "12:NaNam"
  | ValidDate c =>
    let h := (getHours c mod 12)%N in
    let hours := if (h =? 0)%N then 12%N else h in
    let minutes := (if (getMinutes c <? 10)%N then js "0" else []) ++ dec (getMinutes c) in
    dec hours ++ js ":" ++ minutes ++ (if (12 <=? getHours c)%N then js "pm" else js "am")
  end.

(** [s[1] ? s : "0" + s[0]] *)
Definition pad2 (s : jstring) : jstring :=
  match s !! 1 with Some _ => s | None => js "0" ++ charAt 0 s end.

Definition formatShortDateTime (d : date) : jstring :=
  match d with
  | InvalidDate => js "NaN-NaN-NaN " ++ formatShortTime d
  | ValidDate c =>
    dec_Z (getFullYear c) ++ js "-" ++ pad2 (dec (getMonth c + 1)) ++ js "-" ++ pad2 (dec (getDate c))
    ++ js " " ++ formatShortTime d
  end.

Example parse_size : parseDataSize (js "  1.5 GB ") = Some (of_Z 1610612736).
Proof. vm_compute. reflexivity. Qed.
Example parse_and_format : parseAndFormatDataSize (js "1234567B") = js "1.18MB".
Proof. vm_compute. reflexivity. Qed.
Example parse_duration : parseDuration (js "2.50m") = Some (of_Z 150000).
Proof. vm_compute. reflexivity. Qed.
Example parse_bad : parseDuration (js "2.m") = None.
Proof. vm_compute. reflexivity. Qed.
Example format_duration : formatDuration (of_Z 93784000) = js "1.09d".
Proof. vm_compute. reflexivity. Qed.
Example format_count : formatCount (of_Z 12345) = js "12.3K".
Proof. vm_compute. reflexivity. Qed.
Example task_number : getTaskNumber (js "20220511_091011_00001_abcde.2.13") = of_Z 13.
Proof. vm_compute. reflexivity. Qed.
