(* ===== verification/FormatFacts.v ===== *)
(** * Properties of the parsers and printers *)

From S2P Require Import Prelude JsString JsNumber JsNumberFacts JsRegex Format.

(** ** The grammar of quantities

    What [/^\s*(\d+(?:\.\d+)?)\s*([a-zA-Z]+)\s*$/] is meant to accept. *)

Definition all (p : N → bool) (s : jstring) : Prop := Forall (λ c, p c = true) s.

Inductive decimal : jstring → Prop :=
| decimal_int ip : ip ≠ [] → all is_digit ip → decimal ip
| decimal_frac ip fp :
    ip ≠ [] → fp ≠ [] → all is_digit ip → all is_digit fp → decimal (ip ++ DOT :: fp).

Inductive quantity (s num unit : jstring) : Prop :=
| quantity_intro w1 w2 w3 :
    s = w1 ++ num ++ w2 ++ unit ++ w3 →
    all is_space w1 → decimal num → all is_space w2 →
    unit ≠ [] → all is_letter unit → all is_space w3 →
    quantity s num unit.

(** ** The pattern matches exactly the grammar *)

Lemma take_captured {A} (a b : list A) : take (length (a ++ b) - length b) (a ++ b) = a.
Proof. rewrite length_app, Nat.add_sub. apply take_app_length. Qed.

Lemma number_group_spec s c st' :
  st' ∈ rmatch (RSeq (RPlus (RChar is_digit))
                 (ROpt (RSeq (RChar (N.eqb DOT)) (RPlus (RChar is_digit))))) (s, c) ↔
  ∃ num, decimal num ∧ s = num ++ st'.1 ∧ st'.2 = c.
Proof.
  rewrite elem_of_rmatch_seq. split.
  - intros ([s1 c1] & H1 & H2). apply elem_of_plus_char in H1 as (ip & -> & Hne & Hip & <-).
    apply elem_of_opt in H2 as [H2| ->].
    + apply elem_of_rmatch_seq in H2 as ([s2 c2] & H2 & H3).
      apply elem_of_rmatch_char in H2 as (x & Hx & Hd & Hc2). apply N.eqb_eq in Hd as <-.
      apply elem_of_plus_char in H3 as (fp & Hs2 & Hfne & Hfp & Hc). simpl in *. subst.
      exists (ip ++ DOT :: fp). rewrite <-app_assoc. split; [by constructor|done].
    + exists ip. split; [by constructor|done].
  - destruct st' as [s' c']. simpl.
    intros (num & Hnum & -> & ->). destruct Hnum as [ip Hne Hip|ip fp Hne Hfne Hip Hfp].
    + exists (s', c). split; [apply elem_of_plus_char; by exists ip|].
      apply elem_of_opt. by right.
    + exists (DOT :: fp ++ s', c). split.
      { apply elem_of_plus_char. exists ip. by rewrite <-app_assoc. }
      apply elem_of_opt. left. apply elem_of_rmatch_seq. exists (fp ++ s', c). split.
      * apply elem_of_rmatch_char. exists DOT. by rewrite N.eqb_refl.
      * apply elem_of_plus_char. by exists fp.
Qed.

Lemma pattern_sound s st :
  st ∈ rmatch QUANTITY_PATTERN (s, []) →
  ∃ num unit, quantity s num unit ∧ st.2 = [(2, unit); (1, num)].
Proof.
  unfold QUANTITY_PATTERN. rewrite elem_of_rmatch_seq.
  intros ([s1 c1] & H1 & H). apply elem_of_star_char in H1 as (w1 & E1 & Hw1 & Ec1).
  apply elem_of_rmatch_seq in H as ([s2 c2] & H2 & H).
  apply elem_of_group in H2 as ([s2' c2'] & H2 & Es2 & Ec2).
  apply number_group_spec in H2 as (num & Hnum & En & Ecn).
  apply elem_of_rmatch_seq in H as ([s3 c3] & H3 & H).
  apply elem_of_star_char in H3 as (w2 & E3 & Hw2 & Ec3).
  apply elem_of_rmatch_seq in H as ([s4 c4] & H4 & H).
  apply elem_of_group in H4 as ([s4' c4'] & H4 & Es4 & Ec4).
  apply elem_of_plus_char in H4 as (unit & Eu & Hune & Hu & Ecu).
  apply elem_of_rmatch_seq in H as ([s5 c5] & H5 & H).
  apply elem_of_star_char in H5 as (w3 & E5 & Hw3 & Ec5).
  apply elem_of_end in H as [-> E6]. simpl in *. subst. rewrite app_nil_r in *.
  exists num, unit. split; [by econstructor|].
  rewrite !take_captured. done.
Qed.

Lemma pattern_complete s num unit :
  quantity s num unit → ∃ st, st ∈ rmatch QUANTITY_PATTERN (s, []).
Proof.
  intros [w1 w2 w3 -> Hw1 Hnum Hw2 Hune Hu Hw3].
  exists ([], [(2, unit); (1, num)]). unfold QUANTITY_PATTERN.
  apply elem_of_rmatch_seq. exists (num ++ w2 ++ unit ++ w3, []). split.
  { apply elem_of_star_char. by exists w1. }
  apply elem_of_rmatch_seq. exists (w2 ++ unit ++ w3, [(1, num)]). split.
  { apply elem_of_group. exists (w2 ++ unit ++ w3, []). split; [|split; [done|]].
    - apply number_group_spec. by exists num.
    - cbn [fst snd]. by rewrite take_captured. }
  apply elem_of_rmatch_seq. exists (unit ++ w3, [(1, num)]). split.
  { apply elem_of_star_char. by exists w2. }
  apply elem_of_rmatch_seq. exists (w3, [(2, unit); (1, num)]). split.
  { apply elem_of_group. exists (w3, [(1, num)]). split; [|split; [done|]].
    - apply elem_of_plus_char. by exists unit.
    - cbn [fst snd]. by rewrite take_captured. }
  apply elem_of_rmatch_seq. exists ([], [(2, unit); (1, num)]). split.
  { apply elem_of_star_char. exists w3. by rewrite app_nil_r. }
  by apply elem_of_end.
Qed.

(** ** The grammar is unambiguous: a left-to-right scanner recovers the parts *)

Definition scan (s : jstring) : option (jstring * jstring) :=
  let s1 := (span is_space s).2 in
  let '(ip, s2) := span is_digit s1 in
  let '(num, s3) := match s2 with
                    | c :: s2' => if (c =? DOT)%N then
                                    let '(fp, s3) := span is_digit s2' in (ip ++ DOT :: fp, s3)
                                  else (ip, s2)
                    | [] => (ip, s2)
                    end in
  let s4 := (span is_space s3).2 in
  let '(unit, _) := span is_letter s4 in
  Some (num, unit).

Lemma span_app_ne p q a b :
  all p a → b ≠ [] → all q b → (∀ c, q c = true → p c = false) → ∀ r,
  span p (a ++ b ++ r) = (a, b ++ r).
Proof.
  intros Ha Hne Hb Hpq r. apply span_app; [done|].
  destruct b as [|c b]; [done|]. simpl. apply Hpq. by apply Forall_cons in Hb as [? _].
Qed.

Lemma dot_not_space : is_space DOT = false. Proof. done. Qed.
Lemma dot_not_digit : is_digit DOT = false. Proof. done. Qed.
Lemma space_not_digit c : is_space c = true → is_digit c = false.
Proof. intros H. destruct (is_digit c) eqn:E; [|done]. apply digit_not_space in E. congruence. Qed.
Lemma space_not_letter c : is_space c = true → is_letter c = false.
Proof. intros H. destruct (is_letter c) eqn:E; [|done]. apply letter_not_space in E. congruence. Qed.
Lemma letter_not_dot c : is_letter c = true → (c =? DOT)%N = false.
Proof. intros H. destruct (N.eqb_spec c DOT) as [->|]; [|done]. by vm_compute in H. Qed.
Lemma space_not_dot c : is_space c = true → (c =? DOT)%N = false.
Proof. intros H. destruct (N.eqb_spec c DOT) as [->|]; [|done]. by vm_compute in H. Qed.

(** What follows the number: white space, then the unit. *)
Lemma follow_cases w2 unit w3 :
  all is_space w2 → unit ≠ [] → all is_letter unit →
  ∃ c r, w2 ++ unit ++ w3 = c :: r ∧ is_digit c = false ∧ (c =? DOT)%N = false.
Proof.
  intros Hw Hne Hu. destruct Hw as [|c w2 Hc _].
  - destruct unit as [|c unit]; [done|]. apply Forall_cons in Hu as [Hc _].
    exists c, (unit ++ w3). split; [done|]. split; [by apply letter_not_digit|by apply letter_not_dot].
  - exists c, (w2 ++ unit ++ w3). split; [done|]. split; [by apply space_not_digit|by apply space_not_dot].
Qed.

Lemma scan_quantity s num unit : quantity s num unit → scan s = Some (num, unit).
Proof.
  intros [w1 w2 w3 -> Hw1 Hnum Hw2 Hune Hu Hw3]. unfold scan.
  assert (span is_space (w1 ++ num ++ w2 ++ unit ++ w3) = (w1, num ++ w2 ++ unit ++ w3)) as ->.
  { apply span_app; [done|]. destruct Hnum as [ip Hne Hip|ip fp Hne _ Hip _];
      (destruct ip as [|c ip]; [done|]); apply Forall_cons in Hip as [Hc _];
      simpl; by apply digit_not_space. }
  cbn [snd].
  assert (∀ r, span is_letter (unit ++ r) = (unit, r) →
          span is_letter (span is_space (w2 ++ unit ++ r)).2 = (unit, r)) as Htail.
  { intros r Hr. rewrite (span_app_ne is_space is_letter) by (done || apply letter_not_space). done. }
  assert (span is_letter (unit ++ w3) = (unit, w3)) as Hunit.
  { apply span_app; [done|]. destruct Hw3 as [|c w3 Hc _]; [done|]. by apply space_not_letter. }
  destruct (follow_cases w2 unit w3 Hw2 Hune Hu) as (c & r & Ef & Hcd & Hcdot).
  destruct Hnum as [ip Hne Hip|ip fp Hne Hfne Hip Hfp].
  - rewrite (span_app is_digit ip) by (done || by rewrite Ef).
    destruct (w2 ++ unit ++ w3) as [|c' r'] eqn:EF; simplify_eq.
    rewrite Hcdot, <-EF. by rewrite (Htail w3 Hunit).
  - rewrite <-app_assoc. rewrite (span_app is_digit ip) by done. simpl.
    rewrite (span_app is_digit fp) by (done || by rewrite Ef).
    by rewrite (Htail w3 Hunit).
Qed.

(** [exec] returns the number and the unit of a quantity, and nothing else matches. *)
Lemma exec_quantity s num unit :
  quantity s num unit → exec_anchored QUANTITY_PATTERN s = Some [(2, unit); (1, num)].
Proof.
  intros Hq. destruct (exec_anchored QUANTITY_PATTERN s) as [caps|] eqn:E.
  - apply exec_anchored_Some in E as [rest Hin]. apply pattern_sound in Hin as (n' & u' & Hq' & E).
    simpl in E. apply scan_quantity in Hq, Hq'. rewrite Hq in Hq'. by simplify_eq.
  - destruct (pattern_complete s num unit Hq) as [st Hst].
    by apply exec_anchored_None with (st := st) in E.
Qed.

Lemma exec_not_quantity s :
  (∀ num unit, ¬ quantity s num unit) → exec_anchored QUANTITY_PATTERN s = None.
Proof.
  intros Hn. destruct (exec_anchored QUANTITY_PATTERN s) as [caps|] eqn:E; [|done].
  apply exec_anchored_Some in E as [rest Hin]. apply pattern_sound in Hin as (n' & u' & Hq & _).
  by destruct (Hn n' u').
Qed.

(** ** Data sizes and durations *)

(** The number of bytes of a data-size unit. *)
Definition size_factor (unit : jstring) : option Z :=
  if jeqb unit (js "B") then Some 1%Z
  else if jeqb unit (js "kB") then Some (2 ^ 10)%Z
  else if jeqb unit (js "MB") then Some (2 ^ 20)%Z
  else if jeqb unit (js "GB") then Some (2 ^ 30)%Z
  else if jeqb unit (js "TB") then Some (2 ^ 40)%Z
  else if jeqb unit (js "PB") then Some (2 ^ 50)%Z
  else None.

(** The number of milliseconds of a duration unit of a millisecond or more. *)
Definition duration_factor (unit : jstring) : option Z :=
  if jeqb unit (js "ms") then Some 1%Z
  else if jeqb unit (js "s") then Some 1000%Z
  else if jeqb unit (js "m") then Some 60000%Z
  else if jeqb unit (js "h") then Some 3600000%Z
  else if jeqb unit (js "d") then Some 86400000%Z
  else None.

Lemma parseFloat_int ds : ds ≠ [] → all is_digit ds → parseFloat ds = of_decimal (decval ds) 0.
Proof.
  intros Hne Hd. unfold parseFloat. rewrite <-(app_nil_r ds) at 1.
  rewrite span_app by done. by destruct ds.
Qed.

Lemma quantity_int n unit :
  unit ≠ [] → all is_letter unit → quantity (dec n ++ unit) (dec n) unit.
Proof.
  intros Hne Hu. apply (quantity_intro _ _ _ [] [] []); simpl; try done; try constructor.
  - by rewrite app_nil_r.
  - apply dec_nonempty.
  - apply dec_digits.
Qed.

Lemma of_decimal_int n : of_decimal n 0 = of_Z (Z.of_N n).
Proof. by destruct n. Qed.

Lemma parseFloat_dec n : parseFloat (dec n) = of_Z (Z.of_N n).
Proof.
  rewrite parseFloat_int by (apply dec_nonempty || apply dec_digits).
  by rewrite decval_dec, of_decimal_int.
Qed.

(** A product of non-negative integers below 2^53. *)
Lemma nmul_of_Z_nonneg a b :
  (0 <= a)%Z → (0 < b < 2 ^ 53)%Z → (a * b < 2 ^ 53)%Z →
  nmul (of_Z a) (of_Z b) = of_Z (a * b).
Proof.
  intros Ha Hb Hab. destruct (Z.eq_dec a 0%Z) as [->|Hne]; [|apply nmul_of_Z; lia].
  destruct b as [|p|p]; try lia.
  destruct (of_Z_pos_exact p ltac:(lia)) as (m & e & -> & _). done.
Qed.

Ltac unit_cases H :=
  repeat match type of H with
  | (if jeqb ?u ?l then _ else _) = Some _ =>
    let E := fresh "E" in destruct (jeqb u l) eqn:E; [apply jeqb_eq in E|]
  end; simplify_eq.

Lemma size_factor_unit unit k :
  size_factor unit = Some k → unit ≠ [] ∧ all is_letter unit ∧ (0 < k < 2 ^ 53)%Z.
Proof.
  unfold size_factor. intros H.
  unit_cases H; (split; [done|]; split; [by repeat constructor|lia]).
Qed.

Lemma duration_factor_unit unit k :
  duration_factor unit = Some k → unit ≠ [] ∧ all is_letter unit ∧ (0 < k < 2 ^ 53)%Z.
Proof.
  unfold duration_factor. intros H.
  unit_cases H; (split; [done|]; split; [by repeat constructor|lia]).
Qed.

Lemma parseDataSize_quantity s num unit :
  quantity s num unit →
  parseDataSize s = match size_factor unit with
                    | Some 1%Z => Some (parseFloat num)
                    | Some k => Some (nmul (parseFloat num) (of_Z k))
                    | None => None
                    end.
Proof.
  intros Hq. unfold parseDataSize, DATA_SIZE_PATTERN. rewrite (exec_quantity s num unit Hq).
  unfold size_factor. cbn [mbind option_bind group Nat.eqb].
  repeat match goal with |- context [jeqb ?a ?b] => destruct (jeqb a b); [done|] end. done.
Qed.

Lemma parseDuration_quantity s num unit :
  quantity s num unit →
  parseDuration s =
    let x := parseFloat num in
    if jeqb unit (js "ns") then Some (ndiv x (of_Z 1000000))
    else if jeqb unit (js "us") then Some (ndiv x (of_Z 1000))
    else if jeqb unit (js "ms") then Some x
    else if jeqb unit (js "s") then Some (nmul x (of_Z 1000))
    else if jeqb unit (js "m") then Some (nmul (nmul x (of_Z 1000)) (of_Z 60))
    else if jeqb unit (js "h") then Some (nmul (nmul (nmul x (of_Z 1000)) (of_Z 60)) (of_Z 60))
    else if jeqb unit (js "d") then
      Some (nmul (nmul (nmul (nmul x (of_Z 1000)) (of_Z 60)) (of_Z 60)) (of_Z 24))
    else None.
Proof.
  intros Hq. unfold parseDuration, DURATION_PATTERN. by rewrite (exec_quantity s num unit Hq).
Qed.

(** [parseDataSize] accepts exactly the quantities of its grammar with a known unit: it
    returns the number scaled by the unit for a text "number unit" with optional white space
    around both, and [null] for every other text, however it is malformed. *)
Theorem parseDataSize_grammar (s : jstring) :
  (∀ num unit k, quantity s num unit → size_factor unit = Some k →
     parseDataSize s = Some (if (k =? 1)%Z then parseFloat num else nmul (parseFloat num) (of_Z k))) ∧
  ((∀ num unit k, quantity s num unit → size_factor unit ≠ Some k) → parseDataSize s = None).
Proof.
  split.
  - intros num unit k Hq Hk. rewrite (parseDataSize_quantity _ _ _ Hq), Hk.
    by destruct k as [|[]|].
  - intros Hn. unfold parseDataSize, DATA_SIZE_PATTERN.
    destruct (exec_anchored QUANTITY_PATTERN s) as [caps|] eqn:E; [|done].
    pose proof E as E'. apply exec_anchored_Some in E as [rest Hin].
    apply pattern_sound in Hin as (num & unit & Hq & Ecaps). simpl in Ecaps. subst caps.
    specialize (Hn num unit). unfold size_factor in Hn. simpl.
    repeat case_match; naive_solver.
Qed.

(** C33: Printing a whole number of a unit and parsing it back gives the exact number of bytes,
    for every size below 2^53 bytes. *)
Theorem parseDataSize_roundtrip (n : N) (unit : jstring) (k : Z) :
  size_factor unit = Some k → (Z.of_N n * k < 2 ^ 53)%Z →
  parseDataSize (dec n ++ unit) = Some (of_Z (Z.of_N n * k)).
Proof.
  intros Hk Hn. destruct (size_factor_unit unit k Hk) as (Hne & Hl & Hk').
  rewrite (parseDataSize_quantity _ _ _ (quantity_int n unit Hne Hl)), Hk, parseFloat_dec.
  destruct (Z.eq_dec k 1%Z) as [->|Hk1]; [by rewrite Z.mul_1_r|].
  rewrite <-nmul_of_Z_nonneg by lia. by destruct k as [|[]|].
Qed.

Lemma parseDataSize_roundtrip_witness :
  parseDataSize (dec 512 ++ js "MB") = Some (of_Z 536870912).
Proof. apply (parseDataSize_roundtrip 512 (js "MB") (2 ^ 20)); reflexivity. Defined.

(** Printing a whole number of milliseconds, seconds, minutes, hours or days and parsing it
    back gives the exact number of milliseconds, for every duration below 2^53 ms. *)
Theorem parseDuration_roundtrip (n : N) (unit : jstring) (k : Z) :
  duration_factor unit = Some k → (Z.of_N n * k < 2 ^ 53)%Z →
  parseDuration (dec n ++ unit) = Some (of_Z (Z.of_N n * k)).
Proof.
  intros Hk Hn. destruct (duration_factor_unit unit k Hk) as (Hne & Hl & Hk').
  rewrite (parseDuration_quantity _ _ _ (quantity_int n unit Hne Hl)), parseFloat_dec. cbv zeta.
  unfold duration_factor in Hk. unit_cases Hk; cbn -[nmul of_Z Z.of_N Z.mul];
    rewrite ?nmul_of_Z_nonneg by lia; do 2 f_equal; lia.
Qed.

Lemma parseDuration_roundtrip_witness : parseDuration (dec 36 ++ js "h") = Some (of_Z 129600000).
Proof. apply (parseDuration_roundtrip 36 (js "h") 3600000); reflexivity. Defined.

(** ** Printed counts *)

Lemma length_fixed_digits f n k :
  (n < 10 ^ N.of_nat (S k))%N → S f ≤ k → length (fixed_digits (S f) n) ≤ S (S k).
Proof.
  intros Hn Hf. unfold fixed_digits. pose proof (length_dec_lt n k Hn).
  set (d := zeros _ ++ dec n).
  assert (length d ≤ S k) by (unfold d, zeros; rewrite length_app, length_replicate; lia).
  rewrite !length_app, length_take, length_drop. simpl. lia.
Qed.

Lemma toFixed_width f x b :
  valid x = true → nleb zero x = true → (0 <= b < 2 ^ 53)%Z → nleb x (of_Z b) = true →
  S f ≤ 3 → (b * 10 ^ Z.of_nat (S f) < 10000)%Z → length (toFixed (S f) x) ≤ 5.
Proof.
  intros V H0 Hb Hle Hf Hlt.
  destruct x as [s|[]| |[] m e]; try done.
  - simpl. apply (length_fixed_digits f 0 3); [done|lia].
  - exfalso. destruct (of_Z_exact b ltac:(lia)) as (_ & Fb & _). by destruct (of_Z b) as [|[]| |].
  - unfold toFixed. cbn [SFabs app].
    pose proof (fixed_int_bounds m e (S f) b V Hb Hle) as Hi.
    assert (ngeb (S754_finite false m e) (of_Z (10 ^ 21)) = false) as ->.
    { unfold ngeb. fold (nleb (of_Z (10 ^ 21)) (S754_finite false m e)).
      destruct (nleb (of_Z (10 ^ 21)) (S754_finite false m e)) eqn:E; [|done].
      assert (0 < 10 ^ Z.of_nat (S f))%Z by (apply Z.pow_pos_nonneg; lia).
      assert (nleb (of_Z b) (of_Z 10000) = true) as Hb' by (rewrite nleb_of_Z, Z.leb_le by lia; nia).
      assert (nleb (of_Z (10 ^ 21)) (of_Z 10000) = true) as Habs; [|by vm_compute in Habs].
      eapply nleb_trans, Hb'; auto with webui. eapply nleb_trans, Hle; auto with webui. }
    apply (length_fixed_digits f _ 3); [|lia].
    change (10 ^ N.of_nat 4)%N with (Z.to_N 10000). lia.
Qed.

Lemma nltb_nleb x y : nltb x y = true → nleb x y = true.
Proof. unfold nltb, nleb, SFltb, SFleb. by destruct (SFcompare x y) as [[]|]. Qed.

Lemma not_nltb_nleb x y :
  is_nan x = false → is_nan y = false → nltb x y = false → nleb y x = true.
Proof.
  intros Nx Ny. unfold nltb, nleb, SFltb, SFleb.
  destruct x as [sx|[]| |[] mx ex], y as [sy|[]| |[] my ey]; simpl; try done.
  - rewrite (Z.compare_antisym ex ey). destruct (ex ?= ey)%Z; simpl; try done.
    change (Pos.compare_cont Eq) with Pos.compare. rewrite (Pos.compare_antisym mx my).
    by destruct (mx ?= my)%positive.
  - rewrite (Z.compare_antisym ex ey). destruct (ex ?= ey)%Z; simpl; try done.
    change (Pos.compare_cont Eq) with Pos.compare. rewrite (Pos.compare_antisym mx my).
    by destruct (mx ?= my)%positive.
Qed.

(** A number between 0 and 1000 prints in at most five characters. *)
Lemma precisionRound_width x :
  valid x = true → nleb zero x = true → nleb x (of_Z 1000) = true →
  length (precisionRound x) ≤ 5.
Proof.
  intros V H0 H1. unfold precisionRound.
  destruct (nltb x (of_Z 10)) eqn:E10.
  { apply (toFixed_width 1 x 10); try done; [by apply nltb_nleb|lia]. }
  destruct (nltb x (of_Z 100)) eqn:E100.
  { apply (toFixed_width 0 x 100); try done; [by apply nltb_nleb|lia]. }
  destruct (nround_integer 0 1000 x) as (z & Hz & Hi); [done..|].
  rewrite (toString_integer _ z) by (done || lia).
  destruct z as [|p|p]; [simpl; lia| |lia].
  unfold dec_Z. etrans; [apply (length_dec_lt _ 3)|lia]. change (10 ^ N.of_nat 4)%N with (Z.to_N 10000). lia.
Qed.

(** [count] after [k] divisions by 1000. *)
Definition thousands (k : nat) (count : number) : number :=
  Nat.iter k (λ c, ndiv c (of_Z 1000)) count.
Definition count_units : list jstring := [js ""; js "K"; js "M"; js "B"; js "T"; js "Q"].

Lemma scaleStep_over over by_ u cu :
  over cu.1 = true → scaleStep over by_ u cu = (ndiv cu.1 by_, u).
Proof. intros H. unfold scaleStep. by rewrite H. Qed.

Lemma scaleStep_under over by_ u cu : over cu.1 = false → scaleStep over by_ u cu = cu.
Proof. intros H. unfold scaleStep. by rewrite H. Qed.

(** Rewrites the remaining steps of the cascade, innermost first, when none applies. *)
Ltac steps_under E :=
  try rewrite (scaleStep_under _ _ (js "K")) by exact E;
  try rewrite (scaleStep_under _ _ (js "M")) by exact E;
  try rewrite (scaleStep_under _ _ (js "B")) by exact E;
  try rewrite (scaleStep_under _ _ (js "T")) by exact E;
  try rewrite (scaleStep_under _ _ (js "Q")) by exact E.

(** The cascade of comparisons picks the least unit that brings the count to 1000 or below. *)
Lemma scaleCount_spec count :
  ∃ k u, count_units !! k = Some u ∧ scaleCount count = (thousands k count, u) ∧
         (∀ j, j < k → ngtb (thousands j count) (of_Z 1000) = true) ∧
         (k < 5 → ngtb (thousands k count) (of_Z 1000) = false).
Proof.
  unfold scaleCount. cbv zeta.
  destruct (ngtb (thousands 0 count) (of_Z 1000)) eqn:E0;
    [rewrite (scaleStep_over _ _ (js "K")) by exact E0|
     steps_under E0; exists 0, (js ""); repeat split; try done; lia].
  destruct (ngtb (thousands 1 count) (of_Z 1000)) eqn:E1;
    [rewrite (scaleStep_over _ _ (js "M")) by exact E1|
     steps_under E1; exists 1, (js "K"); repeat split; try done;
     intros [|j] Hj; done || lia].
  destruct (ngtb (thousands 2 count) (of_Z 1000)) eqn:E2;
    [rewrite (scaleStep_over _ _ (js "B")) by exact E2|
     steps_under E2; exists 2, (js "M"); repeat split; try done;
     intros [|[|j]] Hj; done || lia].
  destruct (ngtb (thousands 3 count) (of_Z 1000)) eqn:E3;
    [rewrite (scaleStep_over _ _ (js "T")) by exact E3|
     steps_under E3; exists 3, (js "B"); repeat split; try done;
     intros [|[|[|j]]] Hj; done || lia].
  destruct (ngtb (thousands 4 count) (of_Z 1000)) eqn:E4;
    [rewrite (scaleStep_over _ _ (js "Q")) by exact E4|
     steps_under E4; exists 4, (js "T"); repeat split; try done;
     intros [|[|[|[|j]]]] Hj; done || lia].
  exists 5, (js "Q"); repeat split; try done; try lia.
  intros [|[|[|[|[|j]]]]] Hj; done || lia.
Qed.

(** [formatCount] prints the count divided by the least power of 1000 that brings it to
    1000 or below (at most 1000^5), followed by the unit of that power. *)
Theorem formatCount_unit (count : number) :
  ∃ k u, k ≤ 5 ∧ count_units !! k = Some u ∧
         formatCount count = precisionRound (thousands k count) ++ u ∧
         (∀ j, j < k → ngtb (thousands j count) (of_Z 1000) = true) ∧
         (k < 5 → ngtb (thousands k count) (of_Z 1000) = false).
Proof.
  destruct (scaleCount_spec count) as (k & u & Hu & Hs & Hover & Hunder).
  exists k, u. split; [apply lookup_lt_Some in Hu; simpl in Hu; lia|].
  unfold formatCount. by rewrite Hs.
Qed.

Lemma thousands_nonneg k count :
  valid count = true → nleb zero count = true →
  valid (thousands k count) = true ∧ nleb zero (thousands k count) = true.
Proof.
  intros V H0. induction k as [|k [IHv IH0]]; [done|].
  change (thousands (S k) count) with (ndiv (thousands k count) (of_Z 1000)).
  split; [auto with webui|by apply ndiv_nonneg].
Qed.

(** The text of a non-negative count that does not exceed the unit Q is at most six
    characters long, however large the count. *)
Theorem formatCount_width (count : number) :
  valid count = true → nleb zero count = true → (scaleCount count).2 ≠ js "Q" →
  length (formatCount count) ≤ 6.
Proof.
  intros V H0 Hu. destruct (scaleCount_spec count) as (k & u & Hk & Hs & _ & Hunder).
  destruct (thousands_nonneg k count V H0) as [Vk H0k].
  rewrite Hs in Hu. unfold formatCount. rewrite Hs, length_app.
  assert (k < 5 ∧ length u ≤ 1) as [Hk5 Hlu].
  { destruct k as [|[|[|[|[|[|k]]]]]]; simpl in Hk; simplify_eq; simpl; try lia; by destruct Hu. }
  enough (length (precisionRound (thousands k count)) ≤ 5) by lia.
  apply precisionRound_width; [done..|]. apply not_nltb_nleb; [done| |by apply Hunder].
  by destruct (thousands k count).
Qed.

Lemma formatCount_width_witness : length (formatCount (of_Z 987654321)) ≤ 6.
Proof. apply (formatCount_width (of_Z 987654321)); [reflexivity|reflexivity|by vm_compute]. Defined.

(** ** Identifiers *)

Lemma after_dot_app a b : DOT ∉ a → after_dot (a ++ DOT :: b) = b.
Proof.
  intros Ha. unfold after_dot. rewrite indexOf_char_first by done.
  rewrite <-(Nat.add_0_r (length a)) at 1. rewrite <-Nat.add_assoc, drop_app_add. done.
Qed.

Lemma parseInt_dec n : parseInt (dec n) = of_Z (Z.of_N n).
Proof.
  unfold parseInt. pose proof (dec_digits n) as Hd. pose proof (dec_nonempty n) as Hne.
  pose proof (decval_dec n) as Hv.
  assert (trimStart (dec n) = dec n) as ->.
  { destruct (dec n) as [|c l]; [done|]. apply Forall_cons in Hd as [Hc _]. simpl.
    by rewrite digit_not_space. }
  assert (∀ p, (∃ c, c ∈ p ∧ is_digit c = false) → starts_with p (dec n) = false) as Hsw.
  { intros p (c & Hin & Hc). destruct (starts_with p (dec n)) eqn:E; [|done].
    apply starts_with_spec in E as [t E]. rewrite E in Hd. apply Forall_app in Hd as [Hp _].
    rewrite Forall_forall in Hp. rewrite (Hp c Hin) in Hc. done. }
  rewrite (Hsw (js "-")) by (exists 45%N; split; [by apply (bool_decide_unpack _)|done]).
  rewrite (Hsw (js "+")) by (exists 43%N; split; [by apply (bool_decide_unpack _)|done]). cbn [orb].
  rewrite (Hsw (js "0x")) by (exists 120%N; split; [by apply (bool_decide_unpack _)|done]).
  rewrite (Hsw (js "0X")) by (exists 88%N; split; [by apply (bool_decide_unpack _)|done]). cbn [orb].
  rewrite <-(app_nil_r (dec n)) at 1. rewrite span_app by done. simpl.
  by destruct (dec n) eqn:E; rewrite ?Hv.
Qed.

Lemma dot_not_in_dec n : DOT ∉ dec n.
Proof. by apply dec_no_char. Qed.

(** From the identifiers "query.stage" and "query.stage.task" the stage and task numbers
    that were printed into them are recovered, for every query id without a dot. *)
Theorem id_roundtrip (queryId : jstring) (stage task : N) :
  DOT ∉ queryId →
  getStageNumber (queryId ++ DOT :: dec stage) = of_Z (Z.of_N stage) ∧
  getTaskIdSuffix (queryId ++ DOT :: dec stage ++ DOT :: dec task) = dec stage ++ DOT :: dec task ∧
  getTaskNumber (queryId ++ DOT :: dec stage ++ DOT :: dec task) = of_Z (Z.of_N task).
Proof.
  intros Hq. unfold getStageNumber, getTaskNumber, getTaskIdSuffix.
  rewrite !after_dot_app by (done || apply dot_not_in_dec). by rewrite !parseInt_dec.
Qed.

Lemma id_roundtrip_witness :
  getTaskNumber (js "20220511_091011_00001_abcde" ++ DOT :: dec 2 ++ DOT :: dec 13) = of_Z 13.
Proof.
  apply (id_roundtrip (js "20220511_091011_00001_abcde") 2 13).
  by apply (bool_decide_unpack _).
Defined.

(** The first parameter of a location's search string is what stands between the question
    mark and the first ampersand, or everything after the question mark. *)
Theorem getFirstParameter_spec (p rest : jstring) :
  AMP ∉ p →
  getFirstParameter (js "?" ++ p) = p ∧ getFirstParameter (js "?" ++ p ++ AMP :: rest) = p.
Proof.
  intros Hp. unfold getFirstParameter, substring_from. simpl. rewrite drop_0. split.
  - by rewrite (proj2 (indexOf_char_None AMP p)).
  - rewrite drop_0, indexOf_char_first by done. unfold substring. rewrite Nat.sub_0_r, drop_0.
    apply take_app_length.
Qed.

Lemma getFirstParameter_spec_witness : getFirstParameter (js "?q1&pretty") = js "q1".
Proof.
  apply (getFirstParameter_spec (js "q1") (js "pretty")). by apply (bool_decide_unpack _).
Defined.

(** [truncateString] never returns more than [len] characters and the three dots, keeps
    the string when it fits, and otherwise keeps its first [len] characters. *)
Theorem truncateString_spec (s : jstring) (len : nat) :
  ∃ r, truncateString (Some s) len = Some r ∧ length r ≤ len + 3 ∧
       take len r = take len s ∧ (length s ≤ len → r = s) ∧
       (len < length s → r = take len s ++ js "...").
Proof.
  unfold truncateString, substring. rewrite drop_0, Nat.sub_0_r.
  destruct (Nat.ltb_spec len (length s)) as [Hlt|Hge].
  - assert (truthy s = true) as -> by (destruct s; [simpl in Hlt; lia|done]).
    exists (take len s ++ js "..."). split; [done|].
    rewrite length_app, length_take_le by lia. split; [simpl; lia|].
    split; [|split; [lia|done]]. rewrite take_app_le, take_take by (rewrite length_take; lia).
    by rewrite Nat.min_id.
  - rewrite andb_false_r. exists s. split; [done|]. split; [lia|]. split; [done|]. split; [done|lia].
Qed.

(** ** Times of day *)

(** The inverse of [formatShortTime] on its range. *)
Definition readShortTime (s : jstring) : option (N * N) :=
  match split (js ":") s with
  | [h; rest] =>
    let h := decval h in
    let m := decval (take 2 rest) in
    let suffix := drop 2 rest in
    if jeqb suffix (js "am") then Some ((if (h =? 12)%N then 0 else h)%N, m)
    else if jeqb suffix (js "pm") then Some ((if (h =? 12)%N then 12 else h + 12)%N, m)
    else None
  | _ => None
  end.

Definition day_minutes : list (N * N) :=
  h ← seq 0 24; m ← seq 0 60; [(N.of_nat h, N.of_nat m)].

Lemma short_time_all :
  forallb (λ hm, bool_decide (readShortTime (formatShortTime (ValidDate
    {| getFullYear := 0; getMonth := 0; getDate := 1; getHours := hm.1; getMinutes := hm.2 |})) = Some hm))
    day_minutes = true.
Proof. vm_compute. reflexivity. Qed.

Lemma day_minutes_elem h m : (h < 24)%N → (m < 60)%N → (h, m) ∈ day_minutes.
Proof.
  intros Hh Hm. unfold day_minutes. apply list_elem_of_bind. exists (N.to_nat h). split.
  - apply list_elem_of_bind. exists (N.to_nat m). split.
    + rewrite !N2Nat.id. apply list_elem_of_singleton. done.
    + apply elem_of_seq. lia.
  - apply elem_of_seq. lia.
Qed.

(** The twelve-hour clock text determines the hour and the minute: reading it back gives
    the time it was printed from, at every minute of the day. *)
Theorem formatShortTime_roundtrip (c : calendar) :
  (getHours c < 24)%N → (getMinutes c < 60)%N →
  readShortTime (formatShortTime (ValidDate c)) = Some (getHours c, getMinutes c).
Proof.
  intros Hh Hm. pose proof short_time_all as H. rewrite forallb_forall in H.
  specialize (H (getHours c, getMinutes c)). rewrite bool_decide_eq_true in H.
  apply H. apply list_elem_of_In. by apply day_minutes_elem.
Qed.

Lemma formatShortTime_roundtrip_witness :
  readShortTime (formatShortTime (ValidDate
    {| getFullYear := 2022; getMonth := 4; getDate := 11; getHours := 12; getMinutes := 5 |}))
  = Some (12%N, 5%N).
Proof.
  apply (formatShortTime_roundtrip
    {| getFullYear := 2022; getMonth := 4; getDate := 11; getHours := 12; getMinutes := 5 |}); reflexivity.
Defined.
