(* ===== verification/Accuracy.v ===== *)
(** * How accurate the printed data sizes are

    [formatDataSize] divides by 1024 until the number is small and prints it with at most two
    decimals.  Division of doubles by a power of two is exact, so that the only error is that of
    the last rounding.  Exact values are those of [sval], in units of 2^-1074. *)

From S2P Require Import Prelude JsString JsNumber JsNumberFacts Rounding Format FormatFacts.
Local Open Scope Z_scope.

(** ** Division by 1024 *)

Lemma ndiv_1024 m e :
  valid (S754_finite false m e) = true → -1064 < e →
  ndiv (S754_finite false m e) (of_Z 1024) = S754_finite false m (e - 10).
Proof.
  intros V He. pose proof (valid_finite _ _ _ V) as (Hb & _ & Hd). specialize (Hd ltac:(lia)).
  assert (of_Z 1024 = S754_finite false (2 ^ 52) (-42)) as -> by (by vm_compute).
  unfold ndiv, SFdiv, SFdiv_core_binary. cbn [xorb Zdigits2]. rewrite Hd.
  change (Zpos (digits2_pos (2 ^ 52))) with 53. rewrite fexp_max.
  replace (Z.min (Z.max (53 + e - (53 + -42) - 53) eminZ) (e - -42)) with (e - 11) by lia.
  replace (e - -42 - (e - 11)) with 53 by lia.
  assert (Z.div_eucl (Z.shiftl (Zpos m) 53) (Zpos (2 ^ 52)) = (Zpos m * 2, 0)) as ->.
  { rewrite Z.shiftl_mul_pow2 by lia. change (Zpos (2 ^ 52)) with (2 ^ 52).
    pose proof (Z_div_mod (Zpos m * 2 ^ 53) (2 ^ 52) ltac:(lia)) as Hdm.
    destruct (Z.div_eucl _ _) as [q r]. destruct Hdm as [Hq Hr]. f_equal; lia. }
  change (new_location (Zpos (2 ^ 52)) 0) with loc_Exact.
  apply (binary_round_aux_representable false (m * 2)); [lia| |].
  - replace (e - 10 - (e - 11)) with 1 by lia. lia.
  - apply valid_intro; [rewrite fexp_max; lia|lia].
Qed.

(** A double from 1024 on has an exponent that leaves room for the division. *)
Lemma ndiv_1024_exact x :
  valid x = true → is_finite x = true → 1024 * unit_ <= sval x →
  valid (ndiv x (of_Z 1024)) = true ∧ is_finite (ndiv x (of_Z 1024)) = true ∧
  sval (ndiv x (of_Z 1024)) * 1024 = sval x.
Proof.
  intros V F Hx. pose proof unit_pos as Hu. destruct x as [| | |[] m e]; try done; cbn [sval cond_Zopp] in Hx; try lia.
  pose proof (valid_finite _ _ _ V) as (Hb & Hd & _). destruct (digits2_bounds m) as [_ Hm].
  assert (Zpos m < 2 ^ 53) as Hm53 by (eapply Z.lt_le_trans; [exact Hm|apply Z.pow_le_mono_r; lia]).
  assert (-43 < e) as He.
  { destruct (Z.lt_ge_cases (-43) e) as [|He]; [done|]. exfalso.
    assert (2 ^ (e + 1074) <= 2 ^ 1031) by (apply Z.pow_le_mono_r; lia).
    assert (1024 * unit_ = 2 ^ 53 * 2 ^ 1031) by (rewrite <-Z.pow_add_r by lia; reflexivity).
    assert (0 < 2 ^ (e + 1074)) by (apply Z.pow_pos_nonneg; lia). nia. }
  split; [auto with webui|]. rewrite ndiv_1024 by (done || lia). split; [done|]. cbn [sval cond_Zopp].
  replace (e + 1074) with ((e - 10 + 1074) + 10) by lia. rewrite (Z.pow_add_r 2 (e - 10 + 1074)) by lia.
  change (2 ^ 10) with 1024. ring.
Qed.

(** ** The cascade of units *)

Definition size_units : list jstring := [js "B"; js "KB"; js "MB"; js "GB"; js "TB"; js "PB"].

(** After [i] comparisons: the number is the size divided by a power of 1024, at least 1 after a
    division, and below 1024 unless every comparison so far has led to one. *)
Record scaled (size : number) (i : nat) (cu : number * jstring) (k : nat) : Prop := {
  sc_valid : valid cu.1 = true;
  sc_finite : is_finite cu.1 = true;
  sc_unit : size_units !! k = Some cu.2;
  sc_value : sval cu.1 * 1024 ^ Z.of_nat k = sval size;
  sc_one : k = O ∨ unit_ <= sval cu.1;
  sc_small : k = i ∨ sval cu.1 < 1024 * unit_;
}.

Lemma ngeb_1024 x : valid x = true → is_finite x = true → ngeb x (of_Z 1024) = (1024 * unit_ <=? sval x).
Proof.
  intros V F. destruct (of_Z_exact 1024) as (V' & F' & E'); [done|].
  change (ngeb x (of_Z 1024)) with (nleb (of_Z 1024) x). rewrite nleb_sval by done. by rewrite E'.
Qed.

Lemma scaled_step size i cu k u :
  scaled size i cu k → size_units !! S i = Some u →
  ∃ k', scaled size (S i) (scaleStep (λ c, ngeb c (of_Z 1024)) (of_Z 1024) u cu) k'.
Proof.
  intros [V F Hu Hv H1 Hs] Hu'. unfold scaleStep. rewrite ngeb_1024 by done.
  destruct (Z.leb_spec (1024 * unit_) (sval cu.1)) as [Hge|Hlt].
  - destruct Hs as [->|Hs]; [|lia]. destruct (ndiv_1024_exact _ V F Hge) as (V' & F' & E').
    exists (S i). split; cbn [fst snd]; [done..| | |by left].
    + rewrite <-Hv, <-E', Nat2Z.inj_succ, Z.pow_succ_r by lia. ring.
    + right. pose proof unit_pos. lia.
  - exists k. split; try done. by right.
Qed.

Lemma scaled_size size :
  valid size = true → is_finite size = true → ∃ k, scaled size 5 (scaleDataSize size (js "B")) k.
Proof.
  intros V F. assert (scaled size 0 (size, js "B") 0) as H0 by (split; [done..|cbn; lia|by left|by left]).
  unfold scaleDataSize. cbv zeta.
  destruct (scaled_step size 0 _ _ (js "KB") H0 eq_refl) as [k1 H1].
  destruct (scaled_step size 1 _ _ (js "MB") H1 eq_refl) as [k2 H2].
  destruct (scaled_step size 2 _ _ (js "GB") H2 eq_refl) as [k3 H3].
  destruct (scaled_step size 3 _ _ (js "TB") H3 eq_refl) as [k4 H4].
  exact (scaled_step size 4 _ _ (js "PB") H4 eq_refl).
Qed.

(** ** The last rounding *)

Lemma fixed_int_accurate m e f :
  valid (S754_finite false m e) = true →
  0 <= fixed_int m e f ∧
  2 * Z.abs (fixed_int m e f * unit_ - 10 ^ Z.of_nat f * sval (S754_finite false m e)) <= unit_.
Proof.
  intros V. pose proof (valid_finite _ _ _ V) as ([He0 _] & _ & _). pose proof unit_pos as Hp.
  assert (0 < 10 ^ Z.of_nat f) as Hf by (apply Z.pow_pos_nonneg; lia). unfold fixed_int.
  set (p := 10 ^ Z.of_nat f) in *. destruct (Z.leb_spec 0 e) as [He|He].
  - cbn [sval cond_Zopp]. rewrite Z.pow_add_r by lia. assert (0 < 2 ^ e) by (apply Z.pow_pos_nonneg; lia).
    split; [nia|]. replace (Zpos m * 2 ^ e * p * unit_ - p * (Zpos m * (2 ^ e * unit_))) with 0 by ring. lia.
  - pose proof (sval_neg_exp false m e ltac:(lia)) as Hs. cbn [cond_Zopp] in Hs. set (k := - e) in *.
    set (sv := sval _) in *. assert (0 < 2 ^ k) as Hk by (apply Z.pow_pos_nonneg; lia).
    rewrite Z.add_1_r, Z.pow_succ_r by lia. set (n := (2 * Zpos m * p + 2 ^ k) / (2 * 2 ^ k)).
    assert (2 * 2 ^ k * n <= 2 * Zpos m * p + 2 ^ k < 2 * 2 ^ k * (n + 1)) as Hn.
    { subst n. pose proof (Z.mul_div_le (2 * Zpos m * p + 2 ^ k) (2 * 2 ^ k) ltac:(lia)).
      pose proof (Z.mul_succ_div_gt (2 * Zpos m * p + 2 ^ k) (2 * 2 ^ k) ltac:(lia)). lia. }
    split; [subst n; apply Z.div_pos; nia|].
    assert (2 * Z.abs (n * 2 ^ k - Zpos m * p) <= 2 ^ k) as Ha by nia.
    apply (Zmult_le_reg_r _ _ (2 ^ k)); [lia|].
    replace (2 * Z.abs (n * unit_ - p * sv) * 2 ^ k) with (2 * Z.abs (n * 2 ^ k - Zpos m * p) * unit_); [nia|].
    rewrite <-!Z.mul_assoc. f_equal. rewrite <-(Z.abs_eq unit_), <-(Z.abs_eq (2 ^ k)), <-!Z.abs_mul by lia. f_equal.
    rewrite (Z.abs_eq unit_), (Z.abs_eq (2 ^ k)) by lia. rewrite !Z.mul_sub_distr_r.
    replace (p * sv * 2 ^ k) with (p * (sv * 2 ^ k)) by ring. rewrite Hs. ring.
Qed.

(** Below 1024 [toFixed] rounds to the nearest decimal. *)
Lemma toFixed_small f m e :
  valid (S754_finite false m e) = true → sval (S754_finite false m e) < 1024 * unit_ →
  toFixed f (S754_finite false m e) = fixed_digits f (Z.to_N (fixed_int m e f)).
Proof.
  intros V Hx. unfold toFixed. cbn [SFabs app].
  change (ngeb (S754_finite false m e) (of_Z (10 ^ 21))) with (nleb (of_Z (10 ^ 21)) (S754_finite false m e)).
  rewrite nleb_sval by (done || by vm_compute).
  destruct (Z.leb_spec (sval (of_Z (10 ^ 21))) (sval (S754_finite false m e))) as [Hle|]; [|done]. exfalso.
  assert (1024 * unit_ <= sval (of_Z (10 ^ 21))) by (apply Z.leb_le; by vm_compute). lia.
Qed.

Lemma nltb_small x b :
  valid x = true → is_finite x = true → Z.abs b < 2 ^ 53 → nltb x (of_Z b) = (sval x <? b * unit_).
Proof. intros V F Hb. destruct (of_Z_exact b Hb) as (V' & F' & E'). by rewrite nltb_sval, E'. Qed.

(** Between 1 and 1024, [Math.round] is the rounding to no decimals. *)
Lemma nround_small m e :
  valid (S754_finite false m e) = true → unit_ <= sval (S754_finite false m e) < 1024 * unit_ →
  toString (nround (S754_finite false m e)) = fixed_digits 0 (Z.to_N (fixed_int m e 0)).
Proof.
  intros V [H1 H2]. destruct (fixed_int_accurate m e 0 V) as [H0 Ha]. pose proof unit_pos as Hu.
  assert (0 < fixed_int m e 0 <= 1024) as Hn by (change (10 ^ Z.of_nat 0) with 1 in Ha; nia).
  pose proof (valid_finite _ _ _ V) as ([He0 _] & _ & Hd). destruct (digits2_bounds m) as [Hm _].
  assert (e < 0) as He.
  { destruct (Z.lt_ge_cases e 0); [done|]. exfalso. rewrite Hd in Hm by lia. cbn [sval cond_Zopp] in H2.
    rewrite Z.pow_add_r in H2 by lia. assert (0 < 2 ^ e) by (apply Z.pow_pos_nonneg; lia).
    assert (2 ^ (53 - 1) * unit_ <= Zpos m * (2 ^ e * unit_)) by nia.
    assert (1024 * unit_ < 2 ^ (53 - 1) * unit_) by (apply Z.mul_lt_mono_pos_r; [done|reflexivity]). lia. }
  assert (nround (S754_finite false m e) = of_Z (fixed_int m e 0)) as ->.
  { unfold nround, fixed_int in *. destruct (Z.leb_spec 0 e); [lia|]. cbn [cond_Zopp].
    change (10 ^ Z.of_nat 0) with 1 in *. rewrite Z.mul_1_r in *. unfold of_Z_signed.
    destruct ((2 * Zpos m + 2 ^ (- e)) / 2 ^ (- e + 1)); [lia|done..]. }
  rewrite toString_of_Z by lia. destruct (fixed_int m e 0) as [|n|n]; [lia| |lia].
  unfold dec_Z, fixed_digits. change (Z.to_N (Zpos n)) with (Npos n).
  replace (zeros _) with ([] : jstring); [done|].
  pose proof (dec_nonempty (Npos n)) as Hl. destruct (dec (Npos n)); [done|]. by cbn.
Qed.

(** A number between 1 and 1024 is printed with three digits at least, the last one rounded. *)
Lemma precisionRound_accurate x :
  valid x = true → is_finite x = true → unit_ <= sval x < 1024 * unit_ →
  ∃ f n, (f ≤ 2)%nat ∧ precisionRound x = fixed_digits f (Z.to_N n) ∧ 0 <= n ∧
    2 * Z.abs (n * unit_ - 10 ^ Z.of_nat f * sval x) <= unit_ ∧ 100 * unit_ <= 10 ^ Z.of_nat f * sval x.
Proof.
  intros V F Hx. pose proof unit_pos. destruct x as [| | |[] m e]; try done; cbn [sval cond_Zopp] in Hx; try lia.
  change (Zpos m * 2 ^ (e + 1074)) with (sval (S754_finite false m e)) in Hx.
  unfold precisionRound. rewrite !nltb_small by done.
  destruct (fixed_int_accurate m e 2 V) as [N2 A2], (fixed_int_accurate m e 1 V) as [N1 A1],
    (fixed_int_accurate m e 0 V) as [N0 A0].
  change (10 ^ Z.of_nat 2) with 100 in *. change (10 ^ Z.of_nat 1) with 10 in *. change (10 ^ Z.of_nat 0) with 1 in *.
  destruct (Z.ltb_spec (sval (S754_finite false m e)) (10 * unit_)).
  { exists 2%nat, (fixed_int m e 2). rewrite toFixed_small by lia || done.
    change (10 ^ Z.of_nat 2) with 100. split_and!; (done || lia). }
  destruct (Z.ltb_spec (sval (S754_finite false m e)) (100 * unit_)).
  { exists 1%nat, (fixed_int m e 1). rewrite toFixed_small by lia || done.
    change (10 ^ Z.of_nat 1) with 10. split_and!; (done || lia). }
  exists 0%nat, (fixed_int m e 0). rewrite nround_small by lia || done.
  change (10 ^ Z.of_nat 0) with 1. split_and!; (done || lia).
Qed.

(** ** The printed size *)

(** C40: A size from one byte up to 1024 PB is printed as a decimal [n / 10^f], [f] at most 2, and the
    least unit 1024^k in which it is below 1024.  The printed value is the size in this unit,
    rounded once, to the nearest decimal: the divisions on doubles are exact.  So it differs
    from the size by at most half of the last decimal, which is at most 0.5 percent. *)
Theorem formatDataSize_accurate (size : number) :
  valid size = true → nleb (of_Z 1) size = true → nltb size (of_Z (2 ^ 60)) = true →
  ∃ k u f n,
    size_units !! k = Some u ∧ (f ≤ 2)%nat ∧ formatDataSize size = fixed_digits f (Z.to_N n) ++ u ∧ 0 <= n ∧
    (k = O ∨ 1024 ^ Z.of_nat k * unit_ <= sval size) ∧ sval size < 1024 ^ Z.of_nat (S k) * unit_ ∧
    2 * Z.abs (n * 1024 ^ Z.of_nat k * unit_ - 10 ^ Z.of_nat f * sval size) <= 1024 ^ Z.of_nat k * unit_ ∧
    200 * Z.abs (n * 1024 ^ Z.of_nat k * unit_ - 10 ^ Z.of_nat f * sval size) <= 10 ^ Z.of_nat f * sval size.
Proof.
  intros V H1 H2. pose proof unit_pos as Hu.
  assert (is_finite size = true) as F by (destruct size as [|[]| |]; done).
  destruct (of_Z_exact 1) as (V1 & F1 & E1); [done|]. rewrite nleb_sval, E1, Z.leb_le in H1 by done.
  rewrite nltb_sval, Z.ltb_lt in H2 by (done || by vm_compute).
  assert (sval (of_Z (2 ^ 60)) = 1024 ^ 6 * unit_) as E2 by (apply Z.eqb_eq; by vm_compute). rewrite E2 in H2.
  destruct (scaled_size size V F) as (k & [Vc Fc Hk Hv Ho Hs]).
  unfold formatDataSize, formatDataSizeMinUnit. rewrite neqb_sval by done.
  destruct (Z.eqb_spec (sval size) (sval zero)) as [E0|_]; [cbn in E0; lia|].
  destruct (scaleDataSize size (js "B")) as [c u]. cbn [fst snd] in *.
  set (p := 1024 ^ Z.of_nat k) in *. assert (0 < p) as Hp by (apply Z.pow_pos_nonneg; lia).
  assert (sval c < 1024 * unit_) as Hc.
  { destruct Hs as [->|]; [|done]. change p with (1024 ^ 5) in *. lia. }
  assert (unit_ <= sval c) as Hc1 by (destruct Ho as [->|]; [change p with 1 in *; lia|done]).
  destruct (precisionRound_accurate c Vc Fc (conj Hc1 Hc)) as (f & n & Hf & Hr & Hn & Ha & Hd).
  exists k, u, f, n. rewrite Hr. rewrite <-Hv. fold p. set (q := 10 ^ Z.of_nat f) in *.
  assert (n * p * unit_ - q * (sval c * p) = (n * unit_ - q * sval c) * p) as -> by ring.
  rewrite Z.abs_mul, (Z.abs_eq p) by lia. rewrite Nat2Z.inj_succ, Z.pow_succ_r by lia. fold p.
  split_and!; try done.
  - right. apply (Z.mul_le_mono_nonneg_r _ _ p) in Hc1; lia.
  - apply (Z.mul_lt_mono_pos_r p) in Hc; lia.
  - apply (Z.mul_le_mono_nonneg_r _ _ p) in Ha; lia.
  - apply (Z.mul_le_mono_nonneg_r _ _ p) in Ha; [|lia]. apply (Z.mul_le_mono_nonneg_r _ _ p) in Hd; lia.
Qed.

Lemma formatDataSize_accurate_witness :
  formatDataSize (of_Z 1234567) = js "1.18MB" ∧
  ∃ k u f n, size_units !! k = Some u ∧ formatDataSize (of_Z 1234567) = fixed_digits f (Z.to_N n) ++ u.
Proof.
  split; [vm_compute; reflexivity|].
  destruct (formatDataSize_accurate (of_Z 1234567)) as (k & u & f & n & Hu & _ & Hf & _);
    [reflexivity|vm_compute; reflexivity..|]. exists k, u, f, n. exact (conj Hu Hf).
Defined.

(** The parser does not know the unit that is printed for kilobytes. *)
Example printed_kilobytes_not_parsed :
  parseDataSize (formatDataSize (of_Z 2048)) = None ∧ parseDataSize (js "2kB") = Some (of_Z 2048).
Proof. vm_compute. done. Qed.
