(* ===== verification/Sparkline.v ===== *)
(** * Sparkline histories (utils.js, "Sparkline-related functions") *)

From S2P Require Import Prelude JsString JsNumber JsNumberFacts.

Definition MAX_HISTORY : nat := 60 * 5.
Definition MOVING_AVERAGE_ALPHA : number := of_decimal 2 1.

(** [valuesArray.concat([value]).slice(Math.max(valuesArray.length - MAX_HISTORY, 0))] *)
Definition addToHistory {A} (value : A) (valuesArray : list A) : list A :=
  if length valuesArray =? 0 then valuesArray ++ [value]
  else drop (length valuesArray - MAX_HISTORY) (valuesArray ++ [value]).

Definition addExponentiallyWeightedToHistory (value : number) (valuesArray : list number) : list number :=
  if length valuesArray =? 0 then valuesArray ++ [value]
  else
    let previous := default nan (last valuesArray) in
    let movingAverage := nadd (nmul value MOVING_AVERAGE_ALPHA)
                              (nmul previous (nsub (of_Z 1) MOVING_AVERAGE_ALPHA)) in
    let movingAverage := if nltb value (of_Z 1) then zero else movingAverage in
    drop (length valuesArray - MAX_HISTORY) (valuesArray ++ [movingAverage]).

(** A call of the sparkline plugin: the element it draws into, the values, and the options
    [chartRangeMin] and [numberFormatter] where they are given. *)
Record sparkline := {
  sp_target : jstring;
  sp_values : list (option number);
  sp_chartRangeMin : option number;
  sp_formatter : option (number → jstring);
}.

(** ** Properties *)

Lemma addToHistory_drop {A} (v : A) h : addToHistory v h = drop (length h - MAX_HISTORY) (h ++ [v]).
Proof. unfold addToHistory. destruct h; [done|]. done. Qed.

(** The window of a history: its last 301 values. *)
Definition window {A} (l : list A) : list A := drop (length l - S MAX_HISTORY) l.

Lemma window_length {A} (l : list A) : length (window l) ≤ S MAX_HISTORY.
Proof. unfold window. rewrite length_drop. lia. Qed.

Lemma addToHistory_window {A} (l : list A) v : addToHistory v (window l) = window (l ++ [v]).
Proof.
  rewrite addToHistory_drop. unfold window. rewrite length_drop, length_app. simpl length.
  destruct (Nat.le_gt_cases (length l) (S MAX_HISTORY)) as [Hle|Hgt].
  - replace (length l - S MAX_HISTORY) with 0 by lia. rewrite drop_0.
    f_equal. lia.
  - replace (length l - (length l - S MAX_HISTORY) - MAX_HISTORY) with 1 by lia.
    replace (length l + 1 - S MAX_HISTORY) with (length l - S MAX_HISTORY + 1) by lia.
    rewrite <-drop_drop. rewrite (drop_app_le l) by lia. done.
Qed.

Lemma history_fold {A} (vs l : list A) :
  fold_left (λ h v, addToHistory v h) vs (window l) = window (l ++ vs).
Proof.
  revert l. induction vs as [|v vs IH]; intros l; simpl; [by rewrite app_nil_r|].
  by rewrite addToHistory_window, IH, <-app_assoc.
Qed.

(** A history fed with any sequence of measurements holds exactly the last 301 of them in
    order, one more than the 300 ([MAX_HISTORY]) that five minutes of one-second samples are. *)
Theorem history_is_window {A} (vs : list A) :
  fold_left (λ h v, addToHistory v h) vs [] = drop (length vs - 301) vs ∧
  length (fold_left (λ h v, addToHistory v h) vs []) = Nat.min 301 (length vs).
Proof.
  pose proof (history_fold vs []) as H. simpl in H. change (window []) with (@nil A) in H.
  rewrite H. unfold window. change (S MAX_HISTORY) with 301. split; [done|].
  rewrite length_drop. lia.
Qed.

Lemma ewma_length v h : length (addExponentiallyWeightedToHistory v h) = length (addToHistory v h).
Proof.
  unfold addExponentiallyWeightedToHistory, addToHistory. destruct (length h =? 0); [done|].
  by rewrite !length_drop, !length_app.
Qed.

Lemma addToHistory_length_le {A} (v : A) h : length h ≤ S MAX_HISTORY → length (addToHistory v h) ≤ S MAX_HISTORY.
Proof. intros H. rewrite addToHistory_drop, length_drop, length_app. simpl length. lia. Qed.

Lemma ewma_length_le v h :
  length h ≤ S MAX_HISTORY → length (addExponentiallyWeightedToHistory v h) ≤ S MAX_HISTORY.
Proof. rewrite ewma_length. apply addToHistory_length_le. Qed.

Lemma history_snoc {A} (v : A) h : last (addToHistory v h) = Some v.
Proof.
  rewrite addToHistory_drop. rewrite drop_app_le by lia. apply last_snoc.
Qed.

(** The smoothed history keeps its size in step with the plain one, ends in 0 as soon as a
    value below 1 arrives (the average is reset, not decayed), and starts with the first value. *)
Theorem ewma_history (v : number) (h : list number) :
  length (addExponentiallyWeightedToHistory v h) = length (addToHistory v h) ∧
  (h ≠ [] → nltb v (of_Z 1) = true → last (addExponentiallyWeightedToHistory v h) = Some zero) ∧
  addExponentiallyWeightedToHistory v [] = [v].
Proof.
  split; [apply ewma_length|]. split; [|done].
  intros Hne Hv. unfold addExponentiallyWeightedToHistory. destruct h as [|x h]; [done|].
  cbn [length Nat.eqb]. rewrite Hv. cbv zeta.
  rewrite drop_app_le by (simpl; lia). apply last_snoc.
Qed.

#[export] Hint Resolve addToHistory_length_le ewma_length_le : webui.
