(* ===== verification/Poller.v ===== *)
(** * The refresh loop

    Every page component polls the coordinator with the same protocol:
    [componentDidMount] calls [refreshLoop], which cancels the pending timer and
    sends a request; the response or failure handler updates the state and calls
    [resetTimer], which cancels the pending timer and, unless the component is
    done, schedules [refreshLoop] again.  This file models the protocol once,
    against an interface that each component implements, with the browser's
    timers and outstanding requests explicit.  State updates made in a response
    handler are visible to [resetTimer] at once, as [setState] is synchronous
    outside of event handlers in React 16. *)

From S2P Require Import Prelude.
From stdpp Require Import relations.

(** How a handler ends: normally, or by an exception that escapes it before it
    reaches [resetTimer]. *)
Inductive outcome (S : Type) : Type :=
| Done (s : S)
| Escaped (s : S).
Arguments Done {S} s.
Arguments Escaped {S} s.

Definition outcome_state {S} (o : outcome S) : S := match o with Done s | Escaped s => s end.

Class Poller (S R : Type) : Type := {
  poll_init : S;                        (* the state after the constructor *)
  on_refresh : S → S;                   (* what [refreshLoop] does besides the request *)
  on_response : R → S → outcome S;      (* the response handler, up to [resetTimer] *)
  on_failure : Z → S → outcome S;       (* the failure handler, at a time, up to [resetTimer] *)
  keep_polling : S → bool;              (* the guard of [resetTimer] *)
  on_user : S → S → Prop;               (* the other event handlers *)
}.

Section machine.
Context {S R : Type} `{Poller S R}.

(** The component, its [timeoutId], and the browser: live timers and outstanding requests. *)
Record page := {
  comp : S;
  timeoutId : option nat;
  live : list nat;
  inflight : nat;
  next_timer : nat;
}.

Definition clearTimeout (id : option nat) (timers : list nat) : list nat :=
  match id with
  | Some t => List.filter (λ u, negb (u =? t)) timers
  | None => timers
  end.

Definition refreshLoop (p : page) : page := {|
  comp := on_refresh (comp p);
  timeoutId := timeoutId p;
  live := clearTimeout (timeoutId p) (live p);
  inflight := Datatypes.S (inflight p);
  next_timer := next_timer p;
|}.

Definition resetTimer (p : page) : page :=
  let timers := clearTimeout (timeoutId p) (live p) in
  if keep_polling (comp p) then {|
    comp := comp p; timeoutId := Some (next_timer p); live := next_timer p :: timers;
    inflight := inflight p; next_timer := Datatypes.S (next_timer p) |}
  else {|
    comp := comp p; timeoutId := timeoutId p; live := timers;
    inflight := inflight p; next_timer := next_timer p |}.

Definition set_comp (s : S) (p : page) : page := {|
  comp := s; timeoutId := timeoutId p; live := live p; inflight := inflight p; next_timer := next_timer p |}.

(** A request is answered: the handler runs, and [resetTimer] if it is reached. *)
Definition answer (o : S → outcome S) (p : page) : page :=
  let p := {| comp := comp p; timeoutId := timeoutId p; live := live p;
              inflight := Nat.pred (inflight p); next_timer := next_timer p |} in
  match o (comp p) with
  | Done s => resetTimer (set_comp s p)
  | Escaped s => set_comp s p
  end.

(** A timer fires: it is no longer live, and its callback is [refreshLoop]. *)
Definition fire (t : nat) (p : page) : page :=
  refreshLoop {| comp := comp p; timeoutId := timeoutId p;
                 live := List.filter (λ u, negb (u =? t)) (live p);
                 inflight := inflight p; next_timer := next_timer p |}.

Definition unmounted : page := {|
  comp := poll_init; timeoutId := None; live := []; inflight := 0; next_timer := 0 |}.
(** [componentDidMount] *)
Definition mounted : page := refreshLoop unmounted.

Inductive step : page → page → Prop :=
| step_fire p t : t ∈ live p → step p (fire t p)
| step_response p r : 0 < inflight p → step p (answer (on_response r) p)
| step_failure p now : 0 < inflight p → step p (answer (on_failure now) p)
| step_user p s : on_user (comp p) s → step p (set_comp s p).

Definition reachable (p : page) : Prop := rtc step mounted p.

(** The same with the responses received so far, the oldest first. *)
Inductive run : list R → page → Prop :=
| run_mounted : run [] mounted
| run_response rs p r : run rs p → 0 < inflight p → run (rs ++ [r]) (answer (on_response r) p)
| run_fire rs p t : run rs p → t ∈ live p → run rs (fire t p)
| run_failure rs p now : run rs p → 0 < inflight p → run rs (answer (on_failure now) p)
| run_user rs p s : run rs p → on_user (comp p) s → run rs (set_comp s p).

Lemma run_reachable rs p : run rs p → reachable p.
Proof. unfold reachable. induction 1; [apply rtc_refl|..]; eapply rtc_r; eauto; by constructor. Qed.

Lemma reachable_run p : reachable p → ∃ rs, run rs p.
Proof.
  revert p. apply rtc_ind_r; [exists []; constructor|].
  intros p p' _ Hs [rs IH]. destruct Hs; eexists; by econstructor.
Qed.

(** ** One series of requests

    The live timers are at most the one [timeoutId] names, and a timer is never live
    while a request is outstanding. *)

Record exclusive (p : page) : Prop := {
  ex_total : inflight p + length (live p) ≤ 1;
  ex_named t : t ∈ live p → timeoutId p = Some t;
  ex_fresh t : timeoutId p = Some t → t < next_timer p;
}.

Lemma filter_neq_self (t : nat) (l : list nat) :
  (∀ u, u ∈ l → u = t) → List.filter (λ u, negb (u =? t)) l = [].
Proof.
  induction l as [|u l IH]; intros Hl; simpl; [done|].
  rewrite (Hl u) by apply list_elem_of_here. rewrite Nat.eqb_refl. simpl.
  apply IH. intros v Hv. apply Hl. by apply list_elem_of_further.
Qed.

Lemma clearTimeout_named id l : (∀ t, t ∈ l → id = Some t) → clearTimeout id l = [].
Proof.
  intros Hl. destruct id as [t|]; simpl.
  - apply filter_neq_self. intros u Hu. apply Hl in Hu. congruence.
  - destruct l as [|t l]; [done|]. assert (None = Some t) by apply Hl, list_elem_of_here. done.
Qed.

Lemma exclusive_resetTimer p :
  inflight p = 0 → (∀ t, t ∈ live p → timeoutId p = Some t) →
  (∀ t, timeoutId p = Some t → t < next_timer p) → exclusive (resetTimer p).
Proof.
  intros Hi Hn Hf. unfold resetTimer. rewrite (clearTimeout_named _ _ Hn).
  destruct (keep_polling (comp p)); split; simpl; try lia.
  - intros t Ht. apply list_elem_of_singleton in Ht as ->. done.
  - intros t [= <-]. lia.
  - set_solver.
  - intros t Ht. auto.
Qed.

Lemma exclusive_step p p' : exclusive p → step p p' → exclusive p'.
Proof.
  intros [Ht Hn Hf] Hs. destruct Hs as [p t Hin|p r Hi|p now Hi|p s Hu].
  - unfold fire, refreshLoop. cbn [live timeoutId comp inflight next_timer].
    assert (live p ≠ []) as Hne by (intros E; rewrite E in Hin; set_solver).
    assert (inflight p = 0 ∧ length (live p) = 1) as [Hi Hl] by (destruct (live p); simpl in *; [done|lia]).
    rewrite filter_neq_self.
    + split; simpl; [rewrite (clearTimeout_named _ []); simpl; [lia|set_solver]| |done].
      rewrite (clearTimeout_named _ []); set_solver.
    + intros u Hu. apply Hn in Hu, Hin. congruence.
  - unfold answer. simpl. assert (live p = []) as El by (destruct (live p); simpl in *; [done|lia]).
    destruct (on_response r (comp p)); [apply exclusive_resetTimer; simpl; auto; lia|].
    split; simpl; auto. lia.
  - unfold answer. simpl. assert (live p = []) as El by (destruct (live p); simpl in *; [done|lia]).
    destruct (on_failure now (comp p)); [apply exclusive_resetTimer; simpl; auto; lia|].
    split; simpl; auto. lia.
  - by split.
Qed.

Lemma exclusive_mounted : exclusive mounted.
Proof. split; simpl; [lia|set_solver|done]. Qed.

Lemma reachable_exclusive p : reachable p → exclusive p.
Proof.
  revert p. apply (rtc_ind_r exclusive mounted); [apply exclusive_mounted|].
  intros p p' _ Hs IH. by eapply exclusive_step.
Qed.

(** ** A component that never stops *)

(** The loop is alive: a request is outstanding or a timer is pending. *)
Definition alive (p : page) : Prop := inflight p + length (live p) = 1.

Lemma alive_resetTimer p :
  keep_polling (comp p) = true → inflight p = 0 →
  (∀ t, t ∈ live p → timeoutId p = Some t) → alive (resetTimer p).
Proof.
  intros Hk Hi Hn. unfold resetTimer, alive. rewrite Hk, (clearTimeout_named _ _ Hn). simpl. lia.
Qed.

(** A property of the component's state that every handler keeps. *)
Definition preserved (I : S → Prop) : Prop :=
  (∀ s, I s → I (on_refresh s)) ∧
  (∀ r s, I s → I (outcome_state (on_response r s))) ∧
  (∀ now s, I s → I (outcome_state (on_failure now s))) ∧
  (∀ s s', I s → on_user s s' → I s').
Definition state_invariant (I : S → Prop) : Prop := I (on_refresh poll_init) ∧ preserved I.

Lemma comp_resetTimer p : comp (resetTimer p) = comp p.
Proof. unfold resetTimer. by destruct (keep_polling (comp p)). Qed.

Lemma comp_answer o p : comp (answer o p) = outcome_state (o (comp p)).
Proof. unfold answer. simpl. by destruct (o (comp p)); simpl; rewrite ?comp_resetTimer. Qed.

Lemma preserved_answer (I : S → Prop) o p :
  I (outcome_state (o (comp p))) → I (comp (answer o p)).
Proof. by rewrite comp_answer. Qed.

Lemma preserved_step (I : S → Prop) p p' : preserved I → I (comp p) → step p p' → I (comp p').
Proof.
  intros (Hr & Hs & Hf & Hu) Hp Hstep. destruct Hstep as [p t Hin|p r Hin|p now Hin|p s Hus]; simpl.
  - by apply Hr.
  - apply preserved_answer. by apply Hs.
  - apply preserved_answer. by apply Hf.
  - by eapply Hu.
Qed.

Lemma preserved_forever (I : S → Prop) p p' : preserved I → I (comp p) → rtc step p p' → I (comp p').
Proof. intros HI Hp Hr. induction Hr as [|p p1 p2 Hs _ IH]; [done|]. apply IH. by eapply preserved_step. Qed.

Lemma reachable_invariant (I : S → Prop) p : state_invariant I → reachable p → I (comp p).
Proof. intros [Hi HI]. by apply preserved_forever. Qed.

(** A relation between the responses and the state that every handler keeps. *)
Lemma run_invariant (I : list R → S → Prop) rs p :
  I [] (on_refresh poll_init) →
  (∀ rs s, I rs s → I rs (on_refresh s)) →
  (∀ rs r s, I rs s → I (rs ++ [r]) (outcome_state (on_response r s))) →
  (∀ rs now s, I rs s → I rs (outcome_state (on_failure now s))) →
  (∀ rs s s', I rs s → on_user s s' → I rs s') →
  run rs p → I rs (comp p).
Proof.
  intros Hi Hf Hr Hn Hu. induction 1 as [|rs p r _ IH _|rs p t _ IH _|rs p now _ IH _|rs p s _ IH Hs]; simpl; auto.
  - apply (preserved_answer (I (rs ++ [r]))). auto.
  - apply (preserved_answer (I rs)). auto.
  - eauto.
Qed.

(** If no handler throws and the guard of [resetTimer] holds after each of them, the loop
    never dies: polling goes on forever, one request at a time. *)
Lemma reachable_alive (I : S → Prop) p :
  state_invariant I →
  (∀ r s, I s → ∃ s', on_response r s = Done s' ∧ keep_polling s' = true) →
  (∀ now s, I s → ∃ s', on_failure now s = Done s' ∧ keep_polling s' = true) →
  reachable p → alive p.
Proof.
  intros HI Hres Hfail. revert p.
  apply (rtc_ind_r alive mounted); [done|]. intros p p' Hreach Hstep IH.
  pose proof (reachable_invariant I p HI Hreach) as HIp.
  pose proof (reachable_exclusive p Hreach) as [Ht Hn Hf].
  destruct Hstep as [p t Hin|p r Hin|p now Hin|p s Hus].
  - unfold alive, fire, refreshLoop. cbn [live inflight timeoutId].
    assert (live p ≠ []) as Hne by (intros E; rewrite E in Hin; set_solver).
    rewrite filter_neq_self by (intros u Hu; apply Hn in Hu, Hin; congruence).
    rewrite clearTimeout_named by set_solver. simpl.
    unfold alive in IH. destruct (live p); [done|]. simpl in *. lia.
  - unfold answer. simpl. destruct (Hres r _ HIp) as (s' & -> & Hk).
    apply alive_resetTimer; simpl; auto. unfold alive in IH. lia.
  - unfold answer. simpl. destruct (Hfail now _ HIp) as (s' & -> & Hk).
    apply alive_resetTimer; simpl; auto. unfold alive in IH. lia.
  - done.
Qed.

(** ** A component that stops *)

(** No request is outstanding and no timer is pending. *)
Definition quiescent (p : page) : Prop := inflight p = 0 ∧ live p = [].

(** A quiescent page never polls again: only user events happen. *)
Lemma quiescent_forever p p' : quiescent p → rtc step p p' → quiescent p'.
Proof.
  intros Hq Hr. induction Hr as [|p p1 p2 Hs _ IH]; [done|]. apply IH.
  destruct Hq as [Hi Hl]. destruct Hs as [p t Hin|p r Hin|p now Hin|p s Hus]; try lia; [|done].
  rewrite Hl in Hin. set_solver.
Qed.

(** A response whose handler ends with the guard false stops the loop. *)
Lemma answer_quiescent o p s :
  exclusive p → 0 < inflight p → o (comp p) = Done s → keep_polling s = false →
  quiescent (answer o p).
Proof.
  intros [Ht Hn Hf] Hi Ho Hk. unfold answer. simpl. rewrite Ho. unfold resetTimer. simpl. rewrite Hk.
  assert (live p = []) as El by (destruct (live p); simpl in *; [done|lia]).
  split; simpl; [lia|]. rewrite El. by destruct (timeoutId p).
Qed.

(** The loop goes on as long as the guard of [resetTimer] holds, and has ended otherwise. *)
Definition goes_on (p : page) : Prop := if keep_polling (comp p) then alive p else quiescent p.

Lemma answer_goes_on o p s :
  exclusive p → 0 < inflight p → o (comp p) = Done s → goes_on (answer o p).
Proof.
  intros Hex Hi Ho. pose proof Hex as [Ht Hn Hf]. unfold goes_on. rewrite comp_answer, Ho. cbn [outcome_state].
  destruct (keep_polling s) eqn:Hk; [|by eapply answer_quiescent].
  unfold answer. cbn [comp]. rewrite Ho. apply alive_resetTimer; simpl; auto. lia.
Qed.

(** As long as something is pending, the guard holds. *)
Lemma goes_on_guard p : goes_on p → 0 < inflight p ∨ live p ≠ [] → keep_polling (comp p) = true.
Proof.
  unfold goes_on. destruct (keep_polling (comp p)); [done|]. intros [Hi Hl] [Hp|Hp]; [lia|done].
Qed.

Lemma fire_alive p t : exclusive p → t ∈ live p → alive (fire t p).
Proof.
  intros [Ht Hn Hf] Hin. unfold alive, fire, refreshLoop. cbn [live inflight timeoutId].
  rewrite filter_neq_self by (intros u Hu'; apply Hn in Hu', Hin; congruence).
  rewrite clearTimeout_named by set_solver. simpl.
  destruct (live p); [set_solver|]. simpl in *. lia.
Qed.

(** A step on which the answers are good. *)
Inductive step_on (G : R → Prop) : page → page → Prop :=
| on_fire p t : t ∈ live p → step_on G p (fire t p)
| on_answer p r : G r → 0 < inflight p → step_on G p (answer (on_response r) p)
| on_failed p now : 0 < inflight p → step_on G p (answer (on_failure now) p)
| on_click p s : on_user (comp p) s → step_on G p (set_comp s p).

Lemma step_on_step G p p' : step_on G p p' → step p p'.
Proof. destruct 1; by constructor. Qed.

Section good_answers.
Context (I : S → Prop) (G : R → Prop).
Hypothesis keep_refresh : ∀ s, I s → I (on_refresh s) ∧ keep_polling (on_refresh s) = keep_polling s.
Hypothesis keep_response : ∀ r s, G r → I s → ∃ s', on_response r s = Done s' ∧ I s'.
Hypothesis keep_failure : ∀ now s, I s → ∃ s', on_failure now s = Done s' ∧ I s'.
Hypothesis keep_user : ∀ s s', I s → on_user s s' → I s' ∧ keep_polling s' = keep_polling s.

(** With good answers no handler throws: the loop goes on until the guard of [resetTimer] ends
    it. *)
Lemma step_on_alive p p' :
  exclusive p → I (comp p) → goes_on p → step_on G p p' → exclusive p' ∧ I (comp p') ∧ goes_on p'.
Proof.
  intros Hex HI Ha Hs. split; [by eapply exclusive_step, step_on_step|].
  destruct Hs as [p t Hin|p r Hr Hi|p now Hi|p s Hu].
  - destruct (keep_refresh (comp p) HI) as [HI' Hk]. split; [done|]. unfold goes_on. cbn [fire refreshLoop comp].
    rewrite Hk, (goes_on_guard p Ha) by (right; intros E; rewrite E in Hin; set_solver). by apply fire_alive.
  - destruct (keep_response r (comp p) Hr HI) as (s' & Ho & HI').
    split; [by rewrite comp_answer, Ho|by eapply answer_goes_on].
  - destruct (keep_failure now (comp p) HI) as (s' & Ho & HI').
    split; [by rewrite comp_answer, Ho|by eapply answer_goes_on].
  - destruct (keep_user _ _ HI Hu) as [HI' Hk]. split; [done|]. unfold goes_on in *. cbn. by rewrite Hk.
Qed.

Lemma steps_on_alive p p' :
  exclusive p → I (comp p) → goes_on p → rtc (step_on G) p p' → I (comp p') ∧ goes_on p'.
Proof.
  intros Hex HI Ha Hr. induction Hr as [|p p1 p2 Hs _ IH]; [done|].
  destruct (step_on_alive p p1 Hex HI Ha Hs) as (Hex1 & HI1 & Ha1). by apply IH.
Qed.

Lemma run_steps_on rs p : run rs p → Forall G rs → rtc (step_on G) mounted p.
Proof.
  induction 1 as [|rs p r _ IH Hi|rs p t _ IH Hin|rs p now _ IH Hi|rs p s _ IH Hu]; intros HG;
    [apply rtc_refl|..]; try (eapply rtc_r; [by apply IH|by constructor]).
  apply Forall_app in HG as [HG Hr]. apply Forall_cons in Hr as [Hr _].
  eapply rtc_r; [by apply IH|by constructor].
Qed.

Hypothesis keep_init : I (on_refresh poll_init) ∧ keep_polling (on_refresh poll_init) = true.

Lemma run_alive rs p : run rs p → Forall G rs → I (comp p) ∧ goes_on p.
Proof.
  intros Hr HG. apply (steps_on_alive mounted); [apply exclusive_mounted|apply keep_init| |by eapply run_steps_on].
  unfold goes_on. cbn. by rewrite (proj2 keep_init).
Qed.

(** A component that stops with its final answer, and only with it: until then there is exactly
    one request or timer, and afterwards none. *)
Lemma run_until_final (final : R → bool) rs p :
  (∀ r s s', G r → I s → on_response r s = Done s' → keep_polling s' = negb (final r)) →
  (∀ now s s', I s → on_failure now s = Done s' → keep_polling s' = keep_polling s) →
  run rs p → Forall G rs →
  I (comp p) ∧ inflight p + length (live p) = if existsb final rs then 0 else 1.
Proof.
  intros Hfin Hfail Hrun HG.
  assert (keep_polling (comp p) = negb (existsb final rs)) as Hk.
  { induction Hrun as [|rs p r Hrun IH Hi|rs p t Hrun IH Hin|rs p now Hrun IH Hi|rs p s Hrun IH Hu].
    - apply keep_init.
    - pose proof HG as [HG' [Hr _]%Forall_cons]%Forall_app. destruct (run_alive rs p Hrun HG') as [HI Hgo].
      specialize (IH HG'). rewrite (goes_on_guard p Hgo) in IH by (by left).
      destruct (keep_response r (comp p) Hr HI) as (s' & Ho & _). rewrite comp_answer, Ho. cbn [outcome_state].
      rewrite existsb_app. symmetry in IH. apply negb_true_iff in IH as ->. cbn. rewrite orb_false_r. by eapply Hfin.
    - destruct (run_alive rs p Hrun HG) as [HI Hgo]. cbn. rewrite (proj2 (keep_refresh _ HI)). by apply IH.
    - destruct (run_alive rs p Hrun HG) as [HI Hgo]. destruct (keep_failure now (comp p) HI) as (s' & Ho & _).
      rewrite comp_answer, Ho. cbn [outcome_state]. rewrite (Hfail _ _ _ HI Ho). by apply IH.
    - destruct (run_alive rs p Hrun HG) as [HI Hgo]. cbn. rewrite (proj2 (keep_user _ _ HI Hu)). by apply IH. }
  destruct (run_alive rs p Hrun HG) as [HI Hgo]. split; [done|]. unfold goes_on in Hgo. rewrite Hk in Hgo.
  destruct (existsb final rs); [destruct Hgo as [-> ->]; done|exact Hgo].
Qed.
End good_answers.
End machine.
Arguments page : clear implicits.

(** ** Two components in lockstep

    A relation between the states of two components with the same responses.  If every handler
    of the first is matched by the one of the second, their pages run in lockstep, with the
    same timers and requests. *)

Section lockstep.
Context {S S' R : Type} (P : Poller S R) (P' : Poller S' R).
Context (rel : S → S' → Prop).

Definition related_outcomes (o : outcome S) (o' : outcome S') : Prop :=
  match o, o' with
  | Done s, Done s' | Escaped s, Escaped s' => rel s s'
  | _, _ => False
  end.

Record related_pages (p : page S) (p' : page S') : Prop := {
  rp_comp : rel (comp p) (comp p');
  rp_timeoutId : timeoutId p = timeoutId p';
  rp_live : live p = live p';
  rp_inflight : inflight p = inflight p';
  rp_next : next_timer p = next_timer p';
}.

Record lockstep : Prop := {
  ls_init : rel (on_refresh poll_init) (on_refresh poll_init);
  ls_refresh s s' : rel s s' → rel (on_refresh s) (on_refresh s');
  ls_response r s s' : rel s s' → related_outcomes (on_response r s) (on_response r s');
  ls_failure now s s' : rel s s' → related_outcomes (on_failure now s) (on_failure now s');
  ls_keep s s' : rel s s' → keep_polling s = keep_polling s';
  ls_user s s' t : rel s s' → on_user s t → ∃ t', on_user s' t' ∧ rel t t';
}.

Lemma lockstep_answer o o' p p' :
  (∀ s s', rel s s' → keep_polling s = keep_polling s') →
  related_pages p p' → related_outcomes (o (comp p)) (o' (comp p')) →
  related_pages (answer o p) (answer o' p').
Proof.
  intros Hk [Hc Ht Hl Hi Hn] Ho. unfold answer. cbn [comp].
  destruct (o (comp p)) as [s|s], (o' (comp p')) as [s'|s']; cbn in Ho; try done.
  - unfold resetTimer, set_comp. cbn. rewrite (Hk s s') by done.
    destruct (keep_polling s'); split; cbn; congruence.
  - split; cbn; congruence.
Qed.

Lemma lockstep_step p p' q :
  lockstep → related_pages p p' → step p q → ∃ q', step p' q' ∧ related_pages q q'.
Proof.
  intros L Hp Hs. pose proof Hp as [Hc Ht Hl Hi Hn].
  destruct Hs as [p t Hin|p r Hr|p now Hr|p s Hu].
  - exists (fire t p'). split; [apply step_fire; congruence|].
    split; cbn; rewrite <-?Ht, <-?Hl, <-?Hi; try done. by apply L.
  - exists (answer (on_response r) p'). split; [apply step_response; congruence|].
    apply lockstep_answer; [apply L|done|by apply L].
  - exists (answer (on_failure now) p'). split; [apply step_failure; congruence|].
    apply lockstep_answer; [apply L|done|by apply L].
  - destruct (ls_user L _ _ _ Hc Hu) as (s' & Hu' & Hr). exists (set_comp s' p').
    split; [by apply step_user|]. by split.
Qed.

Lemma lockstep_mounted : lockstep → related_pages mounted mounted.
Proof. intros L. by split; [apply L|..]. Qed.

(** Every run of the first page is matched by a run of the second on the same responses. *)
Lemma lockstep_run rs p : lockstep → run rs p → ∃ p', run rs p' ∧ related_pages p p'.
Proof.
  intros L. induction 1 as [|rs p r _ (p' & Hr & Hp) Hi|rs p t _ (p' & Hr & Hp) Hin|rs p now _ (p' & Hr & Hp) Hi
                            |rs p s _ (p' & Hr & Hp) Hu]; try pose proof Hp as [Hc Ht Hl Hn Hx].
  - exists mounted. split; [constructor|by apply lockstep_mounted].
  - eexists. split; [eapply run_response; [exact Hr|congruence]|].
    apply lockstep_answer; [apply L|done|by apply L].
  - eexists. split; [apply (run_fire _ _ t Hr); congruence|].
    split; cbn; rewrite <-?Ht, <-?Hl, <-?Hn; try done. by apply L.
  - eexists. split; [eapply (run_failure _ _ now Hr); congruence|].
    apply lockstep_answer; [apply L|done|by apply L].
  - destruct (ls_user L _ _ _ Hc Hu) as (s' & Hu' & Hrel). exists (set_comp s' p').
    split; [by eapply run_user|]. by split.
Qed.

Lemma lockstep_reachable p : lockstep → reachable p → ∃ p', reachable p' ∧ related_pages p p'.
Proof.
  intros L (rs & Hr)%reachable_run. destruct (lockstep_run rs p L Hr) as (p' & Hr' & Hp).
  exists p'. split; [by eapply run_reachable|done].
Qed.
End lockstep.
