(* ===== verification/Loop.v ===== *)
(** * The refresh loop as a specification

    What a page promises, without timer identifiers: a component is requesting,
    waiting, or stopped.  The timers and outstanding requests of Poller.v
    implement this loop step by step, and every step of the loop is possible. *)

From S2P Require Import Prelude Poller.
From stdpp Require Import relations.

Inductive phase := Requesting | Waiting | Stopped.
#[export] Instance phase_eq_dec : EqDecision phase. Proof. solve_decision. Defined.

Section loop.
Context {S R : Type} `{Poller S R}.

Record loop := Loop { l_comp : S; l_phase : phase }.

(** A handler that ends normally decides by the guard; one that throws stops the loop. *)
Definition after (o : outcome S) : loop :=
  match o with
  | Done s => Loop s (if keep_polling s then Waiting else Stopped)
  | Escaped s => Loop s Stopped
  end.

Inductive loop_step : loop → loop → Prop :=
| loop_timeout s : loop_step (Loop s Waiting) (Loop (on_refresh s) Requesting)
| loop_response s r : loop_step (Loop s Requesting) (after (on_response r s))
| loop_failure s now : loop_step (Loop s Requesting) (after (on_failure now s))
| loop_user s ph s' : on_user s s' → loop_step (Loop s ph) (Loop s' ph).

Definition loop_init : loop := Loop (on_refresh poll_init) Requesting.

(** The phase that the timers and requests of a page stand for. *)
Definition phase_of (p : page S) : phase :=
  match inflight p, live p with
  | O, [] => Stopped
  | O, _ => Waiting
  | _, _ => Requesting
  end.
Definition abs (p : page S) : loop := Loop (comp p) (phase_of p).

Lemma abs_mounted : abs mounted = loop_init.
Proof. done. Qed.

Lemma exclusive_waiting (p : page S) t :
  exclusive p → t ∈ live p → inflight p = 0 ∧ live p = [t] ∧ timeoutId p = Some t.
Proof.
  intros [Ht Hn Hf] Hin. pose proof (Hn t Hin) as Hid.
  destruct (live p) as [|u [|v l]]; simpl in *; [set_solver| |lia].
  apply list_elem_of_singleton in Hin as ->. split_and!; [lia|done..].
Qed.

Lemma exclusive_requesting (p : page S) : exclusive p → 0 < inflight p → inflight p = 1 ∧ live p = [].
Proof. intros [Ht Hn Hf] Hi. destruct (live p); simpl in *; [|lia]. split; [lia|done]. Qed.

Lemma abs_fire (p : page S) t :
  exclusive p → t ∈ live p →
  abs p = Loop (comp p) Waiting ∧ abs (fire t p) = Loop (on_refresh (comp p)) Requesting.
Proof.
  intros Hex Hin. destruct (exclusive_waiting p t Hex Hin) as (Hi & Hl & Hid).
  unfold abs, phase_of, fire, refreshLoop. simpl. by rewrite Hi, Hl.
Qed.

Lemma abs_answer (p : page S) o :
  exclusive p → 0 < inflight p →
  abs p = Loop (comp p) Requesting ∧ abs (answer o p) = after (o (comp p)).
Proof.
  intros Hex Hin. destruct (exclusive_requesting p Hex Hin) as [Hi Hl].
  unfold abs, phase_of, answer, resetTimer. simpl. rewrite Hi, Hl. split; [done|].
  destruct (o (comp p)) as [s|s]; simpl; [|done].
  destruct (keep_polling s); simpl; [done|]. by destruct (timeoutId p).
Qed.

Lemma abs_phase_waiting (p : page S) : phase_of p = Waiting → ∃ t, t ∈ live p.
Proof.
  unfold phase_of. destruct (inflight p), (live p) as [|t l]; try done. exists t. apply list_elem_of_here.
Qed.
Lemma abs_phase_requesting (p : page S) : phase_of p = Requesting → 0 < inflight p.
Proof. unfold phase_of. destruct (inflight p), (live p); try done; lia. Qed.

(** Forward: a step of the page is a step of the loop. *)
Lemma abs_step (p p' : page S) : exclusive p → step p p' → loop_step (abs p) (abs p').
Proof.
  intros Hex Hs. destruct Hs as [p t Hin|p r Hi|p now Hi|p s Hu].
  - destruct (abs_fire p t Hex Hin) as [-> ->]. constructor.
  - destruct (abs_answer p (on_response r) Hex Hi) as [-> ->]. constructor.
  - destruct (abs_answer p (on_failure now) Hex Hi) as [-> ->]. constructor.
  - by apply loop_user.
Qed.

(** Backward: the page can do whatever the loop can do. *)
Lemma abs_enabled (p : page S) l : exclusive p → loop_step (abs p) l → ∃ p', step p p' ∧ abs p' = l.
Proof.
  intros Hex Hs. inversion Hs as [s [Hc Hp]|s r [Hc Hp]|s now [Hc Hp]|s ph s' Hu [Hc Hp]]; subst.
  - destruct (abs_phase_waiting p) as [t Ht]; [done|]. exists (fire t p).
    split; [by constructor|]. apply (abs_fire p t Hex Ht).
  - pose proof (abs_phase_requesting p (eq_sym Hp)) as Hi. exists (answer (on_response r) p).
    split; [by constructor|]. apply (abs_answer p _ Hex Hi).
  - pose proof (abs_phase_requesting p (eq_sym Hp)) as Hi. exists (answer (on_failure now) p).
    split; [by constructor|]. apply (abs_answer p _ Hex Hi).
  - exists (set_comp s' p). split; [by constructor|]. done.
Qed.

Lemma reachable_loop (p : page S) : reachable p → rtc loop_step loop_init (abs p).
Proof.
  intros Hp. revert p Hp. apply rtc_ind_r; [by rewrite abs_mounted|].
  intros p p' Hp Hs IH. eapply rtc_r; [exact IH|]. apply abs_step; [|done]. by apply reachable_exclusive.
Qed.

(** C15: The timers and requests of a component implement the refresh loop of the
    specification, in which the component is requesting, waiting or stopped: every step of a
    reachable page is a step of the loop, every step of the loop is one of the page, and so
    every state of the page is a state that the loop reaches.  No timer identifier is ever
    observable. *)
Theorem page_refines_loop (p : page S) :
  reachable p →
  rtc loop_step loop_init (abs p) ∧
  (∀ p', step p p' → loop_step (abs p) (abs p')) ∧
  (∀ l, loop_step (abs p) l → ∃ p', step p p' ∧ abs p' = l).
Proof.
  intros Hp. pose proof (reachable_exclusive p Hp) as Hex. split_and!.
  - by apply reachable_loop.
  - intros p'. by apply abs_step.
  - intros l. by apply abs_enabled.
Qed.

(** ** Invariants of the loop *)

Lemma loop_invariant (I : S → Prop) l : state_invariant I → rtc loop_step loop_init l → I (l_comp l).
Proof.
  intros [Hi (Hr & Hs & Hf & Hu)] Hl. revert l Hl. apply rtc_ind_r; [done|].
  intros l l' _ Hstep IH. destruct Hstep as [s|s r|s now|s ph s' Hus]; simpl in *.
  - by apply Hr.
  - specialize (Hs r s IH). by destruct (on_response r s).
  - specialize (Hf now s IH). by destruct (on_failure now s).
  - by eapply Hu.
Qed.

(** A loop whose handlers all end with the guard true is never stopped. *)
Lemma loop_alive (I : S → Prop) l :
  state_invariant I →
  (∀ r s, I s → ∃ s', on_response r s = Done s' ∧ keep_polling s' = true) →
  (∀ now s, I s → ∃ s', on_failure now s = Done s' ∧ keep_polling s' = true) →
  rtc loop_step loop_init l → l_phase l ≠ Stopped.
Proof.
  intros HI Hres Hfail Hl. revert l Hl. apply rtc_ind_r; [done|]. intros l l' Hl Hstep IH.
  pose proof (loop_invariant I l HI Hl) as HIl. destruct Hstep as [s|s r|s now|s ph s' Hus]; simpl in *.
  - done.
  - destruct (Hres r s HIl) as (s' & -> & Hk). simpl. by rewrite Hk.
  - destruct (Hfail now s HIl) as (s' & -> & Hk). simpl. by rewrite Hk.
  - done.
Qed.

(** A stopped loop stays stopped. *)
Lemma loop_stopped l l' : l_phase l = Stopped → rtc loop_step l l' → l_phase l' = Stopped.
Proof. intros Hl Hr. induction Hr as [|l l1 l2 Hs _ IH]; [done|]. apply IH. by destruct Hs. Qed.
End loop.
Arguments loop : clear implicits.
