(* ===== verification/Tab.v ===== *)
(** * Components that share a browser tab

    An entry point mounts several components on one page.  They share the browser:
    the identifiers that [setTimeout] returns come from one counter, and
    [clearTimeout] removes a timer whoever created it.  This file models such a
    tab, and shows that the components do not disturb each other: each of them
    runs the refresh loop of its own. *)

From S2P Require Import Prelude Poller Loop.
From stdpp Require Import relations functions.

(** Updating one value of a family. *)
Definition dupdate {ι : Type} `{EqDecision ι} {A : ι → Type} (i : ι) (v : A i) (f : ∀ j, A j) (j : ι) : A j :=
  match decide (i = j) with
  | left e => eq_rect i A v j e
  | right _ => f j
  end.

Lemma dupdate_same {ι} `{EqDecision ι} {A : ι → Type} i (v : A i) f : dupdate i v f i = v.
Proof. unfold dupdate. destruct (decide (i = i)) as [e|]; [|done]. by rewrite (proof_irrel e eq_refl). Qed.
Lemma dupdate_other {ι} `{EqDecision ι} {A : ι → Type} i j (v : A i) f : i ≠ j → dupdate i v f j = f j.
Proof. intros Hij. unfold dupdate. by destruct (decide (i = j)). Qed.

Section tab.
Context {ι : Type} `{EqDecision ι} {S R : ι → Type} {P : ∀ i, Poller (S i) (R i)}.

(** A live timer is kept with the component whose [refreshLoop] it calls. *)
Record tab := {
  t_comp : ∀ i, S i;
  t_timeoutId : ι → option nat;
  t_live : list (nat * ι);
  t_inflight : ι → nat;
  t_next : nat;
}.

Definition tab_clearTimeout (id : option nat) (timers : list (nat * ι)) : list (nat * ι) :=
  match id with
  | Some t => List.filter (λ u, negb (u.1 =? t)) timers
  | None => timers
  end.

Definition tab_refreshLoop (i : ι) (t : tab) : tab := {|
  t_comp := dupdate i (on_refresh (t_comp t i)) (t_comp t);
  t_timeoutId := t_timeoutId t;
  t_live := tab_clearTimeout (t_timeoutId t i) (t_live t);
  t_inflight := <[i := Datatypes.S (t_inflight t i)]> (t_inflight t);
  t_next := t_next t |}.

Definition tab_resetTimer (i : ι) (t : tab) : tab :=
  let timers := tab_clearTimeout (t_timeoutId t i) (t_live t) in
  if keep_polling (t_comp t i) then {|
    t_comp := t_comp t; t_timeoutId := <[i := Some (t_next t)]> (t_timeoutId t);
    t_live := (t_next t, i) :: timers; t_inflight := t_inflight t; t_next := Datatypes.S (t_next t) |}
  else {|
    t_comp := t_comp t; t_timeoutId := t_timeoutId t; t_live := timers;
    t_inflight := t_inflight t; t_next := t_next t |}.

Definition tab_set_comp (i : ι) (s : S i) (t : tab) : tab := {|
  t_comp := dupdate i s (t_comp t); t_timeoutId := t_timeoutId t; t_live := t_live t;
  t_inflight := t_inflight t; t_next := t_next t |}.

Definition tab_answer (i : ι) (o : S i → outcome (S i)) (t : tab) : tab :=
  let t := {| t_comp := t_comp t; t_timeoutId := t_timeoutId t; t_live := t_live t;
              t_inflight := <[i := Nat.pred (t_inflight t i)]> (t_inflight t); t_next := t_next t |} in
  match o (t_comp t i) with
  | Done s => tab_resetTimer i (tab_set_comp i s t)
  | Escaped s => tab_set_comp i s t
  end.

Definition tab_fire (u : nat) (i : ι) (t : tab) : tab :=
  tab_refreshLoop i {| t_comp := t_comp t; t_timeoutId := t_timeoutId t;
                       t_live := List.filter (λ v, negb (v.1 =? u)) (t_live t);
                       t_inflight := t_inflight t; t_next := t_next t |}.

(** [ReactDOM.render] of all components: each has sent its first request. *)
Definition tab_mounted : tab := {|
  t_comp i := on_refresh poll_init; t_timeoutId _ := None; t_live := []; t_inflight _ := 1; t_next := 0 |}.

(** A step of component [i]. *)
Inductive component_step (i : ι) : tab → tab → Prop :=
| tab_step_fire t u : (u, i) ∈ t_live t → component_step i t (tab_fire u i t)
| tab_step_response t r : 0 < t_inflight t i → component_step i t (tab_answer i (on_response r) t)
| tab_step_failure t now : 0 < t_inflight t i → component_step i t (tab_answer i (on_failure now) t)
| tab_step_user t s : on_user (t_comp t i) s → component_step i t (tab_set_comp i s t).

Definition tab_step (t t' : tab) : Prop := ∃ i, component_step i t t'.
Definition tab_reachable (t : tab) : Prop := rtc tab_step tab_mounted t.

(** ** What one component sees *)

Definition owned (i : ι) (l : list (nat * ι)) : list nat :=
  map fst (List.filter (λ u, bool_decide (u.2 = i)) l).

Definition project (i : ι) (t : tab) : page (S i) := {|
  comp := t_comp t i; timeoutId := t_timeoutId t i; live := owned i (t_live t);
  inflight := t_inflight t i; next_timer := t_next t |}.

Lemma elem_of_owned u i l : u ∈ owned i l ↔ (u, i) ∈ l.
Proof.
  unfold owned. rewrite list_elem_of_In, in_map_iff, list_elem_of_In. split.
  - intros ([v j] & <- & [Hin Hj]%filter_In). by apply bool_decide_eq_true in Hj as <-.
  - intros Hin. exists (u, i). split; [done|]. apply filter_In. split; [done|]. by apply bool_decide_eq_true.
Qed.

Lemma owned_remove i u l :
  owned i (List.filter (λ v, negb (v.1 =? u)) l) = List.filter (λ v, negb (v =? u)) (owned i l).
Proof.
  unfold owned. induction l as [|[v j] l IH]; [done|]. simpl.
  destruct (v =? u) eqn:E, (bool_decide (j = i)) eqn:Ej; simpl; rewrite ?E, ?Ej; simpl; by rewrite ?IH.
Qed.

Lemma owned_clear i id l : owned i (tab_clearTimeout id l) = clearTimeout id (owned i l).
Proof. destruct id as [u|]; [apply owned_remove|done]. Qed.

Lemma project_refreshLoop i t : project i (tab_refreshLoop i t) = refreshLoop (project i t).
Proof.
  unfold project, tab_refreshLoop, refreshLoop. simpl. by rewrite dupdate_same, fn_lookup_insert, owned_clear.
Qed.

Lemma project_resetTimer i t : project i (tab_resetTimer i t) = resetTimer (project i t).
Proof.
  unfold project, tab_resetTimer, resetTimer. simpl. destruct (keep_polling (t_comp t i)); simpl.
  - rewrite fn_lookup_insert. unfold owned at 1. simpl. rewrite bool_decide_true by done. simpl.
    fold (owned i (tab_clearTimeout (t_timeoutId t i) (t_live t))). by rewrite owned_clear.
  - by rewrite owned_clear.
Qed.

Lemma project_set_comp i s t : project i (tab_set_comp i s t) = set_comp s (project i t).
Proof. unfold project, tab_set_comp, set_comp. simpl. by rewrite dupdate_same. Qed.

Lemma project_answer i o t : project i (tab_answer i o t) = answer o (project i t).
Proof.
  unfold tab_answer, answer. simpl.
  destruct (o (t_comp t i)); rewrite ?project_resetTimer, project_set_comp; unfold project; simpl;
    by rewrite fn_lookup_insert.
Qed.

Lemma project_fire i u t : project i (tab_fire u i t) = fire u (project i t).
Proof. unfold tab_fire, fire. rewrite project_refreshLoop. unfold project. simpl. by rewrite owned_remove. Qed.

(** A step of one component is the same step of its page. *)
Lemma project_step i t t' : component_step i t t' → step (project i t) (project i t').
Proof.
  intros Hs. destruct Hs as [t u Hin|t r Hi|t now Hi|t s Hu].
  - rewrite project_fire. constructor. by apply elem_of_owned.
  - rewrite project_answer. by constructor.
  - rewrite project_answer. by constructor.
  - rewrite project_set_comp. by constructor.
Qed.

(** Conversely, whatever a component can do on a page of its own, it can do on the tab. *)
Lemma project_enabled i t p' : step (project i t) p' → ∃ t', component_step i t t' ∧ project i t' = p'.
Proof.
  remember (project i t) as p eqn:Ep. intros Hs. destruct Hs as [p u Hin|p r Hi|p now Hi|p s Hu]; subst p.
  - exists (tab_fire u i t). rewrite project_fire. split; [|done]. constructor. by apply elem_of_owned.
  - exists (tab_answer i (on_response r) t). rewrite project_answer. split; [|done]. by constructor.
  - exists (tab_answer i (on_failure now) t). rewrite project_answer. split; [|done]. by constructor.
  - exists (tab_set_comp i s t). rewrite project_set_comp. split; [|done]. by constructor.
Qed.

(** ** Components do not interfere *)

(** Each component follows the protocol, and no two of them remember the same timer. *)
Record tab_exclusive (t : tab) : Prop := {
  te_each i : exclusive (project i t);
  te_distinct i j u : t_timeoutId t i = Some u → t_timeoutId t j = Some u → i = j;
}.

(** Nothing but the counter of timers has changed for component [j]. *)
Record undisturbed (j : ι) (t t' : tab) : Prop := {
  un_comp : t_comp t' j = t_comp t j;
  un_timeoutId : t_timeoutId t' j = t_timeoutId t j;
  un_live : owned j (t_live t') = owned j (t_live t);
  un_inflight : t_inflight t' j = t_inflight t j;
  un_next : t_next t ≤ t_next t';
}.

Lemma undisturbed_trans j t1 t2 t3 : undisturbed j t1 t2 → undisturbed j t2 t3 → undisturbed j t1 t3.
Proof. intros [] []. split; try congruence. lia. Qed.

Lemma undisturbed_abs j t t' : undisturbed j t t' → abs (project j t') = abs (project j t).
Proof.
  intros [Hc _ Hl Hi _]. unfold abs, phase_of, project. simpl. by rewrite Hc, Hl, Hi.
Qed.

Lemma undisturbed_exclusive j t t' : undisturbed j t t' → exclusive (project j t) → exclusive (project j t').
Proof.
  intros [Hc Ht Hl Hi Hn] [E1 E2 E3]. split; simpl in *; rewrite ?Ht, ?Hl, ?Hi; [done..|].
  intros u Hu. specialize (E3 u Hu). lia.
Qed.

(** Clearing the timer of one component leaves the timers of the others. *)
Lemma clear_other j id l : (∀ v, v ∈ owned j l → id ≠ Some v) → owned j (tab_clearTimeout id l) = owned j l.
Proof.
  intros Hl. rewrite owned_clear. destruct id as [u|]; [|done]. simpl.
  apply List.forallb_filter_id, forallb_forall. intros v Hv%list_elem_of_In.
  apply negb_true_iff, Nat.eqb_neq. intros ->. by apply (Hl u).
Qed.

Lemma other_timer t i j v : tab_exclusive t → i ≠ j → v ∈ owned j (t_live t) → t_timeoutId t i ≠ Some v.
Proof. intros [He Hd] Hij Hv Hi. apply Hij. eapply Hd; [exact Hi|]. by apply (ex_named _ (He j)). Qed.

Lemma undisturbed_refl j t : undisturbed j t t.
Proof. by split. Qed.

Lemma undisturbed_set_comp i j s t : i ≠ j → undisturbed j t (tab_set_comp i s t).
Proof. intros Hij. split; simpl; try done. by apply dupdate_other. Qed.

Lemma undisturbed_refreshLoop i j t :
  i ≠ j → (∀ v, v ∈ owned j (t_live t) → t_timeoutId t i ≠ Some v) → undisturbed j t (tab_refreshLoop i t).
Proof.
  intros Hij Hv. split; simpl; try done; [by apply dupdate_other|by apply clear_other|].
  by rewrite fn_lookup_insert_ne.
Qed.

Lemma undisturbed_resetTimer i j t :
  i ≠ j → (∀ v, v ∈ owned j (t_live t) → t_timeoutId t i ≠ Some v) → undisturbed j t (tab_resetTimer i t).
Proof.
  intros Hij Hv. unfold tab_resetTimer. destruct (keep_polling _); split; simpl; try done; try lia.
  - by rewrite fn_lookup_insert_ne.
  - unfold owned at 1. simpl. rewrite bool_decide_false by done. simpl. by apply clear_other.
  - by apply clear_other.
Qed.

Lemma step_undisturbed i j t t' : tab_exclusive t → i ≠ j → component_step i t t' → undisturbed j t t'.
Proof.
  intros Hex Hij Hs.
  assert (∀ o, undisturbed j t (tab_answer i o t)) as Ha.
  { intros o. unfold tab_answer. simpl.
    assert (∀ s, undisturbed j t (tab_set_comp i s {| t_comp := t_comp t; t_timeoutId := t_timeoutId t;
      t_live := t_live t; t_inflight := <[i := Nat.pred (t_inflight t i)]> (t_inflight t); t_next := t_next t |})) as Hc.
    { intros s. split; simpl; try done; [by apply dupdate_other|by rewrite fn_lookup_insert_ne]. }
    destruct (o (t_comp t i)); [|done]. eapply undisturbed_trans; [apply Hc|].
    apply undisturbed_resetTimer; [done|]. intros v. simpl. by apply other_timer. }
  destruct Hs as [t u Hin|t r Hi|t now Hi|t s Hu]; [|done..|by apply undisturbed_set_comp].
  apply elem_of_owned in Hin. pose proof (ex_named _ (te_each _ Hex i) u Hin) as Hid. simpl in Hid.
  assert (owned j (List.filter (λ v, negb (v.1 =? u)) (t_live t)) = owned j (t_live t)) as Hl.
  { apply (clear_other j (Some u)). intros v Hv. rewrite <-Hid. by eapply other_timer. }
  eapply undisturbed_trans; [|apply undisturbed_refreshLoop; [done|]].
  - split; simpl; done.
  - simpl. rewrite Hl. intros v. by apply other_timer.
Qed.

(** The identifiers that a component newly remembers are fresh. *)
Lemma step_timeoutId i t t' :
  component_step i t t' →
  t_timeoutId t' i = t_timeoutId t i ∨ t_timeoutId t' i = Some (t_next t).
Proof.
  assert (∀ o, t_timeoutId (tab_answer i o t) i = t_timeoutId t i ∨
               t_timeoutId (tab_answer i o t) i = Some (t_next t)) as Ha.
  { intros o. unfold tab_answer. simpl. destruct (o (t_comp t i)); [|by left].
    unfold tab_resetTimer. destruct (keep_polling _); simpl; [right; by rewrite fn_lookup_insert|by left]. }
  intros Hs. destruct Hs; auto.
Qed.

Lemma tab_exclusive_step t t' : tab_exclusive t → tab_step t t' → tab_exclusive t'.
Proof.
  intros Hex [i Hs].
  assert (∀ j u, t_timeoutId t j = Some u → u < t_next t) as Hfresh
    by (intros j u Hu; by apply (ex_fresh _ (te_each _ Hex j))).
  assert (∀ j, i ≠ j → undisturbed j t t') as Hun by (intros j Hij; by apply (step_undisturbed i)).
  assert (∀ j u, i ≠ j → t_timeoutId t' i = Some u → t_timeoutId t' j = Some u → False) as Hne.
  { intros j u Hij Hi Hj. rewrite (un_timeoutId _ _ _ (Hun j Hij)) in Hj.
    destruct (step_timeoutId i t t' Hs) as [E|E]; rewrite E in Hi.
    - by apply Hij, (te_distinct _ Hex i j u).
    - injection Hi as <-. apply Hfresh in Hj. lia. }
  split.
  - intros j. destruct (decide (i = j)) as [<-|Hij].
    + eapply exclusive_step; [by apply (te_each t)|]. by apply project_step.
    + eapply undisturbed_exclusive; [by apply Hun|]. by apply (te_each t).
  - intros j k u Hj Hk. destruct (decide (i = j)) as [<-|Hij], (decide (i = k)) as [<-|Hik]; try done.
    + exfalso. by eapply (Hne k).
    + exfalso. by eapply (Hne j).
    + rewrite (un_timeoutId _ _ _ (Hun j Hij)) in Hj. rewrite (un_timeoutId _ _ _ (Hun k Hik)) in Hk.
      by apply (te_distinct _ Hex j k u).
Qed.

Lemma project_mounted i : project i tab_mounted = mounted.
Proof. done. Qed.

Lemma tab_exclusive_mounted : tab_exclusive tab_mounted.
Proof. split; [intros i; apply exclusive_mounted|done]. Qed.

Lemma tab_reachable_exclusive t : tab_reachable t → tab_exclusive t.
Proof.
  revert t. apply rtc_ind_r; [apply tab_exclusive_mounted|]. intros t t' _ Hs IH. by eapply tab_exclusive_step.
Qed.

Lemma tab_reachable_loop i t : tab_reachable t → rtc loop_step loop_init (abs (project i t)).
Proof.
  revert t. apply rtc_ind_r; [by rewrite project_mounted, abs_mounted|].
  intros t t' Ht [j Hs] IH. apply tab_reachable_exclusive in Ht. destruct (decide (j = i)) as [<-|Hij].
  - eapply rtc_r; [exact IH|]. apply abs_step; [by apply (te_each t)|]. by apply project_step.
  - rewrite (undisturbed_abs i t t'); [done|]. by apply (step_undisturbed j).
Qed.

(** C14: Components mounted on one page do not disturb each other, although they share the
    browser's counter of timers and [clearTimeout] can remove any timer: each component of a
    reachable tab is in a state that its own refresh loop reaches; a step of the tab is a step
    of the loop of one component and leaves the loops of all others as they are; and whatever
    the loop of a component can do next, the tab can do. *)
Theorem components_independent t :
  tab_reachable t →
  (∀ i, rtc loop_step loop_init (abs (project i t))) ∧
  (∀ i t', component_step i t t' →
     loop_step (abs (project i t)) (abs (project i t')) ∧
     ∀ j, i ≠ j → abs (project j t') = abs (project j t)) ∧
  (∀ i l, loop_step (abs (project i t)) l → ∃ t', component_step i t t' ∧ abs (project i t') = l).
Proof.
  intros Ht. pose proof (tab_reachable_exclusive t Ht) as Hex. split_and!.
  - intros i. by apply tab_reachable_loop.
  - intros i t' Hs. split.
    + apply abs_step; [by apply (te_each t)|]. by apply project_step.
    + intros j Hij. apply undisturbed_abs. by apply (step_undisturbed i).
  - intros i l Hl. apply abs_enabled in Hl as (p' & Hs & <-); [|by apply (te_each t)].
    apply project_enabled in Hs as (t' & Hs & <-). by exists t'.
Qed.

(** The invariants and the liveness of a component hold on every tab that it is mounted on. *)
Lemma tab_invariant i (I : S i → Prop) t : state_invariant I → tab_reachable t → I (t_comp t i).
Proof. intros HI Ht. apply (loop_invariant I (abs (project i t)) HI). by apply tab_reachable_loop. Qed.

Lemma phase_running (i : ι) t :
  exclusive (project i t) → phase_of (project i t) ≠ Stopped →
  t_inflight t i + length (owned i (t_live t)) = 1.
Proof.
  intros [Hx _ _] Hp. unfold phase_of in Hp. simpl in *.
  destruct (t_inflight t i), (owned i (t_live t)); simpl in *; try lia; done.
Qed.
(** ** Good answers *)

(** Steps on which the answers that component [i] gets are in [G i]. *)
Inductive component_step_on (G : ∀ i, R i → Prop) (i : ι) : tab → tab → Prop :=
| tab_on_fire t u : (u, i) ∈ t_live t → component_step_on G i t (tab_fire u i t)
| tab_on_answer t r : G i r → 0 < t_inflight t i → component_step_on G i t (tab_answer i (on_response r) t)
| tab_on_failed t now : 0 < t_inflight t i → component_step_on G i t (tab_answer i (on_failure now) t)
| tab_on_click t s : on_user (t_comp t i) s → component_step_on G i t (tab_set_comp i s t).

Definition tab_step_on (G : ∀ i, R i → Prop) (t t' : tab) : Prop := ∃ i, component_step_on G i t t'.
Definition tab_reachable_on (G : ∀ i, R i → Prop) (t : tab) : Prop := rtc (tab_step_on G) tab_mounted t.

Lemma component_step_on_step G i t t' : component_step_on G i t t' → component_step i t t'.
Proof. destruct 1; by constructor. Qed.

Lemma tab_reachable_on_reachable G t : tab_reachable_on G t → tab_reachable t.
Proof.
  unfold tab_reachable_on, tab_reachable. induction 1 as [|t t1 t2 [i Hs] _ IH]; [apply rtc_refl|].
  eapply rtc_l; [|exact IH]. exists i. by eapply component_step_on_step.
Qed.

Lemma project_step_on G i t t' : component_step_on G i t t' → step_on (G i) (project i t) (project i t').
Proof.
  intros Hs. destruct Hs as [t u Hin|t r Hr Hi|t now Hi|t s Hu].
  - rewrite project_fire. constructor. by apply elem_of_owned.
  - rewrite project_answer. by constructor.
  - rewrite project_answer. by constructor.
  - rewrite project_set_comp. by constructor.
Qed.

(** A component whose handlers keep an invariant and never throw on good answers goes on until
    the guard of its [resetTimer] ends the loop, whatever the other components do. *)
Lemma tab_on_alive G i (I : S i → Prop) t :
  I (on_refresh poll_init) ∧ keep_polling (on_refresh (poll_init (S := S i))) = true →
  (∀ s, I s → I (on_refresh s) ∧ keep_polling (on_refresh s) = keep_polling s) →
  (∀ r s, G i r → I s → ∃ s', on_response r s = Done s' ∧ I s') →
  (∀ now s, I s → ∃ s', on_failure now s = Done s' ∧ I s') →
  (∀ s s', I s → on_user s s' → I s' ∧ keep_polling s' = keep_polling s) →
  tab_reachable_on G t → I (t_comp t i) ∧ goes_on (project i t).
Proof.
  intros H0 Hre Hr Hf Hu. revert t. apply rtc_ind_r.
  { split; [apply H0|]. unfold goes_on. cbn. by rewrite (proj2 H0). }
  intros t t' Ht [j Hs] [HI Hg].
  pose proof (tab_reachable_exclusive t (tab_reachable_on_reachable G t Ht)) as Hex.
  destruct (decide (j = i)) as [->|Hij].
  - apply project_step_on in Hs.
    destruct (step_on_alive I (G i) Hre Hr Hf Hu _ _ (te_each _ Hex i) HI Hg Hs) as (_ & HI' & Hg'). done.
  - destruct (step_undisturbed j i t t' Hex Hij (component_step_on_step _ _ _ _ Hs)) as [Hc _ Hl Hi _].
    unfold goes_on, alive, quiescent, project in *. cbn in *. by rewrite Hc, Hl, Hi.
Qed.
End tab.
Arguments tab : clear implicits.
