(* ===== verification/QueryList.v ===== *)
(** * The list of queries (components/QueryList.jsx)

    The filters, sort orders and search of the overview page, the merge of a
    fresh response into the displayed list, and the component's event handlers. *)

From S2P Require Import Prelude JsString JsNumber JsNumberFacts JsCollections Model QueryState Format Poller.

(** ** Browser facilities the component uses *)

(** [String.prototype.toLowerCase], defined by the Unicode case mapping. *)
Class LowerCase := toLowerCase : jstring → jstring.

(** [Array.prototype.filter] with a predicate that may throw. *)
Fixpoint res_filter {A} (p : A → res bool) (l : list A) : res (list A) :=
  match l with
  | [] => Ok []
  | x :: l' =>
    b ← p x;
    rest ← res_filter p l';
    Ok (if b : bool then x :: rest else rest)
  end.

(** ** Filters and sort orders *)

Inductive filter_type := F_RUNNING | F_QUEUED | F_FINISHED.
Inductive error_type := E_USER_ERROR | E_INTERNAL_ERROR | E_INSUFFICIENT_RESOURCES | E_EXTERNAL.
Inductive sort_type := S_CREATED | S_ELAPSED | S_EXECUTION | S_CPU | S_CUMULATIVE_MEMORY | S_CURRENT_MEMORY.
Inductive sort_order := ASCENDING | DESCENDING.

#[export] Instance filter_type_eq_dec : EqDecision filter_type. Proof. solve_decision. Defined.
#[export] Instance error_type_eq_dec : EqDecision error_type. Proof. solve_decision. Defined.
#[export] Instance sort_type_eq_dec : EqDecision sort_type. Proof. solve_decision. Defined.
#[export] Instance sort_order_eq_dec : EqDecision sort_order. Proof. solve_decision. Defined.

Definition FILTER_TYPE (f : filter_type) (q : query) : bool :=
  match f with
  | F_RUNNING => negb (jeqb (q_state q) (js "QUEUED") || jeqb (q_state q) (js "FINISHED")
                       || jeqb (q_state q) (js "FAILED"))
  | F_QUEUED => jeqb (q_state q) (js "QUEUED")
  | F_FINISHED => jeqb (q_state q) (js "FINISHED")
  end.

Definition ERROR_TYPE (e : error_type) (q : query) : bool :=
  jeqb (q_state q) (js "FAILED") &&
  feq (errorType q) match e with
                    | E_USER_ERROR => js "USER_ERROR"
                    | E_INTERNAL_ERROR => js "INTERNAL_ERROR"
                    | E_INSUFFICIENT_RESOURCES => js "INSUFFICIENT_RESOURCES"
                    | E_EXTERNAL => js "EXTERNAL"
                    end.

(** ** The component's state *)

Record ql_state := {
  allQueries : list query;
  displayedQueries : list query;
  reorderInterval : Z;                  (* milliseconds *)
  currentSortType : sort_type;
  currentSortOrder : sort_order;
  stateFilters : list filter_type;
  errorTypeFilters : list error_type;
  searchString : jstring;
  maxQueries : nat;                     (* 0 stands for all queries *)
  lastRefresh : Z;
  lastReorder : Z;
  ql_initialized : bool;
}.

Definition ql_constructor (now : Z) : ql_state := {|
  allQueries := []; displayedQueries := []; reorderInterval := 5000;
  currentSortType := S_CREATED; currentSortOrder := DESCENDING;
  stateFilters := [F_RUNNING; F_QUEUED];
  errorTypeFilters := [E_INTERNAL_ERROR; E_INSUFFICIENT_RESOURCES; E_EXTERNAL];
  searchString := []; maxQueries := 100; lastRefresh := now; lastReorder := now;
  ql_initialized := false |}.

Section query_list.
Context `{DateParse, LowerCase, JsSort}.

(** The sort key of a query; [null] counts as 0 in the subtraction of keys. *)
Definition SORT_TYPE (t : sort_type) (s : query_stats) : number :=
  match t with
  | S_CREATED => Date_parse (createTime s)
  | S_ELAPSED => num_of_nullable (parseDuration (elapsedTime s))
  | S_EXECUTION => num_of_nullable (parseDuration (executionTime s))
  | S_CPU => num_of_nullable (parseDuration (totalCpuTime s))
  | S_CUMULATIVE_MEMORY => cumulativeUserMemory s
  | S_CURRENT_MEMORY => num_of_nullable (parseDataSize (userMemoryReservation s))
  end.

Definition SORT_ORDER (o : sort_order) (value : number) : number :=
  match o with ASCENDING => value | DESCENDING => nneg value end.

Definition sort_key (t : sort_type) (q : query) : number :=
  match queryStats q with Some s => SORT_TYPE t s | None => nan end.

(** The comparator; a query without statistics makes it throw. *)
Definition query_cmp (t : sort_type) (o : sort_order) (a b : query) : number :=
  SORT_ORDER o (by_key (sort_key t) a b).

Definition has_stats (q : query) : bool :=
  match queryStats q with Some _ => true | None => false end.

(** Sorting two or more queries compares every one of them. *)
Definition sortQueries (queries : list query) (t : sort_type) (o : sort_order) : res (list query) :=
  if (2 <=? length queries) && negb (forallb has_stats queries) then Throw TypeError
  else Ok (js_sort (query_cmp t o) queries).

Definition sortAndLimitQueries (queries : list query) (t : sort_type) (o : sort_order)
  (maxQueries : nat) : res (list query) :=
  queries ← sortQueries queries t o;
  Ok (if maxQueries <? length queries
      then splice maxQueries (length queries - maxQueries) queries else queries).

(** The state filters, then the error filters. *)
Definition matchesFilters (sf : list filter_type) (ef : list error_type) (q : query) : bool :=
  existsb (λ f, FILTER_TYPE f q) sf || existsb (λ e, ERROR_TYPE e q) ef.

(** [x && x.toLowerCase().indexOf(term) !== -1] *)
Definition field_matches (term : jstring) (o : option jstring) : bool :=
  match o with Some s => truthy s && includes term (toLowerCase s) | None => false end.

(** The search predicate: the tests run in this order and stop at the first that holds. *)
Definition matchesSearch (searchString : jstring) (q : query) : res bool :=
  let term := toLowerCase searchString in
  if includes term (toLowerCase (queryId q)) then Ok true
  else
    state ← getHumanReadableState q false;
    if includes term (toLowerCase state) then Ok true
    else if includes term (toLowerCase (queryTextPreview q)) then Ok true
    else if field_matches term (sessionUser q) then Ok true
    else if field_matches term (sessionSource q) then Ok true
    else if match resourceGroupId q with
            | Some path => includes term (toLowerCase (join (js ".") path))
            | None => false
            end then Ok true
    else if match errorCode q with
            | Some code => field_matches term (Some (ec_name code))
            | None => false
            end then Ok true
    else Ok false.

Definition filterQueries (queries : list query) (sf : list filter_type) (ef : list error_type)
  (searchString : jstring) : res (list query) :=
  let stateFilteredQueries := List.filter (matchesFilters sf ef) queries in
  if jeqb searchString [] then Ok stateFilteredQueries
  else res_filter (matchesSearch searchString) stateFilteredQueries.

(** ** Merging a response *)

(** The dictionary of the response by query id; [None] is the [false] that marks a query
    as taken. *)
Definition query_map (queryList : list query) : list (jstring * option query) :=
  fold_left (λ m q, map_set (queryId q) (Some q) m) queryList [].

(** The displayed queries that are still there, in their old order; an id that was displayed
    twice or is the name of an inherited property pushes a value that is not a query ([None]):
    it has neither a [queryId], a [state] nor [queryStats]. *)
Definition take_displayed (displayed : list query) (m : list (jstring * option query))
  : list (option query) * list (jstring * option query) :=
  fold_left (λ '(updated, m) old,
      if map_has (queryId old) m || bool_decide (queryId old ∈ prototype_keys) then
        (updated ++ [default None (map_get (queryId old) m)], map_set (queryId old) None m)
      else (updated, m))
    displayed ([], m).

(** The queries that were not displayed, in the enumeration order of the dictionary. *)
Definition remaining (m : list (jstring * option query)) : list query :=
  omap snd (obj_order m).

(** The queries of a list, unless one of its values is not a query. *)
Fixpoint all_queries (l : list (option query)) : res (list query) :=
  match l with
  | [] => Ok []
  | Some q :: l' => rest ← all_queries l'; Ok (q :: rest)
  | None :: _ => Throw TypeError
  end.

(** [filterQueries] on such values: without a [state], only the filter for running queries lets
    a value pass, and the search reads its [queryId]. *)
Definition filter_values (sf : list filter_type) (ef : list error_type) (searchString : jstring)
  (l : list (option query)) : res (list (option query)) :=
  let passed := List.filter (λ o, match o with
                                  | Some q => matchesFilters sf ef q
                                  | None => bool_decide (F_RUNNING ∈ sf)
                                  end) l in
  if jeqb searchString [] then Ok passed
  else res_filter (λ o, match o with Some q => matchesSearch searchString q | None => Throw TypeError end) passed.

(** [sortQueries] on such values: the comparator reads the statistics of every value, unless
    there is only one. *)
Definition sort_values (l : list (option query)) (t : sort_type) (o : sort_order) : res (list (option query)) :=
  match all_queries l with
  | Ok queries => sorted ← sortQueries queries t o; Ok (map Some sorted)
  | Throw e => if 2 <=? length l then Throw e else Ok l
  end.

(** A response and the two readings of the clock while it is handled. *)
Record ql_response := { queryList : list query; now1 : Z; now2 : Z }.

(** Whether the handler reorders the rows it keeps. *)
Definition reorder_due (r : ql_response) (s : ql_state) : bool :=
  negb (reorderInterval s =? 0)%Z && (reorderInterval s <=? now1 r - lastReorder s)%Z.

(** The deletion of the rows beyond [maxQueries]; here 0 stands for all queries. *)
Definition limit {A} (maxQueries : nat) (l : list A) : list A :=
  if negb (maxQueries =? 0) && (maxQueries <? length l)
  then splice maxQueries (length l - maxQueries) l else l.

(** The success callback of [refreshLoop]'s request, up to [setState]: the new rows. *)
Definition ql_merge (r : ql_response) (s : ql_state) : res (list (option query)) :=
  let '(updatedQueries, m) := take_displayed (displayedQueries s) (query_map (queryList r)) in
  newQueries ← filterQueries (remaining m) (stateFilters s) (errorTypeFilters s) (searchString s);
  merged ← (if reorder_due r s then
              kept ← filter_values (stateFilters s) (errorTypeFilters s) (searchString s) updatedQueries;
              sort_values (kept ++ map Some newQueries) (currentSortType s) (currentSortOrder s)
            else
              sorted ← sortQueries newQueries (currentSortType s) (currentSortOrder s);
              Ok (updatedQueries ++ map Some sorted));
  Ok (limit (maxQueries s) merged).

(** The success callback up to [resetTimer]; rows that are not queries cannot be rendered. *)
Definition ql_on_response (r : ql_response) (s : ql_state) : res ql_state :=
  merged ← ql_merge r s;
  updatedQueries ← all_queries merged;
  Ok {| allQueries := queryList r; displayedQueries := updatedQueries;
        reorderInterval := reorderInterval s; currentSortType := currentSortType s;
        currentSortOrder := currentSortOrder s; stateFilters := stateFilters s;
        errorTypeFilters := errorTypeFilters s; searchString := searchString s;
        maxQueries := maxQueries s; lastRefresh := now1 r;
        lastReorder := if reorder_due r s then now2 r else lastReorder s; ql_initialized := true |}.

(** The failure callback. *)
Definition ql_on_failure (s : ql_state) : ql_state := {|
  allQueries := allQueries s; displayedQueries := displayedQueries s;
  reorderInterval := reorderInterval s; currentSortType := currentSortType s;
  currentSortOrder := currentSortOrder s; stateFilters := stateFilters s;
  errorTypeFilters := errorTypeFilters s; searchString := searchString s;
  maxQueries := maxQueries s; lastRefresh := lastRefresh s; lastReorder := lastReorder s;
  ql_initialized := true |}.

(** ** Event handlers *)

(** [setState] of the fields the event handlers set. *)
Definition set_view (displayed : list query) (t : sort_type) (o : sort_order)
  (sf : list filter_type) (ef : list error_type) (max : nat) (s : ql_state) : ql_state := {|
  allQueries := allQueries s; displayedQueries := displayed;
  reorderInterval := reorderInterval s; currentSortType := t; currentSortOrder := o;
  stateFilters := sf; errorTypeFilters := ef; searchString := searchString s;
  maxQueries := max; lastRefresh := lastRefresh s; lastReorder := lastReorder s;
  ql_initialized := ql_initialized s |}.

Definition executeSearch (s : ql_state) : res ql_state :=
  filtered ← filterQueries (allQueries s) (stateFilters s) (errorTypeFilters s) (searchString s);
  displayed ← sortAndLimitQueries filtered (currentSortType s) (currentSortOrder s) (maxQueries s);
  Ok (set_view displayed (currentSortType s) (currentSortOrder s) (stateFilters s)
        (errorTypeFilters s) (maxQueries s) s).

Definition handleMaxQueriesClick (newMaxQueries : nat) (s : ql_state) : res ql_state :=
  filtered ← filterQueries (allQueries s) (stateFilters s) (errorTypeFilters s) (searchString s);
  displayed ← sortAndLimitQueries filtered (currentSortType s) (currentSortOrder s) newMaxQueries;
  Ok (set_view displayed (currentSortType s) (currentSortOrder s) (stateFilters s)
        (errorTypeFilters s) newMaxQueries s).

Definition handleReorderClick (interval : Z) (s : ql_state) : ql_state :=
  if negb (reorderInterval s =? interval)%Z then {|
    allQueries := allQueries s; displayedQueries := displayedQueries s;
    reorderInterval := interval; currentSortType := currentSortType s;
    currentSortOrder := currentSortOrder s; stateFilters := stateFilters s;
    errorTypeFilters := errorTypeFilters s; searchString := searchString s;
    maxQueries := maxQueries s; lastRefresh := lastRefresh s; lastReorder := lastReorder s;
    ql_initialized := ql_initialized s |}
  else s.

Definition next_order (sortType : sort_type) (s : ql_state) : sort_order :=
  if bool_decide (currentSortType s = sortType) && bool_decide (currentSortOrder s = DESCENDING)
  then ASCENDING else DESCENDING.

Definition handleSortClick (sortType : sort_type) (s : ql_state) : res ql_state :=
  filtered ← filterQueries (allQueries s) (stateFilters s) (errorTypeFilters s) (searchString s);
  displayed ← sortAndLimitQueries filtered sortType (next_order sortType s) (maxQueries s);
  Ok (set_view displayed sortType (next_order sortType s) (stateFilters s)
        (errorTypeFilters s) (maxQueries s) s).

(** [filters.splice(filters.indexOf(f), 1)] if the filter is set, [filters.push(f)] if not. *)
Definition toggle {A} `{EqDecision A} (f : A) (filters : list A) : list A :=
  match index_of f filters with
  | Some i => splice i 1 filters
  | None => filters ++ [f]
  end.

Definition handleStateFilterClick (f : filter_type) (s : ql_state) : res ql_state :=
  let newFilters := toggle f (stateFilters s) in
  filtered ← filterQueries (allQueries s) newFilters (errorTypeFilters s) (searchString s);
  displayed ← sortAndLimitQueries filtered (currentSortType s) (currentSortOrder s) (maxQueries s);
  Ok (set_view displayed (currentSortType s) (currentSortOrder s) newFilters
        (errorTypeFilters s) (maxQueries s) s).

Definition handleErrorTypeFilterClick (e : error_type) (s : ql_state) : res ql_state :=
  let newFilters := toggle e (errorTypeFilters s) in
  filtered ← filterQueries (allQueries s) (stateFilters s) newFilters (searchString s);
  displayed ← sortAndLimitQueries filtered (currentSortType s) (currentSortOrder s) (maxQueries s);
  Ok (set_view displayed (currentSortType s) (currentSortOrder s) (stateFilters s)
        newFilters (maxQueries s) s).

Definition set_search (search : jstring) (s : ql_state) : ql_state := {|
  allQueries := allQueries s; displayedQueries := displayedQueries s;
  reorderInterval := reorderInterval s; currentSortType := currentSortType s;
  currentSortOrder := currentSortOrder s; stateFilters := stateFilters s;
  errorTypeFilters := errorTypeFilters s; searchString := search;
  maxQueries := maxQueries s; lastRefresh := lastRefresh s; lastReorder := lastReorder s;
  ql_initialized := ql_initialized s |}.

(** The component with its search timer: whether [searchTimeoutId] names a pending timer. *)
Record ql_component := { ql : ql_state; search_pending : bool }.

Inductive ql_event :=
| SearchChange (s : jstring)            (* handleSearchStringChange *)
| SearchTimer                           (* the search timer fires: executeSearch *)
| MaxQueriesClick (n : nat)
| ReorderClick (interval : Z)
| SortClick (t : sort_type)
| StateFilterClick (f : filter_type)
| ErrorTypeFilterClick (e : error_type).

(** A handler that throws leaves the state as it was. *)
Definition or_else (m : res ql_state) (s : ql_state) : ql_state :=
  match m with Ok s' => s' | Throw _ => s end.

Definition ql_handle (e : ql_event) (c : ql_component) : ql_component :=
  let s := ql c in
  let same st := {| ql := st; search_pending := search_pending c |} in
  match e with
  | SearchChange str => {| ql := set_search str s; search_pending := true |}
  | SearchTimer =>
    if search_pending c then {| ql := or_else (executeSearch s) s; search_pending := false |} else c
  | MaxQueriesClick n => same (or_else (handleMaxQueriesClick n s) s)
  | ReorderClick i => same (handleReorderClick i s)
  | SortClick t => same (or_else (handleSortClick t s) s)
  | StateFilterClick f => same (or_else (handleStateFilterClick f s) s)
  | ErrorTypeFilterClick e => same (or_else (handleErrorTypeFilterClick e s) s)
  end.

(** [refreshLoop] clears the search timer before it sends the request. *)
Definition ql_refresh (c : ql_component) : ql_component :=
  {| ql := ql c; search_pending := false |}.
End query_list.

(** ** QueryListItem.stripQueryTextWhitespace *)

(** The body of the first loop, where [None] is -1. *)
Definition narrow (line : jstring) (minLeadingWhitespace : option nat) : option nat :=
  if length (trim line) =? 0 then minLeadingWhitespace
  else match search_nonspace line, minLeadingWhitespace with
       | Some leadingWhitespace, Some m =>
         if leadingWhitespace <? m then Some leadingWhitespace else minLeadingWhitespace
       | Some leadingWhitespace, None => Some leadingWhitespace
       | None, _ => minLeadingWhitespace
       end.

(** The first loop: the least indentation of the lines that are not blank; it stops at 0. *)
Fixpoint minLeadingWhitespace (lines : list jstring) (acc : option nat) : option nat :=
  match lines with
  | [] => acc
  | line :: lines' =>
    match acc with
    | Some 0 => acc
    | _ => minLeadingWhitespace lines' (narrow line acc)
    end
  end.

(** The second loop, at line [i]. *)
Fixpoint stripLines (indent : nat) (lines : list jstring) (i : nat) (formatted : jstring) : jstring :=
  match lines with
  | [] => formatted
  | line :: lines' =>
    let trimmedLine := trimEnd (substring_from indent line) in
    if 0 <? length trimmedLine then
      if i <? 6 - 1 then stripLines indent lines' (S i) (formatted ++ trimmedLine ++ [NEWLINE])
      else formatted ++ trimmedLine ++ [NEWLINE] ++ js "..."
    else stripLines indent lines' (S i) formatted
  end.

(** [substring(-1)] is [substring(0)]. *)
Definition stripQueryTextWhitespace (queryText : jstring) : jstring :=
  let lines := split [NEWLINE] queryText in
  stripLines (default 0 (minLeadingWhitespace lines None)) lines 0 [].
