(* ===== verification/QueryListFacts.v ===== *)
(** * Correctness of the list of queries

    What the overview page shows after a refresh and after each event handler:
    the rows are the queries that pass the filters, sorted and cut at the limit,
    rows keep their place between two reorderings, and no query is shown twice. *)

From S2P Require Import Prelude JsString JsNumber JsNumberFacts JsCollections Model QueryState Format Poller QueryList.
From stdpp Require Import relations sorting.

(** ** Generic lemmas *)

Lemma res_filter_Ok {A} (p : A → res bool) l l' :
  res_filter p l = Ok l' →
  l' = List.filter (λ x, match p x with Ok b => b | Throw _ => false end) l.
Proof.
  revert l'. induction l as [|x l IH]; intros l' Hl; simpl in *; [by simplify_eq|].
  apply res_bind_ok in Hl as (b & Hb & Hl). apply res_bind_ok in Hl as (rest & Hr & Hl).
  rewrite Hb. apply IH in Hr as <-. destruct b; by simplify_eq.
Qed.

Lemma omap_snd_take {K V} `{EqDecision K} (k : K) (v : V) (m : list (K * option V)) :
  map_get k m = Some (Some v) → omap snd m ≡ₚ v :: omap snd (map_set k None m).
Proof.
  induction m as [|[k' o] m IH]; simpl; [done|]. case_decide as Hk; intros H.
  - by simplify_eq.
  - simpl. specialize (IH H). destruct o as [w|]; simpl; [|done].
    rewrite IH. constructor.
Qed.

Lemma omap_snd_new {K V} `{EqDecision K} (k : K) (v : V) (m : list (K * option V)) :
  map_get k m = None → omap snd (map_set k (Some v) m) = omap snd m ++ [v].
Proof.
  induction m as [|[k' o] m IH]; simpl; [done|]. case_decide as Hk; [done|].
  intros H. destruct o; simpl; [f_equal|]; by apply IH.
Qed.

Lemma omap_permutation {A B} (f : A → option B) (l1 l2 : list A) : l1 ≡ₚ l2 → omap f l1 ≡ₚ omap f l2.
Proof. by intros ->. Qed.

Lemma omap_ext_in {A B} (f g : A → option B) (l : list A) :
  (∀ x, x ∈ l → f x = g x) → omap f l = omap g l.
Proof. intros H. apply list_omap_ext, Forall_Forall2_diag. by apply Forall_forall. Qed.

Lemma limit_take {A} n (l : list A) : limit n l = if n =? 0 then l else take n l.
Proof.
  unfold limit. destruct (Nat.eqb_spec n 0) as [->|]; simpl; [done|].
  destruct (Nat.ltb_spec n (length l)); [rewrite splice_tail by lia; done|].
  by rewrite take_ge by lia.
Qed.

Lemma limit_fmap {A B} (f : A → B) n (l : list A) : limit n (f <$> l) = f <$> limit n l.
Proof. rewrite !limit_take. destruct (n =? 0); [done|]. by rewrite fmap_take. Qed.

Lemma limit_incl {A} n (l : list A) x : x ∈ limit n l → x ∈ l.
Proof. rewrite limit_take. destruct (n =? 0); [done|]. intros Hx. rewrite <-(take_drop n l). set_solver. Qed.

Lemma limit_length {A} n (l : list A) : n ≠ 0 → length (limit n l) ≤ n.
Proof. intros Hn. rewrite limit_take, (proj2 (Nat.eqb_neq n 0)) by done. rewrite length_take. lia. Qed.

(** ** The merge of a response *)

(** The ids of a list of queries, and the freshest version of an id in a response. *)
Definition ids (l : list query) : list jstring := queryId <$> l.
Definition fresh (l : list query) (id : jstring) : option query :=
  mjoin (map_get id (query_map l)).

(** What the coordinator sends: distinct ids, none of them a property of every object. *)
Definition good_ids (l : list query) : Prop := NoDup (ids l) ∧ Forall (λ k, k ∉ prototype_keys) (ids l).
#[export] Instance good_ids_dec l : Decision (good_ids l).
Proof. unfold good_ids. apply _. Defined.

Section merge.
Implicit Types (l : list query) (m : list (jstring * option query)).

Lemma query_map_fold l m :
  NoDup (map_keys m ++ ids l) →
  omap snd (fold_left (λ m q, map_set (queryId q) (Some q) m) l m) = omap snd m ++ l.
Proof.
  revert m. induction l as [|q l IH]; intros m Hnd; simpl; [by rewrite app_nil_r|].
  assert (map_get (queryId q) m = None) as Hq.
  { apply map_get_None. intros Hin. apply NoDup_app in Hnd as (_ & Hd & _).
    apply (Hd _ Hin). apply list_elem_of_here. }
  rewrite IH, omap_snd_new by
    (done || (rewrite map_keys_set; unfold map_has; rewrite Hq, <-app_assoc; done)).
  by rewrite <-app_assoc.
Qed.

Lemma query_map_values l : NoDup (ids l) → omap snd (query_map l) = l.
Proof. intros H. unfold query_map. by rewrite query_map_fold. Qed.

Lemma query_map_get_fold l m id :
  NoDup (ids l) →
  map_get id (fold_left (λ m q, map_set (queryId q) (Some q) m) l m) =
    match List.find (λ q, jeqb (queryId q) id) l with
    | Some q => Some (Some q)
    | None => map_get id m
    end.
Proof.
  revert m. induction l as [|q l IH]; intros m Hnd; simpl; [done|].
  apply NoDup_cons in Hnd as [Hq Hnd]. rewrite IH by done.
  destruct (jeqb (queryId q) id) eqn:E.
  - boolp. subst id. destruct (List.find _ l) as [q'|] eqn:F; [|apply map_get_set_eq].
    apply find_some in F as [Hin F]. boolp. destruct Hq. rewrite <-F.
    apply list_elem_of_fmap_2. by apply list_elem_of_In.
  - destruct (List.find _ l); [done|]. apply map_get_set_ne. intros ->. by rewrite jeqb_refl in E.
Qed.

Lemma query_map_get l id :
  NoDup (ids l) → map_get id (query_map l) = Some <$> List.find (λ q, jeqb (queryId q) id) l.
Proof.
  intros H. unfold query_map. rewrite query_map_get_fold by done. by destruct (List.find _ l).
Qed.

Lemma fresh_spec l id q : NoDup (ids l) → fresh l id = Some q ↔ q ∈ l ∧ queryId q = id.
Proof.
  intros Hnd. unfold fresh. rewrite query_map_get by done.
  destruct (List.find _ l) as [q'|] eqn:F; simpl.
  - pose proof (find_some _ _ F) as [Hin HF]. boolp. rewrite <-list_elem_of_In in Hin. split.
    + intros [= <-]. done.
    + intros [Hq Hid]. f_equal. subst id.
      apply (list_elem_of_lookup) in Hin as [i Hi], Hq as [j Hj].
      assert (i = j) as <- by (eapply (NoDup_lookup _ _ _ (queryId q) Hnd); unfold ids; rewrite list_lookup_fmap;
        [rewrite Hi; simpl; by f_equal|by rewrite Hj]).
      congruence.
  - split; [done|]. intros [Hq Hid]. apply list_elem_of_In in Hq.
    apply (find_none _ _ F) in Hq. by rewrite Hid, jeqb_refl in Hq.
Qed.

Lemma fresh_None l id : NoDup (ids l) → fresh l id = None ↔ id ∉ ids l.
Proof.
  intros Hnd. split.
  - intros HN Hin. apply list_elem_of_fmap in Hin as (q & -> & Hq).
    assert (fresh l (queryId q) = Some q) by (by apply fresh_spec). congruence.
  - intros Hin. destruct (fresh l id) as [q|] eqn:E; [|done].
    apply fresh_spec in E as [Hq <-]; [|done]. destruct Hin. by apply list_elem_of_fmap_2.
Qed.

Definition take_step : list (option query) * list (jstring * option query) → query → 
  list (option query) * list (jstring * option query) :=
  λ '(updated, m) old,
      if map_has (queryId old) m || bool_decide (queryId old ∈ prototype_keys) then
        (updated ++ [default None (map_get (queryId old) m)], map_set (queryId old) None m)
      else (updated, m).

(** The rows that are still there are the fresh versions of the displayed ones, and they
    leave the dictionary. *)
Lemma take_displayed_fold displayed updated m :
  NoDup (ids displayed) → Forall (λ k, k ∉ prototype_keys) (ids displayed) →
  (∀ q, q ∈ displayed → map_get (queryId q) m ≠ Some None) →
  let found := omap (λ old, mjoin (map_get (queryId old) m)) displayed in
  ∃ m', fold_left take_step displayed (updated, m) = (updated ++ (Some <$> found), m') ∧
        omap snd m ≡ₚ found ++ omap snd m'.
Proof.
  revert updated m. induction displayed as [|old displayed IH]; intros updated m Hnd Hp Hm found; simpl.
  { exists m. by rewrite app_nil_r. }
  apply NoDup_cons in Hnd as [Hold Hnd]. apply Forall_cons in Hp as [Hpo Hp].
  rewrite (bool_decide_eq_false_2 _ Hpo), orb_false_r. unfold map_has, found. simpl.
  destruct (map_get (queryId old) m) as [[q|]|] eqn:E; simpl.
  - assert (∀ q', q' ∈ displayed →
        map_get (queryId q') (map_set (queryId old) None m) = map_get (queryId q') m) as Hsame.
    { intros q' Hq'. apply map_get_set_ne. intros Heq. destruct Hold. rewrite <-Heq.
      by apply list_elem_of_fmap_2. }
    destruct (IH (updated ++ [Some q]) (map_set (queryId old) None m)) as (m' & Hf & Hpm); [done|done| |].
    { intros q' Hq'. rewrite Hsame by done. apply Hm. by apply list_elem_of_further. }
    assert (omap (λ old0, mjoin (map_get (queryId old0) (map_set (queryId old) None m))) displayed =
            omap (λ old0, mjoin (map_get (queryId old0) m)) displayed) as Hom.
    { apply omap_ext_in. intros q' Hq'. by rewrite Hsame. }
    rewrite Hom in Hf, Hpm. exists m'. split; [by rewrite Hf, <-app_assoc|].
    rewrite (omap_snd_take _ _ _ E), Hpm. done.
  - destruct (Hm old); [apply list_elem_of_here|done].
  - apply IH; [done..|]. intros q Hq. apply Hm. by apply list_elem_of_further.
Qed.

Lemma take_displayed_spec displayed l :
  NoDup (ids l) → NoDup (ids displayed) → Forall (λ k, k ∉ prototype_keys) (ids displayed) →
  let found := omap (λ old, fresh l (queryId old)) displayed in
  ∃ m, take_displayed displayed (query_map l) = (Some <$> found, m) ∧ l ≡ₚ found ++ remaining m.
Proof.
  intros Hl Hd Hp found.
  destruct (take_displayed_fold displayed [] (query_map l)) as (m & Hf & Hpm); [done..| |].
  { intros q _. rewrite query_map_get by done. by destruct (List.find _ l). }
  exists m. split; [apply Hf|].
  rewrite <-(query_map_values l) at 1 by done. rewrite Hpm. unfold remaining.
  apply Permutation_app; [done|]. apply omap_permutation. symmetry. apply obj_order_perm.
Qed.

Lemma all_queries_Some l : all_queries (Some <$> l) = Ok l.
Proof. induction l as [|q l IH]; csimpl; [done|]. by rewrite IH. Qed.

End merge.

(** ** Filters, search and sorting *)

Section view.
Context `{DateParse, LowerCase, JsSortLaws}.
Implicit Types (l : list query) (s : ql_state) (q : query).

(** The query passes the filters and the search. *)
Definition passes (sf : list filter_type) (ef : list error_type) (search : jstring) (q : query) : bool :=
  matchesFilters sf ef q &&
  (jeqb search [] || match matchesSearch search q with Ok b => b | Throw _ => false end).
Definition passes_view (s : ql_state) : query → bool :=
  passes (stateFilters s) (errorTypeFilters s) (searchString s).

(** A query the page can process: it has statistics, and a text for its state. *)
Definition showable (q : query) : bool := has_stats q && is_ok (getHumanReadableState q false).
(** Its sort key is a number. *)
Definition sortable (t : sort_type) (q : query) : Prop :=
  valid (sort_key t q) = true ∧ is_nan (sort_key t q) = false.

Lemma matchesSearch_ok search q :
  is_ok (getHumanReadableState q false) = true → is_ok (matchesSearch search q) = true.
Proof.
  intros Hs. unfold matchesSearch. destruct (includes _ (toLowerCase (queryId q))); [done|].
  destruct (getHumanReadableState q false) as [st|]; [|done]. simpl. by cases.
Qed.

Lemma res_filter_ok {A} (p : A → res bool) (l : list A) :
  Forall (λ x, is_ok (p x) = true) l → is_ok (res_filter p l) = true.
Proof.
  induction 1 as [|x l Hx Hl IH]; [done|]. cbn [res_filter].
  destruct (p x) as [b|]; [|done]. cbn. by destruct (res_filter p l).
Qed.

Lemma filterQueries_Ok l sf ef search l' :
  filterQueries l sf ef search = Ok l' → l' = List.filter (passes sf ef search) l.
Proof.
  unfold filterQueries, passes. destruct (jeqb search []).
  - intros [= <-]. apply filter_bool_ext. intros q _. by rewrite andb_true_r.
  - intros ->%res_filter_Ok. rewrite filter_filter_bool. apply filter_bool_ext.
    intros q _. apply andb_comm.
Qed.

Lemma filterQueries_total l sf ef search :
  Forall (λ q, showable q = true) l →
  filterQueries l sf ef search = Ok (List.filter (passes sf ef search) l).
Proof.
  intros Hl. destruct (filterQueries l sf ef search) as [l'|e] eqn:E.
  { by rewrite (filterQueries_Ok _ _ _ _ _ E). }
  exfalso. unfold filterQueries in E. destruct (jeqb search []); [done|].
  assert (is_ok (res_filter (matchesSearch search) (List.filter (matchesFilters sf ef) l)) = true) as Hok.
  { apply res_filter_ok, Forall_forall. intros q [Hq _]%elem_of_filter_bool.
    rewrite Forall_forall in Hl. apply Hl in Hq. unfold showable in Hq. boolp.
    apply matchesSearch_ok, Hq. }
  by rewrite E in Hok.
Qed.

Lemma sortQueries_Ok l t o l' : sortQueries l t o = Ok l' → l' = js_sort (query_cmp t o) l.
Proof. unfold sortQueries. by destruct (_ && _); intros [= <-]. Qed.

Lemma sortQueries_total l t o :
  Forall (λ q, showable q = true) l → sortQueries l t o = Ok (js_sort (query_cmp t o) l).
Proof.
  intros Hl. unfold sortQueries.
  assert (forallb has_stats l = true) as ->; [|by rewrite andb_false_r].
  apply forallb_forall. intros q Hq. rewrite Forall_forall in Hl.
  apply list_elem_of_In, Hl in Hq. unfold showable in Hq. boolp. by destruct Hq.
Qed.

Lemma query_cmp_consistent t o l : Forall (sortable t) l → consistent (query_cmp t o) l.
Proof.
  intros Hl. pose proof (by_key_consistent (sort_key t) l Hl) as Hc.
  destruct o; [done|]. apply (consistent_neg _ _ Hc).
Qed.

Definition sorted_by (t : sort_type) (o : sort_order) : list query → Prop :=
  StronglySorted (cmp_le (query_cmp t o)).

Lemma sort_sorted t o l : Forall (sortable t) l → sorted_by t o (js_sort (query_cmp t o) l).
Proof. intros Hl. by apply js_sort_sorted, query_cmp_consistent. Qed.

Lemma showable_filter (p : query → bool) l :
  Forall (λ q, showable q = true) l → Forall (λ q, showable q = true) (List.filter p l).
Proof. rewrite !Forall_forall. intros Hl q [Hq _]%elem_of_filter_bool. by apply Hl. Qed.

Lemma sortable_filter t (p : query → bool) l :
  Forall (sortable t) l → Forall (sortable t) (List.filter p l).
Proof. rewrite !Forall_forall. intros Hl q [Hq _]%elem_of_filter_bool. by apply Hl. Qed.

(** What every event handler computes. *)
Lemma view_total l sf ef search t o n :
  Forall (λ q, showable q = true) l →
  (filterQueries l sf ef search ≫= λ f, sortAndLimitQueries f t o n) =
  Ok (take n (js_sort (query_cmp t o) (List.filter (passes sf ef search) l))).
Proof.
  intros Hl. rewrite filterQueries_total by done. simpl. unfold sortAndLimitQueries.
  rewrite sortQueries_total by (by apply showable_filter). simpl.
  destruct (Nat.ltb_spec n (length (js_sort (query_cmp t o) (List.filter (passes sf ef search) l)))).
  - by rewrite splice_tail by lia.
  - by rewrite take_ge by lia.
Qed.

Lemma view_Ok l sf ef search t o n f d :
  filterQueries l sf ef search = Ok f → sortAndLimitQueries f t o n = Ok d →
  d = take n (js_sort (query_cmp t o) (List.filter (passes sf ef search) l)).
Proof.
  intros ->%filterQueries_Ok Hd. apply res_bind_ok in Hd as (srt & ->%sortQueries_Ok & [= <-]).
  case_match eqn:E.
  - apply Nat.ltb_lt in E. by rewrite splice_tail by lia.
  - apply Nat.ltb_ge in E. by rewrite take_ge by lia.
Qed.

(** ** A refresh *)

Lemma fmap_nodup_sub (l1 l2 : list query) : l1 ⊆+ l2 → good_ids l2 → good_ids l1.
Proof.
  intros Hs [Hnd Hp]. assert (ids l1 ⊆+ ids l2) as Hi by (by apply fmap_submseteq).
  split.
  { apply submseteq_Permutation in Hi as [k Hk]. rewrite Hk in Hnd. by apply NoDup_app in Hnd as [? _]. }
  rewrite Forall_forall in *. intros x Hx. apply Hp. by eapply elem_of_submseteq.
Qed.

(** The rows that stay, and the queries that are not displayed yet. *)
Definition stay s (l : list query) : list query := omap (λ old, fresh l (queryId old)) (displayedQueries s).
Definition not_displayed s (q : query) : bool := negb (bool_decide (queryId q ∈ ids (displayedQueries s))).

Lemma stay_displayed s l q : NoDup (ids l) → q ∈ stay s l → queryId q ∈ ids (displayedQueries s).
Proof.
  intros Hl Hq. apply list_elem_of_omap in Hq as (old & Hold & Hf).
  apply fresh_spec in Hf as [_ ->]; [|done]. by apply list_elem_of_fmap_2.
Qed.

Lemma remaining_spec s l rest :
  NoDup (ids l) → l ≡ₚ stay s l ++ rest → rest ≡ₚ List.filter (not_displayed s) l.
Proof.
  intros Hl Hp. rewrite (Permutation_filter_bool _ _ _ Hp), List.filter_app.
  assert (List.filter (not_displayed s) (stay s l) = []) as ->.
  { apply filter_bool_none. intros q Hq. unfold not_displayed. rewrite bool_decide_eq_true_2; [done|].
    by eapply stay_displayed. }
  simpl. rewrite (filter_bool_all (not_displayed s) rest); [done|].
  intros q Hq. unfold not_displayed. rewrite bool_decide_eq_false_2; [done|].
  intros (old & Heq & Hold)%list_elem_of_fmap.
  assert (q ∈ l) as Hql by (rewrite Hp; set_solver).
  assert (q ∈ stay s l) as Hqs.
  { apply list_elem_of_omap. exists old. split; [done|]. by apply fresh_spec. }
  assert (NoDup (ids (stay s l ++ rest))) as Hnd by (unfold ids; by rewrite <-Hp).
  unfold ids in Hnd. rewrite fmap_app in Hnd. apply NoDup_app in Hnd as (_ & Hd & _).
  apply (Hd (queryId q)); by apply list_elem_of_fmap_2.
Qed.

(** On queries, the functions on values are those on queries. *)
Lemma filter_values_Some sf ef search l :
  filter_values sf ef search (Some <$> l) = (f ← filterQueries l sf ef search; Ok (map Some f)).
Proof.
  unfold filter_values, filterQueries.
  assert (∀ p : query → bool, List.filter (λ o, match o with Some q => p q | None => bool_decide (F_RUNNING ∈ sf) end)
    (Some <$> l) = Some <$> List.filter p l) as ->.
  { intros p. induction l as [|q l IH]; [done|]. cbn. rewrite IH. by destruct (p q). }
  destruct (jeqb search []); [done|]. induction (List.filter _ l) as [|q l' IH]; [done|]. cbn.
  destruct (matchesSearch search q) as [b|]; [|done]. cbn [mbind res_bind]. change (list_fmap _ _ Some l') with (Some <$> l').
  rewrite IH. destruct (res_filter (matchesSearch search) l'); [|done]. by destruct b.
Qed.

Lemma sort_values_Some l t o : sort_values (Some <$> l) t o = (f ← sortQueries l t o; Ok (map Some f)).
Proof. unfold sort_values. by rewrite all_queries_Some. Qed.

(** The rows after a refresh, where [rest] are the queries that were not displayed. *)
Definition refreshed r s (rest : list query) : list query :=
  limit (maxQueries s)
    (if reorder_due r s then
       js_sort (query_cmp (currentSortType s) (currentSortOrder s))
         (List.filter (passes_view s) (stay s (queryList r)) ++ List.filter (passes_view s) rest)
     else stay s (queryList r) ++
       js_sort (query_cmp (currentSortType s) (currentSortOrder s)) (List.filter (passes_view s) rest)).

Definition after_refresh r s (displayed : list query) : ql_state := {|
  allQueries := queryList r; displayedQueries := displayed;
  reorderInterval := reorderInterval s; currentSortType := currentSortType s;
  currentSortOrder := currentSortOrder s; stateFilters := stateFilters s;
  errorTypeFilters := errorTypeFilters s; searchString := searchString s;
  maxQueries := maxQueries s; lastRefresh := now1 r;
  lastReorder := if reorder_due r s then now2 r else lastReorder s; ql_initialized := true |}.

Lemma on_response_spec r s :
  good_ids (queryList r) → good_ids (displayedQueries s) →
  ∃ rest, queryList r ≡ₚ stay s (queryList r) ++ rest ∧
    (∀ s', ql_on_response r s = Ok s' → s' = after_refresh r s (refreshed r s rest)) ∧
    (Forall (λ q, showable q = true) (queryList r) →
     ql_on_response r s = Ok (after_refresh r s (refreshed r s rest))).
Proof.
  intros [Hl Hlp] [Hd Hdp].
  destruct (take_displayed_spec (displayedQueries s) (queryList r) Hl Hd Hdp) as (m & Ht & Hp).
  exists (remaining m). fold (stay s (queryList r)) in Hp. split; [done|].
  unfold ql_on_response, ql_merge. rewrite Ht. fold (stay s (queryList r)). rewrite filter_values_Some.
  unfold refreshed, after_refresh, passes_view. split.
  - intros s' Hs'. apply res_bind_ok in Hs' as (merged & Hm & Hs').
    apply res_bind_ok in Hm as (nq & ->%filterQueries_Ok & Hm). apply res_bind_ok in Hm as (rows & Hm & [= <-]).
    destruct (reorder_due r s).
    + destruct (filterQueries (stay s (queryList r)) _ _ _) as [kept|] eqn:Ek; [|done].
      cbn [mbind res_bind] in Hm. apply filterQueries_Ok in Ek as ->.
      rewrite <-fmap_app, sort_values_Some in Hm. destruct (sortQueries _ _ _) as [srt|] eqn:Es; [|done].
      apply sortQueries_Ok in Es as ->. injection Hm as <-.
      rewrite limit_fmap, all_queries_Some in Hs'. by injection Hs' as <-.
    + apply res_bind_ok in Hm as (srt & ->%sortQueries_Ok & [= <-]).
      rewrite <-fmap_app, limit_fmap, all_queries_Some in Hs'. by injection Hs' as <-.
  - intros Hok. rewrite Hp in Hok. apply Forall_app in Hok as [Hs Hr].
    rewrite !filterQueries_total by done. cbn [mbind res_bind]. destruct (reorder_due r s).
    + rewrite <-fmap_app, sort_values_Some, sortQueries_total by (apply Forall_app; split; by apply showable_filter).
      cbn [mbind res_bind]. by rewrite limit_fmap, all_queries_Some.
    + rewrite sortQueries_total by (by apply showable_filter). cbn [mbind res_bind].
      by rewrite <-fmap_app, limit_fmap, all_queries_Some.
Qed.

(** C1: When a reordering is due, a refresh shows exactly the queries of the response that pass
    the filters and the search, each once, sorted by the selected column and direction, and cut
    at the selected number of rows. *)
Theorem refresh_reorders r s :
  good_ids (queryList r) → good_ids (displayedQueries s) →
  Forall (λ q, showable q = true) (queryList r) →
  Forall (sortable (currentSortType s)) (queryList r) →
  reorder_due r s = true →
  ∃ s' full, ql_on_response r s = Ok s' ∧
    displayedQueries s' = limit (maxQueries s) full ∧
    full ≡ₚ List.filter (passes_view s) (queryList r) ∧
    sorted_by (currentSortType s) (currentSortOrder s) full ∧
    allQueries s' = queryList r ∧ lastReorder s' = now2 r.
Proof.
  intros Hl Hd Hok Hsort Hdue. destruct (on_response_spec r s Hl Hd) as (rest & Hp & _ & Ht).
  eexists _, _. rewrite (Ht Hok). split; [done|]. unfold refreshed. simpl. rewrite Hdue. split; [done|].
  rewrite <-List.filter_app. split_and!; [|apply sort_sorted|done..].
  - rewrite js_sort_perm. symmetry. by apply Permutation_filter_bool.
  - rewrite Hp in Hsort. by apply sortable_filter.
Qed.

(** C2: Between two reorderings the displayed rows stay where they are: a refresh replaces each
    row by its fresh version, drops the queries that are gone, and appends the new queries that
    pass the filters, sorted among themselves, and cuts the list at the selected number. *)
Theorem refresh_keeps_rows r s :
  good_ids (queryList r) → good_ids (displayedQueries s) →
  Forall (λ q, showable q = true) (queryList r) →
  Forall (sortable (currentSortType s)) (queryList r) →
  reorder_due r s = false →
  ∃ s' new, ql_on_response r s = Ok s' ∧
    displayedQueries s' =
      limit (maxQueries s) (omap (λ old, fresh (queryList r) (queryId old)) (displayedQueries s) ++ new) ∧
    new ≡ₚ List.filter (λ q, passes_view s q && not_displayed s q) (queryList r) ∧
    sorted_by (currentSortType s) (currentSortOrder s) new ∧
    lastReorder s' = lastReorder s.
Proof.
  intros Hl Hd Hok Hsort Hdue. destruct (on_response_spec r s Hl Hd) as (rest & Hp & _ & Ht).
  eexists _, _. rewrite (Ht Hok). split; [done|]. unfold refreshed. simpl. rewrite Hdue. split; [done|].
  split_and!; [|apply sort_sorted|done].
  - rewrite js_sort_perm, <-filter_filter_bool. apply Permutation_filter_bool, remaining_spec, Hp. apply Hl.
  - rewrite Hp in Hsort. apply Forall_app in Hsort as [_ Hsort]. by apply sortable_filter.
Qed.

(** ** Event handlers *)

(** The rows of a view: the queries of the last response that pass, sorted, cut at [n]. *)
Definition shows (all displayed : list query) (p : query → bool) (t : sort_type) (o : sort_order) (n : nat) : Prop :=
  ∃ full, displayed = take n full ∧ full ≡ₚ List.filter p all ∧
    (Forall (sortable t) all → sorted_by t o full).

Lemma shows_intro all sf ef search t o n :
  shows all (take n (js_sort (query_cmp t o) (List.filter (passes sf ef search) all)))
    (passes sf ef search) t o n.
Proof.
  eexists. split; [done|]. split; [apply js_sort_perm|].
  intros Hs. by apply sort_sorted, sortable_filter.
Qed.

(** The handlers that recompute the rows. *)
Definition recomputes (e : ql_event) (pending : bool) : bool :=
  match e with SearchChange _ | ReorderClick _ => false | SearchTimer => pending | _ => true end.

Lemma handler_shows s t o sf ef n :
  Forall (λ q, showable q = true) (allQueries s) →
  let s' := or_else (filtered ← filterQueries (allQueries s) sf ef (searchString s);
                     displayed ← sortAndLimitQueries filtered t o n;
                     Ok (set_view displayed t o sf ef n s)) s in
  shows (allQueries s') (displayedQueries s') (passes_view s') (currentSortType s')
    (currentSortOrder s') (maxQueries s').
Proof.
  intros Hok s'. pose proof (view_total (allQueries s) sf ef (searchString s) t o n Hok) as Hv.
  apply res_bind_ok in Hv as (f & Hf & Hd). subst s'. rewrite Hf. cbn [mbind res_bind].
  rewrite Hd. cbn [mbind res_bind or_else]. apply shows_intro.
Qed.

(** C4: Every event handler that recomputes the rows (search, sort, filters, number of rows)
    leaves the page in a state where the rows are the known queries that pass the new filters
    and search, sorted by the new order and cut at the new number. *)
Theorem handlers_show e c :
  Forall (λ q, showable q = true) (allQueries (ql c)) →
  recomputes e (search_pending c) = true →
  let s := ql (ql_handle e c) in
  shows (allQueries s) (displayedQueries s) (passes_view s) (currentSortType s)
    (currentSortOrder s) (maxQueries s).
Proof.
  intros Hok He. destruct e as [str| |n|i|t|f|e]; simpl in He; try done; simpl.
  2-5: by apply handler_shows.
  rewrite He. by apply handler_shows.
Qed.

(** Selecting "All queries" (a number of 0) empties the list, whatever queries are known. *)
Theorem all_queries_click_empties s :
  Forall (λ q, showable q = true) (allQueries s) →
  ∃ s', handleMaxQueriesClick 0 s = Ok s' ∧ displayedQueries s' = [] ∧ maxQueries s' = 0.
Proof.
  intros Hok. unfold handleMaxQueriesClick.
  pose proof (view_total (allQueries s) (stateFilters s) (errorTypeFilters s) (searchString s)
    (currentSortType s) (currentSortOrder s) 0 Hok) as Hv.
  apply res_bind_ok in Hv as (f & Hf & Hd). rewrite Hf. cbn [mbind res_bind]. rewrite Hd. eauto.
Qed.

(** ** Filter buttons *)

Lemma toggle_twice {A} `{EqDecision A} (f : A) (l : list A) :
  NoDup l → toggle f (toggle f l) ≡ₚ l.
Proof.
  intros Hnd. unfold toggle at 2. destruct (index_of f l) as [i|] eqn:E.
  - apply index_of_Some_lookup in E. pose proof (take_drop_middle l i f E) as Hl.
    unfold toggle, splice. rewrite Nat.add_1_r.
    assert (index_of f (take i l ++ drop (S i) l) = None) as ->.
    { apply index_of_None. rewrite <-Hl in Hnd. apply NoDup_app in Hnd as (_ & Hd & Hnd).
      apply NoDup_cons in Hnd as [Hf _]. intros Hin. apply elem_of_app in Hin as [Hin|Hin]; [|done].
      apply (Hd _ Hin). apply list_elem_of_here. }
    rewrite <-Hl at 3. solve_Permutation.
  - apply index_of_None in E. unfold toggle.
    destruct (index_of f (l ++ [f])) as [i|] eqn:E'.
    + apply index_of_Some_lookup in E'. apply lookup_app_Some in E' as [Hi|[Hi E']].
      { destruct E. by eapply list_elem_of_lookup_2. }
      apply list_lookup_singleton_Some in E' as [Hi' _]. unfold splice.
      rewrite take_app_le by lia. rewrite take_ge, drop_ge by (rewrite ?length_app; simpl; lia).
      by rewrite app_nil_r.
    + apply index_of_None in E'. destruct E'. apply elem_of_app. right. apply list_elem_of_here.
Qed.

Lemma existsb_perm {A} (p : A → bool) (l1 l2 : list A) : l1 ≡ₚ l2 → existsb p l1 = existsb p l2.
Proof.
  intros Hp. apply eq_true_iff_eq. rewrite !existsb_exists.
  setoid_rewrite <-list_elem_of_In. by setoid_rewrite Hp.
Qed.

(** Clicking a state filter button twice restores the set of filters, and the rows are then
    what the search box shows for the original filters. *)
Theorem state_filter_click_twice f s :
  Forall (λ q, showable q = true) (allQueries s) → NoDup (stateFilters s) →
  ∃ s1 s2 s0, handleStateFilterClick f s = Ok s1 ∧ handleStateFilterClick f s1 = Ok s2 ∧
    executeSearch s = Ok s0 ∧
    stateFilters s2 ≡ₚ stateFilters s ∧ displayedQueries s2 = displayedQueries s0.
Proof.
  intros Hok Hnd. unfold handleStateFilterClick, executeSearch.
  pose proof (λ sf, view_total (allQueries s) sf (errorTypeFilters s) (searchString s)
    (currentSortType s) (currentSortOrder s) (maxQueries s) Hok) as Hv.
  destruct (proj1 (res_bind_ok _ _ _) (Hv (toggle f (stateFilters s)))) as (l1 & Hf1 & Hd1).
  destruct (proj1 (res_bind_ok _ _ _) (Hv (toggle f (toggle f (stateFilters s))))) as (l2 & Hf2 & Hd2).
  destruct (proj1 (res_bind_ok _ _ _) (Hv (stateFilters s))) as (l0 & Hf0 & Hd0).
  eexists _, _, _. rewrite Hf1. cbn [mbind res_bind]. rewrite Hd1. cbn [mbind res_bind]. split; [done|].
  cbn [set_view allQueries stateFilters errorTypeFilters searchString currentSortType currentSortOrder maxQueries].
  rewrite Hf2. cbn [mbind res_bind]. rewrite Hd2. cbn [mbind res_bind]. split; [done|].
  rewrite Hf0. cbn [mbind res_bind]. rewrite Hd0. cbn [mbind res_bind]. split; [done|].
  cbn [set_view stateFilters displayedQueries]. split; [by apply toggle_twice|].
  do 2 f_equal. apply filter_bool_ext. intros q _. unfold passes, matchesFilters.
  by rewrite (existsb_perm _ _ _ (toggle_twice f _ Hnd)).
Qed.

(** ** A search that is typed just before a refresh *)

(** The search runs 200 ms after the last key press, but a refresh cancels the pending
    search.  With reordering off, the answer to that refresh keeps every displayed row that is
    still known, also the rows that the typed search does not match. *)
Theorem search_cancelled_by_refresh str c r q :
  good_ids (queryList r) → good_ids (displayedQueries (ql c)) →
  Forall (λ q, showable q = true) (queryList r) →
  reorderInterval (ql c) = 0%Z → maxQueries (ql c) = 0 →
  q ∈ queryList r → queryId q ∈ ids (displayedQueries (ql c)) →
  let c1 := ql_handle SearchTimer (ql_refresh (ql_handle (SearchChange str) c)) in
  ∃ s2, ql_on_response r (ql c1) = Ok s2 ∧ searchString s2 = str ∧ q ∈ displayedQueries s2.
Proof.
  intros Hl Hd Hok Hi Hmax Hq Hid c1.
  destruct (on_response_spec r (ql c1) Hl Hd) as (rest & Hp & _ & Ht).
  rewrite (Ht Hok). eexists. split; [done|]. split; [done|].
  change (q ∈ refreshed r (ql c1) rest). unfold refreshed. assert (reorder_due r (ql c1) = false) as -> by (unfold reorder_due; simpl; by rewrite Hi).
  rewrite limit_take. subst c1. simpl. rewrite Hmax. simpl. apply elem_of_app. left.
  apply list_elem_of_fmap in Hid as (old & Heq & Hold).
  apply list_elem_of_omap. exists old. split; [done|]. apply fresh_spec; [apply Hl|done].
Qed.
End view.

(** ** Sorting does not depend on the browser *)

(** C36: The rows do not depend on the sorting algorithm of the browser: any two conforming
    implementations of [Array.prototype.sort] give the same list, as long as the sort keys
    are numbers. *)
Theorem rows_independent_of_sort `{DateParse} (S1 S2 : JsSort) l t o n :
  @JsSortLaws S1 → @JsSortLaws S2 → Forall (sortable t) l →
  @sortAndLimitQueries _ S1 l t o n = @sortAndLimitQueries _ S2 l t o n.
Proof.
  intros L1 L2 Hl. unfold sortAndLimitQueries, sortQueries. destruct (_ && _); [done|].
  pose proof (query_cmp_consistent t o l Hl) as Hc.
  assert (@js_sort S1 _ (query_cmp t o) l = @js_sort S2 _ (query_cmp t o) l) as ->; [|done].
  apply (sorted_stable_unique (query_cmp t o) l).
  - intros a b. by apply consistent_total.
  - intros x. apply js_sort_elem.
  - by rewrite !js_sort_perm.
  - by apply js_sort_sorted.
  - by apply js_sort_sorted.
  - intros a Ha. apply js_sort_elem in Ha. by rewrite !js_sort_stable.
Qed.

(** ** The page over time *)

Section page.
Context `{DateParse, LowerCase, JsSortLaws}.

Record ql_invariant (s : ql_state) : Prop := {
  inv_ids : good_ids (allQueries s);
  inv_known : displayedQueries s ⊆+ allQueries s;
  inv_bound : maxQueries s ≠ 0 → length (displayedQueries s) ≤ maxQueries s;
}.

Lemma submseteq_filter_bool {A} (p : A → bool) (l : list A) : List.filter p l ⊆+ l.
Proof. apply sublist_submseteq, filter_sublist. Qed.

Lemma submseteq_limit n (l : list query) : limit n l ⊆+ l.
Proof. rewrite limit_take. destruct (n =? 0); [done|]. apply sublist_submseteq, sublist_take. Qed.

Lemma inv_handler s t o sf ef n :
  ql_invariant s →
  ql_invariant (or_else (filtered ← filterQueries (allQueries s) sf ef (searchString s);
                         displayed ← sortAndLimitQueries filtered t o n;
                         Ok (set_view displayed t o sf ef n s)) s).
Proof.
  intros Hs.
  destruct (filterQueries (allQueries s) sf ef (searchString s)) as [f|] eqn:Ef; cbn [mbind res_bind]; [|done].
  destruct (sortAndLimitQueries f t o n) as [d|] eqn:Ed; cbn [mbind res_bind]; [|done].
  rewrite (view_Ok _ _ _ _ _ _ _ _ _ Ef Ed). split; simpl.
  - apply Hs.
  - etrans; [apply sublist_submseteq, sublist_take|]. rewrite js_sort_perm. apply submseteq_filter_bool.
  - intros _. rewrite length_take. lia.
Qed.

Lemma inv_event e c : ql_invariant (ql c) → ql_invariant (ql (ql_handle e c)).
Proof.
  intros Hs. destruct e as [str| |n|i|t|f|e]; simpl; try (by apply inv_handler).
  - destruct Hs. by split.
  - destruct (search_pending c); [by apply inv_handler|done].
  - unfold handleReorderClick. destruct (negb _); [|done]. destruct Hs. by split.
Qed.

Lemma inv_response r s s' :
  good_ids (queryList r) → ql_invariant s → ql_on_response r s = Ok s' → ql_invariant s'.
Proof.
  intros Hr [Hi Hk _] Ho.
  destruct (on_response_spec r s Hr (fmap_nodup_sub _ _ Hk Hi)) as (rest & Hp & Hs & _).
  apply Hs in Ho as ->. split; simpl; [done| |apply limit_length].
  etrans; [apply submseteq_limit|].
  etrans; [|apply Permutation_submseteq; symmetry; exact Hp]. destruct (reorder_due r s).
  - rewrite js_sort_perm. apply submseteq_app; apply submseteq_filter_bool.
  - apply submseteq_app; [done|]. rewrite js_sort_perm. apply submseteq_filter_bool.
Qed.

(** ** Answers of any kind *)

(** The dictionary only holds queries of the list. *)
Definition holds_only (l : list query) (m : list (jstring * option query)) : Prop :=
  ∀ k q, (k, Some q) ∈ m → q ∈ l.

Lemma query_map_holds l : holds_only l (query_map l).
Proof.
  unfold query_map. enough (∀ l' m, (∀ q, q ∈ l' → q ∈ l) → holds_only l m →
    holds_only l (fold_left (λ m q, map_set (queryId q) (Some q) m) l' m)) as Hg
    by (apply Hg; [done|]; intros k q; set_solver).
  induction l' as [|x l' IH]; intros m Hl Hm; [done|]. cbn. apply IH; [set_solver|].
  intros k q [[= -> ->]|Hq]%map_set_elem; [set_solver|by eapply Hm].
Qed.

Lemma take_displayed_holds displayed l m u :
  holds_only l m → (∀ q, Some q ∈ u → q ∈ l) →
  let r := fold_left (λ '(updated, m) old,
      if map_has (queryId old) m || bool_decide (queryId old ∈ prototype_keys) then
        (updated ++ [default None (map_get (queryId old) m)], map_set (queryId old) None m)
      else (updated, m)) displayed (u, m) in
  (∀ q, Some q ∈ r.1 → q ∈ l) ∧ holds_only l r.2.
Proof.
  revert u m. induction displayed as [|old displayed IH]; intros u m Hm Hu; [done|]. cbn [fold_left].
  destruct (_ || _); [|by apply IH]. apply IH.
  - intros k q [[= ]|Hq]%map_set_elem. by eapply Hm.
  - intros q [Hq|Hq]%elem_of_app; [by apply Hu|]. apply list_elem_of_singleton in Hq.
    destruct (map_get (queryId old) m) as [[q'|]|] eqn:E; try done. injection Hq as <-.
    apply map_get_Some in E. by eapply Hm.
Qed.

Lemma remaining_holds l m q : holds_only l m → q ∈ remaining m → q ∈ l.
Proof.
  intros Hm ([k o] & Hin & Ho)%list_elem_of_omap. cbn in Ho. subst o. rewrite (obj_order_perm m) in Hin.
  by eapply Hm.
Qed.

Lemma all_queries_elem l l' q : all_queries l = Ok l' → q ∈ l' → Some q ∈ l.
Proof.
  revert l'. induction l as [|[x|] l IH]; intros l' Hl; [injection Hl as <-; set_solver| |done].
  apply res_bind_ok in Hl as (rest & Hr & [= <-]). specialize (IH _ Hr). set_solver.
Qed.

Lemma res_filter_elem {A} (p : A → res bool) l l' x : res_filter p l = Ok l' → x ∈ l' → x ∈ l.
Proof. intros ->%res_filter_Ok. by intros [? _]%elem_of_filter_bool. Qed.

(** Whatever the answer is, the new rows are queries of it. *)
Lemma merge_incl r s rows q : ql_merge r s = Ok rows → Some q ∈ rows → q ∈ queryList r.
Proof.
  unfold ql_merge. pose proof (take_displayed_holds (displayedQueries s) (queryList r) (query_map (queryList r)) []
    (query_map_holds _) ltac:(set_solver)) as Ht. fold (take_displayed (displayedQueries s) (query_map (queryList r))) in Ht.
  destruct (take_displayed _ _) as [u m]. destruct Ht as [Hu Hm]. cbn [fst snd] in Hu, Hm.
  intros (nq & Hn & Hr)%res_bind_ok Hq. apply res_bind_ok in Hr as (merged & Hr & [= <-]). apply limit_incl in Hq.
  assert (∀ x, x ∈ nq → x ∈ queryList r) as Hnq.
  { intros x Hx. apply filterQueries_Ok in Hn as ->. apply elem_of_filter_bool in Hx as [Hx _].
    by eapply remaining_holds. }
  destruct (reorder_due r s).
  - apply res_bind_ok in Hr as (kept & Hk & Hs).
    assert (∀ x, Some x ∈ kept → x ∈ queryList r) as Hkept.
    { intros x Hx. apply Hu. unfold filter_values in Hk. destruct (jeqb _ []).
      - injection Hk as <-. by apply elem_of_filter_bool in Hx as [Hx _].
      - eapply res_filter_elem in Hx; [|done]. by apply elem_of_filter_bool in Hx as [Hx _]. }
    assert (Some q ∈ kept ++ map Some nq) as Hin.
    { unfold sort_values in Hs. destruct (all_queries _) as [qs|] eqn:Ea.
      - apply res_bind_ok in Hs as (srt & ->%sortQueries_Ok & [= <-]).
        apply list_elem_of_fmap in Hq as (x & [= <-] & Hx). rewrite js_sort_elem in Hx. by eapply all_queries_elem.
      - destruct (2 <=? _); [done|]. by injection Hs as ->. }
    apply elem_of_app in Hin as [Hin|(x & [= <-] & Hx)%list_elem_of_fmap]; [by apply Hkept|by apply Hnq].
  - apply res_bind_ok in Hr as (srt & ->%sortQueries_Ok & [= <-]).
    apply elem_of_app in Hq as [Hq|(x & [= <-] & Hx)%list_elem_of_fmap]; [by apply Hu|].
    rewrite js_sort_elem in Hx. by apply Hnq.
Qed.

(** The rows are known queries, and not more than the selected number. *)
Record ql_bounded (s : ql_state) : Prop := {
  bd_known q : q ∈ displayedQueries s → q ∈ allQueries s;
  bd_bound : maxQueries s ≠ 0 → length (displayedQueries s) ≤ maxQueries s;
}.

Lemma all_queries_length l l' : all_queries l = Ok l' → length l' = length l.
Proof.
  revert l'. induction l as [|[x|] l IH]; intros l' Hl; [by injection Hl as <-| |done].
  apply res_bind_ok in Hl as (rest & Hr & [= <-]). cbn. by rewrite (IH _ Hr).
Qed.

Lemma bounded_response r s s' : ql_on_response r s = Ok s' → ql_bounded s'.
Proof.
  intros (rows & Hm & Hr)%res_bind_ok. apply res_bind_ok in Hr as (d & Hd & [= <-]). split; cbn.
  - intros q Hq. eapply merge_incl; [done|]. by eapply all_queries_elem.
  - intros Hn. rewrite (all_queries_length _ _ Hd). unfold ql_merge in Hm. destruct (take_displayed _ _) as [u m].
    apply res_bind_ok in Hm as (nq & _ & Hm). apply res_bind_ok in Hm as (merged & _ & [= <-]). by apply limit_length.
Qed.

Lemma bounded_handler s t o sf ef n :
  ql_bounded s →
  ql_bounded (or_else (filtered ← filterQueries (allQueries s) sf ef (searchString s);
                       displayed ← sortAndLimitQueries filtered t o n;
                       Ok (set_view displayed t o sf ef n s)) s).
Proof.
  intros Hs.
  destruct (filterQueries (allQueries s) sf ef (searchString s)) as [f|] eqn:Ef; cbn [mbind res_bind]; [|done].
  destruct (sortAndLimitQueries f t o n) as [d|] eqn:Ed; cbn [mbind res_bind]; [|done].
  rewrite (view_Ok _ _ _ _ _ _ _ _ _ Ef Ed). split; simpl.
  - intros q Hq. apply (subseteq_take n) in Hq. rewrite js_sort_elem in Hq. by apply elem_of_filter_bool in Hq as [Hq _].
  - intros _. rewrite length_take. lia.
Qed.

Lemma bounded_event e c : ql_bounded (ql c) → ql_bounded (ql (ql_handle e c)).
Proof.
  intros Hs. destruct e as [str| |n|i|t|f|e]; simpl; try (by apply bounded_handler).
  - destruct Hs. by split.
  - destruct (search_pending c); [by apply bounded_handler|done].
  - unfold handleReorderClick. destruct (negb _); [|done]. destruct Hs. by split.
Qed.

(** Distinct ids and complete records: such an answer never makes the handler throw. *)
Definition good_response (r : ql_response) : Prop :=
  good_ids (queryList r) ∧ Forall (λ q, showable q = true) (queryList r).

Lemma good_response_ok r s :
  good_response r → ql_invariant s →
  ∃ s', ql_on_response r s = Ok s' ∧ ql_invariant s' ∧ allQueries s' = queryList r.
Proof.
  intros [Hids Hok] Hs.
  destruct (on_response_spec r s Hids (fmap_nodup_sub _ _ (inv_known _ Hs) (inv_ids _ Hs)))
    as (rest & _ & _ & Ht).
  eexists. split; [by apply Ht|]. split; [|done]. by eapply inv_response, Ht.
Qed.
End page.

(** ** Witnesses *)

(** A date parser and a case mapping for witnesses: milliseconds in digits, ASCII letters. *)
Definition sample_dates : DateParse := λ s, of_Z (Z.of_N (decval (List.filter is_digit s))).
Definition sample_lower : LowerCase := map (λ c, if is_upper c then (c + 32)%N else c).

Definition sample_list : list query :=
  [sample_query (js "20220511_091011_00001_abcde") (js "RUNNING") None None;
   sample_query (js "20220511_091012_00002_abcde") (js "FINISHED") None None;
   sample_query (js "20220511_091013_00003_abcde") (js "QUEUED") None None].
Definition sample_response : ql_response := {| queryList := sample_list; now1 := 6000; now2 := 6000 |}.
Definition sample_page : ql_state :=
  after_refresh sample_response (ql_constructor 0) (take 1 sample_list).

Lemma refresh_reorders_witness :
  let s := ql_constructor 0 in
  ∃ s' full, @ql_on_response sample_dates sample_lower insertion_js_sort sample_response s = Ok s' ∧
    displayedQueries s' = limit (maxQueries s) full ∧
    full ≡ₚ List.filter (@passes_view sample_lower s) sample_list ∧
    @sorted_by sample_dates (currentSortType s) (currentSortOrder s) full ∧
    allQueries s' = sample_list ∧ lastReorder s' = 6000%Z.
Proof.
  apply (@refresh_reorders sample_dates sample_lower insertion_js_sort insertion_js_sort_laws
    sample_response (ql_constructor 0)).
  - by apply (bool_decide_unpack _).
  - by apply (bool_decide_unpack _).
  - by repeat constructor.
  - repeat constructor.
  - reflexivity.
Defined.

Lemma refresh_keeps_rows_witness :
  let s := sample_page in
  ∃ s' new, @ql_on_response sample_dates sample_lower insertion_js_sort sample_response s = Ok s' ∧
    displayedQueries s' =
      limit (maxQueries s) (omap (λ old, fresh sample_list (queryId old)) (displayedQueries s) ++ new) ∧
    new ≡ₚ List.filter (λ q, @passes_view sample_lower s q && not_displayed s q) sample_list ∧
    @sorted_by sample_dates (currentSortType s) (currentSortOrder s) new ∧
    lastReorder s' = lastReorder s.
Proof.
  apply (@refresh_keeps_rows sample_dates sample_lower insertion_js_sort insertion_js_sort_laws
    sample_response sample_page).
  - by apply (bool_decide_unpack _).
  - by apply (bool_decide_unpack _).
  - by repeat constructor.
  - repeat constructor.
  - reflexivity.
Defined.

Lemma handlers_show_witness :
  let s := ql (@ql_handle sample_dates sample_lower insertion_js_sort (SortClick S_ELAPSED)
                 {| ql := sample_page; search_pending := false |}) in
  @shows sample_dates (allQueries s) (displayedQueries s) (@passes_view sample_lower s)
    (currentSortType s) (currentSortOrder s) (maxQueries s).
Proof.
  apply (@handlers_show sample_dates sample_lower insertion_js_sort insertion_js_sort_laws
    (SortClick S_ELAPSED) {| ql := sample_page; search_pending := false |}).
  - by repeat constructor.
  - reflexivity.
Defined.

Lemma all_queries_click_empties_witness :
  ∃ s', @handleMaxQueriesClick sample_dates sample_lower insertion_js_sort 0 sample_page = Ok s' ∧
        displayedQueries s' = [] ∧ maxQueries s' = 0.
Proof.
  apply (@all_queries_click_empties sample_dates sample_lower insertion_js_sort).
  by repeat constructor.
Defined.

Lemma state_filter_click_twice_witness :
  ∃ s1 s2 s0,
    @handleStateFilterClick sample_dates sample_lower insertion_js_sort F_FINISHED sample_page = Ok s1 ∧
    @handleStateFilterClick sample_dates sample_lower insertion_js_sort F_FINISHED s1 = Ok s2 ∧
    @executeSearch sample_dates sample_lower insertion_js_sort sample_page = Ok s0 ∧
    stateFilters s2 ≡ₚ stateFilters sample_page ∧ displayedQueries s2 = displayedQueries s0.
Proof.
  apply (@state_filter_click_twice sample_dates sample_lower insertion_js_sort).
  - by repeat constructor.
  - by apply (bool_decide_unpack _).
Defined.

(** The page with reordering off and no limit on the rows. *)
Definition sample_off : ql_state :=
  handleReorderClick 0 (set_view (take 1 sample_list) S_CREATED DESCENDING [F_RUNNING] [] 0 sample_page).

Lemma search_cancelled_by_refresh_witness :
  let q := sample_query (js "20220511_091011_00001_abcde") (js "RUNNING") None None in
  @passes sample_lower [F_RUNNING] [] (js "no such user") q = false ∧
  let c1 := @ql_handle sample_dates sample_lower insertion_js_sort SearchTimer
              (ql_refresh (@ql_handle sample_dates sample_lower insertion_js_sort
                 (SearchChange (js "no such user")) {| ql := sample_off; search_pending := false |})) in
  ∃ s2, @ql_on_response sample_dates sample_lower insertion_js_sort sample_response (ql c1) = Ok s2 ∧
        searchString s2 = js "no such user" ∧ q ∈ displayedQueries s2.
Proof.
  split; [reflexivity|].
  apply (@search_cancelled_by_refresh sample_dates sample_lower insertion_js_sort
    (js "no such user") {| ql := sample_off; search_pending := false |} sample_response).
  - by apply (bool_decide_unpack _).
  - by apply (bool_decide_unpack _).
  - by repeat constructor.
  - reflexivity.
  - reflexivity.
  - apply list_elem_of_here.
  - apply list_elem_of_here.
Defined.

Lemma rows_independent_of_sort_witness :
  @sortAndLimitQueries sample_dates insertion_js_sort sample_list S_CPU DESCENDING 2 =
  @sortAndLimitQueries sample_dates merge_js_sort sample_list S_CPU DESCENDING 2.
Proof.
  apply (@rows_independent_of_sort sample_dates insertion_js_sort merge_js_sort).
  - apply insertion_js_sort_laws.
  - apply merge_js_sort_laws.
  - repeat constructor.
Defined.

(** ** The query text *)

Definition nonspace (s : jstring) : jstring := List.filter (λ c, negb (is_space c)) s.

Lemma nonspace_app a b : nonspace (a ++ b) = nonspace a ++ nonspace b.
Proof. apply List.filter_app. Qed.

Lemma nonspace_spaces s : Forall (λ c, is_space c = true) s → nonspace s = [].
Proof. intros Hs. apply filter_bool_none. rewrite Forall_forall in Hs. intros c Hc. by rewrite Hs. Qed.

Lemma nonspace_trimEnd s : nonspace (trimEnd s) = nonspace s.
Proof.
  destruct (trimEnd_decomp s) as (w & Hs & Hw). rewrite Hs at 2.
  by rewrite nonspace_app, (nonspace_spaces w), app_nil_r.
Qed.

(** The least indentation does not exceed that of any line with text. *)
Lemma narrow_line line acc n : search_nonspace line = Some n → ∃ m, narrow line acc = Some m ∧ m ≤ n.
Proof.
  intros Hn. unfold narrow. destruct (Nat.eqb_spec (length (trim line)) 0) as [Hb|_].
  - apply length_zero_iff_nil, trim_nil, search_nonspace_None in Hb. congruence.
  - rewrite Hn. destruct acc as [m|]; [|eauto]. destruct (Nat.ltb_spec n m); eauto.
Qed.

Lemma narrow_acc line a : ∃ m, narrow line (Some a) = Some m ∧ m ≤ a.
Proof.
  unfold narrow. destruct (_ =? 0); [eauto|]. destruct (search_nonspace line) as [n|]; [|eauto].
  destruct (Nat.ltb_spec n a); [|eauto]. exists n. split; [done|lia].
Qed.

Lemma minLeadingWhitespace_acc lines a : ∃ m, minLeadingWhitespace lines (Some a) = Some m ∧ m ≤ a.
Proof.
  revert a. induction lines as [|l lines IH]; intros a; simpl; [eauto|].
  destruct a as [|a]; [eauto|]. destruct (narrow_acc l (S a)) as (b & -> & Hb).
  destruct (IH b) as (m & -> & Hm). exists m. split; [done|lia].
Qed.

Lemma minLeadingWhitespace_le lines acc line n :
  line ∈ lines → search_nonspace line = Some n →
  ∃ m, minLeadingWhitespace lines acc = Some m ∧ m ≤ n.
Proof.
  revert acc. induction lines as [|l lines IH]; intros acc Hl Hn; simpl; [set_solver|].
  destruct (decide (acc = Some 0)) as [->|Hacc]; [exists 0; split; [done|lia]|].
  assert (∃ m, minLeadingWhitespace lines (narrow l acc) = Some m ∧ m ≤ n) as (m & Hm & Hle).
  { apply elem_of_cons in Hl as [<-|Hl]; [|by apply IH].
    destruct (narrow_line line acc n Hn) as (k & -> & Hk).
    destruct (minLeadingWhitespace_acc lines k) as (m & -> & Hm). exists m. split; [done|lia]. }
  exists m. split; [|done]. by destruct acc as [[|]|].
Qed.

(** So the dedent removes white space only. *)
Lemma dedent_nonspace lines line :
  line ∈ lines →
  nonspace (trimEnd (substring_from (default 0 (minLeadingWhitespace lines None)) line)) = nonspace line.
Proof.
  intros Hl. rewrite nonspace_trimEnd. unfold substring_from.
  set (k := default 0 (minLeadingWhitespace lines None)).
  assert (Forall (λ c, is_space c = true) (take k line)) as Hk.
  { destruct (search_nonspace line) as [n|] eqn:En.
    - destruct (minLeadingWhitespace_le lines None line n) as (m & Hm & Hle); [done..|].
      unfold k. rewrite Hm. simpl. apply search_nonspace_Some in En as [Hs _].
      apply (Forall_take _ m) in Hs. by rewrite take_take, Nat.min_l in Hs by lia.
    - apply search_nonspace_None in En. by apply Forall_take. }
  rewrite <-(take_drop k line) at 2. by rewrite nonspace_app, (nonspace_spaces _ Hk).
Qed.

Definition ELLIPSIS : jstring := js "...".

Lemma stripLines_nonspace indent lines i acc :
  (∀ line, line ∈ lines → nonspace (trimEnd (substring_from indent line)) = nonspace line) →
  ∃ k cut, nonspace (stripLines indent lines i acc) =
      nonspace acc ++ nonspace (concat (take k lines)) ++ (if cut : bool then ELLIPSIS else []) ∧
    (cut = false → k = length lines) ∧ (cut = true → 6 ≤ i + k).
Proof.
  revert i acc. induction lines as [|line lines IH]; intros i acc Hd.
  { exists 0, false. simpl. by rewrite !app_nil_r. }
  pose proof (Hd line (list_elem_of_here _ _)) as Hline.
  assert (∀ l, l ∈ lines → nonspace (trimEnd (substring_from indent l)) = nonspace l) as Hrest
    by (intros; apply Hd; by apply list_elem_of_further).
  cbn [stripLines]. destruct (Nat.ltb_spec 0 (length (trimEnd (substring_from indent line)))) as [Hlen|Hlen].
  - destruct (Nat.ltb_spec i (6 - 1)) as [Hi|Hi].
    + destruct (IH (S i) (acc ++ trimEnd (substring_from indent line) ++ [NEWLINE]) Hrest)
        as (k & cut & -> & Hf & Ht).
      exists (S k), cut. cbn [take concat]. rewrite !nonspace_app, Hline. split_and!.
      * change (nonspace [NEWLINE]) with (@nil N). by rewrite app_nil_r, <-!app_assoc.
      * intros Hc. simpl. by rewrite Hf.
      * intros Hc. specialize (Ht Hc). lia.
    + exists 1, true. cbn [take concat]. rewrite !nonspace_app, Hline, take_0. simpl.
      rewrite app_nil_r. split_and!; [done|done|lia].
  - destruct (IH (S i) acc Hrest) as (k & cut & -> & Hf & Ht). exists (S k), cut.
    cbn [take concat]. rewrite nonspace_app, <-Hline.
    rewrite (nil_length_inv (trimEnd (substring_from indent line))) by lia. split_and!; [done|..].
    + intros Hc. simpl. by rewrite Hf.
    + intros Hc. specialize (Ht Hc). lia.
Qed.

(** The dedented query text of a row loses white space only: its other characters are those
    of the first lines of the query, all of them unless the text is cut, which happens after at
    least six lines and is marked by an ellipsis. *)
Theorem query_text_kept (text : jstring) :
  ∃ k cut, nonspace (stripQueryTextWhitespace text) =
      nonspace (concat (take k (JsString.split [NEWLINE] text))) ++ (if cut : bool then ELLIPSIS else []) ∧
    (cut = false → k = length (JsString.split [NEWLINE] text)) ∧ (cut = true → 6 ≤ k).
Proof.
  unfold stripQueryTextWhitespace. apply (stripLines_nonspace _ (JsString.split [NEWLINE] text) 0 []).
  intros line Hl. by apply dedent_nonspace.
Qed.
