(* ===== verification/QueryHeader.v ===== *)
(** * The header of the query pages (components/QueryHeader.jsx)

    The query id, the tabs, the progress bar, and the buttons that preempt or kill
    the query. *)

From S2P Require Import Prelude JsString JsNumber JsNumberFacts Model QueryState Vdom.

(** The requests of the two buttons. *)
Inductive header_action := Preempt (id : jstring) | Kill (id : jstring).
Record ajax := { url : jstring; method : jstring; data : jstring }.
Definition header_request (a : header_action) : ajax :=
  match a with
  | Preempt id => {| url := js "/ui/api/query/" ++ id ++ js "/preempted"; method := js "PUT";
                     data := js "Preempted via web UI" |}
  | Kill id => {| url := js "/ui/api/query/" ++ id ++ js "/killed"; method := js "PUT";
                  data := js "Killed via web UI" |}
  end.

Abbreviation header_view := (vnode Empty_set header_action).

(** ** Views *)

Definition progressBar_ended (query : query) : res (header_view) :=
  pct ← getProgressBarPercentage query;
  color ← getQueryStateColor query;
  title ← getProgressBarTitle query false;
  Ok (el "div" [A "className" "progress-large"] [
      el "div" [A "className" "progress-bar progress-bar-info"; A "role" "progressbar"; AN "aria-valuenow" pct; A "aria-valuemin" "0"; A "aria-valuemax" "100"; ASt "style" [(js "width", toString pct ++ js "%"); (js "backgroundColor", color)]] [
        VText title]]).

Definition progressBar_running (query : query) : res (header_view) :=
  pct ← getProgressBarPercentage query;
  color ← getQueryStateColor query;
  title ← getProgressBarTitle query false;
  Ok (el "table" [] [
      el "tbody" [] [
        el "tr" [] [
          el "td" [A "width" "100%"] [
            el "div" [A "className" "progress-large"] [
              el "div" [A "className" "progress-bar progress-bar-info"; A "role" "progressbar"; AN "aria-valuenow" pct; A "aria-valuemin" "0"; A "aria-valuemax" "100"; ASt "style" [(js "width", toString pct ++ js "%"); (js "backgroundColor", color)]] [
                VText title]]];
          el "td" [] [
            el "a" [AH "onClick" (Preempt (queryId query)); A "className" "btn btn-warning"; A "target" "_blank"] [
              T "Preempt"]];
          el "td" [] [
            el "a" [AH "onClick" (Kill (queryId query)); A "className" "btn btn-warning"; A "target" "_blank"] [
              T "Kill"]]]]]).

Definition renderProgressBar (query : query) : res header_view :=
  if isQueryEnded query then progressBar_ended query else progressBar_running query.

Definition tab_here (query : query) (path name : jstring) : header_view :=
  el "a" [AX "href" (path ++ js "?" ++ queryId query); A "className" "btn btn-info navbar-btn nav-disabled"] [
      VText name].

Definition tab_elsewhere (query : query) (path name : jstring) : header_view :=
  el "a" [AX "href" (path ++ js "?" ++ queryId query); A "className" "btn btn-info navbar-btn"] [
      VText name].

(** The tab of the page that is shown is disabled. *)
Definition renderTab (pathname : jstring) (query : query) (path name : jstring) : header_view :=
  if includes path pathname then tab_here query path name else tab_elsewhere query path name.

Definition header_render (pathname : jstring) (query : query) : res (header_view) :=
  bar ← renderProgressBar query;
  Ok (el "div" [] [
      el "div" [A "className" "row"] [
        el "div" [A "className" "col-xs-6"] [
          el "h3" [A "className" "query-id"] [
            el "span" [A "id" "query-id"] [VText (queryId query)];
            el "a" [A "className" "btn copy-button"; A "data-clipboard-target" "#query-id"; A "data-toggle" "tooltip"; A "data-placement" "right"; A "title" "Copy to clipboard"] [
              el "span" [A "className" "glyphicon glyphicon-copy"; A "aria-hidden" "true"; A "alt" "Copy to clipboard"] []]]];
        el "div" [A "className" "col-xs-6"] [
          el "table" [A "className" "header-inline-links"] [
            el "tbody" [] [
              el "tr" [] [
                el "td" [] [
                  renderTab pathname query (js "query.html") (js "Overview");
                  VText ([160%N]);
                  renderTab pathname query (js "plan.html") (js "Live Plan");
                  VText ([160%N]);
                  renderTab pathname query (js "stage.html") (js "Stage Performance");
                  VText ([160%N]);
                  renderTab pathname query (js "timeline.html") (js "Splits");
                  VText ([160%N]);
                  el "a" [AX "href" (js "/ui/api/query/" ++ queryId query ++ js "?pretty"); A "className" "btn btn-info navbar-btn"; A "target" "_blank"] [
                    T "JSON"]]]]]]];
      el "hr" [A "className" "h2-hr"] [];
      el "div" [A "className" "row"] [el "div" [A "className" "col-xs-12"] [bar]]]).

(** ** Properties *)

(** The header of a query page offers the buttons that preempt and kill exactly this query
    while the query has not ended, and no button afterwards. *)
Theorem header_buttons pathname query view :
  header_render pathname query = Ok view →
  handlers view = if isQueryEnded query then [] else [Preempt (queryId query); Kill (queryId query)].
Proof.
  unfold header_render. intros (bar & Hbar & [= <-])%res_bind_ok.
  assert (∀ path name, handlers (renderTab pathname query path name) = []) as Htab
    by (intros; unfold renderTab; by destruct (includes _ _)).
  unfold el. cbn [handlers map concat omap list_omap A AX snd]. rewrite !Htab.
  unfold renderProgressBar, progressBar_ended, progressBar_running in Hbar.
  destruct (isQueryEnded query); revert Hbar;
    intros (pct & _ & Hbar)%res_bind_ok; apply res_bind_ok in Hbar as (color & _ & Hbar);
    apply res_bind_ok in Hbar as (title & _ & [= <-]); done.
Qed.

Lemma header_buttons_witness :
  handlers (match header_render (js "/ui/query.html") (sample_query (js "q1") (js "RUNNING") None None)
            with Ok v => v | Throw _ => VNothing end) = [Preempt (js "q1"); Kill (js "q1")].
Proof.
  apply (header_buttons (js "/ui/query.html") (sample_query (js "q1") (js "RUNNING") None None)).
  vm_compute. reflexivity.
Defined.
