(* ===== verification/Stage.v ===== *)
(** * Stages, tasks, operators and plans

    The tree of stages of a query with their plans, tasks and operators, and the
    traversals the pages use: [StageDetail.findStage] and [getAllStageIds],
    [StageList.getStages] of QueryDetail.jsx, and [getChildren] of utils.js. *)

From S2P Require Import Prelude JsString JsNumber.

(** ** Data *)

(** [OperatorStats]; ids are the integers of the JSON document. *)
Record operator := {
  pipelineId : N;
  operatorId : N;
  planNodeId : jstring;
  operatorType : jstring;
  addInputWall : jstring;
  getOutputWall : jstring;
  finishWall : jstring;
  blockedWall : jstring;
  inputPositions : number;
  inputDataSize : jstring;
  op_outputPositions : number;
  op_outputDataSize : jstring;
  op_totalDrivers : number;
}.

Record pipeline := { p_pipelineId : N; p_operatorSummaries : list operator }.

(** [TaskInfo] *)
Record task := {
  taskId : jstring;                     (* taskStatus.taskId *)
  t_state : jstring;                    (* taskStatus.state *)
  self : jstring;                       (* taskStatus.self *)
  nodeId : jstring;                     (* taskStatus.nodeId *)
  t_createTime : jstring;               (* the others are fields of task.stats *)
  t_firstStartTime : option jstring;
  t_lastStartTime : option jstring;
  t_lastEndTime : option jstring;
  t_endTime : option jstring;
  t_elapsedTime : jstring;
  t_fullyBlocked : bool;
  t_rawInputPositions : number;
  t_rawInputDataSize : jstring;
  t_queuedDrivers : number;
  t_runningDrivers : number;
  t_blockedDrivers : number;
  t_completedDrivers : number;
  t_totalCpuTime : jstring;
  t_totalScheduledTime : jstring;
  t_userMemoryReservation : jstring;
  t_peakUserMemoryReservation : jstring;
  totalBufferedBytes : number;          (* outputBuffers.totalBufferedBytes *)
  estimatedMemory : jstring;
  pipelines : list pipeline;
}.

(** [StageStats] *)
Record stage_stats := {
  s_totalScheduledTime : jstring;
  s_totalBlockedTime : jstring;
  s_totalCpuTime : jstring;
  s_failedScheduledTime : jstring;
  s_failedCpuTime : jstring;
  s_cumulativeUserMemory : number;
  s_failedCumulativeUserMemory : number;
  s_userMemoryReservation : jstring;
  s_peakUserMemoryReservation : jstring;
  s_fullyBlocked : bool;
  s_bufferedDataSize : jstring;
  s_queuedDrivers : number;
  s_runningDrivers : number;
  s_completedDrivers : number;
  s_rawInputDataSize : jstring;
  s_rawInputPositions : number;
  s_outputDataSize : jstring;
  s_outputPositions : number;
  operatorSummaries : option (list operator);
}.

(** A node of a plan fragment; which fields are there depends on [@type]. *)
Inductive plan_node := PlanNode {
  pn_type : jstring;
  pn_id : jstring;
  pn_source : option plan_node;
  pn_filteringSource : option plan_node;
  pn_left : option plan_node;
  pn_right : option plan_node;
  pn_probeSource : option plan_node;
  pn_indexSource : option plan_node;
  pn_sources : option (list plan_node);
}.

(** [PlanFragment] *)
Record fragment := {
  fr_id : jstring;
  fr_root : plan_node;
  jsonRepresentation : jstring;
  distribution : jstring;
}.

(** [StageInfo] *)
Inductive stage := Stage {
  stageId : jstring;
  st_state : jstring;
  plan : option fragment;
  stageStats : option stage_stats;
  tasks : list task;
  subStages : list stage;
}.

(** Induction over the tree of stages. *)
Section stage_induction.
Context (P : stage → Prop).
Hypothesis step : ∀ id st p stats ts subs, Forall P subs → P (Stage id st p stats ts subs).
Fixpoint stage_tree_ind (s : stage) : P s :=
  match s with
  | Stage id st p stats ts subs =>
    step id st p stats ts subs
      ((fix all l : Forall P l :=
          match l with
          | [] => Forall_nil_2 P
          | s :: l => Forall_cons_2 P s l (stage_tree_ind s) (all l)
          end) subs)
  end.
End stage_induction.

(** ** getChildren *)

Definition SINGLE_SOURCE : list jstring :=
  [js "output"; js "explainAnalyze"; js "project"; js "filter"; js "aggregation"; js "sort";
   js "markDistinct"; js "window"; js "rowNumber"; js "topnRanking"; js "limit";
   js "distinctlimit"; js "topn"; js "sample"; js "tablewriter"; js "delete"; js "tableDelete";
   js "tablecommit"; js "groupid"; js "unnest"; js "scalar"].

(** The [switch] of [getChildren], for children of any type: a field that is absent is an
    [undefined] child; [None] as a whole is an absent [sources]. *)
Definition select_children {A} (type : jstring)
  (source filteringSource left right probeSource indexSource : option A)
  (sources : option (list A)) : option (list (option A)) :=
  if bool_decide (type ∈ SINGLE_SOURCE) then Some [source]
  else if jeqb type (js "join") then Some [left; right]
  else if jeqb type (js "semijoin") then Some [source; filteringSource]
  else if jeqb type (js "spatialjoin") then Some [left; right]
  else if jeqb type (js "indexjoin") then Some [probeSource; indexSource]
  else if jeqb type (js "union") || jeqb type (js "exchange") then option_map (map Some) sources
  else Some [].

Definition getChildren (n : plan_node) : option (list (option plan_node)) :=
  select_children (pn_type n) (pn_source n) (pn_filteringSource n) (pn_left n) (pn_right n)
    (pn_probeSource n) (pn_indexSource n) (pn_sources n).

(** Mapping the fields maps the children. *)
Lemma select_children_fmap {A B} (f : A → B) type (a b c d e g : option A) (l : option (list A)) :
  select_children type (option_map f a) (option_map f b) (option_map f c) (option_map f d)
    (option_map f e) (option_map f g) (option_map (map f) l) =
  option_map (map (option_map f)) (select_children type a b c d e g l).
Proof.
  unfold select_children. repeat case_match; try done.
  destruct l as [l|]; [|done]. simpl. by rewrite !map_map.
Qed.

(** ** Traversals of the tree of stages *)

(** [StageList.getStages]: [[].concat.apply(stage, stage.subStages.map(getStages))]. *)
Fixpoint getStages (s : stage) : list stage :=
  s :: concat (map getStages (subStages s)).
Definition getStages_opt (s : option stage) : list stage :=
  match s with Some s => getStages s | None => [] end.

(** [StageDetail.findStage]; the loop returns the first stage it finds. *)
Fixpoint findStage (id : option jstring) (s : stage) : option stage :=
  match id with
  | None => None
  | Some i =>
    if jeqb (stageId s) i then Some s
    else (fix loop l := match l with
                        | [] => None
                        | sub :: l' => match findStage id sub with Some r => Some r | None => loop l' end
                        end) (subStages s)
  end.

(** [StageDetail.getAllStageIds]: pushes the plan id of every stage, and throws at a stage
    without a plan. *)
Fixpoint getAllStageIds (result : list jstring) (s : stage) : res (list jstring) :=
  p ← deref (plan s);
  foldl (λ acc sub, acc ≫= λ r, getAllStageIds r sub) (Ok (result ++ [fr_id p])) (subStages s).

(** ** What the traversals compute *)

Lemma findStage_loop id l :
  (fix loop l := match l with
                 | [] => None
                 | sub :: l' => match findStage id sub with Some r => Some r | None => loop l' end
                 end) l = head (omap (findStage id) l).
Proof. induction l as [|s l IH]; [done|]. simpl. destruct (findStage id s); [done|]. apply IH. Qed.

Lemma find_app {A} (p : A → bool) l1 l2 :
  List.find p (l1 ++ l2) = match List.find p l1 with Some x => Some x | None => List.find p l2 end.
Proof. induction l1 as [|x l1 IH]; simpl; [done|]. by destruct (p x). Qed.

Lemma find_getStages id s :
  findStage (Some id) s = List.find (λ t, jeqb (stageId t) id) (getStages s).
Proof.
  induction s as [i st p stats ts subs IH] using stage_tree_ind. simpl.
  destruct (jeqb i id); [done|].
  induction IH as [|s subs Hs _ IHs]; simpl; [done|].
  rewrite find_app, Hs. destruct (List.find _ (getStages s)); [done|]. apply IHs.
Qed.

Lemma findStage_unique s st :
  st ∈ getStages s → NoDup (stageId <$> getStages s) → findStage (Some (stageId st)) s = Some st.
Proof.
  rewrite find_getStages. induction (getStages s) as [|t l IH]; intros Hin Hnd; [by apply elem_of_nil in Hin|].
  cbn [fmap list_fmap] in Hnd. apply NoDup_cons in Hnd as [Ht Hnd]. cbn [List.find].
  apply elem_of_cons in Hin as [->|Hin]; [by rewrite jeqb_refl|].
  destruct (jeqb (stageId t) (stageId st)) eqn:E; [|by apply IH].
  apply jeqb_eq in E. destruct Ht. rewrite E. by apply list_elem_of_fmap_2.
Qed.

Lemma getAllStageIds_app s result :
  getAllStageIds result s =
    (ids ← getAllStageIds [] s; Ok (result ++ ids)).
Proof.
  revert result. induction s as [i st p stats ts subs IH] using stage_tree_ind. intros result.
  cbn [getAllStageIds plan subStages]. destruct p as [p|]; [|done]. cbn [deref mbind res_bind].
  change ([] ++ [fr_id p]) with [fr_id p].
  assert (∀ a, foldl (λ acc sub, acc ≫= λ r, getAllStageIds r sub) (Ok (result ++ a)) subs =
    (ids ← foldl (λ acc sub, acc ≫= λ r, getAllStageIds r sub) (Ok a) subs; Ok (result ++ ids))) as H;
    [|apply H].
  induction IH as [|s subs Hs _ IHs]; intros a; simpl; [done|].
  rewrite (Hs (result ++ a)), (Hs a). destruct (getAllStageIds [] s) as [ids|e]; simpl.
  - rewrite <-app_assoc. apply IHs.
  - clear. induction subs as [|s subs IH]; [done|]. apply IH.
Qed.

Lemma foldl_throw {A B} (f : A → B → res A) e l :
  foldl (λ acc x, acc ≫= λ r, f r x) (Throw e) l = Throw e.
Proof. by induction l. Qed.

(** The plan ids of a list of stages. *)
Fixpoint plan_ids (l : list stage) : res (list jstring) :=
  match l with
  | [] => Ok []
  | s :: l' => p ← deref (plan s); rest ← plan_ids l'; Ok (fr_id p :: rest)
  end.

Lemma plan_ids_app l1 l2 :
  plan_ids (l1 ++ l2) = (a ← plan_ids l1; b ← plan_ids l2; Ok (a ++ b)).
Proof.
  induction l1 as [|s l1 IH]; cbn [app plan_ids]; [by destruct (plan_ids l2)|].
  destruct (plan s) as [p|]; cbn [deref mbind res_bind]; [|done]. rewrite IH.
  destruct (plan_ids l1); [|done]. by destruct (plan_ids l2).
Qed.

Lemma getAllStageIds_plan_ids s : getAllStageIds [] s = plan_ids (getStages s).
Proof.
  induction s as [i st p stats ts subs IH] using stage_tree_ind.
  cbn [getAllStageIds getStages plan subStages plan_ids]. destruct p as [p|]; [|done].
  cbn [deref mbind res_bind app].
  assert (∀ a, foldl (λ acc sub, acc ≫= λ r, getAllStageIds r sub) (Ok a) subs =
    (rest ← plan_ids (concat (map getStages subs)); Ok (a ++ rest))) as H; [|apply (H [fr_id p])].
  induction IH as [|s subs Hs _ IHs]; intros a; simpl; [by rewrite app_nil_r|].
  rewrite getAllStageIds_app, Hs, plan_ids_app.
  destruct (plan_ids (getStages s)) as [ids|e]; cbn [mbind res_bind]; [|apply foldl_throw].
  rewrite IHs. destruct (plan_ids (concat (map getStages subs))); cbn; [|done]. by rewrite app_assoc.
Qed.

(** The stage page and the query page agree on the stages of a query: a stage id selects the
    first stage with that id in the order in which the query page lists the stages, nothing is
    found exactly when no listed stage has the id, and the selector offers the plan ids of the
    listed stages in the same order (it throws exactly when one of them has no plan). *)
Theorem stage_traversals_agree (s : stage) :
  (∀ id, findStage (Some id) s = List.find (λ t, jeqb (stageId t) id) (getStages s)) ∧
  (∀ id, findStage (Some id) s = None ↔ id ∉ stageId <$> getStages s) ∧
  getAllStageIds [] s = plan_ids (getStages s).
Proof.
  split_and!; [intros id; apply find_getStages| |apply getAllStageIds_plan_ids].
  intros id. rewrite find_getStages. split.
  - intros HN (t & Heq & Ht)%list_elem_of_fmap. apply list_elem_of_In in Ht.
    apply (find_none _ _ HN) in Ht. by rewrite <-Heq, jeqb_refl in Ht.
  - intros Hid. destruct (List.find _ (getStages s)) as [t|] eqn:E; [|done].
    apply find_some in E as [Ht Ei]. boolp. destruct Hid. rewrite <-Ei.
    by apply list_elem_of_fmap_2, list_elem_of_In.
Qed.
