(* ===== verification/QueryInfo.v ===== *)
(** * The document of one query

    [QueryInfo], the response that the query, plan and stage pages poll: the part
    shared with the list of queries ([qi]), the other statistics, the session, the
    failure and the output stage. *)

From S2P Require Import Prelude JsString JsNumber Model Stage.

(** [ExecutionFailureInfo] *)
Inductive failure_info := FailureInfo {
  fi_type : jstring;
  fi_message : option jstring;
  fi_stack : option (list jstring);
  fi_suppressed : option (list failure_info);
  fi_cause : option failure_info;
}.

(** [SessionRepresentation]; the property maps are objects. *)
Record session_info := {
  ss_user : jstring;
  ss_principal : option jstring;
  ss_source : option jstring;
  ss_catalog : option jstring;
  ss_schema : option jstring;
  ss_timeZone : jstring;
  ss_remoteUserAddress : option jstring;
  clientTags : list jstring;
  systemProperties : list (jstring * jstring);
  catalogProperties : list (jstring * list (jstring * jstring));
  resourceEstimates : list (jstring * jstring);
}.

Record warning := { w_code_name : jstring; w_message : jstring }.

(** The fields of [queryStats] that only the query page reads. *)
Record detail_stats := {
  endTime : option jstring;
  queuedTime : jstring;
  analysisTime : jstring;
  planningTime : jstring;
  totalScheduledTime : jstring;
  failedCpuTime : jstring;
  failedScheduledTime : jstring;
  processedInputPositions : number;
  failedProcessedInputPositions : number;
  processedInputDataSize : jstring;
  failedProcessedInputDataSize : jstring;
  physicalInputPositions : number;
  failedPhysicalInputPositions : number;
  physicalInputDataSize : jstring;
  failedPhysicalInputDataSize : jstring;
  physicalInputReadTime : jstring;
  failedPhysicalInputReadTime : jstring;
  internalNetworkInputPositions : number;
  failedInternalNetworkInputPositions : number;
  internalNetworkInputDataSize : jstring;
  failedInternalNetworkInputDataSize : jstring;
  peakUserMemoryReservation : jstring;
  peakRevocableMemoryReservation : jstring;
  failedCumulativeUserMemory : number;
  outputPositions : number;
  failedOutputPositions : number;
  outputDataSize : jstring;
  failedOutputDataSize : jstring;
  writtenPositions : number;
  logicalWrittenDataSize : jstring;
  physicalWrittenDataSize : jstring;
  failedPhysicalWrittenDataSize : jstring;
  spilledDataSize : jstring;
}.

Record query_info := {
  qi : query;
  outputStage : option stage;
  finalQueryInfo : bool;
  q_session : session_info;
  detail : detail_stats;
  q_text : jstring;                     (* query.query *)
  preparedQuery : option jstring;
  warnings : list warning;
  failureInfo : option failure_info;
}.
