(* ===== verification/Samples.v ===== *)
(** * Sample documents

    Concrete stages and queries on which the theorems are instantiated. *)

From S2P Require Import Prelude JsString JsNumber Model QueryState Stage QueryInfo.

Definition sample_stats_of (ops : option (list operator)) : stage_stats := {|
  s_totalScheduledTime := js "3.00s"; s_totalBlockedTime := js "1.00s"; s_totalCpuTime := js "2.00s";
  s_failedScheduledTime := js "0.00ns"; s_failedCpuTime := js "0.00ns";
  s_cumulativeUserMemory := of_Z 5000; s_failedCumulativeUserMemory := zero;
  s_userMemoryReservation := js "1MB"; s_peakUserMemoryReservation := js "2MB"; s_fullyBlocked := false;
  s_bufferedDataSize := js "0B"; s_queuedDrivers := zero; s_runningDrivers := of_Z 1;
  s_completedDrivers := of_Z 3; s_rawInputDataSize := js "10MB"; s_rawInputPositions := of_Z 1000;
  s_outputDataSize := js "1kB"; s_outputPositions := of_Z 10; operatorSummaries := ops |}.
Definition sample_stage_stats : stage_stats := sample_stats_of None.

Definition sample_leaf (ty id : jstring) : plan_node := PlanNode ty id None None None None None None None.

(** A fragment whose text is its own root id (the parsers of the witnesses read it so). *)
Definition sample_fragment (id root : jstring) : fragment := {|
  fr_id := id; fr_root := sample_leaf (js "tablescan") root; jsonRepresentation := root;
  distribution := js "SINGLE" |}.

Definition sample_task_of (ps : list pipeline) (id state uri : jstring) : task := {|
  taskId := id; t_state := state; self := uri; nodeId := js "node1";
  t_createTime := js "2022-05-11T09:10:11.123Z"; t_firstStartTime := Some (js "2022-05-11T09:10:11.200Z");
  t_lastStartTime := Some (js "2022-05-11T09:10:11.300Z"); t_lastEndTime := None; t_endTime := None;
  t_elapsedTime := js "2.00s"; t_fullyBlocked := false;
  t_rawInputPositions := of_Z 1000; t_rawInputDataSize := js "1MB"; t_queuedDrivers := zero;
  t_runningDrivers := of_Z 1; t_blockedDrivers := zero; t_completedDrivers := of_Z 3;
  t_totalCpuTime := js "1.00s"; t_totalScheduledTime := js "1.50s"; t_userMemoryReservation := js "1MB";
  t_peakUserMemoryReservation := js "2MB"; totalBufferedBytes := of_Z 1024; estimatedMemory := js "5MB";
  pipelines := ps |}.
Definition sample_task : jstring → jstring → jstring → task := sample_task_of [].

Definition sample_stage : stage :=
  Stage (js "q1.0") (js "RUNNING") (Some (sample_fragment (js "0") (js "6"))) (Some sample_stage_stats)
    [sample_task (js "q1.0.0.0") (js "RUNNING") (js "http://host1:8080/v1/task/q1.0.0.0")]
    [Stage (js "q1.1") (js "FINISHED") (Some (sample_fragment (js "1") (js "2"))) (Some sample_stage_stats) [] []].

Definition sample_session : session_info := {|
  ss_user := js "alice"; ss_principal := None; ss_source := Some (js "trino-cli"); ss_catalog := Some (js "tpch");
  ss_schema := Some (js "tiny"); ss_timeZone := js "UTC"; ss_remoteUserAddress := None; clientTags := [];
  systemProperties := [(js "query_priority", js "1")]; catalogProperties := []; resourceEstimates := [] |}.

Definition sample_detail : detail_stats := {|
  endTime := None; queuedTime := js "1.00ms"; analysisTime := js "2.00ms"; planningTime := js "3.00ms";
  totalScheduledTime := js "12.00s"; failedCpuTime := js "0.00ns"; failedScheduledTime := js "0.00ns";
  processedInputPositions := of_Z 1000; failedProcessedInputPositions := zero;
  processedInputDataSize := js "10MB"; failedProcessedInputDataSize := js "0B";
  physicalInputPositions := of_Z 1000; failedPhysicalInputPositions := zero;
  physicalInputDataSize := js "5MB"; failedPhysicalInputDataSize := js "0B";
  physicalInputReadTime := js "1.00s"; failedPhysicalInputReadTime := js "0.00ns";
  internalNetworkInputPositions := of_Z 10; failedInternalNetworkInputPositions := zero;
  internalNetworkInputDataSize := js "1kB"; failedInternalNetworkInputDataSize := js "0B";
  peakUserMemoryReservation := js "3MB"; peakRevocableMemoryReservation := js "0B";
  failedCumulativeUserMemory := zero; outputPositions := of_Z 1; failedOutputPositions := zero;
  outputDataSize := js "9B"; failedOutputDataSize := js "0B"; writtenPositions := zero;
  logicalWrittenDataSize := js "0B"; physicalWrittenDataSize := js "0B";
  failedPhysicalWrittenDataSize := js "0B"; spilledDataSize := js "0B" |}.

Definition sample_info (state : jstring) (out : option stage) (final : bool) : query_info := {|
  qi := sample_query (js "q1") state None None; outputStage := out; finalQueryInfo := final;
  q_session := sample_session; detail := sample_detail; q_text := js "SELECT 1"; preparedQuery := None;
  warnings := []; failureInfo := None |}.
