(* ===== verification/Timeline.v ===== *)
(** * The timeline page (timeline.html)

    The script of the page turns the tasks of a query into groups, one per stage,
    and coloured bars, four per task, for the timeline widget.  The widget is
    represented by the elements that are added to its two data sets. *)

From S2P Require Import Prelude JsString JsNumber JsNumberFacts Format FormatFacts Stage QueryInfo Samples.

(** The request of the script: the whole search string is the id. *)
Definition timeline_request (search : jstring) : jstring := js "/ui/api/query/" ++ substring_from 1 search.

(** [getTasks]: the tasks of a stage, then those of its sub-stages. *)
Fixpoint getTasks (s : stage) : list task :=
  match s with
  | Stage _ _ _ _ ts subs => ts ++ concat (map getTasks subs)
  end.

Record task_times := {
  create : jstring;
  firstStart : option jstring;
  lastStart : option jstring;
  lastEnd : option jstring;
  end_ : option jstring;
}.

(** The object that the script makes of a task: its id without the query id, and its times. *)
Record timeline_task := { tl_taskId : jstring; tl_time : task_times }.

(** [s.substr(0, s.indexOf("."))]: empty without a dot.  The rest, [s.substr(s.indexOf(".") + 1)],
    is [after_dot]. *)
Definition before_first_dot (s : jstring) : jstring :=
  match indexOf [DOT] s with Some i => substring 0 i s | None => [] end.

Definition timeline_task_of (t : task) : timeline_task := {|
  tl_taskId := after_dot (taskId t);
  tl_time := {| create := t_createTime t; firstStart := t_firstStartTime t; lastStart := t_lastStartTime t;
                lastEnd := t_lastEndTime t; end_ := t_endTime t |} |}.

Record vis_group := { g_id : jstring; g_content : jstring; g_sort : jstring; subgroupOrder : jstring }.
Record vis_item := {
  i_group : jstring;
  i_start : option jstring;
  i_end : option jstring;
  i_className : jstring;
  i_subgroup : jstring;
  i_sort : number;
}.

Definition stage_group (stageId : jstring) : vis_group :=
  {| g_id := stageId; g_content := stageId; g_sort := stageId; subgroupOrder := js "sort" |}.

Definition task_bars (t : timeline_task) : list vis_item :=
  let stageId := before_first_dot (tl_taskId t) in
  let taskNumber := after_dot (tl_taskId t) in
  let bar from to colour := {|
    i_group := stageId; i_start := from; i_end := to; i_className := colour;
    i_subgroup := taskNumber; i_sort := nneg (number_of_string taskNumber) |} in
  let time := tl_time t in
  [bar (Some (create time)) (firstStart time) (js "red"); bar (firstStart time) (lastStart time) (js "green");
   bar (lastStart time) (lastEnd time) (js "blue"); bar (lastEnd time) (end_ time) (js "orange")].

(** [taskNumber == 0] compares a text with a number: the text is converted. *)
Definition opens_group (t : timeline_task) : bool :=
  neqb (number_of_string (after_dot (tl_taskId t))) zero.

(** One round of the loop: the groups and the items that are added. *)
Definition add_task (acc : list vis_group * list vis_item) (t : timeline_task) : list vis_group * list vis_item :=
  (acc.1 ++ (if opens_group t then [stage_group (before_first_dot (tl_taskId t))] else []), acc.2 ++ task_bars t).

(** [renderTimeline]; a query without an output stage makes [getTasks] throw. *)
Definition renderTimeline (data : query_info) : res (list vis_group * list vis_item) :=
  out ← deref (outputStage data);
  Ok (fold_left add_task (map timeline_task_of (getTasks out)) ([], [])).

(** ** Task numbers *)

Lemma before_dot_app a b : DOT ∉ a → before_first_dot (a ++ DOT :: b) = a.
Proof.
  intros Ha. unfold before_first_dot. rewrite indexOf_char_first by done.
  unfold substring. by rewrite Nat.sub_0_r, drop_0, take_app_length.
Qed.

(** Texts of digits and dots. *)
Definition numeric (c : N) : bool := is_digit c || (c =? DOT)%N.

Lemma numeric_not_space c : numeric c = true → is_space c = false.
Proof.
  unfold numeric. intros [Hc|Hc]%orb_prop; [by apply digit_not_space|]. by apply N.eqb_eq in Hc as ->.
Qed.

Lemma trim_numeric s : Forall (λ c, numeric c = true) s → trim s = s.
Proof.
  intros Hs. unfold trim, trimEnd.
  assert (∀ l, Forall (λ c, numeric c = true) l → trimStart l = l) as Ht.
  { intros [|c l]; [done|]. intros [Hc _]%Forall_cons. simpl. by rewrite numeric_not_space. }
  rewrite (Ht s), (Ht (reverse s)); [apply reverse_involutive|by apply Forall_reverse|done].
Qed.

Lemma starts_with_numeric p s c :
  Forall (λ c, numeric c = true) s → c ∈ p → numeric c = false → starts_with p s = false.
Proof.
  intros Hs Hin Hc. destruct (starts_with p s) eqn:E; [|done].
  apply starts_with_spec in E as [t E]. rewrite E in Hs. apply Forall_app in Hs as [Hp _].
  rewrite Forall_forall in Hp. by rewrite (Hp c Hin) in Hc.
Qed.

Lemma number_of_numeric s : s ≠ [] → Forall (λ c, numeric c = true) s → number_of_string s = unsigned_decimal s.
Proof.
  intros Hne Hs. unfold number_of_string. rewrite trim_numeric by done.
  rewrite (starts_with_numeric (js "0x") s 120), (starts_with_numeric (js "0X") s 88),
    (starts_with_numeric (js "0o") s 111), (starts_with_numeric (js "0O") s 79),
    (starts_with_numeric (js "0b") s 98), (starts_with_numeric (js "0B") s 66),
    (starts_with_numeric (js "-") s 45), (starts_with_numeric (js "+") s 43)
    by (done || by apply (bool_decide_unpack _)). by destruct s.
Qed.

Lemma decval_app a b : decval (a ++ b) = (decval a * 10 ^ N.of_nat (length b) + decval b)%N.
Proof.
  induction b as [|c b IH] using rev_ind; [rewrite app_nil_r; cbn; lia|].
  rewrite app_assoc, !decval_snoc, IH, length_app. cbn [length].
  rewrite Nat.add_comm, Nat2N.inj_add, N.pow_add_r. change (10 ^ N.of_nat 1)%N with 10%N. lia.
Qed.

(** The text "number.attempt" as a decimal fraction. *)
Lemma task_number_value n a :
  number_of_string (dec n ++ DOT :: dec a) =
  of_decimal (n * 10 ^ N.of_nat (length (dec a)) + a) (length (dec a)).
Proof.
  pose proof (dec_digits n) as Hn. pose proof (dec_digits a) as Ha.
  pose proof (dec_nonempty n) as En. pose proof (dec_nonempty a) as Ea.
  assert (Forall (λ c, numeric c = true) (dec n ++ DOT :: dec a)) as Hs.
  { apply Forall_app. split; [|constructor; [done|]]; eapply Forall_impl; try done; intros c Hc;
      unfold numeric; by rewrite Hc. }
  rewrite number_of_numeric by (done || by destruct (dec n)). unfold unsigned_decimal.
  assert (jeqb (dec n ++ DOT :: dec a) (js "Infinity") = false) as ->.
  { apply bool_decide_false. intros E. rewrite E in Hs. apply Forall_cons in Hs as [H _]. done. }
  rewrite span_app by done. cbn [N.eqb DOT Pos.eqb].
  replace (span is_digit (dec a)) with (dec a, [] : jstring)
    by (rewrite <-(app_nil_r (dec a)) at 2; by rewrite span_app).
  cbn [string_exponent]. 
  replace (n * 10 ^ N.of_nat (length (dec a)) + a)%N with (decval (dec n ++ dec a))
    by (by rewrite decval_app, !decval_dec).
  destruct (dec n ++ dec a) as [|c l] eqn:El; [by destruct (dec n)|]. rewrite <-El.
  destruct (length (dec a)) as [|k] eqn:Ek; [by destruct (dec a)|].
  change (0 - Z.of_nat (S k))%Z with (Zneg (Pos.of_succ_nat k)). cbn [scale10]. by rewrite SuccNat2Pos.id_succ.
Qed.

(** ** Properties *)

(** A task by its stage, its number and its attempt; its id in the documents. *)
Definition task_key : Type := N * N * N.
Definition full_task_id (q : jstring) (k : task_key) : jstring :=
  let '(s, n, a) := k in q ++ DOT :: dec s ++ DOT :: dec n ++ DOT :: dec a.
Definition first_attempt (k : task_key) : bool := let '(_, n, a) := k in ((n =? 0) && (a =? 0))%N.

(** Consecutive bars meet: each ends where the next one starts. *)
Fixpoint chained (l : list vis_item) : Prop :=
  match l with
  | a :: (b :: _) as rest => i_end a = i_start b ∧ chained rest
  | _ => True
  end.

(** The bars of one task. *)
Record bars_of (k : task_key) (t : task) (bars : list vis_item) : Prop := {
  bars_colours : map i_className bars = [js "red"; js "green"; js "blue"; js "orange"];
  bars_group : let '(s, n, a) := k in
    Forall (λ b, i_group b = dec s ∧ i_subgroup b = dec n ++ DOT :: dec a) bars;
  bars_chained : chained bars;
  bars_from : (i_start <$> head bars) = Some (Some (t_createTime t));
  bars_to : (i_end <$> last bars) = Some (t_endTime t);
}.

Section timeline.
Context (q : jstring) (Hq : DOT ∉ q).

Lemma timeline_task_id k t :
  taskId t = full_task_id q k →
  let '(s, n, a) := k in tl_taskId (timeline_task_of t) = dec s ++ DOT :: dec n ++ DOT :: dec a.
Proof.
  destruct k as [[s n] a]. intros Ht. unfold timeline_task_of. cbn [tl_taskId]. rewrite Ht.
  by apply after_dot_app.
Qed.

Lemma task_bars_of k t : taskId t = full_task_id q k → bars_of k t (task_bars (timeline_task_of t)).
Proof.
  intros Ht. apply timeline_task_id in Ht. destruct k as [[s n] a].
  split; cbn [map task_bars]; try done.
  unfold task_bars. rewrite Ht, before_dot_app, after_dot_app by apply dot_not_in_dec. by repeat constructor.
Qed.

Lemma opens_group_first k t :
  taskId t = full_task_id q k → (k.2 < 10 ^ 100)%N → opens_group (timeline_task_of t) = first_attempt k.
Proof.
  intros Ht Ha. apply timeline_task_id in Ht. destruct k as [[s n] a]. cbn [snd] in Ha.
  unfold opens_group. rewrite Ht, after_dot_app by apply dot_not_in_dec.
  rewrite task_number_value, of_decimal_zero by (by apply (length_dec_lt a 99)). unfold first_attempt.
  assert (0 < 10 ^ N.of_nat (length (dec a)))%N by (apply N.neq_0_lt_0, N.pow_nonzero; lia).
  destruct (N.eqb_spec n 0) as [->|Hn], (N.eqb_spec a 0) as [->|Ha0]; cbn [andb];
    [done|apply N.eqb_neq; lia|apply N.eqb_neq; nia|apply N.eqb_neq; lia].
Qed.

Lemma add_tasks_spec ks ts gs items :
  Forall2 (λ k t, taskId t = full_task_id q k) ks ts → Forall (λ k : task_key, k.2 < 10 ^ 100)%N ks →
  ∃ bars,
    fold_left add_task (map timeline_task_of ts) (gs, items) =
      (gs ++ map (λ k : task_key, stage_group (dec k.1.1)) (List.filter first_attempt ks), items ++ concat bars) ∧
    Forall2 (λ kt b, bars_of kt.1 kt.2 b) (zip ks ts) bars.
Proof.
  intros Hid. revert gs items. induction Hid as [|k t ks ts Hk _ IH]; intros gs items Hb; cbn [map fold_left].
  - exists []. cbn. by rewrite !app_nil_r.
  - apply Forall_cons in Hb as [Hkb Hb]. unfold add_task at 2. cbn [fst snd].
    destruct (IH (gs ++ (if opens_group (timeline_task_of t)
        then [stage_group (before_first_dot (tl_taskId (timeline_task_of t)))] else []))
      (items ++ task_bars (timeline_task_of t)) Hb) as (bars & -> & Hbars).
    exists (task_bars (timeline_task_of t) :: bars). split.
    + rewrite opens_group_first with (k := k) by done. cbn [List.filter concat]. rewrite app_assoc.
      f_equal. rewrite <-app_assoc. f_equal. destruct (first_attempt k); [|done]. cbn [map app]. f_equal.
      apply timeline_task_id in Hk. destruct k as [[s n] a]. rewrite Hk, before_dot_app by apply dot_not_in_dec. done.
    + constructor; [by apply task_bars_of|done].
Qed.

(** C27: The timeline of a query shows four bars for every task of every stage, coloured red,
    green, blue and orange, that follow each other without a gap from the creation of the task
    to its end, in the group of the task's stage.  A stage gets a group exactly if the first
    attempt of its task 0 is listed, and no group is added twice; the bars of any other stage
    have no group to be shown in. *)
Theorem timeline_bars data out ks :
  outputStage data = Some out → map taskId (getTasks out) = map (full_task_id q) ks → NoDup ks →
  Forall (λ k : task_key, k.2 < 10 ^ 100)%N ks →
  ∃ groups bars,
    renderTimeline data = Ok (groups, concat bars) ∧
    Forall2 (λ kt b, bars_of kt.1 kt.2 b) (zip ks (getTasks out)) bars ∧
    NoDup (map g_id groups) ∧
    ∀ s, dec s ∈ map g_id groups ↔ (s, 0%N, 0%N) ∈ ks.
Proof.
  intros Ho Hids Hnd Hb.
  assert (Forall2 (λ k t, taskId t = full_task_id q k) ks (getTasks out)) as Hid.
  { revert Hids. generalize (getTasks out). clear Ho Hnd Hb.
    induction ks as [|k ks IH]; intros [|t l] E; try done; try by constructor.
    cbn [map] in E. injection E as E1 E2. constructor; [done|]. by apply IH. }
  destruct (add_tasks_spec ks (getTasks out) [] [] Hid Hb) as (bars & Hr & Hbars).
  exists (map (λ k : task_key, stage_group (dec k.1.1)) (List.filter first_attempt ks)), bars.
  unfold renderTimeline. rewrite Ho. cbn [deref mbind res_bind]. rewrite Hr. split_and!; [done|done|..].
  - rewrite map_map. cbn [g_id stage_group]. clear -Hnd. induction Hnd as [|[[s n] a] ks Hk _ IH]; [constructor|].
    cbn [List.filter]. destruct (first_attempt (s, n, a)) eqn:Ef; [|done]. cbn [map]. constructor; [|done].
    intros ([[s' n'] a'] & Es & [Hin Hf]%filter_In)%list_elem_of_In%in_map_iff. cbn [fst] in Es.
    apply dec_inj in Es as ->. unfold first_attempt in *.
    apply andb_true_iff in Hf as [->%N.eqb_eq ->%N.eqb_eq], Ef as [->%N.eqb_eq ->%N.eqb_eq].
    by apply Hk, list_elem_of_In.
  - intros s. rewrite map_map, list_elem_of_In, in_map_iff. cbn [g_id stage_group]. split.
    + intros ([[s' n'] a'] & Es & [Hin Hf]%filter_In). cbn [fst] in Es. apply dec_inj in Es as ->.
      apply andb_true_iff in Hf as [->%N.eqb_eq ->%N.eqb_eq]. by apply list_elem_of_In.
    + intros Hin. exists (s, 0%N, 0%N). split; [done|]. apply filter_In. split; [by apply list_elem_of_In|done].
Qed.
End timeline.

(** A query that has not been planned breaks the script: nothing is drawn. *)
Theorem timeline_needs_output_stage data : outputStage data = None → renderTimeline data = Throw TypeError.
Proof. intros Ho. unfold renderTimeline. by rewrite Ho. Qed.

(** The bars are sorted by "number.attempt" read as a fraction: the tenth attempt of a task is
    sorted as its first one, and not after its ninth. *)
Example attempts_collide :
  map (λ id, map i_sort (task_bars (timeline_task_of (sample_task id (js "FAILED") [])))) [js "q1.0.3.1"; js "q1.0.3.10"] =
  [replicate 4 (nneg (of_decimal 31 1)); replicate 4 (nneg (of_decimal 31 1))].
Proof. vm_compute. reflexivity. Qed.

(** ** Witnesses *)

Lemma timeline_bars_witness :
  ∃ groups bars,
    renderTimeline (sample_info (js "RUNNING") (Some sample_stage) false) = Ok (groups, concat bars) ∧
    length bars = 1 ∧ NoDup (map g_id groups) ∧ dec 0 ∈ map g_id groups.
Proof.
  destruct (timeline_bars (js "q1") ltac:(by apply (bool_decide_unpack _))
    (sample_info (js "RUNNING") (Some sample_stage) false) sample_stage [(0, 0, 0)%N])
    as (groups & bars & Hr & Hb & Hn & Hg).
  - reflexivity.
  - vm_compute. reflexivity.
  - by apply (bool_decide_unpack _).
  - repeat constructor.
  - exists groups, bars. split_and!; [done| |done|by apply Hg, list_elem_of_here].
    apply Forall2_length in Hb. by rewrite <-Hb.
Defined.
