(* ===== verification/StaticPages.v ===== *)
(** * Scripts outside of the React components

    The script of the login page (login.html), and the menu of versions of the
    documentation (version_dropdown.js). *)

From S2P Require Import Prelude JsString JsNumber JsCollections Format FormatFacts.
From stdpp Require Import sorting.

(** ** The login page *)

Definition login_redirectPath (search : jstring) : jstring :=
  let redirectPath := substring_from 1 search in
  match indexOf (js "&") redirectPath with
  | Some i => substring 0 i redirectPath
  | None => redirectPath
  end.

(** The form after the script has run. *)
Record login_form := {
  redirectPath_value : jstring;
  password_required : bool;
  password_placeholder : jstring;
  password_readonly : bool;
  login_visible : bool;
  username_value : jstring;
  username_focused : bool;
}.

(** The form of the page before the script runs. *)
Definition login_html : login_form := {|
  redirectPath_value := []; password_required := true; password_placeholder := js "Password";
  password_readonly := false; login_visible := false; username_value := []; username_focused := false |}.

(** [hidePassword] is set by the server, which replaces a line of the page. *)
Definition login_script (hidePassword : bool) (search : jstring) (form : login_form) : login_form := {|
  redirectPath_value := login_redirectPath search;
  password_required := if hidePassword then false else password_required form;
  password_placeholder := if hidePassword then js "Password not allowed" else password_placeholder form;
  password_readonly := if hidePassword then true else password_readonly form;
  login_visible := true; username_value := []; username_focused := true |}.

(** After the login the browser returns to the path that led to the login page: the redirect
    path is the first parameter of the address, the same that the pages of the program read,
    and the form can be sent without a password exactly if passwords are not allowed. *)
Theorem login_returns path rest hidePassword :
  AMP ∉ path →
  let form := login_script hidePassword (js "?" ++ path ++ AMP :: rest) login_html in
  (∀ search, login_redirectPath search = getFirstParameter search) ∧
  redirectPath_value form = path ∧ login_visible form = true ∧
  password_required form = negb hidePassword ∧ password_readonly form = hidePassword.
Proof.
  intros Hp. assert (∀ search, login_redirectPath search = getFirstParameter search) as Hs by done.
  cbn [redirectPath_value login_script login_visible password_required password_readonly login_html].
  split_and!; [done| |done|by destruct hidePassword..]. rewrite Hs. by apply getFirstParameter_spec.
Qed.

(** ** The menu of versions *)

Record version_link := { a_innerHTML : jstring; a_title : jstring; a_href : jstring }.
Record dropdown := { d_button : jstring; d_content : list version_link }.

Definition version_link_of (target_loc : jstring) (e : jstring * jstring) : version_link :=
  {| a_innerHTML := e.1; a_title := e.1; a_href := target_loc ++ e.2 |}.

(** The loop over the versions; an object with a property [hasOwnProperty] of its own has a
    text where the loop calls a function. *)
Definition version_links (target_loc : jstring) (versions : list (jstring * jstring)) : res (list version_link) :=
  if bool_decide (js "hasOwnProperty" ∈ versions.*1) then Throw TypeError
  else Ok (map (version_link_of target_loc) (obj_order versions)).

(** [add_version_dropdown], once the request for [json_loc] has been answered: the dropdown that
    is added to the page.  A failed request ([None]) adds nothing, and neither does an exception
    in the first callback, after which jQuery does not call the second one. *)
Definition add_version_dropdown (target_loc text : jstring) (answer : option (list (jstring * jstring)))
  : option dropdown :=
  match answer with
  | None => None
  | Some versions =>
    match version_links target_loc versions with
    | Ok links => Some {| d_button := text; d_content := links |}
    | Throw _ => None
    end
  end.

(** The versions that are numbers. *)
Definition numbered (versions : list (jstring * jstring)) : list (jstring * jstring) :=
  List.filter (λ kv, bool_decide (is_Some (array_index kv.1))) versions.

(** The menu links every version of the document, once.  Versions that are numbers come first and
    in ascending order, whatever their order in the document. *)
Theorem version_menu target_loc text versions :
  js "hasOwnProperty" ∉ versions.*1 →
  ∃ listed d,
    add_version_dropdown target_loc text (Some versions) = Some d ∧ d_button d = text ∧
    d_content d = map (version_link_of target_loc) listed ∧ listed ≡ₚ versions ∧
    ∃ numbers others, listed = numbers ++ others ∧ numbers ≡ₚ numbered versions ∧ Sorted index_le numbers.
Proof.
  intros Hv. exists (obj_order versions). eexists. split_and!.
  - unfold add_version_dropdown, version_links. by rewrite bool_decide_false.
  - done.
  - done.
  - apply obj_order_perm.
  - eexists _, _. split; [reflexivity|]. split; [apply merge_sort_Permutation|].
    assert (Total (@index_le jstring)) by (intros a b; unfold index_le; lia). apply (Sorted_merge_sort index_le).
Qed.

(** ** Witnesses *)

Lemma login_returns_witness :
  redirectPath_value (login_script false (js "?/ui/query.html&x=1") login_html) = js "/ui/query.html".
Proof.
  apply (login_returns (js "/ui/query.html") (js "x=1") false). by apply (bool_decide_unpack _).
Defined.

Lemma version_menu_witness :
  ∃ d, add_version_dropdown (js "/docs/") (js "Other versions")
         (Some [(js "381", js "381"); (js "380", js "380"); (js "current", js "latest")]) = Some d ∧
    map a_href (d_content d) = [js "/docs/380"; js "/docs/381"; js "/docs/latest"].
Proof.
  destruct (version_menu (js "/docs/") (js "Other versions")
    [(js "381", js "381"); (js "380", js "380"); (js "current", js "latest")]) as (listed & d & Hd & _).
  - by apply (bool_decide_unpack _).
  - exists d. split; [exact Hd|]. vm_compute in Hd. injection Hd as <-. vm_compute. reflexivity.
Defined.
