(* ===== verification/Graph.v ===== *)
(** * Graph drawing

    The pages build graphs for the drawing library through three calls,
    [setNode], [setEdge] and [setParent].  The code never reads the nodes and edges
    back, so a graph is the list of the calls made on it.  What it reads back is the
    size that the library's layout gives the graph. *)

From S2P Require Import Prelude JsString JsNumber.

Section graph.
(** The components whose HTML is used as the label of a node. *)
Context {C : Type}.

Inductive graph_call :=
| SetNode (v : jstring) (attrs : list (jstring * jstring)) (html : option C)
| SetEdge (v w : jstring) (attrs : list (jstring * jstring))
| SetParent (v parent : jstring).

(** The effect of the options of [initializeGraph]: a compound graph, bottom to top. *)
Record graph := { compound : bool; rankdir : jstring; calls : list graph_call }.

Definition initializeGraph : graph := {| compound := true; rankdir := js "BT"; calls := [] |}.

Definition add_calls (g : graph) (l : list graph_call) : graph :=
  {| compound := compound g; rankdir := rankdir g; calls := calls g ++ l |}.

(** The nodes, edges and parents that a list of calls sets. *)
Definition set_nodes (l : list graph_call) : list jstring :=
  omap (λ c, match c with SetNode v _ _ => Some v | _ => None end) l.
Definition set_edges (l : list graph_call) : list (jstring * jstring) :=
  omap (λ c, match c with SetEdge v w _ => Some (v, w) | _ => None end) l.
Definition set_parents (l : list graph_call) : list (jstring * jstring) :=
  omap (λ c, match c with SetParent v p => Some (v, p) | _ => None end) l.

Lemma set_nodes_app l1 l2 : set_nodes (l1 ++ l2) = set_nodes l1 ++ set_nodes l2.
Proof. apply omap_app. Qed.
Lemma set_edges_app l1 l2 : set_edges (l1 ++ l2) = set_edges l1 ++ set_edges l2.
Proof. apply omap_app. Qed.
Lemma set_parents_app l1 l2 : set_parents (l1 ++ l2) = set_parents l1 ++ set_parents l2.
Proof. apply omap_app. Qed.
End graph.
Arguments graph_call : clear implicits.
Arguments graph : clear implicits.

(** [dagreD3.render]: lays the graph out and draws it into the group of a canvas.  The first
    argument says whether the group is there; the result is the width and the height that
    the layout gives the graph. *)
Class DagreRender := dagre_render : ∀ C : Type, bool → graph C → res (number * number).
Arguments dagre_render {_ C} group g.

(** A graph as the library expects it: the ends of its edges and the members of its clusters are
    nodes that have been set, no edge ends at a cluster, and clusters are not nested. *)
Record drawable {C} (l : list (graph_call C)) : Prop := {
  dr_edges v w : (v, w) ∈ set_edges l → v ∈ set_nodes l ∧ w ∈ set_nodes l;
  dr_parents v p : (v, p) ∈ set_parents l → v ∈ set_nodes l ∧ p ∈ set_nodes l;
  dr_clusters v w x p : (v, w) ∈ set_edges l → (x, p) ∈ set_parents l → p ≠ v ∧ p ≠ w;
  dr_flat x p y : (x, p) ∈ set_parents l → (p, y) ∉ set_parents l;
}.

(** The library draws such a graph into a group that is there. *)
Class DagreLaws `{DagreRender} : Prop :=
  dagre_total : ∀ C (g : graph C), drawable (calls g) → is_ok (dagre_render true g) = true.

(** Nodes and clusters are told apart by their names: edges are between inner nodes, and a
    cluster contains inner nodes. *)
Definition named_apart {C} (inner : jstring → bool) (c : graph_call C) : Prop :=
  match c with
  | SetNode _ _ _ => True
  | SetEdge v w _ => inner v = true ∧ inner w = true
  | SetParent v p => inner v = true ∧ inner p = false
  end.

Section drawable.
Context {C : Type} (inner : jstring → bool).
Implicit Types l : list (graph_call C).

Lemma named_edges l v w : Forall (named_apart inner) l → (v, w) ∈ set_edges l → inner v = true ∧ inner w = true.
Proof.
  intros Hl (c & Hc & Hv)%list_elem_of_omap. rewrite Forall_forall in Hl. specialize (Hl c Hc).
  destruct c; simplify_eq. exact Hl.
Qed.

Lemma named_parents l v p : Forall (named_apart inner) l → (v, p) ∈ set_parents l → inner v = true ∧ inner p = false.
Proof.
  intros Hl (c & Hc & Hv)%list_elem_of_omap. rewrite Forall_forall in Hl. specialize (Hl c Hc).
  destruct c; simplify_eq. exact Hl.
Qed.

Lemma drawable_named l :
  (∀ v w, (v, w) ∈ set_edges l → v ∈ set_nodes l ∧ w ∈ set_nodes l) →
  (∀ v p, (v, p) ∈ set_parents l → v ∈ set_nodes l ∧ p ∈ set_nodes l) →
  Forall (named_apart inner) l → drawable l.
Proof.
  intros He Hp Hn. split; [done|done| |].
  - intros v w x p [Hv Hw]%(named_edges l) [_ Hi]%(named_parents l); [|done..]. split; intros ->; congruence.
  - intros x p y [_ Hi]%(named_parents l) [Hv _]%(named_parents l); [|done..]. congruence.
Qed.
End drawable.

(** ** Canvases *)

(** The zoom behaviour of a canvas: the scales it allows, and the transformation it starts with. *)
Record zoom := {
  scaleExtent : number * number;
  z_k : number;
  z_x : number;
  z_y : number;
}.

(** An [svg] element: its groups, its size, whether the clusters listen to clicks, its zoom. *)
Record canvas := {
  cv_groups : nat;
  cv_height : option number;
  cv_width : option number;
  cv_click : bool;
  cv_zoom : option zoom;
}.
Definition empty_canvas : canvas :=
  {| cv_groups := 0; cv_height := None; cv_width := None; cv_click := false; cv_zoom := None |}.

(** [initializeSvg] selects an element and appends a group; a selection without element is
    [None]. *)
Definition initializeSvg (element : option canvas) : option canvas :=
  option_map (λ c, {| cv_groups := S (cv_groups c); cv_height := cv_height c; cv_width := cv_width c;
                      cv_click := cv_click c; cv_zoom := cv_zoom c |}) element.

(** [svg.attr("height", h)], [svg.attr("width", w)], and the listener on the clusters or operators. *)
Definition size_canvas (height width : number) (c : canvas) : canvas :=
  {| cv_groups := cv_groups c; cv_height := Some height; cv_width := Some width;
     cv_click := true; cv_zoom := cv_zoom c |}.
Definition has_group (svg : option canvas) : bool :=
  match svg with Some c => 0 <? cv_groups c | None => false end.
