(* ===== verification/StageDetail.v ===== *)
(** * The stage page (components/StageDetail.jsx)

    The operators of a stage arranged as one chain per pipeline, the graph drawn
    from them, and the details of one operator.  The views and the refresh loop are
    in StageDetailView. *)

From S2P Require Import Prelude JsString JsNumber JsNumberFacts JsCollections Format Vdom Stage Graph.

(** ** Operator statistics *)

Definition getTotalWallTime (o : operator) : number :=
  nadd (nadd (nadd (num_of_nullable (parseDuration (addInputWall o)))
                   (num_of_nullable (parseDuration (getOutputWall o))))
             (num_of_nullable (parseDuration (finishWall o))))
       (num_of_nullable (parseDuration (blockedWall o))).

(** The rates of [OperatorSummary.render]: wall time in seconds. *)
Definition summary_rowInputRate (o : operator) : number :=
  let totalWallTime := getTotalWallTime o in
  if neqb totalWallTime zero then zero
  else ndiv (nmul (of_Z 1) (inputPositions o)) (ndiv totalWallTime (of_Z 1000)).
Definition byteInputRate (o : operator) : number :=
  let totalWallTime := getTotalWallTime o in
  if neqb totalWallTime zero then zero
  else ndiv (nmul (of_Z 1) (num_of_nullable (parseDataSize (inputDataSize o)))) (ndiv totalWallTime (of_Z 1000)).

(** The row rates of [OperatorDetail.render]: wall time in milliseconds. *)
Definition detail_rowInputRate (o : operator) : number :=
  let totalWallTime := getTotalWallTime o in
  if neqb totalWallTime zero then zero
  else ndiv (nmul (of_Z 1) (inputPositions o)) totalWallTime.
Definition detail_rowOutputRate (o : operator) : number :=
  let totalWallTime := getTotalWallTime o in
  if neqb totalWallTime zero then zero
  else ndiv (nmul (of_Z 1) (op_outputPositions o)) totalWallTime.
Definition byteOutputRate (o : operator) : number :=
  let totalWallTime := getTotalWallTime o in
  if neqb totalWallTime zero then zero
  else ndiv (nmul (of_Z 1) (num_of_nullable (parseDataSize (op_outputDataSize o)))) (ndiv totalWallTime (of_Z 1000)).

(** The label of an operator in the graph; [formatDuration] throws if the time does not parse. *)
Definition OperatorSummary_render (operator : operator) : res (vnode Empty_set Empty_set) :=
  let rowInputRate := summary_rowInputRate operator in
  blocked ← on_nullable formatDuration (parseDuration (blockedWall operator));
  Ok (el "div" [] [
      el "div" [A "className" "highlight-row"] [
        el "div" [A "className" "header-row"] [VText (operatorType operator)];
        el "div" [] [
          VText (formatCount rowInputRate ++ js " rows/s (" ++ formatDataSize (byteInputRate operator) ++ js "/s)")]];
      el "table" [A "className" "table"] [
        el "tbody" [] [
          el "tr" [] [
            el "td" [] [T "Output"];
            el "td" [] [
              VText (formatCount (op_outputPositions operator) ++ js " rows (" ++ parseAndFormatDataSize (op_outputDataSize operator) ++ js ")")]];
          el "tr" [] [el "td" [] [T "Drivers"]; el "td" [] [VNum (op_totalDrivers operator)]];
          el "tr" [] [
            el "td" [] [T "Wall Time"];
            el "td" [] [VText (formatDuration (getTotalWallTime operator))]];
          el "tr" [] [el "td" [] [T "Blocked"]; el "td" [] [VText blocked]];
          el "tr" [] [
            el "td" [] [T "Input"];
            el "td" [] [
              VText (formatCount (inputPositions operator) ++ js " rows (" ++ parseAndFormatDataSize (inputDataSize operator) ++ js ")")]]]]]).

(** [OperatorDetail.getInitialStatistics]; a supplier may yield [null]. *)
Record statistic := {
  stat_name : jstring;
  stat_id : jstring;
  supplier : operator → option number;
  renderer : number → jstring;
}.

Definition getInitialStatistics : list statistic :=
  [{| stat_name := js "Total Wall Time"; stat_id := js "totalWallTime";
      supplier o := Some (getTotalWallTime o); renderer := formatDuration |};
   {| stat_name := js "Input Rows"; stat_id := js "inputPositions";
      supplier o := Some (inputPositions o); renderer := formatCount |};
   {| stat_name := js "Input Data Size"; stat_id := js "inputDataSize";
      supplier o := parseDataSize (inputDataSize o); renderer := formatDataSize |};
   {| stat_name := js "Output Rows"; stat_id := js "outputPositions";
      supplier o := Some (op_outputPositions o); renderer := formatCount |};
   {| stat_name := js "Output Data Size"; stat_id := js "outputDataSize";
      supplier o := parseDataSize (op_outputDataSize o); renderer := formatDataSize |}].

(** The bar chart [OperatorStatistic.componentDidMount] draws. *)
Record bar_chart := {
  bc_target : jstring;
  bc_data : list (option number);
  bc_barWidth : number;
  bc_offsets : list (nat * jstring);
}.
Definition operator_chart (s : statistic) (operators : list operator) : bar_chart :=
  let numTasks := length operators in {|
  bc_target := js "#" ++ stat_id s;
  bc_data := map (supplier s) operators;
  bc_barWidth := ndiv (of_Z 800) (of_nat numTasks);
  bc_offsets := map (λ i, (i, dec_nat i)) (seq 0 numTasks) |}.

(** [OperatorDetail.getOperatorTasks]: the operator in every task, by task number. *)
Definition by_task_number (a b : task) : number :=
  nsub (getTaskNumber (taskId a)) (getTaskNumber (taskId b)).
Definition getOperatorTasks `{JsSort} (summary : operator) (ts : list task) : list operator :=
  task ← js_sort by_task_number ts;
  pipeline ← pipelines task;
  if (p_pipelineId pipeline =? pipelineId summary)%N
  then List.filter (λ o, (operatorId summary =? operatorId o)%N) (p_operatorSummaries pipeline)
  else [].

(** ** The operator graph *)

(** [StageOperatorGraph.computeOperatorMap]: the operators by plan node. *)
Definition add_to_group {K V} `{EqDecision K} (k : K) (v : V) (m : list (K * list V)) : list (K * list V) :=
  map_set k (default [] (map_get k m) ++ [v]) m.
Definition computeOperatorMap (summaries : list operator) : list (jstring * list operator) :=
  fold_left (λ m o, add_to_group (planNodeId o) o m) summaries [].

(** An operator with its [child] in the chain of its pipeline. *)
Inductive linked := Linked (op : operator) (child : option linked).

(** The pipelines that end below a node, and the messages logged on the console. *)
Definition pipeline_map := list (N * linked).

(** The callback over one child's result; a pipeline that is there already is reported and
    kept as it was. *)
Definition merge_source (type : jstring) (acc : pipeline_map * list jstring) (sourceResult : pipeline_map)
  : pipeline_map * list jstring :=
  fold_left (λ '(sourceResults, errors) '(pid, operator),
      if map_has pid sourceResults then (sourceResults, errors ++ [type])
      else (map_set pid operator sourceResults, errors))
    sourceResult acc.

(** The operators of one node by pipeline. *)
Definition group_by_pipeline (nodeOperators : list operator) : list (N * list operator) :=
  fold_left (λ m o, add_to_group (pipelineId o) o m) nodeOperators [].

Section operator_graph.
Context `{JsSort}.

Definition by_operatorId (a b : operator) : number :=
  nsub (of_Z (Z.of_N (operatorId a))) (of_Z (Z.of_N (operatorId b))).

(** The operators of a node in one pipeline, chained from source to sink on top of the chain
    of the pipeline below. *)
Definition chain (below : option linked) (ops : list operator) : option linked :=
  fold_left (λ c o, Some (Linked o c)) (js_sort by_operatorId ops) below.

Definition link_node (sourceResults : pipeline_map) (nodeOperators : list operator) : pipeline_map :=
  let result := fold_left (λ result '(pid, ops),
      match chain (map_get pid sourceResults) ops with
      | Some sink => map_set pid sink result
      | None => result
      end) (group_by_pipeline nodeOperators) [] in
  fold_left (λ result '(pid, operator),
      if map_has pid result then result else map_set pid operator result) sourceResults result.

(** What a node makes of the results of its children; [None] is an absent child. *)
Definition combine (type id : jstring) (operatorMap : list (jstring * list operator))
  (children : option (list (option (res (pipeline_map * list jstring)))))
  : res (pipeline_map * list jstring) :=
  sources ← deref children;
  merged ← fold_left (λ acc child,
      a ← acc;
      computed ← deref child;
      r ← computed;
      let '(sourceResults, errors) := a in
      Ok (merge_source type (sourceResults, errors ++ r.2) r.1)) sources (Ok ([], []));
  let '(sourceResults, errors) := merged in
  Ok (match map_get id operatorMap with
      | None | Some [] => sourceResults
      | Some nodeOperators => link_node sourceResults nodeOperators
      end, errors).

(** [StageOperatorGraph.computeOperatorGraphs] *)
Fixpoint computeOperatorGraphs (operatorMap : list (jstring * list operator)) (n : plan_node)
  : res (pipeline_map * list jstring) :=
  match n with
  | PlanNode type id source filteringSource left_ right_ probeSource indexSource sources =>
    let go := computeOperatorGraphs operatorMap in
    combine type id operatorMap
      (select_children type (option_map go source) (option_map go filteringSource)
         (option_map go left_) (option_map go right_) (option_map go probeSource)
         (option_map go indexSource) (option_map (map go) sources))
  end.

Lemma computeOperatorGraphs_eq operatorMap n :
  computeOperatorGraphs operatorMap n =
  combine (pn_type n) (pn_id n) operatorMap
    (option_map (map (option_map (computeOperatorGraphs operatorMap))) (getChildren n)).
Proof. destruct n. unfold getChildren. cbn. by rewrite <-select_children_fmap. Qed.

(** [computeD3StageOperatorGraph]: rendering a label may throw. *)
Definition operatorNodeId (o : operator) : jstring :=
  js "operator-" ++ dec (pipelineId o) ++ js "-" ++ dec (operatorId o).

Fixpoint computeD3StageOperatorGraph (l : linked) (sink : option jstring) (pipelineNode : jstring)
  : res (list (graph_call operator)) :=
  let '(Linked o child) := l in
  let id := operatorNodeId o in
  html ← OperatorSummary_render o;
  below ← match child with
          | Some c => computeD3StageOperatorGraph c (Some id) pipelineNode
          | None => Ok []
          end;
  Ok ([SetNode id [(js "class", js "operator-stats"); (js "labelType", js "html")] (Some o)]
      ++ below
      ++ match sink with
         | Some s => [SetEdge id s [(js "class", js "plan-edge"); (js "arrowheadClass", js "plan-arrowhead")]]
         | None => []
         end
      ++ [SetParent id pipelineNode]).

Definition pipelineNodeId (pid : N) : jstring := js "pipeline-" ++ dec pid.

Definition pipeline_calls (pid : N) (l : linked) : res (list (graph_call operator)) :=
  operators ← computeD3StageOperatorGraph l None (pipelineNodeId pid);
  Ok (SetNode (pipelineNodeId pid)
        [(js "label", js "Pipeline " ++ dec pid ++ js " "); (js "clusterLabelPos", js "top");
         (js "style", js "fill: #2b2b2b"); (js "labelStyle", js "fill: #fff")] None
      :: operators).

(** [updateD3Graph]: the graph that is drawn, [None] when the container is hidden. *)
Definition updateD3Graph (s : stage) : res (option (graph operator)) :=
  stats ← deref (stageStats s);
  summaries ← deref (operatorSummaries stats);
  fr ← deref (plan s);
  computed ← computeOperatorGraphs (computeOperatorMap summaries) (fr_root fr);
  let operatorGraphs := computed.1 in
  pipelines ← res_map (λ e, pipeline_calls e.1 e.2) operatorGraphs;
  Ok (if 0 <? length operatorGraphs then Some (add_calls initializeGraph (concat pipelines)) else None).

(** [handleOperatorClick]: the summary the dialog shows ([None] is [null]). *)
Definition split_part (i : nat) (s : jstring) : jstring :=
  default (js "undefined") (JsString.split (js "-") s !! i).
Definition handleOperatorClick (operatorCssId : jstring) (summaries : list operator) : option operator :=
  let pid := parseInt (split_part 1 operatorCssId) in
  let oid := parseInt (split_part 2 operatorCssId) in
  fold_left (λ found o,
      if neqb (of_Z (Z.of_N (pipelineId o))) pid && neqb (of_Z (Z.of_N (operatorId o))) oid
      then Some o else found) summaries None.
End operator_graph.
