(* ===== verification/StageDetailFacts.v ===== *)
(** * Correctness of the operator graph of a stage

    Every operator of the stage whose plan node belongs to the plan is drawn
    exactly once, in the chain of its own pipeline, and a click on its box finds
    it again. *)

From S2P Require Import Prelude JsString JsNumber JsNumberFacts JsCollections Format FormatFacts Stage Graph StageDetail.

(** ** Groups *)

Section groups.
Context {K V : Type} `{EqDecision K} (key : V → K).
Implicit Types m : list (K * list V).

Definition group_fold (l : list V) m : list (K * list V) :=
  fold_left (λ m v, add_to_group (key v) v m) l m.

Lemma group_fold_get l m k :
  default [] (map_get k (group_fold l m)) =
  default [] (map_get k m) ++ List.filter (λ v, bool_decide (key v = k)) l.
Proof.
  revert m. induction l as [|v l IH]; intros m; simpl; [by rewrite app_nil_r|].
  unfold group_fold in *. simpl. rewrite IH. unfold add_to_group.
  destruct (decide (key v = k)) as [<-|Hk].
  - rewrite map_get_set_eq, bool_decide_eq_true_2 by done. simpl. by rewrite <-app_assoc.
  - by rewrite map_get_set_ne, bool_decide_eq_false_2 by done.
Qed.

Lemma group_fold_keys l m x : x ∈ map_keys (group_fold l m) ↔ x ∈ map_keys m ∨ x ∈ key <$> l.
Proof.
  revert m. induction l as [|v l IH]; intros m; simpl; [set_solver|].
  unfold group_fold in *. simpl. rewrite IH. unfold add_to_group. rewrite map_keys_set_elem. set_solver.
Qed.

Lemma group_fold_NoDup l m : NoDup (map_keys m) → NoDup (map_keys (group_fold l m)).
Proof.
  revert m. induction l as [|v l IH]; intros m Hm; simpl; [done|].
  apply IH. by apply map_set_NoDup.
Qed.

Lemma map_get_of_key k m : k ∈ map_keys m → ∃ v, map_get k m = Some v.
Proof.
  intros Hk. destruct (map_get k m) eqn:E; [eauto|]. by apply map_get_None in E.
Qed.

(** The group of a key: the elements with that key, in their order. *)
Lemma group_get l k :
  map_get k (group_fold l []) =
  match List.filter (λ v, bool_decide (key v = k)) l with [] => None | vs => Some vs end.
Proof.
  pose proof (group_fold_get l [] k) as Hg. simpl in Hg.
  destruct (List.filter _ l) as [|v vs] eqn:E.
  - apply map_get_None. rewrite group_fold_keys. intros [?|Hk]; [set_solver|].
    apply list_elem_of_fmap in Hk as (v & -> & Hv).
    assert (v ∈ List.filter (λ v', bool_decide (key v' = key v)) l) as Hin.
    { apply elem_of_filter_bool. split; [done|]. by apply bool_decide_eq_true. }
    rewrite E in Hin. set_solver.
  - destruct (map_get k (group_fold l [])); simpl in Hg; [by rewrite Hg|done].
Qed.

Lemma group_elem l k vs :
  (k, vs) ∈ group_fold l [] → vs = List.filter (λ v, bool_decide (key v = k)) l ∧ vs ≠ [].
Proof.
  intros Hin. apply map_get_elem in Hin; [|apply group_fold_NoDup; constructor].
  rewrite group_get in Hin. destruct (List.filter _ l); by simplify_eq.
Qed.

(** The groups partition the elements. *)
Lemma filter_keys_perm l ks :
  NoDup ks → (∀ v, v ∈ l → key v ∈ ks) →
  concat (map (λ k, List.filter (λ v, bool_decide (key v = k)) l) ks) ≡ₚ l.
Proof.
  intros Hks Hl. induction l as [|v l IH].
  - clear. induction ks; simpl; done.
  - assert (∀ ks', NoDup ks' →
      concat (map (λ k, List.filter (λ v', bool_decide (key v' = k)) (v :: l)) ks') ≡ₚ
      (if bool_decide (key v ∈ ks') then [v] else []) ++
      concat (map (λ k, List.filter (λ v', bool_decide (key v' = k)) l) ks')) as Hone.
    { clear. induction ks' as [|k ks' IH]; intros Hnd; simpl; [done|].
      apply NoDup_cons in Hnd as [Hk Hnd]. rewrite (IH Hnd).
      destruct (bool_decide (key v = k)) eqn:E; boolp.
      - subst k. rewrite (bool_decide_eq_true_2 (key v ∈ _ :: _)) by set_solver.
        rewrite (bool_decide_eq_false_2 (key v ∈ ks')) by done. simpl. done.
      - rewrite (bool_decide_ext (key v ∈ k :: ks') (key v ∈ ks')) by set_solver.
        destruct (bool_decide (key v ∈ ks')); simpl; [|done].
        rewrite Permutation_middle. done. }
    rewrite Hone by done. rewrite bool_decide_eq_true_2 by (apply Hl; set_solver). simpl.
    constructor. apply IH. intros. apply Hl. set_solver.
Qed.

Lemma group_partition l : concat (group_fold l []).*2 ≡ₚ l.
Proof.
  assert ((group_fold l []).*2 =
    map (λ k, List.filter (λ v, bool_decide (key v = k)) l) (map_keys (group_fold l []))) as ->.
  { unfold map_keys. rewrite map_map.
    apply list_eq_same_length with (n := length (group_fold l [])); rewrite ?length_fmap, ?length_map; [done..|].
    intros i x y Hi Hx Hy. rewrite list_lookup_fmap in Hx, Hy.
    destruct (group_fold l [] !! i) as [[k vs]|] eqn:E; simplify_eq/=.
    apply list_elem_of_lookup_2, group_elem in E as [-> _]. done. }
  apply filter_keys_perm; [apply group_fold_NoDup; constructor|].
  intros v Hv. apply group_fold_keys. right. by apply list_elem_of_fmap_2.
Qed.
End groups.

(** ** Chains *)

Fixpoint ops_of (l : linked) : list operator :=
  let '(Linked o child) := l in o :: match child with Some c => ops_of c | None => [] end.
Definition opt_ops (c : option linked) : list operator := match c with Some l => ops_of l | None => [] end.
Definition all_ops (m : pipeline_map) : list operator := concat (map (λ e, ops_of e.2) m).

(** The operators of every chain belong to its pipeline. *)
Definition homogeneous (m : pipeline_map) : Prop :=
  ∀ pid l, (pid, l) ∈ m → Forall (λ o, pipelineId o = pid) (ops_of l).

Lemma all_ops_app m1 m2 : all_ops (m1 ++ m2) = all_ops m1 ++ all_ops m2.
Proof. unfold all_ops. by rewrite map_app, concat_app. Qed.

Section chains.
Context `{JsSortLaws}.

Lemma chain_fold ops below :
  opt_ops (fold_left (λ c o, Some (Linked o c)) ops below) = reverse ops ++ opt_ops below.
Proof.
  revert below. induction ops as [|o ops IH]; intros below; simpl; [done|].
  rewrite IH, reverse_cons, <-app_assoc. done.
Qed.

Lemma chain_ops below ops : opt_ops (chain below ops) ≡ₚ ops ++ opt_ops below.
Proof.
  unfold chain. rewrite chain_fold, reverse_Permutation. by rewrite (js_sort_perm by_operatorId ops).
Qed.

Lemma chain_Some below ops : ops ≠ [] → ∃ l, chain below ops = Some l ∧ ops_of l ≡ₚ ops ++ opt_ops below.
Proof.
  intros Hne. pose proof (chain_ops below ops) as Hc. destruct (chain below ops) as [l|]; [eauto|].
  simpl in Hc. apply Permutation_nil_l in Hc. by destruct ops.
Qed.

(** ** One node *)

Definition link_groups (src : pipeline_map) (groups : list (N * list operator)) (result : pipeline_map) :=
  fold_left (λ result '(pid, ops),
      match chain (map_get pid src) ops with
      | Some sink => map_set pid sink result
      | None => result
      end) groups result.
Definition add_rest (src result : pipeline_map) : pipeline_map :=
  fold_left (λ result '(pid, operator),
      if map_has pid result then result else map_set pid operator result) src result.

Lemma link_groups_spec src groups result :
  NoDup (map_keys result ++ groups.*1) → (∀ pid ops, (pid, ops) ∈ groups → ops ≠ []) →
  ∃ added, link_groups src groups result = result ++ added ∧ map_keys added = groups.*1 ∧
    (∀ pid l, (pid, l) ∈ added → ∃ ops, (pid, ops) ∈ groups ∧ ops_of l ≡ₚ ops ++ opt_ops (map_get pid src)) ∧
    all_ops added ≡ₚ concat groups.*2 ++ concat (map (λ pid, opt_ops (map_get pid src)) groups.*1).
Proof.
  revert result. induction groups as [|[pid ops] groups IH]; intros result Hnd Hne.
  { exists []. rewrite app_nil_r. split_and!; [done..| |done]. intros ??. set_solver. }
  cbn [link_groups fold_left]. cbn [fmap list_fmap fst] in Hnd.
  destruct (chain_Some (map_get pid src) ops) as (l & Hc & Hl); [by apply (Hne pid); set_solver|].
  rewrite Hc. rewrite map_set_fresh
    by (intros Hin; apply NoDup_app in Hnd as (_ & Hd & _); apply (Hd _ Hin); set_solver).
  destruct (IH (result ++ [(pid, l)])) as (added & Hf & Hk & Hel & Hops).
  { unfold map_keys. rewrite fmap_app. simpl. by rewrite <-app_assoc. }
  { intros p o Hp. apply (Hne p). set_solver. }
  exists ((pid, l) :: added). unfold link_groups in Hf. rewrite Hf, <-app_assoc. split; [done|].
  split; [unfold map_keys in *; csimpl; by rewrite Hk|]. split.
  - intros p l' [[= -> ->]|Hin]%elem_of_cons.
    + exists ops. split; [set_solver|done].
    + destruct (Hel _ _ Hin) as (o & ? & ?). exists o. split; [set_solver|done].
  - unfold all_ops in *. cbn. rewrite Hl, Hops. solve_Permutation.
Qed.

Lemma add_rest_spec src result :
  NoDup (map_keys src) →
  add_rest src result = result ++ List.filter (λ e, negb (map_has e.1 result)) src.
Proof.
  revert result. induction src as [|[pid l] src IH]; intros result Hnd; cbn [add_rest fold_left].
  { by rewrite app_nil_r. }
  apply NoDup_cons in Hnd as [Hp Hnd]. cbn [List.filter fst].
  destruct (map_has pid result) eqn:E; simpl.
  - by apply IH.
  - unfold add_rest in IH. rewrite IH, map_set_fresh, <-app_assoc by (done || by apply map_has_false).
    simpl. do 2 f_equal. apply filter_bool_ext. intros [p l'] Hin. simpl. f_equal.
    apply eq_true_iff_eq. rewrite !map_has_spec. unfold map_keys. rewrite fmap_app.
    assert (p ≠ pid). { intros ->. apply Hp. apply list_elem_of_fmap. by exists (pid, l'). }
    set_solver.
Qed.

(** The chains of a set of keys and the rest of the map make up the map. *)
Lemma keys_partition (src : pipeline_map) ks :
  NoDup ks → NoDup (map_keys src) →
  concat (map (λ k, opt_ops (map_get k src)) ks) ++
  all_ops (List.filter (λ e, negb (bool_decide (e.1 ∈ ks))) src) ≡ₚ all_ops src.
Proof.
  revert src. induction ks as [|k ks IH]; intros src Hks Hsrc.
  { cbn [map concat app]. rewrite filter_bool_all; [done|]. intros x _. by rewrite bool_decide_eq_false_2 by set_solver. }
  apply NoDup_cons in Hks as [Hk Hks]. simpl. rewrite <-(IH src Hks Hsrc).
  destruct (map_get k src) as [l|] eqn:E.
  - apply map_get_elem in E; [|done].
    apply list_elem_of_split in E as (s1 & s2 & ->).
    assert (∀ s, k ∉ map_keys s → List.filter (λ e, negb (bool_decide (e.1 ∈ k :: ks))) s =
      List.filter (λ e : N * linked, negb (bool_decide (e.1 ∈ ks))) s) as Hf.
    { intros s Hs. apply filter_bool_ext. intros [p l'] Hin. simpl. f_equal. apply bool_decide_ext.
      assert (p ≠ k); [|set_solver]. intros ->. apply Hs. apply list_elem_of_fmap. by exists (k, l'). }
    unfold map_keys in Hsrc. rewrite fmap_app in Hsrc. simpl in Hsrc.
    apply NoDup_app in Hsrc as (_ & Hd & Hs2). apply NoDup_cons in Hs2 as [Hs2 _].
    rewrite !List.filter_app. cbn [List.filter fst].
    rewrite (bool_decide_eq_true_2 (k ∈ k :: ks)), (bool_decide_eq_false_2 (k ∈ ks)) by set_solver.
    cbn [negb]. rewrite !Hf by (done || (intros Hin; apply (Hd _ Hin); set_solver)).
    rewrite !all_ops_app. cbn [opt_ops]. unfold all_ops at 3. cbn. fold (all_ops (List.filter (λ e, negb (bool_decide (e.1 ∈ ks))) s2)).
    solve_Permutation.
  - simpl. rewrite (filter_bool_ext (λ e, negb (bool_decide (e.1 ∈ k :: ks))) (λ e, negb (bool_decide (e.1 ∈ ks)))); [done|].
    intros [p l'] Hin. simpl. f_equal. apply bool_decide_ext.
    assert (p ≠ k); [|set_solver]. intros ->. apply map_get_None in E. apply E.
    apply list_elem_of_fmap. by exists (k, l').
Qed.

Lemma link_node_eq src ops :
  link_node src ops = add_rest src (link_groups src (group_by_pipeline ops) []).
Proof. done. Qed.

Lemma link_node_spec src ops :
  NoDup (map_keys src) → homogeneous src →
  NoDup (map_keys (link_node src ops)) ∧ homogeneous (link_node src ops) ∧
  all_ops (link_node src ops) ≡ₚ ops ++ all_ops src.
Proof.
  intros Hnd Hh. rewrite link_node_eq.
  assert (NoDup (map_keys (group_by_pipeline ops))) as Hg
    by (apply (group_fold_NoDup pipelineId ops); constructor).
  destruct (link_groups_spec src (group_by_pipeline ops) []) as (added & -> & Hk & Hel & Hops); [done|..].
  { intros pid os Hin. by apply (group_elem pipelineId) in Hin as [_ ?]. }
  rewrite add_rest_spec by done. cbn [app].
  set (rest := List.filter (λ e, negb (map_has e.1 added)) src).
  assert (rest = List.filter (λ e, negb (bool_decide (e.1 ∈ map_keys (group_by_pipeline ops)))) src) as Hrest.
  { apply filter_bool_ext. intros [p l] _. simpl. f_equal. apply eq_true_iff_eq.
    rewrite map_has_spec, bool_decide_eq_true, Hk. done. }
  split_and!.
  - unfold map_keys. rewrite fmap_app. apply NoDup_app. split_and!; [unfold map_keys in Hk; by rewrite Hk|..].
    + intros p Hp Hin. apply list_elem_of_fmap in Hin as ([p' l] & -> & [_ Hin]%elem_of_filter_bool).
      apply negb_true_iff, map_has_false in Hin. done.
    + eapply sublist_NoDup; [exact Hnd|]. by apply fmap_sublist, filter_sublist.
  - intros pid l [Hin|Hin]%elem_of_app.
    + destruct (Hel _ _ Hin) as (os & Hos & Hl). rewrite Hl. apply Forall_app. split.
      * apply (group_elem pipelineId) in Hos as [-> _]. apply Forall_forall.
        intros o [_ Ho]%elem_of_filter_bool. by apply bool_decide_eq_true in Ho.
      * destruct (map_get pid src) as [l'|] eqn:E; [|constructor].
        apply Hh. by apply map_get_elem.
    + apply elem_of_filter_bool in Hin as [Hin _]. by apply Hh.
  - rewrite all_ops_app, Hops, Hrest, <-app_assoc.
    rewrite (keys_partition src (map_keys (group_by_pipeline ops)) Hg Hnd).
    apply Permutation_app; [|done]. apply (group_partition pipelineId ops).
Qed.

(** ** The children of a node *)

Lemma merge_source_errors type m e r : ∃ e', (merge_source type (m, e) r).2 = e ++ e'.
Proof.
  revert m e. induction r as [|[pid l] r IH]; intros m e; [exists []; by rewrite app_nil_r|].
  change (merge_source type (m, e) ((pid, l) :: r)) with
    (merge_source type (if map_has pid m then (m, e ++ [type]) else (map_set pid l m, e)) r).
  destruct (map_has pid m); [|apply IH].
  destruct (IH m (e ++ [type])) as [e' ->]. exists ([type] ++ e'). by rewrite app_assoc.
Qed.

(** Without a collision the chains of the child are appended. *)
Lemma merge_source_clean type m e r m' :
  NoDup (map_keys m) → merge_source type (m, e) r = (m', e) →
  m' = m ++ r ∧ NoDup (map_keys m').
Proof.
  revert m. induction r as [|[pid l] r IH]; intros m Hnd.
  { intros [= <-]. by rewrite app_nil_r. }
  change (merge_source type (m, e) ((pid, l) :: r)) with
    (merge_source type (if map_has pid m then (m, e ++ [type]) else (map_set pid l m, e)) r).
  destruct (map_has pid m) eqn:E.
  - intros Hm. destruct (merge_source_errors type m (e ++ [type]) r) as [e' He'].
    assert (e = (e ++ [type]) ++ e') as Hlen by (etrans; [symmetry; exact (f_equal snd Hm)|exact He']).
    apply (f_equal length) in Hlen. rewrite !length_app in Hlen. simpl in Hlen. lia.
  - apply map_has_false in E. rewrite map_set_fresh by done. intros Hm.
    apply IH in Hm as [-> Hk].
    + by rewrite <-app_assoc in *.
    + unfold map_keys in *. rewrite fmap_app. apply NoDup_app. split_and!; [done| |apply NoDup_singleton].
      intros x Hx ->%list_elem_of_singleton. done.
Qed.
End chains.

(** ** Plans *)

(** The number of nodes of a plan, including the fields that the type does not select. *)
Definition opt_sum (o : option nat) : nat := default 0 o.
Fixpoint plan_size (n : plan_node) : nat :=
  match n with
  | PlanNode _ _ a b c d e f l =>
    S (opt_sum (option_map plan_size a) + opt_sum (option_map plan_size b) + opt_sum (option_map plan_size c)
       + opt_sum (option_map plan_size d) + opt_sum (option_map plan_size e) + opt_sum (option_map plan_size f)
       + opt_sum (option_map (λ l, sum_list_with plan_size l) l))
  end.

Lemma child_size n cs c : getChildren n = Some cs → Some c ∈ cs → plan_size c < plan_size n.
Proof.
  destruct n as [ty id a b c' d e f l]. unfold getChildren, select_children. cbn.
  assert (∀ (o : option plan_node), Some c = o → plan_size c ≤ opt_sum (option_map plan_size o)) as Ho
    by (intros ? <-; done).
  assert (∀ ls, l = Some ls → Some c ∈ map Some ls →
    plan_size c ≤ opt_sum (option_map (λ l, sum_list_with plan_size l) l)) as Hls.
  { intros ls -> (x & [= <-] & Hin)%list_elem_of_fmap. simpl. clear -Hin.
    induction ls as [|y ls IH]; [set_solver|]. apply elem_of_cons in Hin as [->|Hin]; simpl; [lia|].
    specialize (IH Hin). lia. }
  intros Hcs Hc.
  repeat match type of Hcs with (if ?b then _ else _) = _ => destruct b end; simplify_eq;
    rewrite ?elem_of_cons in Hc;
    repeat match goal with
      | H : _ ∨ _ |- _ => destruct H as [H|H]
      | H : Some c = ?o |- _ => apply Ho in H; lia
      end; try set_solver.
  destruct l as [ls|]; simplify_eq/=. specialize (Hls ls eq_refl Hc). simpl in Hls. lia.
Qed.

Lemma plan_children_ind (P : plan_node → Prop) :
  (∀ n, (∀ cs c, getChildren n = Some cs → Some c ∈ cs → P c) → P n) → ∀ n, P n.
Proof.
  intros Hstep n. remember (plan_size n) as k eqn:Hk. revert n Hk.
  induction k as [k IH] using lt_wf_ind. intros n ->. apply Hstep.
  intros cs c Hcs Hc. eapply IH; [|done]. by eapply child_size.
Qed.

(** The ids of the nodes of a plan, the node before its children. *)
Fixpoint plan_nodes (n : plan_node) : list jstring :=
  match n with
  | PlanNode ty id a b c d e f l =>
    let go := plan_nodes in
    id :: concat (map (default []) (default [] (select_children ty (option_map go a) (option_map go b)
      (option_map go c) (option_map go d) (option_map go e) (option_map go f) (option_map (map go) l))))
  end.

Lemma plan_nodes_eq n :
  plan_nodes n = pn_id n :: concat (map (λ c, default [] (option_map plan_nodes c)) (default [] (getChildren n))).
Proof.
  destruct n as [ty id a b c d e f l]. unfold getChildren. cbn. rewrite select_children_fmap.
  destruct (select_children ty a b c d e f l) as [cs|]; cbn; [|done]. by rewrite map_map.
Qed.

(** A plan in which every child that the types select is there. *)
Fixpoint complete (n : plan_node) : bool :=
  match n with
  | PlanNode ty id a b c d e f l =>
    let go := complete in
    match select_children ty (option_map go a) (option_map go b)
      (option_map go c) (option_map go d) (option_map go e) (option_map go f) (option_map (map go) l) with
    | Some cs => forallb (default false) cs
    | None => false
    end
  end.

Lemma complete_eq n :
  complete n = match getChildren n with
               | Some cs => forallb (λ c, default false (option_map complete c)) cs
               | None => false
               end.
Proof.
  destruct n as [ty id a b c d e f l]. unfold getChildren. cbn. rewrite select_children_fmap.
  destruct (select_children ty a b c d e f l) as [cs|]; cbn; [|done].
  induction cs as [|x cs IH]; cbn; [done|]. by rewrite IH.
Qed.

(** ** The whole plan *)

Section whole.
Context `{JsSortLaws}.
Context (M : list (jstring * list operator)).

Definition child_step (type : jstring) (acc : res (pipeline_map * list jstring))
  (child : option (res (pipeline_map * list jstring))) : res (pipeline_map * list jstring) :=
  a ← acc;
  computed ← deref child;
  r ← computed;
  let '(sourceResults, errors) := a in
  Ok (merge_source type (sourceResults, errors ++ r.2) r.1).

Lemma child_step_throw type e l : fold_left (child_step type) l (Throw e) = Throw e.
Proof. by induction l. Qed.

Lemma child_step_inv type m e child b :
  child_step type (Ok (m, e)) child = Ok b →
  ∃ r, child = Some (Ok r) ∧ b = merge_source type (m, e ++ r.2) r.1.
Proof. destruct child as [[r|]|]; [|done..]. intros [= <-]. by exists r. Qed.

Lemma children_errors type l a b :
  fold_left (child_step type) l (Ok a) = Ok b → ∃ e', b.2 = a.2 ++ e'.
Proof.
  revert a. induction l as [|c l IH]; intros [m e] Hl; [injection Hl as <-; exists []; symmetry; apply app_nil_r|].
  cbn [fold_left] in Hl. destruct (child_step type (Ok (m, e)) c) as [a'|] eqn:E;
    [|by rewrite child_step_throw in Hl].
  apply IH in Hl as [e' ->]. apply child_step_inv in E as (r & _ & ->).
  destruct (merge_source_errors type m (e ++ r.2) r.1) as [e'' ->]. exists (r.2 ++ e'' ++ e').
  by rewrite !app_assoc.
Qed.

(** The operators of the plan nodes [ids]. *)
Definition ops_at (ids : list jstring) : list operator :=
  concat (map (λ id, default [] (map_get id M)) ids).

Lemma ops_at_app a b : ops_at (a ++ b) = ops_at a ++ ops_at b.
Proof. unfold ops_at. by rewrite map_app, concat_app. Qed.

(** What is shown of the part of a plan that contains the nodes [ids]. *)
Record shown (ids : list jstring) (m : pipeline_map) : Prop := {
  shown_keys : NoDup (map_keys m);
  shown_pipelines : homogeneous m;
  shown_ops : all_ops m ≡ₚ ops_at ids;
}.

Definition clean (n : plan_node) : Prop :=
  ∀ m, computeOperatorGraphs M n = Ok (m, []) → shown (plan_nodes n) m.

Lemma children_clean type cs m m' ids :
  (∀ c, Some c ∈ cs → clean c) → shown ids m →
  fold_left (child_step type) (map (option_map (computeOperatorGraphs M)) cs) (Ok (m, [])) = Ok (m', []) →
  shown (ids ++ concat (map (λ c, default [] (option_map plan_nodes c)) cs)) m'.
Proof.
  revert m ids. induction cs as [|c cs IH]; intros m ids Hcs Hm Hl.
  { injection Hl as <-. simpl. by rewrite app_nil_r. }
  cbn [map fold_left concat] in *. rewrite app_assoc.
  destruct (child_step _ _ _) as [[m1 e1]|] eqn:E; [|by rewrite child_step_throw in Hl].
  destruct (children_errors _ _ _ _ Hl) as [e' He']. simpl in He'.
  symmetry in He'. apply app_nil in He' as [-> _].
  apply child_step_inv in E as ([r re] & Hc & Hmerge). destruct c as [c|]; [|done]. simpl in *.
  destruct (merge_source_errors type m re r) as [e'' He'']. rewrite <-Hmerge in He''. simpl in He''.
  symmetry in He''. apply app_nil in He'' as [-> _]. simplify_eq.
  destruct (Hcs c ltac:(set_solver) r) as [Hk Hh Ho]; [done|].
  symmetry in Hmerge. destruct (merge_source_clean _ _ _ _ _ (shown_keys _ _ Hm) Hmerge) as [-> Hk'].
  apply (IH (m ++ r)); [set_solver| |done]. split; [done|..].
  - intros pid l [Hin|Hin]%elem_of_app; [by apply Hm|by apply Hh].
  - rewrite all_ops_app, ops_at_app. by rewrite (shown_ops _ _ Hm), Ho.
Qed.

Lemma combine_eq type id cs :
  combine type id M (Some cs) =
  (merged ← fold_left (child_step type) cs (Ok ([], []));
   let '(sourceResults, errors) := merged in
   Ok (match map_get id M with
       | None | Some [] => sourceResults
       | Some nodeOperators => link_node sourceResults nodeOperators
       end, errors)).
Proof. done. Qed.

Lemma graphs_clean n : clean n.
Proof.
  induction n as [n IH] using plan_children_ind. intros m Hm.
  rewrite computeOperatorGraphs_eq in Hm. destruct (getChildren n) as [cs|] eqn:Ecs; [|done].
  cbn [option_map] in Hm. rewrite combine_eq in Hm.
  apply res_bind_ok in Hm as ([src e] & Hf & Hm). simplify_eq.
  apply (children_clean (pn_type n) cs [] src []) in Hf as [Hk Hh Ho].
  2: { intros c Hc. by eapply IH. }
  2: { split; [constructor| |done]. intros ??. set_solver. }
  rewrite plan_nodes_eq, Ecs. cbn [default app] in *.
  set (ids := concat _) in *.
  assert (shown ids src) as Hsrc by done.
  change (pn_id n :: ids) with ([pn_id n] ++ ids).
  assert (ops_at [pn_id n] = default [] (map_get (pn_id n) M)) as Hid by (unfold ops_at; simpl; by rewrite app_nil_r).
  destruct (map_get (pn_id n) M) as [[|o ops]|]; simpl in Hid.
  - split; [done..|]. by rewrite ops_at_app, Hid.
  - destruct (link_node_spec src (o :: ops) Hk Hh) as (? & ? & Hops).
    split; [done..|]. by rewrite ops_at_app, Hid, Hops, Ho.
  - split; [done..|]. by rewrite ops_at_app, Hid.
Qed.

Lemma children_total type cs a :
  (∀ c, c ∈ cs → ∃ n r, c = Some n ∧ computeOperatorGraphs M n = Ok r) →
  ∃ b, fold_left (child_step type) (map (option_map (computeOperatorGraphs M)) cs) (Ok a) = Ok b.
Proof.
  revert a. induction cs as [|c cs IH]; intros [m e] Hcs; [by eexists|].
  cbn [map fold_left]. destruct (Hcs c ltac:(set_solver)) as (n & r & -> & Hr).
  cbn [option_map]. rewrite Hr. cbn [child_step mbind res_bind deref]. apply IH. set_solver.
Qed.

Lemma graphs_total n : complete n = true → ∃ r, computeOperatorGraphs M n = Ok r.
Proof.
  induction n as [n IH] using plan_children_ind. rewrite complete_eq, computeOperatorGraphs_eq.
  destruct (getChildren n) as [cs|] eqn:Ecs; [|done]. rewrite forallb_forall. intros Hcs.
  cbn [option_map]. rewrite combine_eq.
  destruct (children_total (pn_type n) cs ([], [])) as [[src e] Hf];
    [|eexists; apply res_bind_ok; exists (src, e); split; [exact Hf|done]].
  intros c Hc. pose proof (Hcs c (proj1 (list_elem_of_In _ _) Hc)) as Hcc.
  destruct c as [c|]; [|done]. destruct (IH cs c eq_refl Hc Hcc) as [r Hr]. eauto.
Qed.
End whole.

(** ** Where the operators come from

    Also when two sources report the same pipeline, the chains only hold operators of the map. *)

Section origin.
Context `{JsSortLaws}.
Context (Q : operator → Prop).

Definition all_in (m : pipeline_map) : Prop := ∀ pid l, (pid, l) ∈ m → Forall Q (ops_of l).

Lemma all_in_set pid l m : Forall Q (ops_of l) → all_in m → all_in (map_set pid l m).
Proof. intros Hl Hm p' l' [[= -> ->]|Hin]%map_set_elem; [done|by eapply Hm]. Qed.

Lemma chain_in below ops sink :
  Forall Q (opt_ops below) → Forall Q ops → chain below ops = Some sink → Forall Q (ops_of sink).
Proof.
  unfold chain. intros Hb Ho. assert (Forall Q (js_sort by_operatorId ops)) as Hs by (by rewrite js_sort_perm).
  clear Ho. revert below Hb. induction (js_sort by_operatorId ops) as [|o l IH]; intros below Hb; cbn [fold_left].
  - by intros ->.
  - apply Forall_cons in Hs as [Ho Hl]. apply IH; [done|]. cbn. constructor; [done|]. by destruct below.
Qed.

Lemma merge_source_in type acc e m r :
  all_in acc → all_in m → merge_source type (acc, e) m = r → all_in r.1.
Proof.
  unfold merge_source. intros Ha Hm <-. revert acc e Ha. induction m as [|[pid l] m IH]; intros acc e Ha; [done|].
  cbn [fold_left]. assert (all_in m) as Hm' by (intros p' l' Hin; eapply Hm; by apply list_elem_of_further).
  destruct (map_has pid acc); apply IH; try done. apply all_in_set; [|done]. eapply Hm, list_elem_of_here.
Qed.

Lemma link_node_in src ops : all_in src → Forall Q ops → all_in (link_node src ops).
Proof.
  intros Hs Ho. unfold link_node.
  assert (∀ l r, all_in r → (∀ pid l', (pid, l') ∈ l → Forall Q (ops_of l')) →
    all_in (fold_left (λ result '(pid, operator), if map_has pid result then result else map_set pid operator result) l r)) as Hrest.
  { induction l as [|[pid x] l IH]; intros r Hr Hl; [done|]. cbn [fold_left]. apply IH; [|intros; eapply Hl; by apply list_elem_of_further].
    destruct (map_has pid r); [done|]. apply all_in_set; [|done]. eapply Hl, list_elem_of_here. }
  apply Hrest; [|done].
  assert (∀ g r, all_in r → (∀ pid l, (pid, l) ∈ g → Forall Q l) →
    all_in (fold_left (λ result '(pid, ops), match chain (map_get pid src) ops with
      | Some sink => map_set pid sink result | None => result end) g r)) as Hnew.
  { induction g as [|[pid x] g IH]; intros r Hr Hg; [done|]. cbn [fold_left].
    apply IH; [|intros; eapply Hg; by apply list_elem_of_further].
    destruct (chain _ x) as [sink|] eqn:Ec; [|done]. apply all_in_set; [|done].
    eapply chain_in; [|eapply Hg, list_elem_of_here|exact Ec].
    destruct (map_get pid src) eqn:E; [|constructor]. apply map_get_Some in E. by eapply Hs. }
  apply Hnew; [by intros ?? ?%elem_of_nil|]. intros pid l Hin.
  apply (group_elem pipelineId) in Hin as [-> _]. apply Forall_forall. intros o [Hin _]%elem_of_filter_bool.
  rewrite Forall_forall in Ho. by apply Ho.
Qed.

Lemma graphs_in M n r :
  (∀ id ops, map_get id M = Some ops → Forall Q ops) → computeOperatorGraphs M n = Ok r → all_in r.1.
Proof.
  intros HM. revert r. induction n as [n IH] using plan_children_ind. intros r Hr.
  rewrite computeOperatorGraphs_eq in Hr. destruct (getChildren n) as [cs|] eqn:Ecs; [|done].
  cbn [option_map] in Hr. rewrite combine_eq in Hr. apply res_bind_ok in Hr as ([src e] & Hf & Hr).
  assert (all_in src) as Hsrc.
  { assert (∀ cs' a, (∀ c, c ∈ cs' → c ∈ cs) → all_in a.1 →
      fold_left (child_step (pn_type n)) (map (option_map (computeOperatorGraphs M)) cs') (Ok a) = Ok (src, e) → all_in src) as Hg.
    { induction cs' as [|c cs' IHc]; intros a Hc Ha; cbn [map fold_left]; [by intros [= ->]|].
      destruct c as [c|]; cbn [option_map].
      2: { intros Hx. exfalso. revert Hx. destruct a. cbn. clear. induction (map _ cs') as [|x l IHl]; [done|]. apply IHl. }
      destruct (computeOperatorGraphs M c) as [rc|] eqn:Ec.
      2: { intros Hx. exfalso. revert Hx. destruct a. cbn. clear. induction (map _ cs') as [|x l IHl]; [done|]. apply IHl. }
      destruct a as [am ae]. cbn [child_step mbind res_bind deref]. apply IHc; [set_solver|].
      eapply merge_source_in; [exact Ha| |reflexivity]. eapply (IH cs c); [done|apply Hc; set_solver|done]. }
    eapply (Hg cs ([], [])); [done|by intros ?? ?%elem_of_nil|exact Hf]. }
  injection Hr as <-. cbn [fst]. destruct (map_get (pn_id n) M) as [[|o ops]|] eqn:E; try done.
  apply link_node_in; [done|by eapply HM].
Qed.
End origin.

(** ** The graph of a stage *)

Lemma ops_at_summaries summaries ids :
  NoDup ids →
  ops_at (computeOperatorMap summaries) ids ≡ₚ
  List.filter (λ o, bool_decide (planNodeId o ∈ ids)) summaries.
Proof.
  intros Hnd. unfold ops_at.
  transitivity (concat (map (λ id, List.filter (λ o, bool_decide (planNodeId o = id))
    (List.filter (λ o, bool_decide (planNodeId o ∈ ids)) summaries)) ids)).
  - apply eq_subrelation; [apply _|]. f_equal. apply map_ext_in. intros id Hid%list_elem_of_In.
    rewrite (group_get planNodeId summaries id : map_get id (computeOperatorMap summaries) = _).
    rewrite filter_filter_bool.
    rewrite (filter_bool_ext (λ o, bool_decide (planNodeId o = id) && bool_decide (planNodeId o ∈ ids))
      (λ o, bool_decide (planNodeId o = id))); [by destruct (List.filter _ summaries)|].
    intros o _. destruct (bool_decide (planNodeId o = id)) eqn:E; [|done]. apply bool_decide_eq_true in E. subst.
    by rewrite bool_decide_eq_true_2.
  - apply (filter_keys_perm planNodeId); [done|].
    intros o [_ Ho]%elem_of_filter_bool. by apply bool_decide_eq_true in Ho.
Qed.

(** C8: The operator graph of a stage shows the operators of its plan, each exactly once and in
    the chain of its own pipeline: for a complete plan with distinct node ids the computation
    returns, and unless it reports two sources with the same pipeline, the chains hold exactly
    the operator summaries whose plan node belongs to the plan. *)
Theorem operators_shown_once `{JsSortLaws} (summaries : list operator) (root : plan_node) :
  complete root = true → NoDup (plan_nodes root) →
  ∃ m errors, computeOperatorGraphs (computeOperatorMap summaries) root = Ok (m, errors) ∧
    (errors = [] →
     NoDup (map_keys m) ∧
     (∀ pid l, (pid, l) ∈ m → Forall (λ o, pipelineId o = pid) (ops_of l)) ∧
     all_ops m ≡ₚ List.filter (λ o, bool_decide (planNodeId o ∈ plan_nodes root)) summaries).
Proof.
  intros Hc Hnd. destruct (graphs_total (computeOperatorMap summaries) root Hc) as [[m errors] Hr].
  exists m, errors. split; [done|]. intros ->. apply graphs_clean in Hr as [Hk Hh Ho].
  split_and!; [done..|]. rewrite Ho. by apply ops_at_summaries.
Qed.

(** ** Drawing a chain *)

Fixpoint linked_chain_ind (P : linked → Prop)
  (Hsource : ∀ o, P (Linked o None)) (Hnext : ∀ o c, P c → P (Linked o (Some c))) (l : linked) : P l :=
  match l with
  | Linked o None => Hsource o
  | Linked o (Some c) => Hnext o c (linked_chain_ind P Hsource Hnext c)
  end.

Definition node_ids (l : linked) : list jstring := map operatorNodeId (ops_of l).

(** The label of an operator can be rendered. *)
Definition labelled (o : operator) : bool :=
  match parseDuration (blockedWall o) with Some _ => true | None => false end.

Lemma label_ok o : is_ok (OperatorSummary_render o) = labelled o.
Proof. unfold OperatorSummary_render, labelled, on_nullable. by destruct (parseDuration (blockedWall o)). Qed.

(** The calls once the labels have been rendered. *)
Fixpoint chain_calls (l : linked) (sink : option jstring) (pipelineNode : jstring) : list (graph_call operator) :=
  let '(Linked o child) := l in
  let id := operatorNodeId o in
  [SetNode id [(js "class", js "operator-stats"); (js "labelType", js "html")] (Some o)]
  ++ match child with Some c => chain_calls c (Some id) pipelineNode | None => [] end
  ++ match sink with
     | Some s => [SetEdge id s [(js "class", js "plan-edge"); (js "arrowheadClass", js "plan-arrowhead")]]
     | None => []
     end
  ++ [SetParent id pipelineNode].

Lemma d3_calls l sink p :
  computeD3StageOperatorGraph l sink p =
  if forallb labelled (ops_of l) then Ok (chain_calls l sink p) else Throw TypeError.
Proof.
  revert sink. induction l as [o|o c IH] using linked_chain_ind; intros sink; cbn [computeD3StageOperatorGraph ops_of forallb];
    unfold OperatorSummary_render, labelled at 1, on_nullable; destruct (parseDuration (blockedWall o)); try done.
  cbn [deref mbind res_bind andb]. rewrite IH. by destruct (forallb labelled (ops_of c)).
Qed.

Lemma d3_nodes l sink p : set_nodes (chain_calls l sink p) = node_ids l.
Proof.
  revert sink. induction l as [o|o c IH] using linked_chain_ind; intros sink;
    cbn [chain_calls]; rewrite !set_nodes_app, ?IH; destruct sink; cbn; by rewrite ?app_nil_r.
Qed.

Lemma d3_parents l sink p :
  set_parents (chain_calls l sink p) ≡ₚ map (λ i, (i, p)) (node_ids l).
Proof.
  revert sink. induction l as [o|o c IH] using linked_chain_ind; intros sink;
    cbn [chain_calls]; rewrite !set_parents_app, ?IH; destruct sink; cbn; [done..| |];
    by rewrite <-Permutation_cons_append.
Qed.

Lemma d3_edges l sink p :
  set_edges (chain_calls l sink p) ≡ₚ
  zip (node_ids l) (match sink with Some s => [s] | None => [] end) ++ zip (tail (node_ids l)) (node_ids l).
Proof.
  revert sink. induction l as [o|o c IH] using linked_chain_ind; intros sink.
  { by destruct sink. }
  cbn [chain_calls]. rewrite !set_edges_app, IH.
  change (node_ids (Linked o (Some c))) with (operatorNodeId o :: node_ids c).
  destruct (node_ids c) as [|i ids]; destruct sink; cbn [zip zip_with tail app set_edges omap list_omap];
    rewrite ?zip_with_nil_r, ?app_nil_r; try done; cbn [app].
  rewrite <-Permutation_cons_append. constructor.
Qed.

(** C9: Drawing the chain of a pipeline creates one box per operator, puts every box into the
    cluster of the pipeline, and draws exactly the edges from each operator to the operator
    that consumes its output; it throws exactly if the label of one of the operators cannot be
    rendered because its blocked time does not parse. *)
Theorem chain_drawn (l : linked) (pipelineNode : jstring) :
  match computeD3StageOperatorGraph l None pipelineNode with
  | Ok calls =>
    Forall (λ o, parseDuration (blockedWall o) ≠ None) (ops_of l) ∧
    set_nodes calls = map operatorNodeId (ops_of l) ∧
    set_parents calls ≡ₚ map (λ i, (i, pipelineNode)) (map operatorNodeId (ops_of l)) ∧
    set_edges calls ≡ₚ zip (tail (map operatorNodeId (ops_of l))) (map operatorNodeId (ops_of l))
  | Throw _ => Exists (λ o, parseDuration (blockedWall o) = None) (ops_of l)
  end.
Proof.
  rewrite d3_calls. destruct (forallb labelled (ops_of l)) eqn:E.
  - split_and!; [|apply d3_nodes|apply d3_parents|].
    + apply Forall_forall. intros o Ho. rewrite forallb_forall in E. apply list_elem_of_In, E in Ho.
      unfold labelled in Ho. by destruct (parseDuration (blockedWall o)).
    + rewrite d3_edges. cbv iota. by rewrite zip_with_nil_r.
  - apply Exists_exists. induction (ops_of l) as [|o ops IH]; [done|]. cbn [forallb] in E. unfold labelled at 1 in E.
    destruct (parseDuration (blockedWall o)) eqn:Eo; [|exists o; split; [apply list_elem_of_here|done]].
    destruct (IH E) as (x & Hx & Hn). exists x. split; [by apply list_elem_of_further|done].
Qed.

(** ** A click on an operator *)

Lemma dash_not_in_dec n : DASH ∉ dec n.
Proof. by apply dec_no_char. Qed.

Lemma split_operatorNodeId o :
  JsString.split (js "-") (operatorNodeId o) = [js "operator"; dec (pipelineId o); dec (operatorId o)].
Proof.
  change (operatorNodeId o) with (join [DASH] [js "operator"; dec (pipelineId o); dec (operatorId o)]).
  apply split_join; [done|]. repeat constructor; [|apply dash_not_in_dec..].
  by apply (bool_decide_unpack _).
Qed.

Lemma split_operatorNodeId_parts o :
  split_part 1 (operatorNodeId o) = dec (pipelineId o) ∧ split_part 2 (operatorNodeId o) = dec (operatorId o).
Proof. unfold split_part. by rewrite split_operatorNodeId. Qed.

Lemma neqb_of_N a b :
  (a < 2 ^ 53)%N → (b < 2 ^ 53)%N → neqb (of_Z (Z.of_N a)) (of_Z (Z.of_N b)) = (a =? b)%N.
Proof.
  intros Ha Hb.
  assert (∀ x, (x < 2 ^ 53)%N → (Z.abs (Z.of_N x) < 2 ^ 53)%Z) as Hx by (intros; change (2 ^ 53)%Z with (Z.of_N (2 ^ 53)); lia).
  destruct (of_Z_exact _ (Hx a Ha)) as (Va & Fa & Ea), (of_Z_exact _ (Hx b Hb)) as (Vb & Fb & Eb).
  rewrite neqb_sval, Ea, Eb by done.
  destruct (N.eqb_spec a b) as [->|Hne]; [apply Z.eqb_refl|]. apply Z.eqb_neq.
  intros E%Z.mul_reg_r; [lia|]. by apply Z.pow_nonzero.
Qed.

(** Operators whose ids are different and exact as numbers. *)
Definition distinct_operators (summaries : list operator) : Prop :=
  Forall (λ o, (pipelineId o < 2 ^ 53)%N ∧ (operatorId o < 2 ^ 53)%N) summaries ∧
  NoDup (map (λ o, (pipelineId o, operatorId o)) summaries).

Lemma clicked_operator summaries o :
  o ∈ summaries → distinct_operators summaries → handleOperatorClick (operatorNodeId o) summaries = Some o.
Proof.
  intros Ho [Hb Hnd]. unfold handleOperatorClick.
  destruct (split_operatorNodeId_parts o) as [-> ->]. rewrite !parseInt_dec.
  pose proof Hb as Hb'. rewrite Forall_forall in Hb. destruct (Hb o Ho) as [Hp Hi].
  assert (∀ l found, Forall (λ o, (pipelineId o < 2 ^ 53)%N ∧ (operatorId o < 2 ^ 53)%N) l →
    fold_left (λ found o', if neqb (of_Z (Z.of_N (pipelineId o'))) (of_Z (Z.of_N (pipelineId o))) &&
        neqb (of_Z (Z.of_N (operatorId o'))) (of_Z (Z.of_N (operatorId o))) then Some o' else found) l found =
    fold_left (λ found o', if bool_decide ((pipelineId o', operatorId o') = (pipelineId o, operatorId o))
        then Some o' else found) l found) as Hfold.
  { induction l as [|o' l IH]; intros found Hl; [done|]. apply Forall_cons in Hl as [[??] Hl]. cbn [fold_left].
    rewrite IH, !neqb_of_N by done. f_equal.
    destruct (N.eqb_spec (pipelineId o') (pipelineId o)), (N.eqb_spec (operatorId o') (operatorId o));
      simpl; [rewrite bool_decide_eq_true_2 by congruence|rewrite bool_decide_eq_false_2 by congruence..]; done. }
  rewrite Hfold by done. clear Hb Hb' Hp Hi Hfold. apply list_elem_of_split in Ho as (l1 & l2 & ->).
  rewrite map_app in Hnd. cbn [map] in Hnd. apply NoDup_app in Hnd as (_ & _ & Hnd).
  apply NoDup_cons in Hnd as [Hnd _]. rewrite fold_left_app. cbn [fold_left].
  rewrite bool_decide_eq_true_2 by done.
  induction l2 as [|o' l2 IH]; [done|]. cbn [fold_left map] in *.
  rewrite bool_decide_eq_false_2 by (intros E; apply Hnd; rewrite E; apply list_elem_of_here).
  apply IH. intros Hin. apply Hnd. by apply list_elem_of_further.
Qed.

(** C10: A click on the box of an operator opens the details of that operator: the ids in the
    name of the box are read back exactly. *)
Theorem click_finds_operator (summaries : list operator) (o : operator) :
  o ∈ summaries →
  Forall (λ o, (pipelineId o < 2 ^ 53)%N ∧ (operatorId o < 2 ^ 53)%N) summaries →
  NoDup (map (λ o, (pipelineId o, operatorId o)) summaries) →
  handleOperatorClick (operatorNodeId o) summaries = Some o.
Proof. intros Ho Hb Hnd. by apply clicked_operator. Qed.

(** ** Witnesses *)

Definition sample_operator (pid oid : N) (node : jstring) : operator := {|
  pipelineId := pid; operatorId := oid; planNodeId := node; operatorType := js "Op";
  addInputWall := js "1.00s"; getOutputWall := js "500.00ms"; finishWall := js "0.00ns";
  blockedWall := js "0.00ns"; inputPositions := of_Z 3000; inputDataSize := js "1MB";
  op_outputPositions := of_Z 100; op_outputDataSize := js "10kB"; op_totalDrivers := of_Z 4 |}.
Definition leaf (ty id : jstring) : plan_node := PlanNode ty id None None None None None None None.
Definition sample_plan : plan_node :=
  PlanNode (js "output") (js "1")
    (Some (PlanNode (js "join") (js "2") None None (Some (leaf (js "tablescan") (js "3")))
             (Some (PlanNode (js "exchange") (js "4") None None None None None None
                      (Some [leaf (js "values") (js "5")]))) None None None))
    None None None None None None.
(** Pipeline 0 scans, joins and outputs, pipeline 1 builds the hash table. *)
Definition sample_operators : list operator :=
  [sample_operator 0 2 (js "1"); sample_operator 0 0 (js "3"); sample_operator 0 1 (js "2");
   sample_operator 1 1 (js "4"); sample_operator 1 0 (js "5"); sample_operator 7 0 (js "99")].

Lemma operators_shown_once_witness :
  ∃ m errors, computeOperatorGraphs (computeOperatorMap sample_operators) sample_plan = Ok (m, errors) ∧
    (errors = [] →
     NoDup (map_keys m) ∧
     (∀ pid l, (pid, l) ∈ m → Forall (λ o, pipelineId o = pid) (ops_of l)) ∧
     all_ops m ≡ₚ List.filter (λ o, bool_decide (planNodeId o ∈ plan_nodes sample_plan)) sample_operators).
Proof.
  apply (operators_shown_once sample_operators sample_plan).
  - reflexivity.
  - by apply (bool_decide_unpack _).
Defined.

(** The sample has no collision: two chains with the five operators of the plan. *)
Example sample_graph :
  match computeOperatorGraphs (computeOperatorMap sample_operators) sample_plan with
  | Ok (m, errors) => errors = [] ∧
      map (λ e, (e.1, map operatorId (ops_of e.2))) m = [(0%N, [2%N; 1%N; 0%N]); (1%N, [1%N; 0%N])]
  | Throw _ => False
  end.
Proof. vm_compute. done. Qed.

Lemma click_finds_operator_witness :
  handleOperatorClick (js "operator-0-1") sample_operators = Some (sample_operator 0 1 (js "2")).
Proof.
  apply (click_finds_operator sample_operators (sample_operator 0 1 (js "2"))).
  - do 2 apply list_elem_of_further. apply list_elem_of_here.
  - by repeat constructor.
  - by apply (bool_decide_unpack _).
Defined.

(** 3000 rows in 1.5 seconds: the box of the operator shows 2.00K rows per second, its details
    show 2.00, since they divide by milliseconds. *)
Example row_rates_disagree :
  let o := sample_operator 0 0 (js "3") in
  formatCount (summary_rowInputRate o) = js "2.00K" ∧ formatCount (detail_rowInputRate o) = js "2.00".
Proof. vm_compute. done. Qed.
