(* ===== verification/StageDetailView.v ===== *)
(** * The stage page: views and refresh loop (components/StageDetail.jsx)

    The [render] methods of the page and of its parts, the selection of a stage,
    and the component as a client of the refresh protocol. *)

From S2P Require Import Prelude JsString JsNumber JsCollections Model QueryState Format Vdom QueryHeader Stage QueryInfo Graph StageDetail Poller.

(** ** Operators *)

Definition OperatorStatistic_render (name id : jstring) : vnode Empty_set Empty_set :=
  el "div" [A "className" "row operator-statistic"] [
      el "div" [A "className" "col-xs-2 italic-uppercase operator-statistic-title"] [VText name];
      el "div" [A "className" "col-xs-10"] [el "span" [A "className" "bar-chart"; AX "id" (id)] []]].

Definition OperatorDetail_rates (operator : operator) : vnode (statistic * list Stage.operator) Empty_set :=
  let rowInputRate := detail_rowInputRate operator in
  el "table" [A "className" "table"] [
      el "tbody" [] [
        el "tr" [] [
          el "td" [] [T "Input"];
          el "td" [] [
            VText (formatCount (inputPositions operator) ++ js " rows (" ++ parseAndFormatDataSize (inputDataSize operator) ++ js ")")]];
        el "tr" [] [
          el "td" [] [T "Input Rate"];
          el "td" [] [
            VText (formatCount rowInputRate ++ js " rows/s (" ++ formatDataSize (byteInputRate operator) ++ js "/s)")]];
        el "tr" [] [
          el "td" [] [T "Output"];
          el "td" [] [
            VText (formatCount (op_outputPositions operator) ++ js " rows (" ++ parseAndFormatDataSize (op_outputDataSize operator) ++ js ")")]];
        el "tr" [] [
          el "td" [] [T "Output Rate"];
          el "td" [] [
            VText (formatCount (detail_rowOutputRate operator) ++ js " rows/s (" ++ formatDataSize (byteOutputRate operator) ++ js "/s)")]]]].

Definition OperatorDetail_times (operator : operator) (operatorTasks : list Stage.operator) : res (vnode (statistic * list Stage.operator) Empty_set) :=
  blocked ← on_nullable formatDuration (parseDuration (blockedWall operator));
  Ok (el "table" [A "className" "table"] [
      el "tbody" [] [
        el "tr" [] [
          el "td" [] [T "Wall Time"];
          el "td" [] [VText (formatDuration (getTotalWallTime operator))]];
        el "tr" [] [el "td" [] [T "Blocked"]; el "td" [] [VText blocked]];
        el "tr" [] [el "td" [] [T "Drivers"]; el "td" [] [VNum (op_totalDrivers operator)]];
        el "tr" [] [el "td" [] [T "Tasks"]; el "td" [] [VNum (of_nat (length operatorTasks))]]]]).

Definition OperatorDetail_render `{JsSort} (operator : operator) (tasks : list task) : res (vnode (statistic * list Stage.operator) Empty_set) :=
  let operatorTasks := getOperatorTasks operator tasks in
  times ← OperatorDetail_times operator operatorTasks;
  Ok (el "div" [A "className" "row"] [
      el "div" [A "className" "col-xs-12"] [
        el "div" [A "className" "modal-header"] [
          el "button" [A "type" "button"; A "className" "close"; A "data-dismiss" "modal"; A "aria-label" "Close"] [
            el "span" [A "aria-hidden" "true"] [VText ([215%N])]];
          el "h3" [] [
            el "small" [] [T "Pipeline "; VText (dec (pipelineId operator))];
            el "br" [] [];
            VText (operatorType operator)]];
        el "div" [A "className" "row"] [
          el "div" [A "className" "col-xs-6"] [OperatorDetail_rates operator];
          el "div" [A "className" "col-xs-6"] [times]];
        el "div" [A "className" "row font-white"] [
          el "div" [A "className" "col-xs-2 italic-uppercase"] [el "strong" [] [T "Statistic"]];
          el "div" [A "className" "col-xs-10 italic-uppercase"] [el "strong" [] [T "Tasks"]]];
        VList (map (λ statistic, (VComp (statistic, operatorTasks))) getInitialStatistics);
        el "p" [] [];
        el "p" [] []]]).

(** ** The page *)

(** The child that draws the operator graph, and the handlers of the page. *)
Inductive stage_child := StageOperatorGraph (id : jstring) (s : stage).
Inductive stage_handler := HeaderAction (a : header_action) | SelectStage (id : jstring).
Abbreviation stage_view := (vnode stage_child stage_handler).

Definition no_plan_view : stage_view :=
  el "div" [A "className" "row error-message"] [
      el "div" [A "className" "col-xs-12"] [el "h4" [] [T "Stage does not have a plan"]]].

Definition no_operators_view (s : stage) : stage_view :=
  el "div" [A "className" "row error-message"] [
      el "div" [A "className" "col-xs-12"] [
        el "h4" [] [T "Operator data not available for "; VText (stageId s)]]].

(** [StageOperatorGraph.render]: the graph itself is drawn outside of React. *)
Definition StageOperatorGraph_render (s : stage) : stage_view :=
  match plan s with
  | None => no_plan_view
  | Some _ =>
    match stageStats s with
    | None => no_operators_view s
    | Some stats =>
      match operatorSummaries stats with
      | None | Some [] => no_operators_view s
      | Some _ => VNothing
      end
    end
  end.

Definition loading_label : stage_view :=
  el "div" [A "className" "loader"] [T "Loading..."].

Definition stage_message (label : stage_view) : stage_view :=
  el "div" [A "className" "row error-message"] [
      el "div" [A "className" "col-xs-12"] [el "h4" [] [label]]].

Definition no_output_stage_view : stage_view :=
  el "div" [A "className" "row error-message"] [
      el "div" [A "className" "col-xs-12"] [el "h4" [] [T "Query does not have an output stage"]]].

Definition stage_not_found_view : stage_view :=
  el "div" [A "className" "row error-message"] [
      el "div" [A "className" "col-xs-12"] [el "h4" [] [T "Stage not found"]]].

Definition operator_graph_later_view : stage_view :=
  el "div" [A "className" "row error-message"] [
      el "div" [A "className" "col-xs-12"] [
        el "h4" [] [T "Operator graph will appear automatically when query completes."];
        el "div" [A "className" "loader"] [T "Loading..."]]].

Definition stage_page (header : stage_view) (planId : jstring) (allStages : list jstring) (stageOperatorGraph : stage_view) : stage_view :=
  el "div" [] [
      header;
      el "div" [A "className" "row"] [
        el "div" [A "className" "col-xs-12"] [
          el "div" [A "className" "row"] [
            el "div" [A "className" "col-xs-2"] [el "h3" [] [T "Stage "; VText planId]];
            el "div" [A "className" "col-xs-8"] [];
            el "div" [A "className" "col-xs-2 stage-dropdown"] [
              el "div" [A "className" "input-group-btn"] [
                el "button" [A "type" "button"; A "className" "btn btn-default dropdown-toggle"; A "data-toggle" "dropdown"; A "aria-haspopup" "true"; A "aria-expanded" "false"] [
                  T "Select Stage ";
                  el "span" [A "className" "caret"] []];
                el "ul" [A "className" "dropdown-menu"] [
                  VList (map (λ stageId, (el "li" [AX "key" (stageId)] [
                    el "a" [AH "onClick" (SelectStage stageId)] [VText stageId]])) allStages)]]]]]];
      el "hr" [A "className" "h3-hr"] [];
      el "div" [A "className" "row"] [el "div" [A "className" "col-xs-12"] [stageOperatorGraph]]].

(** ** The component *)

(** The selected stage: the number from the address, or the plan id of a click. *)
Inductive stage_selector := SelNumber (n : number) | SelId (id : jstring).
Definition selector_text (s : stage_selector) : jstring :=
  match s with SelNumber n => toString n | SelId id => id end.

(** [sd_crashed]: an exception while rendering has removed the page, and later updates have
    no effect. *)
Record sd_state := {
  sd_initialized : bool;
  sd_ended : bool;
  selectedStageId : option stage_selector;
  sd_query : option query_info;
  sd_crashed : bool;
  (* the stage that the outstanding request will select *)
  requestedStageId : option stage_selector;
}.

Definition sd_constructor : sd_state := {|
  sd_initialized := false; sd_ended := false; selectedStageId := None; sd_query := None;
  sd_crashed := false; requestedStageId := None |}.

(** [refreshLoop] reads the selection when it sends the request. *)
Definition sd_refresh (search : jstring) (s : sd_state) : sd_state :=
  let queryString := JsString.split (js ".") (getFirstParameter search) in
  let selected :=
    match selectedStageId s with
    | Some sel => sel
    | None => match queryString with
              | _ :: stage :: _ => SelNumber (parseInt stage)
              | _ => SelNumber (of_Z 0)
              end
    end in
  {| sd_initialized := sd_initialized s; sd_ended := sd_ended s;
     selectedStageId := selectedStageId s; sd_query := sd_query s; sd_crashed := sd_crashed s;
     requestedStageId := Some selected |}.

Definition sd_on_response (query : query_info) (s : sd_state) : sd_state := {|
  sd_initialized := true; sd_ended := finalQueryInfo query;
  selectedStageId := requestedStageId s; sd_query := Some query; sd_crashed := sd_crashed s;
  requestedStageId := requestedStageId s |}.

Definition sd_on_failure (s : sd_state) : sd_state := {|
  sd_initialized := true; sd_ended := sd_ended s; selectedStageId := selectedStageId s;
  sd_query := sd_query s; sd_crashed := sd_crashed s; requestedStageId := requestedStageId s |}.

(** The guard of [resetTimer]. *)
Definition sd_keep_polling (s : sd_state) : bool :=
  match sd_query s with None => true | Some _ => negb (sd_ended s) end.

(** A click in the list of stages. *)
Definition sd_select (id : jstring) (s : sd_state) : sd_state := {|
  sd_initialized := sd_initialized s; sd_ended := sd_ended s; selectedStageId := Some (SelId id);
  sd_query := sd_query s; sd_crashed := sd_crashed s; requestedStageId := requestedStageId s |}.

Definition sd_crash (s : sd_state) : sd_state := {|
  sd_initialized := sd_initialized s; sd_ended := sd_ended s; selectedStageId := selectedStageId s;
  sd_query := sd_query s; sd_crashed := true; requestedStageId := requestedStageId s |}.

(** [query.queryId + "." + this.state.selectedStageId] *)
Definition shown_stage_id (query : query_info) (s : sd_state) : jstring :=
  queryId (qi query) ++ js "." ++
  match selectedStageId s with Some sel => selector_text sel | None => js "null" end.

(** [render] *)
Definition sd_render (pathname : jstring) (s : sd_state) : res stage_view :=
  match sd_query s with
  | None => Ok (stage_message (if sd_initialized s then T "Query not found" else loading_label))
  | Some query =>
    match outputStage query with
    | None => Ok no_output_stage_view
    | Some out =>
      allStages ← getAllStageIds [] out;
      match findStage (Some (shown_stage_id query s)) out with
      | None => Ok stage_not_found_view
      | Some st =>
        let stageOperatorGraph :=
          if negb (isQueryEnded (qi query)) then operator_graph_later_view
          else VComp (StageOperatorGraph (stageId st) st) in
        fr ← deref (plan st);
        header ← header_render pathname (qi query);
        Ok (stage_page (vmap (Empty_set_rect _) HeaderAction header) (fr_id fr) allStages stageOperatorGraph)
      end
    end
  end.

Section component.
Context `{JsSort, DagreRender}.

(** The end of [updateD3Graph]: the canvas of the page, which is always there, is emptied, and
    the graph is drawn in a new group; without operators the container is hidden. *)
Definition draw_operators (g : option (graph operator)) : res (option canvas) :=
  match g with
  | None => Ok None
  | Some g =>
    let svg := initializeSvg (Some empty_canvas) in
    size ← dagre_render (has_group svg) g;
    Ok (option_map (size_canvas size.2 size.1) svg)
  end.

(** Mounting or updating the graph child draws its graph. *)
Definition sd_commit (view : stage_view) : res (list (option canvas)) :=
  res_map (λ '(StageOperatorGraph _ st), g ← updateD3Graph st; draw_operators g) (child_components view).

(** A state update renders the page; an exception while rendering removes it and leaves the
    handler.  On a page that has been removed, the update has no effect. *)
Definition sd_update (pathname : jstring) (s s' : sd_state) : outcome sd_state :=
  if sd_crashed s then Done s
  else match (view ← sd_render pathname s'; sd_commit view) with
       | Ok _ => Done s'
       | Throw _ => Escaped (sd_crash s')
       end.

#[export] Instance sd_poller (pathname search : jstring) : Poller sd_state query_info := {
  poll_init := sd_constructor;
  on_refresh := sd_refresh search;
  on_response q s := sd_update pathname s (sd_on_response q s);
  on_failure _ s := sd_update pathname s (sd_on_failure s);
  keep_polling := sd_keep_polling;
  on_user s s' := ∃ id, s' = outcome_state (sd_update pathname s (sd_select id s));
}.
End component.
