(* ===== verification/OperatorDialog.v ===== *)
(** * The dialog of an operator on the stage page

    A click on an operator of the graph renders OperatorDetail into an element of its own
    (stage.html, [operator-detail]), a second root that lives as long as the page.  Its key is
    the identifier of the node in the graph: React keeps the component while the key is the
    same and mounts it anew when it changes.  The bar charts of the statistics are drawn by
    [componentDidMount] only. *)

From S2P Require Import Prelude JsString JsNumber JsCollections Format Vdom Stage Samples Graph StageDetail StageDetailFacts StageDetailView.
From stdpp Require Import relations.

(** What the dialog shows: the rendered view, and the charts drawn into it. *)
Record dialog := {
  dl_key : jstring;
  dl_view : vnode (statistic * list operator) Empty_set;
  dl_charts : list bar_chart;
}.

Section dialog.
Context `{JsSort}.

(** The charts that the statistics draw when they are mounted. *)
Definition detail_charts (o : operator) (ts : list task) : list bar_chart :=
  map (λ s, operator_chart s (getOperatorTasks o ts)) getInitialStatistics.

(** [ReactDOM.render(<OperatorDetail key=.../>)]; an exception, as for an operator that was not
    found, removes what was there. *)
Definition show_detail (key : jstring) (o : option operator) (ts : list task) (d : option dialog) : option dialog :=
  match (o ← deref o; v ← OperatorDetail_render o ts; Ok (o, v)) with
  | Ok (o, v) =>
    let kept := match d with Some d => if jeqb (dl_key d) key then Some (dl_charts d) else None | None => None end in
    Some {| dl_key := key; dl_view := v; dl_charts := default (detail_charts o ts) kept |}
  | Throw _ => None
  end.

(** The click handler: without statistics or operators it throws before it renders. *)
Definition operator_click (operatorCssId : jstring) (st : stage) (d : option dialog) : option dialog :=
  match stageStats st with
  | Some stats =>
    match operatorSummaries stats with
    | Some summaries => show_detail operatorCssId (handleOperatorClick operatorCssId summaries) (tasks st) d
    | None => d
    end
  | None => d
  end.

(** The operators of a stage, and a click on one of them that can be rendered: the stage is the
    part of the document that the page shows at that time. *)
Definition summaries_of (st : stage) : list operator :=
  match stageStats st with Some stats => default [] (operatorSummaries stats) | None => [] end.
Definition good_click (c : stage * operator) : Prop :=
  distinct_operators (summaries_of c.1) ∧ c.2 ∈ summaries_of c.1 ∧ ∃ v, OperatorDetail_render c.2 (tasks c.1) = Ok v.
Definition node_of (c : stage * operator) : jstring := operatorNodeId c.2.

(** The dialog after some clicks on a page that has been loaded. *)
Definition after_clicks (cs : list (stage * operator)) : option dialog :=
  fold_left (λ d c, operator_click (node_of c) c.1 d) cs None.

Lemma click_shows st o v d :
  o ∈ summaries_of st → distinct_operators (summaries_of st) → OperatorDetail_render o (tasks st) = Ok v →
  operator_click (operatorNodeId o) st d = Some {|
    dl_key := operatorNodeId o; dl_view := v;
    dl_charts := match d with
                 | Some x => if jeqb (dl_key x) (operatorNodeId o) then dl_charts x else detail_charts o (tasks st)
                 | None => detail_charts o (tasks st)
                 end |}.
Proof.
  unfold operator_click, summaries_of. destruct (stageStats st) as [stats|]; [|set_solver].
  destruct (operatorSummaries stats) as [ops|]; [|set_solver]. cbn [default]. intros Ho Hd Hv.
  rewrite clicked_operator by done. unfold show_detail. cbn. rewrite Hv. cbn.
  destruct d as [x|]; [|done]. by destruct (jeqb _ _).
Qed.

Lemma after_clicks_snoc cs c : after_clicks (cs ++ [c]) = operator_click (node_of c) c.1 (after_clicks cs).
Proof. unfold after_clicks. by rewrite fold_left_app. Qed.

(** The key is that of the operator clicked last. *)
Lemma clicked_key cs c : good_click c → ∃ x, after_clicks (cs ++ [c]) = Some x ∧ dl_key x = node_of c.
Proof.
  destruct c as [st o]. intros (Hd & Ho & v & Hv). cbn [fst snd] in *. rewrite after_clicks_snoc. cbn [fst].
  change (node_of (st, o)) with (operatorNodeId o). rewrite (click_shows st o v) by done. by eexists.
Qed.

(** A click on another operator than the one shown draws the charts anew. *)
Lemma fresh_click cs st o v :
  good_click (st, o) → Forall good_click cs → (∀ c, last cs = Some c → node_of c ≠ operatorNodeId o) →
  OperatorDetail_render o (tasks st) = Ok v →
  after_clicks (cs ++ [(st, o)]) =
    Some {| dl_key := operatorNodeId o; dl_view := v; dl_charts := detail_charts o (tasks st) |}.
Proof.
  intros (Hd & Ho & _) Hall Hl Hv. rewrite after_clicks_snoc. cbn [fst]. change (node_of (st, o)) with (operatorNodeId o).
  rewrite (click_shows st o v) by done. do 2 f_equal. destruct cs as [|c cs _] using rev_ind; [done|].
  apply Forall_app in Hall as [_ [Hc _]%Forall_cons]. destruct (clicked_key cs c Hc) as (x & -> & ->).
  destruct (jeqb (node_of c) (operatorNodeId o)) eqn:E; [|done]. apply jeqb_eq in E. destruct (Hl c); [by rewrite last_snoc|done].
Qed.

(** A further click on the same node keeps the charts. *)
Lemma same_click cs st o v x :
  good_click (st, o) → after_clicks cs = Some x → dl_key x = operatorNodeId o →
  OperatorDetail_render o (tasks st) = Ok v →
  after_clicks (cs ++ [(st, o)]) = Some {| dl_key := operatorNodeId o; dl_view := v; dl_charts := dl_charts x |}.
Proof.
  intros (Hd & Ho & _) Hx Hk Hv. rewrite after_clicks_snoc. cbn [fst]. change (node_of (st, o)) with (operatorNodeId o).
  by rewrite (click_shows st o v), Hx, Hk, jeqb_refl by done.
Qed.

(** C20: After any clicks on operators, whatever documents the page showed at the time of each of
    them, the dialog shows the values of the operator that was clicked last, from the document
    of the last click.  Its charts are those of the first of the latest clicks on the same node
    (a pipeline and an operator number): they are the charts of the operator that is shown as
    long as the document has been the same since that click, but when the page has refreshed the
    document or has gone to another stage in between, they are still those of the document and
    the stage of the first click. *)
Theorem operator_dialog before first again st o v :
  Forall good_click (before ++ first :: again) →
  (∀ c, last before = Some c → node_of c ≠ node_of first) → Forall (λ c, node_of c = node_of first) again →
  last (first :: again) = Some (st, o) → OperatorDetail_render o (tasks st) = Ok v →
  after_clicks (before ++ first :: again) =
    Some {| dl_key := operatorNodeId o; dl_view := v; dl_charts := detail_charts first.2 (tasks first.1) |} ∧
  (first.1 = st → first.2 = o).
Proof.
  intros Hall Hb Ha Hlast Hv. destruct first as [st0 o0]. cbn [fst snd].
  apply Forall_app in Hall as [Hbefore Hall]. apply Forall_cons in Hall as [Hfirst Hagain].
  assert (∃ v0, OperatorDetail_render o0 (tasks st0) = Ok v0) as [v0 Hv0] by apply Hfirst.
  pose proof (fresh_click before st0 o0 v0 Hfirst Hbefore Hb Hv0) as H0.
  assert (∀ l, Forall good_click l → Forall (λ c, node_of c = operatorNodeId o0) l →
    ∀ st o v, last ((st0, o0) :: l) = Some (st, o) → OperatorDetail_render o (tasks st) = Ok v →
    after_clicks (before ++ (st0, o0) :: l) =
      Some {| dl_key := operatorNodeId o; dl_view := v; dl_charts := detail_charts o0 (tasks st0) |}) as Hrun.
  { intros l. induction l as [|[st1 o1] l IH] using rev_ind; intros Hg Hn st' o' v' Hl Hv'.
    - injection Hl as <- <-. rewrite Hv0 in Hv'. by injection Hv' as <-.
    - change ((st0, o0) :: l ++ [(st1, o1)]) with (((st0, o0) :: l) ++ [(st1, o1)]) in *. rewrite last_snoc in Hl.
      injection Hl as <- <-. apply Forall_app in Hg as [Hg [Hg1 _]%Forall_cons]. apply Forall_app in Hn as [Hn [Hn1 _]%Forall_cons].
      destruct (last ((st0, o0) :: l)) as [[st2 o2]|] eqn:El; [|by apply last_None in El].
      assert (good_click (st2, o2) ∧ node_of (st2, o2) = operatorNodeId o0) as [(Hd2 & Ho2 & v2 & Hv2) Hn2].
      { apply last_Some_elem_of in El. apply elem_of_cons in El as [[= -> ->]|El]; [done|].
        rewrite Forall_forall in Hg, Hn. auto. }
      rewrite app_assoc. apply (same_click _ _ _ _ _ Hg1 (IH Hg Hn st2 o2 v2 eq_refl Hv2)); [|done].
      cbn [dl_key]. unfold node_of in Hn1, Hn2. cbn [snd] in Hn1, Hn2. congruence. }
  split; [by eapply Hrun|]. intros <-. apply last_Some_elem_of in Hlast.
  assert (good_click (st0, o) ∧ node_of (st0, o) = operatorNodeId o0) as [(Hd & Ho & _) Hn].
  { apply elem_of_cons in Hlast as [[= -> ]|Hin]; [done|]. rewrite Forall_forall in Hagain, Ha. auto. }
  destruct Hfirst as (_ & Ho0 & _). cbn [fst snd] in *. enough (Some o0 = Some o) as [= ->] by done.
  rewrite <-(clicked_operator (summaries_of st0) o0), <-(clicked_operator (summaries_of st0) o) by done. by f_equal.
Qed.
End dialog.

(** ** Witness *)

(** A stage of one task, and the same stage after a refresh, with two tasks. *)
Definition dialog_task (id : jstring) : task :=
  sample_task_of [{| p_pipelineId := 0; p_operatorSummaries := sample_operators |}] id (js "FINISHED") (js "http://host1:8080").
Definition dialog_stage (ts : list task) : stage :=
  Stage (js "q1.0") (js "FINISHED") (Some (sample_fragment (js "0") (js "6"))) (Some (sample_stats_of (Some sample_operators))) ts [].
Definition former_stage : stage := dialog_stage [dialog_task (js "q1.0.0.0")].
Definition refreshed_stage : stage := dialog_stage [dialog_task (js "q1.0.1.0"); dialog_task (js "q1.0.0.0")].

Lemma operator_dialog_witness :
  let o := sample_operator 0 1 (js "2") in
  option_map dl_charts (@after_clicks insertion_js_sort [(former_stage, o); (refreshed_stage, o)]) =
    Some (@detail_charts insertion_js_sort o (tasks former_stage)) ∧
  @detail_charts insertion_js_sort o (tasks former_stage) ≠ @detail_charts insertion_js_sort o (tasks refreshed_stage).
Proof.
  cbv zeta. set (o := sample_operator 0 1 (js "2")).
  assert (distinct_operators sample_operators) as Hd by (split; [by repeat constructor|by apply (bool_decide_unpack _)]).
  assert (o ∈ sample_operators) as Ho by (do 2 apply list_elem_of_further; apply list_elem_of_here).
  split.
  - assert (is_ok (@OperatorDetail_render insertion_js_sort o (tasks former_stage)) = true) as Hv by (vm_compute; reflexivity).
    assert (is_ok (@OperatorDetail_render insertion_js_sort o (tasks refreshed_stage)) = true) as Hv' by (vm_compute; reflexivity).
    destruct (@OperatorDetail_render insertion_js_sort o (tasks former_stage)) as [v|] eqn:Ev; [|discriminate Hv].
    destruct (@OperatorDetail_render insertion_js_sort o (tasks refreshed_stage)) as [v'|] eqn:Ev'; [|discriminate Hv'].
    destruct (@operator_dialog insertion_js_sort [] (former_stage, o) [(refreshed_stage, o)] refreshed_stage o v') as [H1 _];
      [|intros c Hc; discriminate Hc|constructor; [reflexivity|constructor]|reflexivity|exact Ev'|].
    { constructor; [|constructor; [|constructor]]; (split; [exact Hd|split; [exact Ho|]]); [by exists v|by exists v']. }
    cbn [app] in H1. rewrite H1. reflexivity.
  - intros E. apply (f_equal (map (length ∘ bc_data))) in E. vm_compute in E. discriminate E.
Defined.
