(* ===== verification/LivePlan.v ===== *)
(** * The live plan (components/LivePlan.jsx)

    The stages of a query and the nodes of their plans as a graph, and the
    component that redraws it while the query runs. *)

From S2P Require Import Prelude JsString JsNumber JsCollections JsRegex Model QueryState Format Vdom QueryHeader Stage QueryInfo Graph Poller.

(** ** Data *)

(** A node of [plan.jsonRepresentation]. *)
Inductive plan_json := PlanJson {
  pj_id : jstring;
  pj_name : jstring;
  pj_descriptor : list (jstring * jstring);
  pj_details : list jstring;
  pj_children : list plan_json;
}.

(** [JSON.parse] of the text of a plan; it throws when the text is not JSON. *)
Class PlanParser := JSON_parse : jstring → res plan_json.

(** [PlanNodeProps] *)
Record node_info := {
  ni_id : jstring;
  ni_name : jstring;
  ni_descriptor : list (jstring * jstring);
  ni_details : list jstring;
  ni_sources : list jstring;
}.

(** [StageNodeInfo] *)
Record stage_node := {
  sn_stageId : jstring;
  sn_id : jstring;
  sn_root : jstring;
  sn_distribution : jstring;
  sn_stats : option stage_stats;
  sn_state : jstring;
  sn_nodes : list (jstring * node_info);
}.

(** ** StageStatistics *)

Definition node_of (node : plan_json) : node_info := {|
  ni_id := pj_id node; ni_name := pj_name node; ni_descriptor := pj_descriptor node;
  ni_details := pj_details node; ni_sources := map pj_id (pj_children node) |}.

Fixpoint flattenNode (node : plan_json) (result : list (jstring * node_info)) : list (jstring * node_info) :=
  fold_left (λ r child, flattenNode child r) (pj_children node) (map_set (pj_id node) (node_of node) result).

Section stages.
Context `{PlanParser}.

Fixpoint flattenStage (s : stage) (result : list (jstring * stage_node)) : res (list (jstring * stage_node)) :=
  result ← fold_left (λ acc sub, r ← acc; flattenStage sub r) (subStages s) (Ok result);
  fr ← deref (plan s);
  json ← JSON_parse (jsonRepresentation fr);
  Ok (map_set (fr_id fr) {|
    sn_stageId := stageId s; sn_id := fr_id fr; sn_root := pn_id (fr_root fr);
    sn_distribution := distribution fr; sn_stats := stageStats s; sn_state := st_state s;
    sn_nodes := flattenNode json [] |} result).

(** [StageStatistics.getStages]; the output stage is [None] before the query is planned. *)
Definition getPlanStages (q : query_info) : res (list (jstring * stage_node)) :=
  s ← deref (outputStage q);
  flattenStage s [].
End stages.

Definition StageStatistics_render (stage : stage_node) : res (vnode Empty_set Empty_set) :=
  stats ← deref (sn_stats stage);
  Ok (el "div" [] [
      el "div" [] [
        el "h3" [A "className" "margin-top: 0"] [T "Stage "; VText (sn_id stage)];
        VText (sn_state stage);
        el "hr" [] [];
        T "CPU: ";
        VText (s_totalCpuTime stats);
        el "br" [] [];
        T "Buffered: ";
        VText (parseAndFormatDataSize (s_bufferedDataSize stats));
        el "br" [] [];
        (if s_fullyBlocked stats then (el "div" [ASt "style" [(js "color", js "#ff0000")]] [
          T "Blocked: ";
          VText (s_totalBlockedTime stats);
          T " "]) else (el "div" [] [T "Blocked: "; VText (s_totalBlockedTime stats); T " "]));
        T "Memory: ";
        VText (parseAndFormatDataSize (s_userMemoryReservation stats));
        el "br" [] [];
        T "Splits: ";
        VText (js "Q:" ++ toString (s_queuedDrivers stats) ++ js ", R:" ++ toString (s_runningDrivers stats) ++ js ", F:" ++ toString (s_completedDrivers stats));
        el "hr" [] [];
        T "Input: ";
        VText (parseAndFormatDataSize (s_rawInputDataSize stats) ++ js " / " ++ formatRows (s_rawInputPositions stats))]]).

(** ** PlanNode *)

(** [/Distribution:\s+(\w+)/] *)
Definition DISTRIBUTION_PATTERN : regex :=
  RLit (js "Distribution:") (RSeq (RPlus (RChar is_space)) (RGroup 1 (RPlus (RChar is_word)))).
Definition distribution_label (node : node_info) : jstring :=
  match exec DISTRIBUTION_PATTERN (join [NEWLINE] (ni_details node)) with
  | Some caps => js " (" ++ default (js "undefined") (group 1 caps) ++ js ")"
  | None => []
  end.

Definition descriptor_text (node : node_info) : jstring :=
  js "(" ++ join (js ", ") (map (λ '(k, v), k ++ js " = " ++ v) (obj_order (ni_descriptor node))) ++ js ")".

Definition PlanNode_render (node : node_info) : vnode Empty_set Empty_set :=
  el "div" [ASt "style" [(js "color", js "#000")]; A "data-toggle" "tooltip"; A "data-placement" "bottom"; A "data-container" "body"; A "data-html" "true"; AX "title" (js "<h4>" ++ ni_name node ++ js "</h4>" ++ descriptor_text node)] [
      el "strong" [] [VText (ni_name node ++ distribution_label node)];
      el "div" [] [VOpt (truncateString (Some (descriptor_text node)) 35)]].

(** ** The graph *)

(** The components whose HTML labels a node of the graph. *)
Inductive plan_label := StageLabel (s : stage_node) | NodeLabel (n : node_info).

Definition stageRootNodeId (id : jstring) : jstring := js "stage-" ++ id ++ js "-root".
Definition planNodeName (id : jstring) : jstring := js "node-" ++ id.
Definition PLAN_EDGE : list (jstring * jstring) :=
  [(js "class", js "plan-edge"); (js "arrowheadClass", js "plan-arrowhead")].

(** [sourceFragmentIds.replace('[', '').replace(']', '').split(', ')] *)
Definition parseRemoteSources (s : jstring) : list jstring :=
  JsString.split (js ", ") (replace_first (js "]") [] (replace_first (js "[") [] s)).

(** The edge from a remote stage; its label reads the statistics of that stage. *)
Definition remote_edge (allStages : list (jstring * stage_node)) (nodeId sourceId : jstring)
  : res (list (graph_call plan_label)) :=
  match map_get sourceId allStages with
  | None => Ok []
  | Some source =>
    sourceStats ← deref (sn_stats source);
    Ok [SetEdge (stageRootNodeId sourceId) nodeId
          [(js "class", js "plan-edge"); (js "style", js "stroke-width: 4px");
           (js "arrowheadClass", js "plan-arrowhead");
           (js "label", parseAndFormatDataSize (s_outputDataSize sourceStats) ++ js " / "
                        ++ formatRows (s_outputPositions sourceStats));
           (js "labelStyle", js "color: #fff; font-weight: bold; font-size: 24px;");
           (js "labelType", js "html")]]
  end.

(** The callback over the nodes of a stage. *)
Definition node_calls (allStages : list (jstring * stage_node)) (clusterId : jstring) (node : node_info)
  : res (list (graph_call plan_label)) :=
  let nodeId := planNodeName (ni_id node) in
  remote ← match map_get (js "sourceFragmentIds") (ni_descriptor node) with
           | Some ids =>
             if truthy ids then
               edges ← res_map (remote_edge allStages nodeId) (parseRemoteSources ids);
               Ok (SetNode nodeId [(js "label", []); (js "shape", js "circle")] None :: concat edges)
             else Ok []
           | None => Ok []
           end;
  Ok ([SetNode nodeId [(js "style", js "fill: #fff"); (js "labelType", js "html")] (Some (NodeLabel node));
       SetParent nodeId clusterId]
      ++ map (λ source, SetEdge (planNodeName source) nodeId PLAN_EDGE) (ni_sources node)
      ++ remote).

Definition updateD3Stage (stage : stage_node) (allStages : list (jstring * stage_node))
  : res (list (graph_call plan_label)) :=
  let clusterId := sn_stageId stage in
  let rootId := stageRootNodeId (sn_id stage) in
  let color := getStageStateColor (sn_state stage)
                 (match sn_stats stage with Some st => s_fullyBlocked st | None => false end) in
  html ← StageStatistics_render stage;
  nodes ← res_map (λ e, node_calls allStages clusterId e.2) (sn_nodes stage);
  Ok ([SetNode clusterId [(js "style", js "fill: " ++ color); (js "labelStyle", js "fill: #fff")] None;
       SetNode rootId [(js "class", js "stage-stats"); (js "labelType", js "html")] (Some (StageLabel stage));
       SetParent rootId clusterId;
       SetEdge (planNodeName (sn_root stage)) rootId [(js "style", js "visibility: hidden")]]
      ++ concat nodes).

(** [handleStageClick]: the address that is opened. *)
Definition handleStageClick (stageCssId : jstring) : jstring := js "stage.html?" ++ stageCssId.

(** ** The component *)

Inductive plan_handler := PlanHeader (a : header_action).
Abbreviation plan_view := (vnode Empty_set plan_handler).

Definition plan_message (label : plan_view) : plan_view :=
  el "div" [A "className" "row error-message"] [
      el "div" [A "className" "col-xs-12"] [el "h4" [] [label]]].

Definition plan_later_view : plan_view :=
  el "div" [A "className" "row error-message"] [
      el "div" [A "className" "col-xs-12"] [
        el "h4" [] [T "Live plan graph will appear automatically when query starts running."];
        el "div" [A "className" "loader"] [T "Loading..."]]].

Definition plan_page (queryHeader loadingMessage : plan_view) (ended : bool) : plan_view :=
  el "div" [] [
      queryHeader;
      el "div" [A "className" "row"] [
        el "div" [A "className" "col-xs-12"] [
          loadingMessage;
          el "div" [A "id" "live-plan"; A "className" "graph-container"] [
            el "div" [A "className" "pull-right"] [
              (if ended then T "Scroll to zoom." else T "Zoom disabled while query is running.");
              T " Click stage to view additional statistics"];
            el "svg" [A "id" "plan-canvas"] []]]]].

(** The state; [lp_svg] is [null], or the selection made at the first update, which is
    empty if the canvas was not on the page then.  [lp_crashed]: an exception while
    rendering has removed the page, and later updates have no effect. *)
Record lp_state := {
  lp_initialized : bool;
  lp_ended : bool;
  lp_query : option query_info;
  lp_graph : graph plan_label;
  lp_svg : option (option canvas);
  lp_crashed : bool;
}.

Definition lp_constructor : lp_state := {|
  lp_initialized := false; lp_ended := false; lp_query := None; lp_graph := initializeGraph;
  lp_svg := None; lp_crashed := false |}.

(** [render]; [embedded] and the path are fixed for a page. *)
Definition lp_render (embedded : bool) (pathname : jstring) (s : lp_state) : res plan_view :=
  match lp_query s with
  | None => Ok (plan_message (if lp_initialized s then T "Query not found" else
                                el "div" [A "className" "loader"] [T "Loading..."]))
  | Some query =>
    if negb (lp_initialized s) then Ok (plan_message (el "div" [A "className" "loader"] [T "Loading..."]))
    else
      let loadingMessage := match outputStage query with None => plan_later_view | Some _ => VNothing end in
      queryHeader ← (if embedded then Ok VNothing
                     else header ← header_render pathname (qi query);
                          Ok (vmap (Empty_set_rect _) PlanHeader header));
      Ok (plan_page queryHeader loadingMessage (lp_ended s))
  end.

(** The canvas is on the page once a query is shown. *)
Definition canvas_present (s : lp_state) : bool :=
  match lp_query s with Some _ => lp_initialized s | None => false end.

Definition set_svg (svg : option canvas) (s : lp_state) : lp_state := {|
  lp_initialized := lp_initialized s; lp_ended := lp_ended s; lp_query := lp_query s;
  lp_graph := lp_graph s; lp_svg := Some svg; lp_crashed := lp_crashed s |}.
Definition set_graph (g : graph plan_label) (s : lp_state) : lp_state := {|
  lp_initialized := lp_initialized s; lp_ended := lp_ended s; lp_query := lp_query s;
  lp_graph := g; lp_svg := lp_svg s; lp_crashed := lp_crashed s |}.
Definition crash (s : lp_state) : lp_state := {|
  lp_initialized := lp_initialized s; lp_ended := lp_ended s; lp_query := lp_query s;
  lp_graph := lp_graph s; lp_svg := lp_svg s; lp_crashed := true |}.

(** ** Size and zoom *)

(** The computed width and height of the element [live-plan]. *)
Class PlanBox := { box_width : jstring; box_height : jstring }.

(** [parseInt(length.replace(/px/, "")) - 50] *)
Definition inner_length (length : jstring) : number :=
  nsub (parseInt (replace_first (js "px") [] length)) (of_Z 50).

(** [Math.min(width / graphWidth, height / graphHeight)] *)
Definition initialScale (width height graphWidth graphHeight : number) : number :=
  nmin (ndiv width graphWidth) (ndiv height graphHeight).

Definition zoom_canvas (z : zoom) (c : canvas) : canvas := {|
  cv_groups := cv_groups c; cv_height := cv_height c; cv_width := cv_width c;
  cv_click := cv_click c; cv_zoom := Some z |}.

(** The end of [updateD3Graph]: while the query runs the canvas is as large as the graph; once
    it has ended, the canvas fits the page and zooms. *)
Definition fit_canvas `{PlanBox} (ended : bool) (size : number * number) (c : canvas) : canvas :=
  let width := inner_length box_width in
  let height := inner_length box_height in
  let graphHeight := nadd size.2 (of_Z 100) in
  let graphWidth := nadd size.1 (of_Z 100) in
  if ended then
    let scale := initialScale width height graphWidth graphHeight in
    size_canvas height width (zoom_canvas {|
      scaleExtent := (scale, of_Z 1); z_k := scale;
      z_x := ndiv (nsub width (nmul size.1 scale)) (of_Z 2); z_y := of_Z 20 |} c)
  else size_canvas graphHeight graphWidth c.

Section component.
Context `{PlanParser, DagreRender, PlanBox}.

(** The calls [updateD3Graph] makes for a query. *)
Definition plan_calls (q : query_info) : res (list (graph_call plan_label)) :=
  stages ← getPlanStages q;
  calls ← res_map (λ e, updateD3Stage e.2 stages) stages;
  Ok (concat calls).

(** The rest of [updateD3Graph]: draws the graph into the group of the canvas, then sizes the
    canvas.  Without the element [live-plan] its style cannot be read. *)
Definition draw_plan (svg : option canvas) (s : lp_state) : res lp_state :=
  size ← dagre_render (has_group svg) (lp_graph s);
  if canvas_present s then Ok (set_svg (option_map (fit_canvas (lp_ended s) size) svg) s)
  else Throw TypeError.

(** [componentDidUpdate]: the first time, [updateD3Graph] only selects the canvas and
    updates the state, which updates the component once more. *)
Definition lp_didUpdate (s : lp_state) : res lp_state :=
  let svg := match lp_svg s with
             | None => initializeSvg (if canvas_present s then Some empty_canvas else None)
             | Some svg => svg
             end in
  let s := set_svg svg s in
  match lp_query s with
  | None => Ok s
  | Some q =>
    calls ← plan_calls q;
    draw_plan svg (set_graph (add_calls (lp_graph s) calls) s)
  end.

Definition lp_update (embedded : bool) (pathname : jstring) (s : lp_state) : res lp_state :=
  view ← lp_render embedded pathname s;
  lp_didUpdate s.

Definition lp_set_response (q : query_info) (s : lp_state) : lp_state := {|
  lp_initialized := true; lp_ended := finalQueryInfo q; lp_query := Some q;
  lp_graph := lp_graph s; lp_svg := lp_svg s; lp_crashed := lp_crashed s |}.
Definition lp_set_failure (s : lp_state) : lp_state := {|
  lp_initialized := true; lp_ended := lp_ended s; lp_query := lp_query s;
  lp_graph := lp_graph s; lp_svg := lp_svg s; lp_crashed := lp_crashed s |}.

(** The [then] callback; what it throws goes to the [catch] callback, whose [setState] has no
    effect any more, and which restarts the timer as well. *)
Definition lp_on_response (embedded : bool) (pathname : jstring) (q : query_info) (s : lp_state)
  : outcome lp_state :=
  if lp_crashed s then Done s
  else match lp_update embedded pathname (lp_set_response q s) with
       | Ok s' => Done s'
       | Throw _ => Done (crash (lp_set_response q s))
       end.

(** The [catch] callback of a failed request. *)
Definition lp_on_failure (embedded : bool) (pathname : jstring) (s : lp_state) : outcome lp_state :=
  if lp_crashed s then Done s
  else match lp_update embedded pathname (lp_set_failure s) with
       | Ok s' => Done s'
       | Throw _ => Escaped (crash (lp_set_failure s))
       end.

Definition lp_keep_polling (s : lp_state) : bool :=
  match lp_query s with None => true | Some _ => negb (lp_ended s) end.

#[export] Instance lp_poller (embedded : bool) (pathname : jstring) : Poller lp_state query_info := {
  poll_init := lp_constructor;
  on_refresh s := s;
  on_response := lp_on_response embedded pathname;
  on_failure _ := lp_on_failure embedded pathname;
  keep_polling := lp_keep_polling;
  on_user _ _ := False;
}.
End component.
