(* ===== verification/LivePlanFacts.v ===== *)
(** * Correctness of the live plan

    The flattened plan has one entry per node, the graph has no dangling edge, the
    list of remote sources is read back, and the page needs an output stage. *)

From S2P Require Import Prelude JsString JsNumber JsCollections Model QueryState Vdom Stage QueryInfo Samples Graph Poller LivePlan.
From stdpp Require Import relations.

(** ** Flattening a plan *)

Section plan_json_induction.
Context (P : plan_json → Prop).
Hypothesis step : ∀ id name d ds cs, Forall P cs → P (PlanJson id name d ds cs).
Fixpoint plan_json_tree_ind (n : plan_json) : P n :=
  match n with
  | PlanJson id name d ds cs =>
    step id name d ds cs
      ((fix all l : Forall P l :=
          match l with
          | [] => Forall_nil_2 P
          | n :: l => Forall_cons_2 P n l (plan_json_tree_ind n) (all l)
          end) cs)
  end.
End plan_json_induction.

(** The nodes of a plan, a node before its children. *)
Fixpoint preorder (n : plan_json) : list plan_json := n :: concat (map preorder (pj_children n)).

Definition entry (n : plan_json) : jstring * node_info := (pj_id n, node_of n).

Lemma flattenNode_keys n r x :
  x ∈ map_keys r ∨ x ∈ map pj_id (preorder n) → x ∈ map_keys (flattenNode n r).
Proof.
  revert r. induction n as [id name d ds cs IH] using plan_json_tree_ind. intros r Hx.
  cbn [flattenNode pj_children pj_id preorder map] in *.
  assert (x ∈ map_keys (map_set id (node_of (PlanJson id name d ds cs)) r) ∨
          x ∈ map pj_id (concat (map preorder cs))) as Hx'.
  { rewrite map_keys_set_elem. destruct Hx as [?|Hx]; [auto|]. apply elem_of_cons in Hx as [->|Hx]; auto. }
  clear Hx. revert Hx'. generalize (map_set id (node_of (PlanJson id name d ds cs)) r). clear r.
  induction IH as [|c cs Hc _ IHcs]; intros r [Hx|Hx]; cbn [fold_left map concat] in *; [done|set_solver| |].
  - apply IHcs. left. apply Hc. by left.
  - rewrite map_app in Hx. apply elem_of_app in Hx as [Hx|Hx]; apply IHcs; [left; apply Hc|]; by right.
Qed.

Lemma flattenNode_elem n r e :
  e ∈ flattenNode n r → e ∈ r ∨ ∃ n', n' ∈ preorder n ∧ e = entry n'.
Proof.
  revert r. induction n as [id name d ds cs IH] using plan_json_tree_ind. intros r He.
  set (n := PlanJson id name d ds cs) in *.
  change (flattenNode n r) with (fold_left (λ r child, flattenNode child r) cs (map_set id (node_of n) r)) in He.
  assert (∀ r, e ∈ fold_left (λ r child, flattenNode child r) cs r →
    e ∈ r ∨ ∃ n', n' ∈ concat (map preorder cs) ∧ e = entry n') as Hcs.
  { clear He. induction IH as [|c cs' Hc _ IHcs]; intros r' He; cbn [fold_left map concat] in *; [by left|].
    apply IHcs in He as [He|(n' & Hn' & ->)].
    - apply Hc in He as [He|(n' & Hn' & ->)]; [by left|]. right. exists n'. set_solver.
    - right. exists n'. set_solver. }
  apply Hcs in He as [He|(n' & Hn' & ->)].
  - apply map_set_elem in He as [->|He]; [|by left]. right. exists n. split; [apply list_elem_of_here|done].
  - right. exists n'. split; [|done]. cbn [preorder]. by apply list_elem_of_further.
Qed.

Lemma preorder_children n n' c : n' ∈ preorder n → c ∈ pj_children n' → c ∈ preorder n.
Proof.
  induction n as [id name d ds cs IH] using plan_json_tree_ind. intros Hn Hc.
  cbn [preorder pj_children] in *. apply elem_of_cons in Hn as [->|Hn]; apply list_elem_of_further.
  - apply list_elem_of_In, in_concat. exists (preorder c). split.
    + apply in_map. by apply list_elem_of_In.
    + destruct c. by left.
  - apply list_elem_of_In, in_concat in Hn as (l & Hl & Hn). apply in_map_iff in Hl as (x & <- & Hx).
    apply list_elem_of_In, in_concat. exists (preorder x). split; [by apply in_map|].
    apply list_elem_of_In. rewrite Forall_forall in IH. apply IH; [by apply list_elem_of_In| |done].
    by apply list_elem_of_In.
Qed.

(** With distinct ids the map lists the nodes in document order. *)
Lemma flattenNode_list n r :
  NoDup (map_keys r ++ map pj_id (preorder n)) → flattenNode n r = r ++ map entry (preorder n).
Proof.
  revert r. induction n as [id name d ds cs IH] using plan_json_tree_ind. intros r Hnd.
  set (n := PlanJson id name d ds cs) in *.
  change (flattenNode n r) with (fold_left (λ r child, flattenNode child r) cs (map_set id (node_of n) r)).
  change (preorder n) with (n :: concat (map preorder cs)) in *. cbn [map] in *.
  change (pj_id n) with id in *.
  rewrite map_set_fresh by (intros Hin; apply NoDup_app in Hnd as (_ & Hd & _); apply (Hd _ Hin); apply list_elem_of_here).
  assert (∀ r', NoDup (map_keys r' ++ map pj_id (concat (map preorder cs))) →
    fold_left (λ r child, flattenNode child r) cs r' = r' ++ map entry (concat (map preorder cs))) as Hcs.
  { clear Hnd. induction IH as [|c cs' Hc _ IHcs]; intros r' Hr'; cbn [fold_left map concat] in *.
    { by rewrite app_nil_r. }
    rewrite map_app in Hr' |- *. rewrite app_assoc in Hr'.
    rewrite Hc by (by apply NoDup_app in Hr' as [? _]).
    rewrite IHcs, <-app_assoc; [done|]. unfold map_keys. rewrite fmap_app.
    assert ((map entry (preorder c)).*1 = map pj_id (preorder c)) as ->; [|done].
    clear. induction (preorder c); simpl; by f_equal. }
  rewrite Hcs.
  - by rewrite <-app_assoc.
  - unfold map_keys. rewrite fmap_app. simpl. by rewrite <-app_assoc.
Qed.

(** C28: The plan of a stage is flattened completely: for distinct node ids the map that is drawn
    has one entry for each node of the plan, in document order, with the ids of its children as
    sources. *)
Theorem plan_flattened (n : plan_json) :
  NoDup (map pj_id (preorder n)) →
  flattenNode n [] = map (λ m, (pj_id m, {|
    ni_id := pj_id m; ni_name := pj_name m; ni_descriptor := pj_descriptor m;
    ni_details := pj_details m; ni_sources := map pj_id (pj_children m) |})) (preorder n).
Proof. intros Hnd. by rewrite flattenNode_list. Qed.

(** ** The stages *)

Section stages.
Context `{PlanParser}.

(** What holds of every entry of the map of stages. *)
Definition well_keyed (stages : list (jstring * stage_node)) : Prop :=
  ∀ k sn, (k, sn) ∈ stages → sn_id sn = k ∧
    (∃ json, sn_nodes sn = flattenNode json [] ∧ sn_root sn = pj_id json).

(** The text of each plan describes the plan with the same root. *)
Definition roots_agree (s : stage) : Prop :=
  Forall (λ t, ∀ fr json, plan t = Some fr → JSON_parse (jsonRepresentation fr) = Ok json →
               pj_id json = pn_id (fr_root fr)) (getStages s).

Lemma foldl_stage_throw (l : list stage) (e : js_error) :
  fold_left (λ (acc : res (list (jstring * stage_node))) sub, r ← acc; flattenStage sub r) l (Throw e) = Throw e.
Proof. by induction l. Qed.

Lemma flattenStage_keyed s r r' :
  roots_agree s → well_keyed r → flattenStage s r = Ok r' → well_keyed r'.
Proof.
  revert r r'. induction s as [id st p stats ts subs IH] using stage_tree_ind. intros r r' Ha Hr Hf.
  unfold roots_agree in Ha. cbn [getStages subStages] in Ha. apply Forall_cons in Ha as [Hroot Ha].
  cbn [flattenStage subStages plan] in Hf. apply res_bind_ok in Hf as (r1 & Hfold & Hf).
  assert (well_keyed r1) as Hr1.
  { clear Hf Hroot. revert r Hr Hfold. induction IH as [|s subs Hs _ IHs]; intros r Hr Hfold.
    { by injection Hfold as <-. }
    cbn [fold_left map concat] in *. apply Forall_app in Ha as [Has Ha].
    cbn [mbind res_bind] in Hfold. destruct (flattenStage s r) as [r2|] eqn:E.
    - apply (IHs Ha r2); [|done]. by eapply Hs.
    - by rewrite foldl_stage_throw in Hfold. }
  apply res_bind_ok in Hf as (fr & Hfr & Hf). apply res_bind_ok in Hf as (json & Hj & [= <-]).
  destruct p as [p|]; [|done]. injection Hfr as ->.
  intros k sn [[= -> ->]|Hin]%map_set_elem; [|by apply Hr1]. split; [done|].
  exists json. split; [done|]. simpl. symmetry. by apply (Hroot fr).
Qed.

Lemma getPlanStages_keyed q out stages :
  outputStage q = Some out → roots_agree out → getPlanStages q = Ok stages → well_keyed stages.
Proof.
  intros Ho Ha. unfold getPlanStages. rewrite Ho. apply flattenStage_keyed; [done|].
  intros ??. set_solver.
Qed.

End stages.

(** ** No dangling edges *)

(** The ends of the edges of [l] are nodes of [all]. *)
Definition edges_within (nodes : list jstring) (l : list (graph_call plan_label)) : Prop :=
  ∀ v w, (v, w) ∈ set_edges l → v ∈ nodes ∧ w ∈ nodes.

Lemma edges_within_app nodes l1 l2 :
  edges_within nodes (l1 ++ l2) ↔ edges_within nodes l1 ∧ edges_within nodes l2.
Proof.
  unfold edges_within. rewrite set_edges_app. split.
  - intros Hw. split; intros v w Hin; apply Hw, elem_of_app; auto.
  - intros [H1 H2] v w [Hin|Hin]%elem_of_app; auto.
Qed.

Lemma edges_within_concat nodes ls :
  edges_within nodes (concat ls) ↔ Forall (edges_within nodes) ls.
Proof.
  induction ls as [|l ls IH]; simpl; [|by rewrite edges_within_app, IH, Forall_cons].
  split; [done|]. intros _ v w Hin. inversion Hin.
Qed.

Lemma remote_edge_within stages nodes nodeId sourceId l :
  (∀ k, k ∈ map_keys stages → stageRootNodeId k ∈ nodes) → nodeId ∈ nodes →
  remote_edge stages nodeId sourceId = Ok l → edges_within nodes l.
Proof.
  intros Hs Hn. unfold remote_edge. destruct (map_get sourceId stages) as [sn|] eqn:E.
  - intros (stats & _ & [= <-])%res_bind_ok v w Hin. cbn in Hin.
    apply list_elem_of_singleton in Hin as [= -> ->]. split; [|done]. apply Hs.
    destruct (decide (sourceId ∈ map_keys stages)) as [|Hk]; [done|]. apply map_get_None in Hk. congruence.
  - intros [= <-] v w Hin. inversion Hin.
Qed.

Lemma node_calls_within stages nodes cluster info l :
  (∀ k, k ∈ map_keys stages → stageRootNodeId k ∈ nodes) →
  planNodeName (ni_id info) ∈ nodes → (∀ x, x ∈ ni_sources info → planNodeName x ∈ nodes) →
  node_calls stages cluster info = Ok l → edges_within nodes l.
Proof.
  intros Hs Hn Hsrc. unfold node_calls. intros (remote & Hr & [= <-])%res_bind_ok.
  assert (edges_within nodes (map (λ source, SetEdge (planNodeName source) (planNodeName (ni_id info)) PLAN_EDGE)
    (ni_sources info) ++ remote)) as Hw; [|exact Hw].
  rewrite edges_within_app. split.
  - intros v w Hin. clear Hr. induction (ni_sources info) as [|x xs IH]; [inversion Hin|].
    cbn in Hin. apply elem_of_cons in Hin as [[= -> ->]|Hin].
    + split; [apply Hsrc; set_solver|done].
    + apply IH; [|done]. intros y Hy. apply Hsrc. set_solver.
  - assert (edges_within nodes []) as Hnil by (intros v w Hin; inversion Hin).
    destruct (map_get _ (ni_descriptor info)) as [ids|]; [|by injection Hr as <-].
    destruct (truthy ids); [|by injection Hr as <-].
    apply res_bind_ok in Hr as (edges & He & [= <-]).
    intros v w Hin. apply (edges_within_concat nodes edges); [|exact Hin].
    apply res_map_ok in He. apply Forall_forall. intros e Hine.
    apply list_elem_of_lookup in Hine as [i Hi].
    destruct (Forall2_lookup_r _ _ _ _ _ He Hi) as (x & _ & Hx). by eapply remote_edge_within.
Qed.

Lemma updateD3Stage_calls stage stages l :
  updateD3Stage stage stages = Ok l →
  stageRootNodeId (sn_id stage) ∈ set_nodes l ∧
  (∀ k info, (k, info) ∈ sn_nodes stage → planNodeName (ni_id info) ∈ set_nodes l).
Proof.
  unfold updateD3Stage. intros (html & _ & Hl)%res_bind_ok.
  apply res_bind_ok in Hl as (nodes & Hn & <-%Ok_inj). rewrite set_nodes_app. split.
  { apply elem_of_app. left. cbn. set_solver. }
  intros k info Hin. apply elem_of_app. right. apply res_map_ok in Hn.
  apply list_elem_of_lookup in Hin as [i Hi].
  destruct (Forall2_lookup_l _ _ _ _ _ Hn Hi) as (c & Hc & Hcalls).
  apply list_elem_of_lookup_2, list_elem_of_split in Hc as (n1 & n2 & ->).
  rewrite concat_app, set_nodes_app. cbn [concat]. rewrite set_nodes_app.
  unfold node_calls in Hcalls. apply res_bind_ok in Hcalls as (remote & _ & [= <-]). cbn. set_solver.
Qed.

Lemma updateD3Stage_within stages stage nodes l :
  (∀ k, k ∈ map_keys stages → stageRootNodeId k ∈ nodes) →
  (∃ json, sn_nodes stage = flattenNode json [] ∧ sn_root stage = pj_id json) →
  (∀ x, x ∈ set_nodes l → x ∈ nodes) →
  updateD3Stage stage stages = Ok l → edges_within nodes l.
Proof.
  intros Hs (json & Hnodes & Hroot) Hin Hl.
  destruct (updateD3Stage_calls _ _ _ Hl) as [Hr Hn].
  assert (∀ n, n ∈ preorder json → planNodeName (pj_id n) ∈ nodes) as Htree.
  { intros n Hnj. apply Hin.
    assert (pj_id n ∈ map_keys (sn_nodes stage)) as Hk.
    { rewrite Hnodes. apply flattenNode_keys. right. by apply list_elem_of_fmap_2. }
    apply list_elem_of_fmap in Hk as ([k info] & Hk & Hinfo). simpl in Hk. subst k.
    pose proof (Hn _ _ Hinfo) as Hset. rewrite Hnodes in Hinfo.
    apply flattenNode_elem in Hinfo as [Hinfo|(n' & _ & [= Hid ->])]; [inversion Hinfo|].
    cbn in Hset. by rewrite Hid. }
  unfold updateD3Stage in Hl. apply res_bind_ok in Hl as (html & _ & Hl).
  apply res_bind_ok in Hl as (calls & Hc & <-%Ok_inj). rewrite edges_within_app. split.
  - intros v w Hvw. cbn in Hvw. apply list_elem_of_singleton in Hvw as [= -> ->].
    split; [rewrite Hroot; apply Htree; destruct json; apply list_elem_of_here|].
    apply Hin. rewrite set_nodes_app. cbn. set_solver.
  - apply edges_within_concat, Forall_forall. intros c Hcin. apply res_map_ok in Hc.
    apply list_elem_of_lookup in Hcin as [i Hi].
    destruct (Forall2_lookup_r _ _ _ _ _ Hc Hi) as ([k info] & Hk & Hcalls).
    apply list_elem_of_lookup_2 in Hk. rewrite Hnodes in Hk.
    apply flattenNode_elem in Hk as [Hk|(n' & Hn' & [= -> ->])]; [inversion Hk|].
    eapply node_calls_within, Hcalls; [done|by apply Htree|].
    intros x Hx. apply list_elem_of_fmap in Hx as (c' & -> & Hc'). apply Htree.
    by eapply preorder_children.
Qed.

Lemma plan_calls_closed `{PlanParser} (q : query_info) (out : stage) calls :
  outputStage q = Some out → roots_agree out → plan_calls q = Ok calls →
  ∀ v w, (v, w) ∈ set_edges calls → v ∈ set_nodes calls ∧ w ∈ set_nodes calls.
Proof.
  intros Ho Ha Hc. unfold plan_calls in Hc. apply res_bind_ok in Hc as (stages & Hst & Hc).
  apply res_bind_ok in Hc as (ls & Hls & [= <-]). apply res_map_ok in Hls.
  pose proof (getPlanStages_keyed q out stages Ho Ha Hst) as Hk.
  assert (∀ l x, l ∈ ls → x ∈ set_nodes l → x ∈ set_nodes (concat ls)) as Hsub.
  { intros l x (l1 & l2 & ->)%list_elem_of_split Hx. rewrite concat_app, set_nodes_app. cbn [concat].
    rewrite set_nodes_app. set_solver. }
  apply (edges_within_concat (set_nodes (concat ls)) ls), Forall_forall. intros l Hl.
  pose proof Hl as [i Hi]%list_elem_of_lookup.
  destruct (Forall2_lookup_r _ _ _ _ _ Hls Hi) as ([k sn] & Hsn & Hcalls).
  apply list_elem_of_lookup_2, Hk in Hsn as [_ Hjson]. simpl in Hcalls.
  eapply updateD3Stage_within, Hcalls; [|done|by intros; eapply Hsub].
  intros k' Hk'. apply list_elem_of_fmap in Hk' as ([k'' sn'] & -> & Hin). simpl.
  pose proof Hin as [j Hj]%list_elem_of_lookup.
  destruct (Forall2_lookup_l _ _ _ _ _ Hls Hj) as (l' & Hl' & Hcalls').
  apply list_elem_of_lookup_2 in Hl'. apply Hk in Hin as [<- _]. apply (Hsub l'); [done|].
  by apply (updateD3Stage_calls _ _ _ Hcalls').
Qed.

(** C11: The graph of the live plan has no dangling edge: whenever the text of every plan describes
    the plan with the same root, both ends of every edge (inside a plan, from a plan to the box
    of its stage, and from a remote stage) are nodes that are set as well. *)
Theorem plan_graph_closed `{PlanParser} (q : query_info) (out : stage) calls :
  outputStage q = Some out → roots_agree out → plan_calls q = Ok calls →
  ∀ v w, (v, w) ∈ set_edges calls → v ∈ set_nodes calls ∧ w ∈ set_nodes calls.
Proof. apply plan_calls_closed. Qed.

(** ** Remote sources *)

(** The remote sources of a plan node are read back from the text that lists them: ids
    without commas or brackets, written as a list in brackets, give the same ids. *)
Theorem remote_sources_roundtrip (ids : list jstring) :
  ids ≠ [] → Forall (λ id, (COMMA ∉ id) ∧ (93%N ∉ id)) ids →
  parseRemoteSources (js "[" ++ JsString.join (js ", ") ids ++ js "]") = ids.
Proof.
  intros Hne Hids. unfold parseRemoteSources.
  change (js "[" ++ JsString.join (js ", ") ids ++ js "]") with ([] ++ 91%N :: (JsString.join (js ", ") ids ++ [93%N])).
  rewrite (replace_first_char 91%N [] []) by apply not_elem_of_nil. cbn [app].
  assert (93%N ∉ JsString.join (js ", ") ids) as Hj.
  { clear Hne. induction Hids as [|id ids [_ Hid] _ IH]; [apply not_elem_of_nil|].
    destruct ids as [|id' ids]; [done|]. rewrite join_cons by done.
    rewrite !not_elem_of_app. split_and!; [done| |done]. by apply (bool_decide_unpack _). }
  change (js "]") with [93%N]. rewrite (replace_first_char 93%N [] (JsString.join (js ", ") ids) []) by done. cbn [app].
  rewrite app_nil_r. apply split_join_sep; [done|]. eapply Forall_impl; [done|]. by intros id [? _].
Qed.

(** ** The page *)

Section page.
Context `{PlanParser, DagreRender, PlanBox}.
Context (embedded : bool) (pathname : jstring).
Let P := lp_poller embedded pathname.

Lemma crashed_preserved : @preserved _ _ P (λ s, lp_crashed s = true).
Proof.
  unfold preserved. split_and!; [done| | |done].
  - intros q s Hs. cbn. unfold lp_on_response. by rewrite Hs.
  - intros now s Hs. cbn. unfold lp_on_failure. by rewrite Hs.
Qed.

Lemma update_no_output s q :
  lp_query s = Some q → outputStage q = None → is_ok (lp_update embedded pathname s) = false.
Proof.
  intros Hq Ho. unfold lp_update. destruct (lp_render embedded pathname s); [|done]. cbn [mbind res_bind].
  unfold lp_didUpdate. cbn [lp_query set_svg]. rewrite Hq.
  unfold plan_calls, getPlanStages. by rewrite Ho.
Qed.

(** The live plan page does not survive a query that has no output stage yet: the answer
    raises an exception while the graph is updated, the page disappears, and it stays away
    whatever the coordinator answers later, although the page itself announces that the plan
    will appear when the query starts running. *)
Theorem live_plan_lost_without_output_stage p q p' :
  outputStage q = None →
  rtc (@step _ _ P) (@answer _ _ P (@on_response _ _ P q) p) p' →
  lp_crashed (comp p') = true.
Proof.
  intros Ho. apply (@preserved_forever _ _ P (λ s, lp_crashed s = true)); [apply crashed_preserved|].
  apply (@preserved_answer _ _ P (λ s, lp_crashed s = true)). cbn. unfold lp_on_response.
  destruct (lp_crashed (comp p)) eqn:E; [done|].
  pose proof (update_no_output (lp_set_response q (comp p)) q eq_refl Ho) as Hu.
  by destruct (lp_update _ _ _).
Qed.

(** An update that succeeds has drawn the graph, and has the canvas sized if it was selected. *)
Lemma update_svg s s' q :
  lp_query s = Some q → lp_update embedded pathname s = Ok s' →
  ∃ calls size svg,
    plan_calls q = Ok calls ∧
    lp_graph s' = add_calls (lp_graph s) calls ∧
    dagre_render (has_group svg) (lp_graph s') = Ok size ∧
    lp_svg s' = Some (option_map (fit_canvas (lp_ended s) size) svg) ∧
    svg = match lp_svg s with
          | None => initializeSvg (if canvas_present s then Some empty_canvas else None)
          | Some svg => svg
          end.
Proof.
  intros Hq Hu. unfold lp_update in Hu. apply res_bind_ok in Hu as (v & _ & Hu).
  unfold lp_didUpdate in Hu. cbv zeta in Hu. cbn [lp_query set_svg] in Hu. rewrite Hq in Hu.
  apply res_bind_ok in Hu as (calls & Hc & Hu). unfold draw_plan in Hu.
  apply res_bind_ok in Hu as (size & Hd & Hu). destruct (canvas_present _); [|done].
  injection Hu as <-. eexists calls, size, _. split_and!; try done.
Qed.

Lemma svg_kept s s' : lp_svg s = Some None → lp_update embedded pathname s = Ok s' → lp_svg s' = Some None.
Proof.
  intros Hs Hu. destruct (lp_query s) as [q|] eqn:Hq.
  - destruct (update_svg s s' q Hq Hu) as (calls & size & svg & _ & _ & _ & Hv & Es).
    rewrite Hs in Es. by rewrite Hv, Es.
  - unfold lp_update in Hu. apply res_bind_ok in Hu as (v & _ & Hu).
    unfold lp_didUpdate in Hu. cbn [lp_query set_svg] in Hu. rewrite Hq, Hs in Hu. by injection Hu as <-.
Qed.

Lemma svg_preserved : @preserved _ _ P (λ s, lp_svg s = Some None).
Proof.
  unfold preserved. split_and!; [done| | |done].
  - intros q s Hs. cbn. unfold lp_on_response. destruct (lp_crashed s); [done|].
    destruct (lp_update _ _ _) eqn:E; [|done]. simpl. by eapply svg_kept in E.
  - intros now s Hs. cbn. unfold lp_on_failure. destruct (lp_crashed s); [done|].
    destruct (lp_update _ _ _) eqn:E; [|done]. simpl. by eapply svg_kept in E.
Qed.

(** A selected canvas has a group. *)
Definition grouped (s : lp_state) : Prop := ∀ c, lp_svg s = Some (Some c) → 0 < cv_groups c.

Lemma fit_canvas_groups ended size c : cv_groups (fit_canvas ended size c) = cv_groups c.
Proof. unfold fit_canvas. by destruct ended. Qed.

Lemma grouped_update s s' : grouped s → lp_update embedded pathname s = Ok s' → grouped s'.
Proof.
  intros Hg Hu c Hc. destruct (lp_query s) as [q|] eqn:Hq.
  - destruct (update_svg s s' q Hq Hu) as (calls & size & svg & _ & _ & _ & Hv & Es).
    rewrite Hv in Hc. destruct svg as [c0|]; [|done]. injection Hc as <-. rewrite fit_canvas_groups.
    destruct (lp_svg s) as [svg|] eqn:El; [subst svg; by apply Hg|].
    destruct (canvas_present s); [|done]. injection Es as ->. simpl. lia.
  - unfold lp_update in Hu. apply res_bind_ok in Hu as (v & _ & Hu).
    unfold lp_didUpdate in Hu. cbn [lp_query set_svg] in Hu. rewrite Hq in Hu. injection Hu as <-.
    cbn in Hc. unfold canvas_present in Hc. rewrite Hq in Hc.
    destruct (lp_svg s) as [svg|] eqn:El; [|done]. injection Hc as ->. by apply Hg.
Qed.

Lemma grouped_invariant : @state_invariant _ _ P grouped.
Proof.
  unfold state_invariant, preserved. split_and!; [done|done| | |done].
  - intros q s Hs. cbn. unfold lp_on_response. destruct (lp_crashed s); [done|].
    destruct (lp_update _ _ _) eqn:E; [|done]. simpl. by eapply grouped_update in E.
  - intros now s Hs. cbn. unfold lp_on_failure. destruct (lp_crashed s); [done|].
    destruct (lp_update _ _ _) eqn:E; [|done]. simpl. by eapply grouped_update in E.
Qed.

(** C12: Once the canvas of the live plan page has been found, every answer that the page
    survives is drawn: the calls for the document extend the graph, the graph is laid out in
    the group of the canvas, and the canvas gets its size.  While the query runs it is 100
    pixels larger than the graph in both directions; for the final document it fits the page,
    and zooms between the scale at which the graph fits and 1. *)
Theorem plan_drawn p q :
  @reachable _ _ P p → lp_svg (comp p) ≠ Some None →
  lp_crashed (comp (@answer _ _ P (@on_response _ _ P q) p)) = false →
  let s := comp p in
  let s' := comp (@answer _ _ P (@on_response _ _ P q) p) in
  ∃ calls w h c,
    plan_calls q = Ok calls ∧ lp_graph s' = add_calls (lp_graph s) calls ∧
    dagre_render true (lp_graph s') = Ok (w, h) ∧ lp_svg s' = Some (Some c) ∧ cv_click c = true ∧
    if finalQueryInfo q then
      cv_width c = Some (inner_length box_width) ∧ cv_height c = Some (inner_length box_height) ∧
      let k := initialScale (inner_length box_width) (inner_length box_height)
                 (nadd w (of_Z 100)) (nadd h (of_Z 100)) in
      ∃ z, cv_zoom c = Some z ∧ scaleExtent z = (k, of_Z 1) ∧ z_k z = k
    else cv_width c = Some (nadd w (of_Z 100)) ∧ cv_height c = Some (nadd h (of_Z 100)).
Proof.
  intros Hp Hsvg. pose proof (@reachable_invariant _ _ P grouped p grouped_invariant Hp) as Hg.
  rewrite (@comp_answer _ _ P). cbn [on_response lp_poller P]. unfold lp_on_response. destruct (lp_crashed (comp p)) eqn:Ec; [cbn; congruence|].
  destruct (lp_update embedded pathname (lp_set_response q (comp p))) as [s'|] eqn:Hu; [|done].
  cbn [outcome_state]. intros _.
  destruct (update_svg (lp_set_response q (comp p)) s' q eq_refl Hu) as (calls & [w h] & svg & Hc & Hgr & Hd & Hv & Es).
  cbn [lp_svg lp_set_response canvas_present lp_query lp_initialized] in Es.
  assert (∃ c, svg = Some c ∧ 0 < cv_groups c) as (c & -> & Hpos).
  { destruct (lp_svg (comp p)) as [[c|]|] eqn:El; [|done|]; subst svg; eexists; (split; [done|]).
    - by apply Hg. - simpl. lia. }
  exists calls, w, h, (fit_canvas (finalQueryInfo q) (w, h) c). split_and!; try done.
  - cbn [has_group] in Hd. apply Nat.ltb_lt in Hpos. by rewrite Hpos in Hd.
  - unfold fit_canvas. by destruct (finalQueryInfo q).
  - unfold fit_canvas. destruct (finalQueryInfo q); cbn [fst snd]; [|done].
    split_and!; try done. cbv zeta. eexists. split_and!; done.
Qed.

(** If the first request of the live plan page fails, the page keeps an empty selection of a
    canvas that is not there yet, and never selects the canvas again: it is never sized, its
    stages cannot be clicked and it does not zoom. *)
Theorem canvas_lost_after_first_failure now p' :
  rtc (@step _ _ P) (@answer _ _ P (@on_failure _ _ P now) (@mounted _ _ P)) p' →
  lp_svg (comp p') = Some None.
Proof. by apply (@preserved_forever _ _ P (λ s, lp_svg s = Some None)); [apply svg_preserved|]. Qed.
End page.

(** ** Witnesses *)

(** A parser for witnesses: a text is the id of a node that reads the remote stage 1, and has
    one child. *)
Definition sample_parser : PlanParser := λ text,
  Ok (PlanJson text (js "RemoteSource") [(js "sourceFragmentIds", js "[1]")] []
        [PlanJson (text ++ js "c") (js "TableScan") [] [js "Distribution: PARTITIONED"] []]).

(** A layout for witnesses: 100 by 200 pixels for each node, nothing without a group. *)
Definition sample_dagre : DagreRender := λ C group g,
  if group then Ok (of_Z 100, nmul (of_Z 200) (of_nat (length (set_nodes (calls g))))) else Ok (zero, zero).
Definition sample_box : PlanBox := {| box_width := js "850px"; box_height := js "450.5px" |}.

Lemma plan_flattened_witness :
  let n := PlanJson (js "1") (js "Output") [] [] [PlanJson (js "2") (js "Values") [] [] []] in
  flattenNode n [] = map (λ m, (pj_id m, {|
    ni_id := pj_id m; ni_name := pj_name m; ni_descriptor := pj_descriptor m;
    ni_details := pj_details m; ni_sources := map pj_id (pj_children m) |})) (preorder n).
Proof.
  apply (plan_flattened (PlanJson (js "1") (js "Output") [] [] [PlanJson (js "2") (js "Values") [] [] []])).
  by apply (bool_decide_unpack _).
Defined.

Definition sample_calls : list (graph_call plan_label) :=
  match @plan_calls sample_parser (sample_info (js "RUNNING") (Some sample_stage) false) with
  | Ok l => l | Throw _ => []
  end.

Lemma plan_graph_closed_witness :
  length (set_edges sample_calls) = 6 ∧
  ∀ v w, (v, w) ∈ set_edges sample_calls → v ∈ set_nodes sample_calls ∧ w ∈ set_nodes sample_calls.
Proof.
  split; [vm_compute; reflexivity|].
  apply (@plan_graph_closed sample_parser (sample_info (js "RUNNING") (Some sample_stage) false) sample_stage).
  - reflexivity.
  - unfold roots_agree. repeat constructor; intros fr json [= <-] [= <-]; reflexivity.
  - vm_compute. reflexivity.
Defined.

Lemma remote_sources_roundtrip_witness : parseRemoteSources (js "[3, 14]") = [js "3"; js "14"].
Proof.
  apply (remote_sources_roundtrip [js "3"; js "14"]).
  - discriminate.
  - repeat constructor; by apply (bool_decide_unpack _).
Defined.

Lemma live_plan_lost_without_output_stage_witness :
  let P := @lp_poller sample_parser sample_dagre sample_box false (js "/ui/plan.html") in
  let q := sample_info (js "QUEUED") None false in
  lp_crashed (comp (@answer _ _ P (@on_response _ _ P q) (@mounted _ _ P))) = true.
Proof.
  apply (@live_plan_lost_without_output_stage sample_parser sample_dagre sample_box false (js "/ui/plan.html") 
    (@mounted _ _ (@lp_poller sample_parser sample_dagre sample_box false (js "/ui/plan.html"))) (sample_info (js "QUEUED") None false)).
  - reflexivity.
  - apply rtc_refl.
Defined.

Lemma plan_drawn_witness :
  let P := @lp_poller sample_parser sample_dagre sample_box false (js "/ui/plan.html") in
  let q := sample_info (js "FINISHED") (Some sample_stage) true in
  let s' := comp (@answer _ _ P (@on_response _ _ P q) (@mounted _ _ P)) in
  ∃ calls w h c,
    @plan_calls sample_parser q = Ok calls ∧ lp_graph s' = add_calls (lp_graph (comp (@mounted _ _ P))) calls ∧
    @dagre_render sample_dagre _ true (lp_graph s') = Ok (w, h) ∧ lp_svg s' = Some (Some c) ∧ cv_click c = true ∧
    cv_width c = Some (of_Z 800) ∧ cv_height c = Some (of_Z 400) ∧
    let k := initialScale (of_Z 800) (of_Z 400) (nadd w (of_Z 100)) (nadd h (of_Z 100)) in
    ∃ z, cv_zoom c = Some z ∧ scaleExtent z = (k, of_Z 1) ∧ z_k z = k.
Proof.
  cbv zeta.
  apply (@plan_drawn sample_parser sample_dagre sample_box false (js "/ui/plan.html")
    (@mounted _ _ (@lp_poller sample_parser sample_dagre sample_box false (js "/ui/plan.html")))
    (sample_info (js "FINISHED") (Some sample_stage) true)).
  - apply rtc_refl.
  - discriminate.
  - vm_compute. reflexivity.
Defined.

Lemma canvas_lost_after_first_failure_witness :
  let P := @lp_poller sample_parser sample_dagre sample_box false (js "/ui/plan.html") in
  lp_svg (comp (@answer _ _ P (@on_failure _ _ P 0%Z) (@mounted _ _ P))) = Some None.
Proof.
  apply (@canvas_lost_after_first_failure sample_parser sample_dagre sample_box false (js "/ui/plan.html") 0%Z). apply rtc_refl.
Defined.
