(* ===== verification/QueryDetail.v ===== *)
(** * The query page (components/QueryDetail.jsx): task lists, charts, stack traces

    The parts of the page that compute: the order and filters of the task list,
    the histograms and bar charts of a stage, the text of a stack trace, session
    properties and resource estimates.  The views and the refresh loop are in
    QueryDetailView. *)

From S2P Require Import Prelude JsString JsNumber JsNumberFacts JsCollections Format Stage QueryInfo.

(** ** TaskList *)

Definition removeQueryId (id : jstring) : jstring :=
  match indexOf (js ".") id with
  | Some pos => substring_from (pos + 1) id
  | None => id
  end.

(** The loop of [compareTaskId] over the parts of both ids; the second list is at least as
    long as the first. *)
Fixpoint compare_parts (a b : list jstring) : Z :=
  match a, b with
  | x :: a', y :: b' =>
    let anum := parseInt x in
    let bnum := parseInt y in
    if negb (neqb anum bnum) then (if ngtb anum bnum then 1 else -1)%Z
    else compare_parts a' b'
  | _, _ => 0%Z
  end.

Definition compareTaskId (taskA taskB : jstring) : Z :=
  let a := JsString.split (js ".") (removeQueryId taskA) in
  let b := JsString.split (js ".") (removeQueryId taskB) in
  if length b <? length a then 1%Z else compare_parts a b.

(** [showPortNumbers]: whether some host runs tasks on two ports.  A host that has the name of
    a property of every object is found with a value that is not its port. *)
Fixpoint port_conflict `{UrlParser} (ts : list task) (hostToPortNumber : list (jstring * jstring)) : res bool :=
  match ts with
  | [] => Ok false
  | t :: ts' =>
    hostname ← getHostname (self t);
    port ← getPort (self t);
    if match map_get hostname hostToPortNumber with
       | Some p => negb (jeqb p port)
       | None => bool_decide (hostname ∈ prototype_keys)
       end
    then Ok true
    else port_conflict ts' (map_set hostname port hostToPortNumber)
  end.
Definition showPortNumbers `{UrlParser} (ts : list task) : res bool := port_conflict ts [].

Definition formatState (state : jstring) (fullyBlocked : bool) : jstring :=
  if fullyBlocked && jeqb state (js "RUNNING") then js "BLOCKED" else state.

(** ** Task filters *)

Inductive task_filter := TF_ALL | TF_PLANNED | TF_RUNNING | TF_FINISHED | TF_FAILED.
#[export] Instance task_filter_eq_dec : EqDecision task_filter. Proof. solve_decision. Defined.

Definition TASK_FILTER (f : task_filter) (state : jstring) : bool :=
  match f with
  | TF_ALL => true
  | TF_PLANNED => jeqb state (js "PLANNED")
  | TF_RUNNING => jeqb state (js "RUNNING")
  | TF_FINISHED => jeqb state (js "FINISHED")
  | TF_FAILED => jeqb state (js "FAILED") || jeqb state (js "ABORTED") || jeqb state (js "CANCELED")
  end.

(** ** Histograms *)

Definition HISTOGRAM_WIDTH : number := of_Z 175.
Definition BAR_CHART_WIDTH : number := of_Z 800.

(** [Math.min.apply(null, data)] and [Math.max.apply(null, data)]; [null] counts as 0. *)
Definition min_of (data : list (option number)) : number :=
  fold_left (λ m x, nmin m (num_of_nullable x)) data infinity.
Definition max_of (data : list (option number)) : number :=
  fold_left (λ m x, nmax m (num_of_nullable x)) data neg_infinity.

(** [for (let i = 0; i < bound; i++) push(0)]: as many zeros as integers below the bound,
    at most one more than the chart is wide. *)
Fixpoint zeros_below (fuel i : nat) (bound : number) : list (option nat) :=
  match fuel with
  | O => []
  | S fuel' => if nltb (of_nat i) bound then Some 0 :: zeros_below fuel' (S i) bound else []
  end.

(** [data[bucket] = data[bucket] + 1]: beyond the end, [undefined + 1] is NaN ([None]) and the
    array grows; an index that is not a natural number is not an element. *)
Definition bump (bucket : number) (counts : list (option nat)) : list (option nat) :=
  match to_integer bucket with
  | Some z =>
    if (z <? 0)%Z then counts
    else
      let i := Z.to_nat z in
      if i <? length counts then alter (option_map S) i counts
      else counts ++ replicate (i - length counts) None ++ [None]
  | None => counts
  end.

Record histogram := {
  h_target : jstring;
  h_data : list (option nat);
  h_barWidth : number;
  h_offsets : list jstring;
}.

Definition histogram_data (inputData : list (option number)) : list (option nat) :=
  let numBuckets := nmin HISTOGRAM_WIDTH (nsqrt (of_nat (length inputData))) in
  let dataMin := min_of inputData in
  let bucketSize := ndiv (nsub (max_of inputData) dataMin) numBuckets in
  if neqb bucketSize zero then [Some (length inputData)]
  else fold_left (λ counts x, bump (nfloor (ndiv (nsub (num_of_nullable x) dataMin) bucketSize)) counts)
         inputData (zeros_below 177 0 (nadd numBuckets (of_Z 1))).

Definition renderHistogram (target : jstring) (inputData : list (option number)) (numberFormatter : number → jstring)
  : histogram :=
  let numBuckets := nmin HISTOGRAM_WIDTH (nsqrt (of_nat (length inputData))) in
  let dataMin := min_of inputData in
  let bucketSize := ndiv (nsub (max_of inputData) dataMin) numBuckets in
  let data := histogram_data inputData in {|
  h_target := target; h_data := data; h_barWidth := ndiv HISTOGRAM_WIDTH (of_nat (length data));
  h_offsets := map (λ i, numberFormatter (nadd dataMin (nmul (of_nat i) bucketSize)) ++ js "-"
                         ++ numberFormatter (nadd dataMin (nmul (of_nat (S i)) bucketSize)))
                   (seq 0 (length data)) |}.

(** ** StageSummary *)

Record summary_state := {
  expanded : bool;
  lastRender : option Z;
  taskFilter : task_filter;
}.
Definition summary_constructor : summary_state :=
  {| expanded := false; lastRender := None; taskFilter := TF_ALL |}.

Definition getExpandedIcon (s : summary_state) : jstring :=
  if expanded s then js "glyphicon-chevron-up" else js "glyphicon-chevron-down".
Definition getExpandedStyle (s : summary_state) : list (jstring * jstring) :=
  if expanded s then [] else [(js "display", js "none")].
Definition toggleExpanded (s : summary_state) : summary_state :=
  {| expanded := negb (expanded s); lastRender := lastRender s; taskFilter := taskFilter s |}.
Definition handleTaskFilterClick (f : task_filter) (s : summary_state) : summary_state :=
  {| expanded := expanded s; lastRender := lastRender s; taskFilter := f |}.

Record bar_chart := {
  b_target : jstring;
  b_data : list (option number);
  b_barWidth : number;
  b_offsets : list jstring;
}.
Inductive chart := Histogram (h : histogram) | BarChart (b : bar_chart).

(** [componentDidUpdate]: sorts the tasks of the stage, and redraws the charts at most once
    per second.  The result is the charts that are drawn and the new state. *)
Definition summary_didUpdate `{JsSort} (now : Z) (st : stage) (s : summary_state) : list chart * summary_state :=
  let ts := js_sort (λ a b, nsub (getTaskNumber (taskId a)) (getTaskNumber (taskId b))) (tasks st) in
  let scheduledTimes := map (λ t, parseDuration (t_totalScheduledTime t)) ts in
  let cpuTimes := map (λ t, parseDuration (t_totalCpuTime t)) ts in
  if match lastRender s with None => true | Some last => (1000 <=? now - last)%Z end then
    let id := toString (getStageNumber (stageId st)) in
    let bars target data := BarChart {|
      b_target := target; b_data := data;
      b_barWidth := ndiv BAR_CHART_WIDTH (of_nat (length (tasks st)));
      b_offsets := map (λ i, id ++ js "." ++ dec_nat i) (seq 0 (length (tasks st))) |} in
    ([Histogram (renderHistogram (js "#scheduled-time-histogram-" ++ id) scheduledTimes formatDuration);
      Histogram (renderHistogram (js "#cpu-time-histogram-" ++ id) cpuTimes formatDuration)]
     ++ (if expanded s then
           [bars (js "#scheduled-time-bar-chart-" ++ id) scheduledTimes;
            bars (js "#cpu-time-bar-chart-" ++ id) cpuTimes]
         else []),
     {| expanded := expanded s; lastRender := Some now; taskFilter := taskFilter s |})
  else ([], s).

(** The tasks that [renderTaskList] lists. *)
Definition listed_tasks (st : stage) (s : summary_state) : list task :=
  List.filter (λ t, TASK_FILTER (taskFilter s) (t_state t)) (if expanded s then tasks st else []).

(** ** Stack traces *)

Definition failureInfoToString (t : failure_info) : jstring :=
  match fi_message t with
  | Some message => fi_type t ++ js ": " ++ message
  | None => fi_type t
  end.

(** The loop counts equal frames from the end of both stacks. *)
Fixpoint count_shared (a b : list jstring) : nat :=
  match a, b with
  | x :: a', y :: b' => if jeqb x y then S (count_shared a' b') else 0
  | _, _ => 0
  end.
Definition countSharedStackFrames (stack parentStack : list jstring) : nat :=
  count_shared (reverse stack) (reverse parentStack).

(** The lines of one stack; a parent without a stack ([undefined]) makes the count throw. *)
Definition stack_lines (linePrefix : jstring) (stack : list jstring) (parentStack : option (list jstring)) : res jstring :=
  parent ← deref parentStack;
  let sharedStackFrames := countSharedStackFrames stack parent in
  Ok (concat (map (λ frame, linePrefix ++ [TAB] ++ js "at " ++ frame ++ [NEWLINE])
                  (take (length stack - sharedStackFrames) stack))
      ++ (if sharedStackFrames =? 0 then []
          else linePrefix ++ [TAB] ++ js "... " ++ dec_nat sharedStackFrames ++ js " more" ++ [NEWLINE])).

Fixpoint formatStackTraceHelper (info : failure_info) (parentStack : option (list jstring))
  (prefix linePrefix : jstring) : res jstring :=
  match info with
  | FailureInfo _ _ stack suppressed cause =>
    let s := linePrefix ++ prefix ++ failureInfoToString info ++ [NEWLINE] in
    frames ← match stack with
             | Some st => stack_lines linePrefix st parentStack
             | None => Ok []
             end;
    below ← match suppressed with
            | Some l => (fix all l := match l with
                                      | [] => Ok []
                                      | x :: l' =>
                                        a ← formatStackTraceHelper x stack (js "Suppressed: ") (linePrefix ++ [TAB]);
                                        b ← all l';
                                        Ok (a ++ b)
                                      end) l
            | None => Ok []
            end;
    caused ← match cause with
             | Some c => formatStackTraceHelper c stack (js "Caused by: ") linePrefix
             | None => Ok []
             end;
    Ok (s ++ frames ++ below ++ caused)
  end.

Definition formatStackTrace (info : failure_info) : res jstring :=
  formatStackTraceHelper info (Some []) [] [].

(** ** Session *)

(** [renderSessionProperties]: the lines [property=value] and [catalog.property=value]. *)
Definition session_properties (s : session_info) : list jstring :=
  map (λ '(k, v), k ++ js "=" ++ v) (obj_order (systemProperties s))
  ++ concat (map (λ '(catalog, props), map (λ '(k, v), catalog ++ js "." ++ k ++ js "=" ++ v) (obj_order props))
                 (obj_order (catalogProperties s))).

(** [resource.match(/([A-Z])/g)], and one replacement per capital: the first occurrence of that
    letter becomes an underscore and the small letter. *)
Definition lower_letter (c : N) : N := (c + 32)%N.
Definition snakeCased (resource : jstring) : jstring :=
  fold_left (λ s c, replace_first [c] [UNDERSCORE; lower_letter c] s)
    (List.filter is_upper resource) resource.
Definition resource_estimates (s : session_info) : list jstring :=
  map (λ '(k, v), snakeCased k ++ js "=" ++ v) (obj_order (resourceEstimates s)).
