(* ===== verification/QueryDetailFacts.v ===== *)
(** * Correctness of the parts of the query page *)

From S2P Require Import Prelude JsString JsNumber JsNumberFacts JsCollections Format FormatFacts Stage QueryInfo Samples StageDetailFacts QueryDetail.

(** ** Task ids *)

(** The lexicographic order on the numbers of a task id. *)
Fixpoint lex_compare (a b : list N) : Z :=
  match a, b with
  | x :: a', y :: b' => match (x ?= y)%N with Lt => -1 | Gt => 1 | Eq => lex_compare a' b' end
  | _, _ => 0
  end%Z.

Definition task_id (q : jstring) (parts : list N) : jstring := q ++ js "." ++ JsString.join (js ".") (map dec parts).

Lemma removeQueryId_app q s : DOT ∉ q → removeQueryId (q ++ js "." ++ s) = s.
Proof.
  intros Hq. unfold removeQueryId. change (js ".") with [DOT].
  change (q ++ [DOT] ++ s) with (q ++ DOT :: s). rewrite indexOf_char_first by done.
  unfold substring_from. rewrite Nat.add_1_r. change (DOT :: s) with ([DOT] ++ s). rewrite app_assoc.
  rewrite drop_app_ge by (rewrite length_app; simpl; lia). rewrite length_app. simpl.
  by rewrite Nat.add_1_r, Nat.sub_diag.
Qed.

Lemma compare_parts_dec a b :
  length a = length b →
  Forall (λ n, (n < 2 ^ 53)%N) a → Forall (λ n, (n < 2 ^ 53)%N) b →
  compare_parts (map dec a) (map dec b) = lex_compare a b.
Proof.
  revert b. induction a as [|x a IH]; intros [|y b] Hl Ha Hb; try done.
  apply Forall_cons in Ha as [Hx Ha]. apply Forall_cons in Hb as [Hy Hb].
  cbn [map compare_parts lex_compare]. rewrite !parseInt_dec, neqb_of_N by done.
  assert (∀ n, (n < 2 ^ 53)%N → (Z.abs (Z.of_N n) < 2 ^ 53)%Z) as Hz
    by (intros; change (2 ^ 53)%Z with (Z.of_N (2 ^ 53)); lia).
  unfold ngtb. change (SFltb ?u ?v) with (nltb u v).
  destruct (N.compare_spec x y) as [->|Hlt|Hgt].
  - rewrite N.eqb_refl. cbn [negb]. apply IH; [simpl in Hl; lia|done..].
  - destruct (N.eqb_spec x y); [lia|]. cbn [negb].
    pose proof (nltb_of_Z (Z.of_N y) (Z.of_N x) (Hz _ Hy) (Hz _ Hx)) as Hn.
    unfold nltb in Hn |- *. rewrite Hn. destruct (Z.ltb_spec (Z.of_N y) (Z.of_N x)); [lia|done].
  - destruct (N.eqb_spec x y); [lia|]. cbn [negb].
    pose proof (nltb_of_Z (Z.of_N y) (Z.of_N x) (Hz _ Hy) (Hz _ Hx)) as Hn.
    unfold nltb in Hn |- *. rewrite Hn. destruct (Z.ltb_spec (Z.of_N y) (Z.of_N x)); [done|lia].
Qed.

Lemma split_parts parts : parts ≠ [] → JsString.split (js ".") (JsString.join (js ".") (map dec parts)) = map dec parts.
Proof.
  intros Hne. change (js ".") with [DOT]. apply split_join; [by destruct parts|].
  apply Forall_forall. intros p (n & -> & _)%list_elem_of_fmap. by apply dec_no_char.
Qed.

(** The task list is sorted numerically: two task ids of the same form (a query id without a
    dot, then numbers) compare as their sequences of numbers compare, so that task 10 comes
    after task 9. *)
Theorem task_order_numeric (q1 q2 : jstring) (a b : list N) :
  DOT ∉ q1 → DOT ∉ q2 → a ≠ [] → length a = length b →
  Forall (λ n, (n < 2 ^ 53)%N) a → Forall (λ n, (n < 2 ^ 53)%N) b →
  compareTaskId (task_id q1 a) (task_id q2 b) = lex_compare a b.
Proof.
  intros Hq1 Hq2 Hne Hl Ha Hb. unfold compareTaskId, task_id.
  rewrite !removeQueryId_app by done.
  assert (b ≠ []) by (destruct a, b; done). rewrite !split_parts by done.
  rewrite !length_map, Hl, Nat.ltb_irrefl. by apply compare_parts_dec.
Qed.

(** The comparator of the task list is not consistent on ids of different forms: if one id
    continues the other, one order of the arguments reports them equal and the other does not. *)
Theorem task_order_inconsistent (q : jstring) (a c : list N) :
  DOT ∉ q → a ≠ [] → c ≠ [] → Forall (λ n, (n < 2 ^ 53)%N) a →
  compareTaskId (task_id q a) (task_id q (a ++ c)) = 0%Z ∧
  compareTaskId (task_id q (a ++ c)) (task_id q a) = 1%Z.
Proof.
  intros Hq Ha Hc Hb. unfold compareTaskId, task_id. rewrite !removeQueryId_app by done.
  rewrite !split_parts by (done || (intros [??]%app_nil; done)). rewrite !length_map, length_app.
  assert (0 < length c) by (destruct c; [done|simpl; lia]).
  rewrite (proj2 (Nat.ltb_ge _ _)), (proj2 (Nat.ltb_lt _ _)) by lia. split; [|done].
  rewrite map_app. clear Ha. induction Hb as [|x a Hx _ IH]; cbn [map app compare_parts]; [by destruct c|].
  rewrite !parseInt_dec, neqb_of_N, N.eqb_refl by done. apply IH.
Qed.

(** ** Ports *)

Section ports.
Context `{UrlParser}.

(** The host and port of a task. *)
Definition host_port (t : task) : res (jstring * jstring) :=
  h ← getHostname (self t); p ← getPort (self t); Ok (h, p).

(** Two of the entries have the same host and different ports. *)
Definition conflict (l : list (jstring * jstring)) : Prop :=
  ∃ h p1 p2, (h, p1) ∈ l ∧ (h, p2) ∈ l ∧ p1 ≠ p2.

Lemma port_conflict_spec ts m hps :
  NoDup (map_keys m) → Forall2 (λ t hp, host_port t = Ok hp) ts hps →
  Forall (λ hp, hp.1 ∉ prototype_keys) hps →
  ∃ b, port_conflict ts m = Ok b ∧
    (b = true ↔ ∃ h p1 p2, (h, p1) ∈ m ++ hps ∧ (h, p2) ∈ hps ∧ p1 ≠ p2).
Proof.
  intros Hm H2. revert m Hm. induction H2 as [|t [h p] ts hps Ht _ IH]; intros m Hm Hproto.
  { exists false. split; [done|]. split; [done|]. intros (h & p1 & p2 & _ & Hin & _). inversion Hin. }
  apply Forall_cons in Hproto as [Hh Hproto]. simpl in Hh.
  unfold host_port in Ht. apply res_bind_ok in Ht as (h' & Hh' & Ht). apply res_bind_ok in Ht as (p' & Hp' & [= -> ->]).
  cbn [port_conflict]. rewrite Hh'. cbn [mbind res_bind]. rewrite Hp'. cbn [mbind res_bind].
  destruct (map_get h m) as [p0|] eqn:E.
  - destruct (jeqb p0 p) eqn:Ep; cbn [negb].
    + apply jeqb_eq in Ep as ->. destruct (IH (map_set h p m)) as (b & -> & Hb);
        [by apply map_set_NoDup|done|]. exists b. split; [done|]. rewrite Hb.
      apply map_get_elem in E as Hin; [|done].
      assert (∀ x, x ∈ map_set h p m ↔ x ∈ m) as Hsame.
      { intros [k v]. rewrite <-!map_get_elem by (done || by apply map_set_NoDup).
        destruct (decide (k = h)) as [->|]; [by rewrite map_get_set_eq, E|by rewrite map_get_set_ne]. }
      split.
      * intros (h1 & p1 & p2 & H1 & H2 & Hne). exists h1, p1, p2.
        rewrite elem_of_app, Hsame in H1. rewrite elem_of_app, !elem_of_cons. tauto.
      * intros (h1 & p1 & p2 & H1 & H2 & Hne). rewrite elem_of_app, elem_of_cons in H1.
        apply elem_of_cons in H2 as [[= -> ->]|H2].
        -- destruct H1 as [H1|[[= ->]|H1]]; [|done|].
           ++ apply map_get_elem in H1; [congruence|done].
           ++ exists h, p, p1. rewrite elem_of_app, Hsame. auto.
        -- exists h1, p1, p2. rewrite elem_of_app, Hsame. destruct H1 as [H1|[[= -> ->]|H1]]; auto.
    + exists true. split; [done|]. split; [|done]. intros _. exists h, p0, p.
      apply map_get_elem in E; [|done]. split; [apply elem_of_app; by left|]. split; [apply list_elem_of_here|].
      intros ->. by rewrite jeqb_refl in Ep.
  - rewrite bool_decide_eq_false_2 by done. destruct (IH (map_set h p m)) as (b & -> & Hb);
      [by apply map_set_NoDup|done|]. exists b. split; [done|]. rewrite Hb.
    apply map_get_None in E. rewrite map_set_fresh by done. split.
    + intros (h1 & p1 & p2 & H1 & H2 & Hne). exists h1, p1, p2.
      rewrite <-app_assoc in H1. split_and!; [exact H1|by apply list_elem_of_further|done].
    + intros (h1 & p1 & p2 & H1 & H2 & Hne). rewrite <-app_assoc.
      apply elem_of_cons in H2 as [[= -> ->]|H2]; [|by exists h1, p1, p2].
      rewrite elem_of_app, elem_of_cons in H1. destruct H1 as [H1|[[= ->]|H1]]; [|done|].
      * destruct E. apply list_elem_of_fmap. by exists (h, p1).
      * exists h, p, p1. split; [apply elem_of_app; right; apply list_elem_of_here|]. auto.
Qed.

(** The task list shows port numbers exactly when they are needed: when two tasks run on the
    same host under different ports. *)
Theorem ports_shown_when_needed ts hps :
  Forall2 (λ t hp, host_port t = Ok hp) ts hps →
  Forall (λ hp, hp.1 ∉ prototype_keys) hps →
  ∃ b, showPortNumbers ts = Ok b ∧ (b = true ↔ conflict hps).
Proof.
  intros H2 Hp. apply (port_conflict_spec ts [] hps); [constructor|done..].
Qed.
End ports.

(** ** Stack traces *)

Lemma count_shared_spec a b :
  count_shared a b ≤ length a ∧ count_shared a b ≤ length b ∧
  take (count_shared a b) a = take (count_shared a b) b.
Proof.
  revert b. induction a as [|x a IH]; intros [|y b]; simpl; try (split_and!; [lia..|done]).
  destruct (jeqb x y) eqn:E; [|split_and!; [lia..|done]]. boolp. subst.
  destruct (IH b) as (? & ? & Ht). simpl. rewrite Ht. split_and!; [lia..|done].
Qed.

Lemma count_shared_max a b n :
  n ≤ length a → n ≤ length b → take n a = take n b → n ≤ count_shared a b.
Proof.
  revert b n. induction a as [|x a IH]; intros [|y b] [|n] Ha Hb Ht; simpl in *; try lia.
  injection Ht as -> Ht. rewrite jeqb_refl. apply le_n_S, IH; [lia|lia|done].
Qed.

Lemma take_reverse {A} n (l : list A) : n ≤ length l → take n (reverse l) = reverse (drop (length l - n) l).
Proof.
  intros Hn. rewrite <-(take_drop (length l - n) l) at 1. rewrite reverse_app, take_app_le.
  - rewrite take_ge; [done|]. rewrite length_reverse, length_drop. lia.
  - rewrite length_reverse, length_drop. lia.
Qed.

(** C32: A stack trace elides exactly the longest common tail of a stack and its parent: it
    prints one line for each of the first frames and, if there is a common tail, a last line
    with its length; the printed frames, followed by as many last frames of the parent as that
    line says, are the whole stack, and no longer tail is shared. *)
Theorem stack_trace_elision (linePrefix : jstring) (stack parent : list jstring) :
  ∃ printed n,
    stack_lines linePrefix stack (Some parent) =
      Ok (concat (map (λ frame, linePrefix ++ [TAB] ++ js "at " ++ frame ++ [NEWLINE]) printed)
          ++ if n =? 0 then [] else linePrefix ++ [TAB] ++ js "... " ++ dec_nat n ++ js " more" ++ [NEWLINE]) ∧
    n ≤ length parent ∧ stack = printed ++ drop (length parent - n) parent ∧
    (∀ m, m ≤ length stack → m ≤ length parent →
          drop (length stack - m) stack = drop (length parent - m) parent → m ≤ n).
Proof.
  set (n := countSharedStackFrames stack parent). exists (take (length stack - n) stack), n. split; [done|].
  destruct (count_shared_spec (reverse stack) (reverse parent)) as (H1 & H2 & H3).
  rewrite !length_reverse in *. fold (countSharedStackFrames stack parent) in *. fold n in H1, H2, H3.
  split_and!; [done| |].
  - rewrite !take_reverse in H3 by done. apply (f_equal reverse) in H3. rewrite !reverse_involutive in H3.
    rewrite <-H3. by rewrite take_drop.
  - intros m Hm1 Hm2 Hd. apply count_shared_max; rewrite ?length_reverse; [done..|].
    by rewrite !take_reverse, Hd.
Qed.

(** A failure that can be printed: where a cause or a suppressed failure has a stack, so has the
    failure it belongs to. *)
Fixpoint printable (info : failure_info) : bool :=
  match info with
  | FailureInfo _ _ stack suppressed cause =>
    let child c := printable c && (match stack, fi_stack c with None, Some _ => false | _, _ => true end) in
    match suppressed with Some l => forallb child l | None => true end
    && match cause with Some c => child c | None => true end
  end.

Section failure_induction.
Context (P : failure_info → Prop).
Hypothesis step : ∀ ty msg st sup cause,
  (∀ l, sup = Some l → Forall P l) → (∀ c, cause = Some c → P c) → P (FailureInfo ty msg st sup cause).
Fixpoint failure_tree_ind (f : failure_info) : P f.
Proof.
  destruct f as [ty msg st sup cause]. apply step.
  - destruct sup as [l|]; [|intros ? [=]]. intros l' [= <-].
    exact ((fix all l : Forall P l :=
      match l with
      | [] => Forall_nil_2 P
      | x :: l => Forall_cons_2 P x l (failure_tree_ind x) (all l)
      end) l).
  - destruct cause as [c|]; [|intros ? [=]]. intros c' [= <-]. apply failure_tree_ind.
Defined.
End failure_induction.

Lemma stack_trace_total_helper info parent prefix linePrefix :
  printable info = true → (fi_stack info ≠ None → parent ≠ None) →
  ∃ s, formatStackTraceHelper info parent prefix linePrefix = Ok s.
Proof.
  revert parent prefix linePrefix.
  induction info as [ty msg st sup cause IHs IHc] using failure_tree_ind.
  intros parent prefix linePrefix Hp Hst. cbn [printable] in Hp. apply andb_true_iff in Hp as [Hsup Hcause].
  assert (∀ c, printable c && (match st, fi_stack c with None, Some _ => false | _, _ => true end) = true →
    printable c = true ∧ (fi_stack c ≠ None → st ≠ None)) as Hchild.
  { intros c [? Hc]%andb_true_iff. split; [done|]. by destruct st, (fi_stack c). }
  cbn [formatStackTraceHelper].
  assert (∀ m : res jstring, (∃ x, m = Ok x) → ∀ k : jstring → res jstring, (∀ x, ∃ s, k x = Ok s) →
    ∃ s, m ≫= k = Ok s) as Hbind by (intros ? [x ->] k Hk; apply Hk).
  apply Hbind; [|intros a; apply Hbind; [|intros b; apply Hbind; [|eauto]]].
  - destruct st as [s|]; [|eauto]. destruct parent as [p|]; [unfold stack_lines; simpl; eauto|].
    by destruct Hst.
  - destruct sup as [l|]; [|eauto]. specialize (IHs l eq_refl).
    induction IHs as [|x l Hx _ IHl]; [eauto|]. cbn [forallb] in Hsup. apply andb_true_iff in Hsup as [Hx' Hl'].
    apply Hbind; [apply Hx; by apply Hchild|]. intros y. apply Hbind; [by apply IHl|]. eauto.
  - destruct cause as [c|]; [|eauto]. apply (IHc c eq_refl); by apply Hchild.
Qed.

(** The text of a failure is always produced when, along causes and suppressed failures, a
    failure with a stack hangs below a failure with a stack. *)
Theorem stack_trace_total info : printable info = true → ∃ s, formatStackTrace info = Ok s.
Proof. intros Hp. by apply stack_trace_total_helper. Qed.

(** ** Resource estimates *)

(** Every capital letter becomes an underscore and the small letter. *)
Definition snake (s : jstring) : jstring :=
  concat (map (λ c, if is_upper c then [UNDERSCORE; lower_letter c] else [c]) s).

Lemma snake_fold pre rest :
  Forall (λ c, is_upper c = false) pre →
  fold_left (λ s c, replace_first [c] [UNDERSCORE; lower_letter c] s) (List.filter is_upper rest) (pre ++ rest) =
  pre ++ snake rest.
Proof.
  revert pre. induction rest as [|c rest IH]; intros pre Hpre; [done|].
  unfold snake. cbn [List.filter map concat]. destruct (is_upper c) eqn:Ec.
  - cbn [fold_left]. rewrite replace_first_char.
    2: { intros Hin. rewrite Forall_forall in Hpre. apply Hpre in Hin. congruence. }
    rewrite app_assoc, IH, <-app_assoc; [done|]. apply Forall_app. split; [done|].
    unfold is_upper in Ec |- *. repeat constructor; unfold UNDERSCORE, lower_letter; apply andb_false_iff;
      apply andb_true_iff in Ec as [?%N.leb_le ?%N.leb_le]; right; apply N.leb_gt; lia.
  - change (pre ++ c :: rest) with (pre ++ [c] ++ rest). rewrite app_assoc, IH, <-app_assoc; [done|].
    apply Forall_app. split; [done|by constructor].
Qed.

(** The names of resource estimates are converted from camel case to snake case: the loop of
    first-occurrence replacements turns every capital letter, also a repeated one, into an
    underscore and the small letter, and leaves the rest as it is. *)
Theorem snake_case_correct (resource : jstring) :
  snakeCased resource =
  concat (map (λ c, if is_upper c then [UNDERSCORE; (c + 32)%N] else [c]) resource).
Proof. apply (snake_fold [] resource). constructor. Qed.

(** ** Redrawing *)

(** The charts of a stage are redrawn at most once per second: an update within a second of
    a redraw draws nothing and changes nothing, and the first update after a second redraws. *)
Theorem charts_throttled `{JsSort} (t1 t2 : Z) (st : stage) (s : summary_state) :
  (summary_didUpdate t1 st s).1 ≠ [] →
  ((t2 - t1 < 1000)%Z → summary_didUpdate t2 st (summary_didUpdate t1 st s).2 = ([], (summary_didUpdate t1 st s).2)) ∧
  ((1000 <= t2 - t1)%Z → (summary_didUpdate t2 st (summary_didUpdate t1 st s).2).1 ≠ []).
Proof.
  assert (∀ t s', (summary_didUpdate t st s').1 ≠ [] →
    (summary_didUpdate t st s').2 = {| expanded := expanded s'; lastRender := Some t; taskFilter := taskFilter s' |}) as Hdraw.
  { intros t s' Hne. unfold summary_didUpdate in *. cbv zeta in *. by destruct (match lastRender s' with None => _ | _ => _ end). }
  intros Hne. rewrite (Hdraw _ _ Hne). unfold summary_didUpdate. cbv zeta. cbn [lastRender expanded taskFilter]. split.
  - intros Hlt. by rewrite (proj2 (Z.leb_gt _ _)) by lia.
  - intros Hge. by rewrite (proj2 (Z.leb_le _ _)) by lia.
Qed.

(** ** Witnesses *)

Lemma task_order_numeric_witness :
  compareTaskId (js "q1.0.9.0") (js "q1.0.10.0") = (-1)%Z.
Proof.
  apply (task_order_numeric (js "q1") (js "q1") [0%N; 9%N; 0%N] [0%N; 10%N; 0%N]).
  - by apply (bool_decide_unpack _).
  - by apply (bool_decide_unpack _).
  - discriminate.
  - reflexivity.
  - by repeat constructor.
  - by repeat constructor.
Defined.

Lemma task_order_inconsistent_witness :
  compareTaskId (js "q1.0.1") (js "q1.0.1.0") = 0%Z ∧ compareTaskId (js "q1.0.1.0") (js "q1.0.1") = 1%Z.
Proof.
  apply (task_order_inconsistent (js "q1") [0%N; 1%N] [0%N]).
  - by apply (bool_decide_unpack _).
  - discriminate.
  - discriminate.
  - by repeat constructor.
Defined.

(** A parser of addresses for witnesses: a host, a colon and a port. *)
Definition sample_urls : UrlParser := λ s,
  match JsString.split (js ":") s with
  | [h; p] => Ok {| hostname := h; port := p |}
  | _ => Throw TypeError
  end.

Lemma ports_shown_when_needed_witness :
  ∃ b, @showPortNumbers sample_urls
         [sample_task (js "q1.0.0.0") (js "RUNNING") (js "host1:8080");
          sample_task (js "q1.0.1.0") (js "RUNNING") (js "host1:8081")] = Ok b ∧
       (b = true ↔ conflict [(js "host1", js "8080"); (js "host1", js "8081")]).
Proof.
  apply (@ports_shown_when_needed sample_urls).
  - by repeat constructor.
  - repeat constructor; by apply (bool_decide_unpack _).
Defined.

Lemma stack_trace_total_witness :
  ∃ s, formatStackTrace (FailureInfo (js "E") (Some (js "m")) (Some [js "f1"; js "f0"]) None
         (Some (FailureInfo (js "C") None (Some [js "g"; js "f0"]) None None))) = Ok s.
Proof. apply stack_trace_total. reflexivity. Defined.

Lemma charts_throttled_witness :
  let s := summary_constructor in
  let st := sample_stage in
  ((1500 - 1000 < 1000)%Z → summary_didUpdate 1500 st (summary_didUpdate 1000 st s).2 = ([], (summary_didUpdate 1000 st s).2)) ∧
  ((1000 <= 1500 - 1000)%Z → (summary_didUpdate 1500 st (summary_didUpdate 1000 st s).2).1 ≠ []).
Proof. apply (charts_throttled 1000 1500 sample_stage summary_constructor). discriminate. Defined.
