(* ===== verification/Histogram.v ===== *)
(** * The histograms of a stage

    The bars of a histogram count the tasks of the stage by the time they took.  The number of
    buckets is a square root and their size a quotient, both rounded, so that the bucket of the
    largest value depends on the rounding errors; one more bucket than the quotient needs is
    what makes every value fall into one of them. *)

From S2P Require Import Prelude JsString JsNumber JsNumberFacts Rounding QueryDetail.

(** ** Counting *)

Definition count_total (l : list (option nat)) : nat := sum_list_with (default 0) l.
Definition counted (l : list (option nat)) : Prop := Forall is_Some l.

Lemma alter_count i l :
  counted l → i < length l →
  count_total (alter (option_map S) i l) = S (count_total l) ∧ counted (alter (option_map S) i l) ∧
  length (alter (option_map S) i l) = length l.
Proof.
  revert i. induction l as [|o l IH]; intros i Hl Hi; simpl in *; [lia|].
  apply Forall_cons in Hl as [[n ->] Hl]. destruct i as [|i]; simpl.
  - split_and!; [done| |done]. constructor; [by eexists|done].
  - destruct (IH i Hl ltac:(lia)) as (Ht & Hc & Hlen). unfold alter in *. split_and!.
    + unfold count_total in *. simpl. rewrite Ht. lia.
    + constructor; [by eexists|done].
    + by rewrite Hlen.
Qed.

Lemma zeros_below_counted fuel i bound :
  counted (zeros_below fuel i bound) ∧ count_total (zeros_below fuel i bound) = 0.
Proof.
  revert i. induction fuel as [|fuel IH]; intros i; cbn [zeros_below]; [by split; [constructor|]|].
  destruct (nltb (of_nat i) bound); [|by split; [constructor|]].
  destruct (IH (S i)). split; [constructor; [by eexists|done]|done].
Qed.

Lemma bump_count bucket l z :
  counted l → to_integer bucket = Some z → (0 <= z < Z.of_nat (length l))%Z →
  count_total (bump bucket l) = S (count_total l) ∧ counted (bump bucket l) ∧ length (bump bucket l) = length l.
Proof.
  intros Hl Hz Hr. unfold bump. rewrite Hz. destruct (Z.ltb_spec z 0); [lia|].
  rewrite (proj2 (Nat.ltb_lt (Z.to_nat z) (length l))) by lia. apply alter_count; [done|lia].
Qed.

Lemma bump_lookup bucket l z i :
  to_integer bucket = Some z → (0 <= z < Z.of_nat (length l))%Z →
  bump bucket l !! i = (if decide (z = Z.of_nat i) then option_map S else id) <$> l !! i.
Proof.
  intros Hz Hr. unfold bump. rewrite Hz. destruct (Z.ltb_spec z 0); [lia|].
  rewrite (proj2 (Nat.ltb_lt (Z.to_nat z) (length l))) by lia. case_decide as E.
  - subst z. by rewrite Nat2Z.id, list_lookup_alter_eq.
  - rewrite list_lookup_alter_ne by lia. by rewrite option_fmap_id.
Qed.

(** As long as the bound is above them, the indices are slots. *)
Lemma zeros_below_length fuel i j bound :
  (∀ k, i ≤ k ≤ j → nltb (of_nat k) bound = true) → i ≤ j < i + fuel →
  j - i < length (zeros_below fuel i bound).
Proof.
  revert i. induction fuel as [|fuel IH]; intros i Hk Hj; [lia|]. cbn [zeros_below]. rewrite Hk by lia. cbn [length].
  destruct (decide (i = j)) as [->|]; [lia|]. assert (j - S i < length (zeros_below fuel (S i) bound)); [|lia].
  apply IH; [|lia]. intros k Hk'. apply Hk. lia.
Qed.

(** ** Least and greatest values *)

Local Open Scope Z_scope.

Definition ok (x : number) : Prop := valid x = true ∧ is_finite x = true.

Lemma nmin_sval x y : ok x → ok y → ok (nmin x y) ∧ sval (nmin x y) = Z.min (sval x) (sval y).
Proof.
  intros [Vx Fx] [Vy Fy]. unfold nmin.
  assert (is_nan x = false ∧ is_nan y = false) as [-> ->] by (by destruct x, y). cbn [orb].
  rewrite nltb_sval, neqb_sval by done. destruct (Z.ltb_spec (sval y) (sval x)).
  { split; [done|lia]. }
  destruct (Z.eqb_spec (sval x) (sval y)) as [E|]; [|split; [done|lia]].
  destruct y as [[]| | |]; (split; [done|cbn [sval] in *; lia]).
Qed.

Lemma nmax_sval x y : ok x → ok y → ok (nmax x y) ∧ sval (nmax x y) = Z.max (sval x) (sval y).
Proof.
  intros [Vx Fx] [Vy Fy]. unfold nmax.
  assert (is_nan x = false ∧ is_nan y = false) as [-> ->] by (by destruct x, y). cbn [orb].
  rewrite nltb_sval, neqb_sval by done. destruct (Z.ltb_spec (sval x) (sval y)).
  { split; [done|lia]. }
  destruct (Z.eqb_spec (sval x) (sval y)) as [E|]; [|split; [done|lia]].
  destruct x as [[]| | |]; (split; [done|cbn [sval] in *; lia]).
Qed.

(** A fold that takes one of its two arguments: the result is one of the values, and [R] holds
    between it and each of them. *)
Lemma fold_extreme (f : number → number → number) (g : Z → Z → Z) (R : Z → Z → Prop) :
  (∀ x y, ok x → ok y → ok (f x y) ∧ sval (f x y) = g (sval x) (sval y)) →
  (∀ a b, R (g a b) a ∧ R (g a b) b ∧ (g a b = a ∨ g a b = b)) → (∀ a, R a a) → (∀ a b c, R a b → R b c → R a c) →
  ∀ (l : list (option number)) a, ok a → Forall (λ x, ok (num_of_nullable x)) l →
  let r := fold_left (λ m x, f m (num_of_nullable x)) l a in
  ok r ∧ R (sval r) (sval a) ∧ (∀ y, y ∈ l → R (sval r) (sval (num_of_nullable y))) ∧
  (sval r = sval a ∨ ∃ y, y ∈ l ∧ sval r = sval (num_of_nullable y)).
Proof.
  intros Hf Hg Hrefl Htrans l. induction l as [|x l IH]; intros a Ha Hl; cbn [fold_left].
  { split_and!; [done|apply Hrefl|set_solver|by left]. }
  apply Forall_cons in Hl as [Hx Hl]. destruct (Hf a (num_of_nullable x) Ha Hx) as [Ho Ev].
  destruct (IH _ Ho Hl) as (Hr & HRa & HRl & Hin). destruct (Hg (sval a) (sval (num_of_nullable x))) as (H1 & H2 & H3).
  rewrite <-Ev in H1, H2, H3. split; [done|]. split; [by eapply Htrans|]. split.
  - intros y [->|Hy]%elem_of_cons; [by eapply Htrans|by apply HRl].
  - destruct Hin as [E|(y & Hy & E)].
    + rewrite E. destruct H3 as [-> | ->]; [by left|right]. exists x. split; [apply list_elem_of_here|done].
    + right. exists y. split; [by apply list_elem_of_further|done].
Qed.

Lemma min_of_spec data :
  data ≠ [] → Forall (λ x, ok (num_of_nullable x)) data →
  ok (min_of data) ∧ (∀ y, y ∈ data → sval (min_of data) <= sval (num_of_nullable y)) ∧
  ∃ y, y ∈ data ∧ sval (min_of data) = sval (num_of_nullable y).
Proof.
  destruct data as [|x data]; [done|]. intros _ [Hx Hd]%Forall_cons. unfold min_of. cbn [fold_left].
  assert (nmin infinity (num_of_nullable x) = num_of_nullable x) as ->
    by (destruct Hx as [_ Fx]; by destruct (num_of_nullable x) as [[]|[]| |[]]).
  destruct (fold_extreme nmin Z.min Z.le nmin_sval) with (l := data) (a := num_of_nullable x) as (H1 & H2 & H3 & H4);
    [lia..|done|done|]. split; [done|]. split.
  - by intros y [->|Hy]%elem_of_cons; [|apply H3].
  - destruct H4 as [E|(y & Hy & E)]; [exists x|exists y]; (split; [set_solver|done]).
Qed.

Lemma max_of_spec data :
  data ≠ [] → Forall (λ x, ok (num_of_nullable x)) data →
  ok (max_of data) ∧ (∀ y, y ∈ data → sval (num_of_nullable y) <= sval (max_of data)) ∧
  ∃ y, y ∈ data ∧ sval (max_of data) = sval (num_of_nullable y).
Proof.
  destruct data as [|x data]; [done|]. intros _ [Hx Hd]%Forall_cons. unfold max_of. cbn [fold_left].
  assert (nmax neg_infinity (num_of_nullable x) = num_of_nullable x) as ->
    by (destruct Hx as [_ Fx]; by destruct (num_of_nullable x) as [[]|[]| |[]]).
  destruct (fold_extreme nmax Z.max Z.ge nmax_sval) with (l := data) (a := num_of_nullable x) as (H1 & H2 & H3 & H4);
    [lia..|done|done|]. split; [done|]. split.
  - intros y [->|Hy]%elem_of_cons; [lia|]. by apply Z.ge_le, H3.
  - destruct H4 as [E|(y & Hy & E)]; [exists x|exists y]; (split; [set_solver|done]).
Qed.

(** ** The bucket of a value *)

(** The number of buckets, and the bucket of a value. *)
Definition buckets (data : list (option number)) : number := nmin HISTOGRAM_WIDTH (nsqrt (of_nat (length data))).
Definition bucket_of (data : list (option number)) (x : option number) : number :=
  nfloor (ndiv (nsub (num_of_nullable x) (min_of data)) (ndiv (nsub (max_of data) (min_of data)) (buckets data))).

Lemma buckets_range data :
  data ≠ [] → Z.of_nat (length data) < 2 ^ 32 → ok (buckets data) ∧ unit_ <= sval (buckets data) <= 175 * unit_.
Proof.
  intros Hne Hlen. pose proof unit_pos as HU. assert (0 < Z.of_nat (length data)) by (destruct data; [done|cbn; lia]).
  destruct (of_Z_exact (Z.of_nat (length data))) as (V & F & E); [lia|]. destruct (of_Z_exact 175) as (V' & F' & E'); [done|].
  destruct (nsqrt_ge_1 (of_nat (length data))) as (Vs & Fs & Hs); [done..|unfold of_nat; rewrite E; nia|].
  destruct (nmin_sval HISTOGRAM_WIDTH (nsqrt (of_nat (length data)))) as [Ho Ev]; [done..|].
  split; [done|]. unfold buckets. rewrite Ev. unfold HISTOGRAM_WIDTH. rewrite E'. lia.
Qed.

(** The relative errors of the two differences and the two quotients stay below one bucket. *)
Lemma chain_errors i b d t s D n :
  0 < b → close (i * b) (d * unit_) → close d t → t <= s → close D s → close (b * n) (D * unit_) →
  i * ((2 ^ 52 - 1) * (2 ^ 52 - 1)) <= n * ((2 ^ 52 + 1) * (2 ^ 52 + 1)).
Proof.
  unfold close. pose proof unit_pos as HU. set (u := unit_) in *. clearbody u. set (c := 2 ^ 52).
  assert (1 < c) as Hc by done. clearbody c. intros Hb [H1 _] [H2 _] Ht [_ H3] [_ H4].
  apply (Z.mul_le_mono_pos_r _ _ (b * c)); [nia|].
  apply (Z.mul_le_mono_nonneg_l _ _ (c * (c - 1))) in H1; [|nia].
  apply (Z.mul_le_mono_nonneg_l _ _ (c * c * u)) in H2; [|nia].
  apply (Z.mul_le_mono_nonneg_l _ _ (c * c * u)) in H3; [|nia].
  apply (Z.mul_le_mono_nonneg_l _ _ (c * (c + 1))) in H4; [|nia].
  assert (c * c * u * (c * t) <= c * c * u * (c * s)) by (apply Z.mul_le_mono_nonneg_l; nia).
  nia.
Qed.

(** Crude bounds of a number that is close to another one. *)
Lemma close_bounds a b : close a b → 0 < b → a <= 2 * b ∧ b <= 2 * a.
Proof. unfold close. lia. Qed.

(** Values of at most 2^100 milliseconds; two of them are equal or differ by 2^-100 milliseconds
    or more. *)
Definition plottable (data : list (option number)) : Prop :=
  Forall (λ x, ok (num_of_nullable x) ∧ Z.abs (sval (num_of_nullable x)) <= 2 ^ 100 * unit_) data ∧
  ∀ x y, x ∈ data → y ∈ data →
    sval (num_of_nullable x) = sval (num_of_nullable y) ∨
    unit_ <= 2 ^ 100 * Z.abs (sval (num_of_nullable x) - sval (num_of_nullable y)).

Lemma nsub_same x y : ok x → ok y → sval x = sval y → ∃ s, nsub x y = S754_zero s.
Proof.
  intros [Vx Fx] [Vy Fy] E. destruct (sub_sign x y) as [H1 H2]; [done|done|by destruct x|by destruct y|].
  rewrite (nltb_sval x y), E, Z.ltb_irrefl in H1 by done. rewrite (nltb_sval y x), E, Z.ltb_irrefl in H2 by done.
  revert H1 H2. destruct (nsub x y) as [s|[]| |[]] eqn:En; try done; intros _ _; [by exists s|]. exfalso.
  destruct x as [[]|?| |s m e], y as [[]|?| |s0 m0 e0]; try done. unfold nsub in En. cbn [SFsub] in En.
  destruct (binary_normalize_sign (cond_Zopp s (Zpos (shl_align m e (Z.min e e0)).1) -
    cond_Zopp s0 (Zpos (shl_align m0 e0 (Z.min e e0)).1)) (Z.min e e0)) as (_ & _ & Hn);
    [|by rewrite En in Hn]. apply valid_finite in Vx as (? & _). apply valid_finite in Vy as (? & _). lia.
Qed.

Lemma ndiv_zero s x : ok x → 0 < sval x → ∃ s', ndiv (S754_zero s) x = S754_zero s'.
Proof. intros _ Hx. destruct x as [| | |s' m e]; try (cbn in Hx; lia). by eexists. Qed.

(** The spread of the values, and the size of a bucket, when they are not all equal. *)
Lemma bucket_size data :
  data ≠ [] → Z.of_nat (length data) < 2 ^ 32 → plottable data → sval (min_of data) <> sval (max_of data) →
  let s := sval (max_of data) - sval (min_of data) in
  let D := nsub (max_of data) (min_of data) in
  let b := ndiv D (buckets data) in
  2 ^ 974 <= s <= 2 ^ 1175 ∧ close (sval D) s ∧
  ok b ∧ 2 ^ 964 <= sval b <= 2 ^ 1177 ∧ close (sval b * sval (buckets data)) (sval D * unit_).
Proof.
  intros Hne Hlen [Hall Hsep] Hspread s D b. pose proof unit_pos as HU.
  assert (Forall (λ x, ok (num_of_nullable x)) data) as Hok by (eapply Forall_impl; [exact Hall|by intros ? [? _]]).
  rewrite Forall_forall in Hall.
  destruct (min_of_spec data Hne Hok) as (Omin & Hmin & x & Hx & Ex).
  destruct (max_of_spec data Hne Hok) as (Omax & Hmax & y & Hy & Ey).
  destruct (buckets_range data Hne Hlen) as (On & Hn). set (n := buckets data) in *.
  assert (2 ^ 974 <= s <= 2 ^ 1175) as Hs.
  { destruct (Hall x Hx) as [_ Ax]. destruct (Hall y Hy) as [_ Ay]. specialize (Hmin y Hy).
    unfold s. destruct (Hsep x y Hx Hy) as [E|E]; [congruence|]. rewrite Ex, Ey in *.
    clear -E Ax Ay Hmin. lia. }
  destruct Omin as [Vmin Fmin], Omax as [Vmax Fmax], On as [Vn Fn].
  destruct (nsub_close (max_of data) (min_of data)) as (VD & FD & CD); [done..|fold s; clear -Hs; lia|]. fold D s in VD, FD, CD.
  destruct (close_bounds _ _ CD) as [HD1 HD2]; [clear -Hs; lia|].
  assert (2 ^ 973 <= sval D <= 2 ^ 1176) as HD by (clear -HD1 HD2 Hs; lia).
  destruct (ndiv_close D n) as (Vb & Fb & Cb); [done..|clear -HD; lia|clear -Hn HU; lia|clear -HD Hn; lia|]. fold b in Vb, Fb, Cb.
  destruct (close_bounds _ _ Cb) as [Hb1 Hb2]; [clear -HD; lia|].
  split; [done|]. split; [done|]. split; [done|]. split; [|done].
  clearbody b. clear -Hn HD Hb1 Hb2 HU. set (u := unit_) in *. split; nia.
Qed.

(** The quotient whose integer part is the bucket of a value. *)
Lemma bucket_quotient data x :
  Z.of_nat (length data) < 2 ^ 32 → plottable data → sval (min_of data) <> sval (max_of data) → x ∈ data →
  let n := buckets data in
  let i := ndiv (nsub (num_of_nullable x) (min_of data)) (ndiv (nsub (max_of data) (min_of data)) n) in
  ok i ∧ 0 <= sval i ∧ sval i * ((2 ^ 52 - 1) * (2 ^ 52 - 1)) <= sval n * ((2 ^ 52 + 1) * (2 ^ 52 + 1)).
Proof.
  intros Hlen Hp Hspread Hx n i. pose proof unit_pos as HU. assert (data ≠ []) as Hne by (by intros ->; apply elem_of_nil in Hx).
  destruct (bucket_size data Hne Hlen Hp Hspread) as (Hs & CD & Ob & Hb & Cb).
  destruct (buckets_range data Hne Hlen) as (_ & Hn). destruct Hp as [Hall Hsep].
  assert (Forall (λ x, ok (num_of_nullable x)) data) as Hok by (eapply Forall_impl; [exact Hall|by intros ? [? _]]).
  destruct (min_of_spec data Hne Hok) as (Omin & Hmin & y & Hy & Ey).
  destruct (max_of_spec data Hne Hok) as (Omax & Hmax & _).
  pose proof (proj1 (Forall_forall _ _) Hok x Hx) as Ox. specialize (Hmin x Hx). specialize (Hmax x Hx).
  unfold i. fold n in Hn, Cb, Hb, Ob. set (b := ndiv (nsub (max_of data) (min_of data)) n) in *.
  set (v := num_of_nullable x) in *. destruct (Hsep x y Hx Hy) as [E|E]; rewrite <-Ey in E; fold v in E.
  - destruct (nsub_same v (min_of data) Ox Omin E) as [s' ->]. destruct (ndiv_zero s' b Ob) as [s2 ->]; [lia|].
    split; [done|]. cbn [sval]. clear -Hn HU. lia.
  - destruct Ox as [Vx Fx], Omin as [Vmin Fmin], Ob as [Vb Fb]. set (t := sval v - sval (min_of data)) in *.
    assert (2 ^ 974 <= t <= sval (max_of data) - sval (min_of data)) as Ht by (clear -E Hmin Hmax; lia).
    destruct (nsub_close v (min_of data)) as (Vd & Fd & Cd); [done..|fold t; clear -Ht Hs; lia|]. fold t in Cd.
    destruct (close_bounds _ _ Cd) as [Hd1 Hd2]; [clear -Ht; lia|]. set (d := nsub v (min_of data)) in *.
    assert (2 ^ 973 <= sval d <= 2 ^ 1176) as Hd by (clear -Hd1 Hd2 Ht Hs; lia).
    destruct (ndiv_close d b) as (Vi & Fi & Ci); [done..|clear -Hd; lia|clear -Hb; lia|clear -Hd Hb; lia|].
    split; [done|]. split.
    + destruct (close_bounds _ _ Ci) as [Hi1 Hi2]; [clear -Hd; lia|]. clear -Hi2 Hd Hb. nia.
    + eapply chain_errors; [|exact Ci|exact Cd|exact (proj2 Ht)|exact CD|exact Cb]. clear -Hb. lia.
Qed.

(** Every value falls into one of the buckets the histogram starts with. *)
Lemma bucket_in_range data x :
  Z.of_nat (length data) < 2 ^ 32 → plottable data → sval (min_of data) <> sval (max_of data) → x ∈ data →
  ∃ z, to_integer (bucket_of data x) = Some z ∧
       0 <= z < Z.of_nat (length (zeros_below 177 0 (nadd (buckets data) (of_Z 1)))).
Proof.
  intros Hlen Hp Hspread Hx. pose proof unit_pos as HU. assert (data ≠ []) as Hne by (by intros ->; apply elem_of_nil in Hx).
  destruct (bucket_quotient data x Hlen Hp Hspread Hx) as ([Vi Fi] & Hi0 & Hi).
  destruct (buckets_range data Hne Hlen) as ([Vn Fn] & Hn). unfold bucket_of. set (n := buckets data) in *.
  set (i := ndiv _ _) in *. destruct (of_Z_exact 1) as (V1 & F1 & E1); [done|]. rewrite Z.mul_1_l in E1.
  destruct (nadd_close n (of_Z 1)) as (Vb1 & Fb1 & Cb1); [done..|lia|lia|rewrite E1; clear -Hn; lia|]. rewrite E1 in Cb1.
  set (b1 := nadd n (of_Z 1)) in *.
  assert (sval i < sval b1 ∧ sval i < 176 * unit_) as [Hib Hi176] by (unfold close in Cb1; clear -Hi Cb1 Hn HU; lia).
  exists (sval i / unit_). split; [apply nfloor_integer; [done..|clear -Hi0 Hi176 HU; lia]|].
  set (j := sval i / unit_). assert (0 <= j) as Hj0 by (apply Z.div_pos; lia).
  assert (j * unit_ <= sval i) as Hji by (rewrite Z.mul_comm; by apply Z.mul_div_le).
  assert (j < 176) as Hj by (apply Z.div_lt_upper_bound; [done|lia]). split; [done|].
  pose proof (zeros_below_length 177 0 (Z.to_nat j) b1) as Hz. rewrite Nat.sub_0_r in Hz. apply Z2Nat.inj_lt; [lia..|].
  rewrite Nat2Z.id. apply Hz; [|lia]. intros k Hk. destruct (of_Z_exact (Z.of_nat k)) as (Vk & Fk & Ek); [lia|].
  unfold of_nat. rewrite nltb_sval, Ek by done. apply Z.ltb_lt. eapply Z.le_lt_trans; [|exact Hib].
  etrans; [|exact Hji]. apply Z.mul_le_mono_nonneg_r; lia.
Qed.

(** ** The whole histogram *)

Lemma fold_bump {A} (f : A → number) l init :
  counted init → Forall (λ x, ∃ z, to_integer (f x) = Some z ∧ 0 <= z < Z.of_nat (length init)) l →
  let h := fold_left (λ counts x, bump (f x) counts) l init in
  count_total h = (count_total init + length l)%nat ∧ counted h ∧
  ∀ i c, h !! i = Some (Some c) →
    ∃ c0, init !! i = Some (Some c0) ∧ c = (c0 + length (filter (λ x, to_integer (f x) = Some (Z.of_nat i)) l))%nat.
Proof.
  revert init. induction l as [|x l IH]; intros init Hc Hl; cbn [fold_left length].
  { split_and!; [lia|done|]. intros i c Hi. exists c. split; [done|]. cbn. lia. }
  apply Forall_cons in Hl as [(z & Hz & Hr) Hl]. destruct (bump_count (f x) init z Hc Hz Hr) as (Ht & Hc' & Hlen).
  destruct (IH (bump (f x) init) Hc') as (Ht2 & Hc2 & Hi2); [by rewrite Hlen|]. split_and!; [lia|done|].
  intros i c Hi. destruct (Hi2 i c Hi) as (c0 & Hc0 & ->). rewrite (bump_lookup _ _ _ _ Hz Hr) in Hc0.
  case_decide as E.
  - rewrite filter_cons_True by (by rewrite Hz, E). destruct (init !! i) as [[k|]|]; try done. injection Hc0 as <-.
    exists k. split; [done|cbn [length]; lia].
  - rewrite filter_cons_False by (rewrite Hz; congruence). rewrite option_fmap_id in Hc0. by exists c0.
Qed.

Lemma zeros_lookup fuel i0 bound i c : zeros_below fuel i0 bound !! i = Some (Some c) → c = 0%nat.
Proof.
  revert i0 i. induction fuel as [|fuel IH]; intros i0 i; cbn [zeros_below]; [done|].
  case_match; [|done]. destruct i; [by intros [= <-]|apply IH].
Qed.

(** C34: A histogram loses no task and counts none twice, whatever the rounding errors of its
    buckets are.  For values that a duration can have (finite, of at most 2^100 milliseconds, and
    equal or 2^-100 milliseconds apart), no bar is undefined and the bars add up to the number of
    tasks: all of them in a single bar when the values are equal, and otherwise each of them in
    the bar of its bucket, the integer part of the quotient of its distance from the least value
    and the size of the buckets. *)
Theorem histogram_counts_all (data : list (option number)) :
  Z.of_nat (length data) < 2 ^ 32 → plottable data →
  let h := histogram_data data in
  count_total h = length data ∧ counted h ∧
  ((∀ x y, x ∈ data → y ∈ data → neqb (num_of_nullable x) (num_of_nullable y) = true) → h = [Some (length data)]) ∧
  ((∃ x y, x ∈ data ∧ y ∈ data ∧ neqb (num_of_nullable x) (num_of_nullable y) = false) →
   ∀ i c, h !! i = Some (Some c) →
     c = length (filter (λ x, to_integer (bucket_of data x) = Some (Z.of_nat i)) data)).
Proof.
  intros Hlen Hp h. destruct (list_eq_nil_dec data) as [->|Hne].
  { split_and!; [done| |done|by intros (? & ? & ?%elem_of_nil & _)]. repeat constructor. by eexists. }
  assert (Forall (λ x, ok (num_of_nullable x)) data) as Hok by (eapply Forall_impl; [exact (proj1 Hp)|by intros ? [? _]]).
  pose proof (proj1 (Forall_forall _ _) Hok) as Ho.
  destruct (min_of_spec data Hne Hok) as (Omin & Hmin & y & Hy & Ey).
  destruct (max_of_spec data Hne Hok) as (Omax & Hmax & x & Hx & Ex).
  destruct (buckets_range data Hne Hlen) as (On & Hn). pose proof unit_pos as HU.
  unfold h, histogram_data. cbv zeta. fold (buckets data).
  destruct (Z.eq_dec (sval (min_of data)) (sval (max_of data))) as [Eq|Hspread].
  - destruct (nsub_same (max_of data) (min_of data)) as [s ->]; [done..|].
    destruct (ndiv_zero s (buckets data) On) as [s' ->]; [lia|]. cbn [neqb SFeqb SFcompare].
    split_and!; [cbn; lia| |done|]; [repeat constructor; by eexists|]. intros (a & b & Ha & Hb & Hab). exfalso.
    destruct (Ho a Ha) as [Va Fa], (Ho b Hb) as [Vb Fb]. rewrite neqb_sval in Hab by done. apply Z.eqb_neq in Hab.
    pose proof (Hmin a Ha). pose proof (Hmax a Ha). pose proof (Hmin b Hb). pose proof (Hmax b Hb). lia.
  - destruct (bucket_size data Hne Hlen Hp Hspread) as (_ & _ & [Vb Fb] & Hb & _).
    set (b := ndiv _ (buckets data)) in *. change zero with (of_Z 0). rewrite neqb_sval by done.
    destruct (Z.eqb_spec (sval b) (sval (of_Z 0))) as [E|_]; [cbn in E; clear -E Hb; lia|].
    destruct (zeros_below_counted 177 0 (nadd (buckets data) (of_Z 1))) as [Hc H0].
    destruct (fold_bump (bucket_of data) data _ Hc) as (Ht & Hc' & Hi).
    { apply Forall_forall. intros a Ha. by apply bucket_in_range. }
    split_and!; [etrans; [exact Ht|by rewrite H0]|exact Hc'| |].
    + intros Hall. exfalso. apply Hspread. specialize (Hall y x Hy Hx).
      destruct (Ho y Hy) as [Vy Fy], (Ho x Hx) as [Vx Fx]. rewrite neqb_sval in Hall by done. apply Z.eqb_eq in Hall. congruence.
    + intros _ i c Hlk. destruct (Hi i c Hlk) as (c0 & Hc0 & ->). by rewrite (zeros_lookup _ _ _ _ _ Hc0).
Qed.

(** ** Witness *)

Definition sample_times : list (option number) :=
  map (λ z, Some (of_Z z)) [100; 250; 300; 1000; 120; 130; 140; 990; 500].

Lemma sample_plottable l : Forall (λ z, Z.abs z < 2 ^ 53) l → plottable (map (λ z, Some (of_Z z)) l).
Proof.
  intros Hl. rewrite Forall_forall in Hl. pose proof unit_pos as HU. split.
  - apply Forall_forall. intros x (z & -> & Hz)%list_elem_of_fmap. change (num_of_nullable (Some (of_Z z))) with (of_Z z).
    destruct (of_Z_exact z (Hl z Hz)) as (V & F & E). split; [done|]. rewrite E. specialize (Hl z Hz). nia.
  - intros x y (z & -> & Hz)%list_elem_of_fmap (z' & -> & Hz')%list_elem_of_fmap.
    change (num_of_nullable (Some (of_Z z))) with (of_Z z). change (num_of_nullable (Some (of_Z z'))) with (of_Z z').
    destruct (of_Z_exact z (Hl z Hz)) as (_ & _ & ->), (of_Z_exact z' (Hl z' Hz')) as (_ & _ & ->).
    destruct (Z.eq_dec z z') as [->|]; [by left|right]. rewrite <-Z.mul_sub_distr_r, Z.abs_mul. nia.
Qed.

Lemma histogram_counts_all_witness :
  histogram_data sample_times = [Some 6; Some 1; Some 1; Some 1]%nat ∧
  count_total (histogram_data sample_times) = 9%nat ∧ counted (histogram_data sample_times).
Proof.
  split; [vm_compute; reflexivity|].
  assert (plottable sample_times) as Hp by (apply sample_plottable; by repeat constructor).
  destruct (histogram_counts_all sample_times ltac:(reflexivity) Hp) as (H1 & H2 & _). exact (conj H1 H2).
Defined.
