(* ===== verification/QueryDetailView.v ===== *)
(** * The query page: views and refresh loop (components/QueryDetail.jsx) *)

From S2P Require Import Prelude JsString JsNumber JsNumberFacts JsCollections Model QueryState Format Sparkline Vdom QueryHeader Stage QueryInfo QueryDetail Poller.

(** ** TaskList *)

Abbreviation task_view := (vnode Empty_set Empty_set).

Section task_list.
Context `{DateParse, UrlParser}.

Definition TaskList_row (now : number) (showPorts taskRetriesEnabled : bool) (task : task) : res (task_view) :=
  let elapsedTime :=
    let parsed := parseDuration (t_elapsedTime task) in
    if match parsed with Some e => neqb e zero | None => false end
    then Some (nsub now (Date_parse (t_createTime task))) else parsed in
  host ← getHostname (self task);
  hostText ← (if showPorts then getHostAndPort (self task) else getHostname (self task));
  bytes ← on_nullable formatDataSizeBytes (parseDataSize (t_rawInputDataSize task));
  Ok (el "Tr" [AX "key" (taskId task)] [
      el "Td" [A "column" "id"; AX "value" (taskId task)] [
        el "a" [AX "href" (js "/ui/api/worker/" ++ nodeId task ++ js "/task/" ++ taskId task ++ js "?pretty")] [
          VText (getTaskIdSuffix (taskId task))]];
      el "Td" [A "column" "host"; AX "value" (host)] [
        el "a" [AX "href" (js "worker.html?" ++ nodeId task); A "className" "font-light"; A "target" "_blank"] [
          VText hostText]];
      el "Td" [A "column" "state"; AX "value" (formatState (t_state task) (t_fullyBlocked task))] [
        VText (formatState (t_state task) (t_fullyBlocked task))];
      el "Td" [A "column" "rows"; AN "value" (t_rawInputPositions task)] [
        VText (formatCount (t_rawInputPositions task))];
      el "Td" [A "column" "rowsSec"; AN "value" (computeRate (Some (t_rawInputPositions task)) elapsedTime)] [
        VText (formatCount (computeRate (Some (t_rawInputPositions task)) elapsedTime))];
      el "Td" [A "column" "bytes"; AO "value" (parseDataSize (t_rawInputDataSize task))] [
        VText bytes];
      el "Td" [A "column" "bytesSec"; AN "value" (computeRate (parseDataSize (t_rawInputDataSize task)) elapsedTime)] [
        VText (formatDataSizeBytes (computeRate (parseDataSize (t_rawInputDataSize task)) elapsedTime))];
      el "Td" [A "column" "splitsPending"; AN "value" (t_queuedDrivers task)] [
        VNum (t_queuedDrivers task)];
      el "Td" [A "column" "splitsRunning"; AN "value" (t_runningDrivers task)] [
        VNum (t_runningDrivers task)];
      el "Td" [A "column" "splitsBlocked"; AN "value" (t_blockedDrivers task)] [
        VNum (t_blockedDrivers task)];
      el "Td" [A "column" "splitsDone"; AN "value" (t_completedDrivers task)] [
        VNum (t_completedDrivers task)];
      el "Td" [A "column" "elapsedTime"; AO "value" (parseDuration (t_elapsedTime task))] [
        VText (t_elapsedTime task)];
      el "Td" [A "column" "cpuTime"; AO "value" (parseDuration (t_totalCpuTime task))] [
        VText (t_totalCpuTime task)];
      el "Td" [A "column" "bufferedBytes"; AN "value" (totalBufferedBytes task)] [
        VText (formatDataSizeBytes (totalBufferedBytes task))];
      el "Td" [A "column" "memory"; AO "value" (parseDataSize (t_userMemoryReservation task))] [
        VText (parseAndFormatDataSize (t_userMemoryReservation task))];
      el "Td" [A "column" "peakMemory"; AO "value" (parseDataSize (t_peakUserMemoryReservation task))] [
        VText (parseAndFormatDataSize (t_peakUserMemoryReservation task))];
      VWhen taskRetriesEnabled (el "Td" [A "column" "estimatedMemory"; AO "value" (parseDataSize (estimatedMemory task))] [
        VText (parseAndFormatDataSize (estimatedMemory task))])]).

(** The columns the table can be sorted by; the id has a comparator of its own. *)
Definition sortable_columns : list (jstring * jstring) :=
  (js "id", js "TaskList.compareTaskId") ::
  map (λ c, (c, [])) [js "host"; js "state"; js "splitsPending"; js "splitsRunning"; js "splitsBlocked"; js "splitsDone"; js "rows"; js "rowsSec"; js "bytes"; js "bytesSec"; js "elapsedTime"; js "cpuTime"; js "bufferedBytes"; js "memory"; js "peakMemory"; js "estimatedMemory"].

Definition TaskList_table (taskRetriesEnabled : bool) (renderedTasks : list task_view) : task_view :=
  el "Table" [A "id" "tasks"; A "className" "table table-striped sortable"; ASt "sortable" sortable_columns; ASt "defaultSort" [(js "column", js "id"); (js "direction", js "asc")]] [
      el "Thead" [] [
        el "Th" [A "column" "id"] [T "ID"];
        el "Th" [A "column" "host"] [T "Host"];
        el "Th" [A "column" "state"] [T "State"];
        el "Th" [A "column" "splitsPending"] [
          el "span" [A "className" "glyphicon glyphicon-pause"; ASt "style" [(js "color", GLYPHICON_HIGHLIGHT)]; A "data-toggle" "tooltip"; A "data-placement" "top"; A "title" "Pending splits"] []];
        el "Th" [A "column" "splitsRunning"] [
          el "span" [A "className" "glyphicon glyphicon-play"; ASt "style" [(js "color", GLYPHICON_HIGHLIGHT)]; A "data-toggle" "tooltip"; A "data-placement" "top"; A "title" "Running splits"] []];
        el "Th" [A "column" "splitsBlocked"] [
          el "span" [A "className" "glyphicon glyphicon-bookmark"; ASt "style" [(js "color", GLYPHICON_HIGHLIGHT)]; A "data-toggle" "tooltip"; A "data-placement" "top"; A "title" "Blocked splits"] []];
        el "Th" [A "column" "splitsDone"] [
          el "span" [A "className" "glyphicon glyphicon-ok"; ASt "style" [(js "color", GLYPHICON_HIGHLIGHT)]; A "data-toggle" "tooltip"; A "data-placement" "top"; A "title" "Completed splits"] []];
        el "Th" [A "column" "rows"] [T "Rows"];
        el "Th" [A "column" "rowsSec"] [T "Rows/s"];
        el "Th" [A "column" "bytes"] [T "Bytes"];
        el "Th" [A "column" "bytesSec"] [T "Bytes/s"];
        el "Th" [A "column" "elapsedTime"] [T "Elapsed"];
        el "Th" [A "column" "cpuTime"] [T "CPU Time"];
        el "Th" [A "column" "memory"] [T "Mem"];
        el "Th" [A "column" "peakMemory"] [T "Peak Mem"];
        VWhen taskRetriesEnabled (el "Th" [A "column" "estimatedMemory"] [T "Est Mem"])];
      VList renderedTasks].

Definition TaskList_empty : task_view :=
  el "div" [A "className" "row error-message"] [
      el "div" [A "className" "col-xs-12"] [el "h4" [] [T "No threads in the selected group"]]].

(** [render]; [now] is the clock. *)
Definition TaskList_render (now : number) (tasks : option (list task)) (taskRetriesEnabled : bool) : res task_view :=
  match tasks with
  | None | Some [] => Ok TaskList_empty
  | Some ts =>
    showPorts ← showPortNumbers ts;
    renderedTasks ← res_map (TaskList_row now showPorts taskRetriesEnabled) ts;
    Ok (TaskList_table taskRetriesEnabled renderedTasks)
  end.
End task_list.

(** ** StageSummary *)

Inductive summary_handler := ToggleExpanded | TaskFilterClick (f : task_filter).
Abbreviation summary_view := (vnode Empty_set summary_handler).

Definition renderTaskFilterListItem (s : summary_state) (f : task_filter) (taskFilterText : String.string) : summary_view :=
  el "li" [] [
      el "a" [A "href" "#"; AX "className" (if bool_decide (taskFilter s = f) then js "selected" else []); AH "onClick" (TaskFilterClick f)] [
        T taskFilterText]].
Arguments renderTaskFilterListItem s f taskFilterText%_string_scope.

Definition renderTaskFilter (s : summary_state) : summary_view :=
  el "div" [A "className" "row"] [
      el "div" [A "className" "col-xs-6"] [el "h3" [] [T "Tasks"]];
      el "div" [A "className" "col-xs-6"] [
        el "table" [A "className" "header-inline-links"] [
          el "tbody" [] [
            el "tr" [] [
              el "td" [] [
                el "div" [A "className" "input-group-btn text-right"] [
                  el "button" [A "type" "button"; A "className" "btn btn-default dropdown-toggle pull-right text-right"; A "data-toggle" "dropdown"; A "aria-haspopup" "true"; A "aria-expanded" "false"] [
                    T "Show ";
                    el "span" [A "className" "caret"] []];
                  el "ul" [A "className" "dropdown-menu"] [
                    renderTaskFilterListItem s TF_ALL "All";
                    renderTaskFilterListItem s TF_PLANNED "Planned";
                    renderTaskFilterListItem s TF_RUNNING "Running";
                    renderTaskFilterListItem s TF_FINISHED "Finished";
                    renderTaskFilterListItem s TF_FAILED "Aborted/Canceled/Failed"]]]]]]]].

(** [tasks.map(...).reduce((a, b) => a + b, 0)] *)
Definition total_buffered (ts : list task) : number :=
  fold_left (λ a t, nadd a (totalBufferedBytes t)) ts zero.
Definition count_tasks (p : task → bool) (ts : list task) : nat := length (List.filter p ts).

Definition stage_unavailable : summary_view :=
  el "tr" [] [el "td" [] [T "Information about this stage is unavailable."]].

Definition stage_time_table (stats : stage_stats) : summary_view :=
  el "table" [A "className" "stage-table stage-table-time"] [
      el "thead" [] [
        el "tr" [] [
          el "th" [A "className" "stage-table-stat-title stage-table-stat-header"] [T "Time"];
          el "th" [] []]];
      el "tbody" [] [
        el "tr" [] [
          el "td" [A "className" "stage-table-stat-title"] [T "Scheduled"];
          el "td" [A "className" "stage-table-stat-text"] [VText (s_totalScheduledTime stats)]];
        el "tr" [] [
          el "td" [A "className" "stage-table-stat-title"] [T "Blocked"];
          el "td" [A "className" "stage-table-stat-text"] [VText (s_totalBlockedTime stats)]];
        el "tr" [] [
          el "td" [A "className" "stage-table-stat-title"] [T "CPU"];
          el "td" [A "className" "stage-table-stat-text"] [VText (s_totalCpuTime stats)]];
        el "tr" [] [
          el "td" [A "className" "stage-table-stat-title"] [T "Failed"];
          el "td" [A "className" "stage-table-stat-text"] [VText (s_failedScheduledTime stats)]];
        el "tr" [] [
          el "td" [A "className" "stage-table-stat-title"] [T "CPU Failed"];
          el "td" [A "className" "stage-table-stat-text"] [VText (s_failedCpuTime stats)]]]].

Definition stage_memory_table (stats : stage_stats) (ts : list task) : summary_view :=
  el "table" [A "className" "stage-table stage-table-memory"] [
      el "thead" [] [
        el "tr" [] [
          el "th" [A "className" "stage-table-stat-title stage-table-stat-header"] [T "Memory"];
          el "th" [] []]];
      el "tbody" [] [
        el "tr" [] [
          el "td" [A "className" "stage-table-stat-title"] [T "Cumulative"];
          el "td" [A "className" "stage-table-stat-text"] [
            VText (formatDataSizeBytes (ndiv (s_cumulativeUserMemory stats) (of_Z 1000)))]];
        el "tr" [] [
          el "td" [A "className" "stage-table-stat-title"] [T "Current"];
          el "td" [A "className" "stage-table-stat-text"] [
            VText (parseAndFormatDataSize (s_userMemoryReservation stats))]];
        el "tr" [] [
          el "td" [A "className" "stage-table-stat-title"] [T "Buffers"];
          el "td" [A "className" "stage-table-stat-text"] [
            VText (formatDataSize (total_buffered ts))]];
        el "tr" [] [
          el "td" [A "className" "stage-table-stat-title"] [T "Peak"];
          el "td" [A "className" "stage-table-stat-text"] [
            VText (parseAndFormatDataSize (s_peakUserMemoryReservation stats))]];
        el "tr" [] [
          el "td" [A "className" "stage-table-stat-title"] [T "Failed"];
          el "td" [A "className" "stage-table-stat-text"] [
            VText (formatDataSizeBytes (ndiv (s_failedCumulativeUserMemory stats) (of_Z 1000)))]]]].

Definition stage_tasks_table (ts : list task) : summary_view :=
  el "table" [A "className" "stage-table stage-table-tasks"] [
      el "thead" [] [
        el "tr" [] [
          el "th" [A "className" "stage-table-stat-title stage-table-stat-header"] [T "Tasks"];
          el "th" [] []]];
      el "tbody" [] [
        el "tr" [] [
          el "td" [A "className" "stage-table-stat-title"] [T "Pending"];
          el "td" [A "className" "stage-table-stat-text"] [
            VNum (of_nat (count_tasks (λ t, jeqb (t_state t) (js "PLANNED")) ts))]];
        el "tr" [] [
          el "td" [A "className" "stage-table-stat-title"] [T "Running"];
          el "td" [A "className" "stage-table-stat-text"] [
            VNum (of_nat (count_tasks (λ t, jeqb (t_state t) (js "RUNNING")) ts))]];
        el "tr" [] [
          el "td" [A "className" "stage-table-stat-title"] [T "Blocked"];
          el "td" [A "className" "stage-table-stat-text"] [
            VNum (of_nat (count_tasks t_fullyBlocked ts))]];
        el "tr" [] [
          el "td" [A "className" "stage-table-stat-title"] [T "Failed"];
          el "td" [A "className" "stage-table-stat-text"] [
            VNum (of_nat (count_tasks (λ t, jeqb (t_state t) (js "FAILED")) ts))]];
        el "tr" [] [
          el "td" [A "className" "stage-table-stat-title"] [T "Total"];
          el "td" [A "className" "stage-table-stat-text"] [VNum (of_nat (length ts))]]]].

Definition scheduled_histogram_table (id : jstring) : summary_view :=
  el "table" [A "className" "stage-table histogram-table"] [
      el "thead" [] [
        el "tr" [] [
          el "th" [A "className" "stage-table-stat-title stage-table-chart-header"] [
            T "Scheduled Time Skew"]]];
      el "tbody" [] [
        el "tr" [] [
          el "td" [A "className" "histogram-container"] [
            el "span" [A "className" "histogram"; AX "id" (js "scheduled-time-histogram-" ++ id)] [
              el "div" [A "className" "loader"] []]]]]].

Definition cpu_histogram_table (id : jstring) : summary_view :=
  el "table" [A "className" "stage-table histogram-table"] [
      el "thead" [] [
        el "tr" [] [
          el "th" [A "className" "stage-table-stat-title stage-table-chart-header"] [
            T "CPU Time Skew"]]];
      el "tbody" [] [
        el "tr" [] [
          el "td" [A "className" "histogram-container"] [
            el "span" [A "className" "histogram"; AX "id" (js "cpu-time-histogram-" ++ id)] [
              el "div" [A "className" "loader"] []]]]]].

Definition scheduled_chart_row (s : summary_state) (id : jstring) : summary_view :=
  el "tr" [ASt "style" (getExpandedStyle s)] [
      el "td" [A "colSpan" "6"] [
        el "table" [A "className" "expanded-chart"] [
          el "tbody" [] [
            el "tr" [] [
              el "td" [A "className" "stage-table-stat-title expanded-chart-title"] [
                T "Task Scheduled Time"];
              el "td" [A "className" "bar-chart-container"] [
                el "span" [A "className" "bar-chart"; AX "id" (js "scheduled-time-bar-chart-" ++ id)] [
                  el "div" [A "className" "loader"] []]]]]]]].

Definition cpu_chart_row (s : summary_state) (id : jstring) : summary_view :=
  el "tr" [ASt "style" (getExpandedStyle s)] [
      el "td" [A "colSpan" "6"] [
        el "table" [A "className" "expanded-chart"] [
          el "tbody" [] [
            el "tr" [] [
              el "td" [A "className" "stage-table-stat-title expanded-chart-title"] [
                T "Task CPU Time"];
              el "td" [A "className" "bar-chart-container"] [
                el "span" [A "className" "bar-chart"; AX "id" (js "cpu-time-bar-chart-" ++ id)] [
                  el "div" [A "className" "loader"] []]]]]]]].

Definition stage_row (s : summary_state) (stats : stage_stats) (ts : list task) (id color : jstring) (taskList : summary_view) : summary_view :=
  el "tr" [] [
      el "td" [A "className" "stage-id"] [
        el "div" [A "className" "stage-state-color"; ASt "style" [(js "borderLeftColor", color)]] [
          VText id]];
      el "td" [] [
        el "table" [A "className" "table single-stage-table"] [
          el "tbody" [] [
            el "tr" [] [
              el "td" [] [stage_time_table stats];
              el "td" [] [stage_memory_table stats ts];
              el "td" [] [stage_tasks_table ts];
              el "td" [] [scheduled_histogram_table id];
              el "td" [] [cpu_histogram_table id];
              el "td" [A "className" "expand-charts-container"] [
                el "a" [AH "onClick" ToggleExpanded; A "className" "expand-charts-button"] [
                  el "span" [AX "className" (js "glyphicon " ++ getExpandedIcon s); ASt "style" [(js "color", GLYPHICON_HIGHLIGHT)]; A "data-toggle" "tooltip"; A "data-placement" "top"; A "title" "More"] []]]];
            scheduled_chart_row s id;
            cpu_chart_row s id;
            el "tr" [ASt "style" (getExpandedStyle s)] [
              el "td" [A "colSpan" "6"] [renderTaskFilter s]];
            el "tr" [ASt "style" (getExpandedStyle s)] [el "td" [A "colSpan" "6"] [taskList]]]]]].

Definition StageSummary_render `{DateParse, UrlParser} (now : number) (st : option stage)
  (taskRetriesEnabled : bool) (s : summary_state) : res summary_view :=
  match st with
  | None => Ok stage_unavailable
  | Some st =>
    match plan st with
    | None => Ok stage_unavailable
    | Some _ =>
      stats ← deref (stageStats st);
      taskList ← TaskList_render now (Some (listed_tasks st s)) taskRetriesEnabled;
      Ok (stage_row s stats (tasks st) (toString (getStageNumber (stageId st)))
            (getStageStateColor (st_state st) (s_fullyBlocked stats))
            (vmap (Empty_set_rect _) (Empty_set_rect _) taskList))
    end
  end.

(** ** StageList *)

(** The rows of the stages are components with their own state. *)
Inductive query_child := StageSummary (s : stage) (taskRetriesEnabled : bool).
Inductive query_handler := QueryHeaderAction (a : header_action) | StageRefreshClick.
Abbreviation query_view := (vnode query_child query_handler).

Definition no_stages_view : query_view :=
  el "div" [A "className" "row"] [
      el "div" [A "className" "col-xs-12"] [T "No stage information available."]].

Definition stages_table (renderedStages : list query_view) : query_view :=
  el "div" [A "className" "row"] [
      el "div" [A "className" "col-xs-12"] [
        el "table" [A "className" "table"; A "id" "stage-list"] [
          el "tbody" [] [VList renderedStages]]]].

Definition StageList_render (outputStage : option stage) (taskRetriesEnabled : bool) : query_view :=
  match getStages_opt outputStage with
  | [] => no_stages_view
  | stages => stages_table (map (λ st, VComp (StageSummary st taskRetriesEnabled)) stages)
  end.

(** ** QueryDetail: the state *)

(** Both [lastSnapshotStages], which the constructor and the button set, and
    [lastSnapshotStage], which the response handler and [render] use. *)
Record qd_state := {
  qd_query : option query_info;
  lastSnapshotStages : option stage;
  lastSnapshotStage : option stage;
  lastSnapshotTasks : option stage;
  lastScheduledTime : option number;
  lastCpuTime : option number;
  lastRowInput : number;
  lastByteInput : option number;
  lastPhysicalInput : option number;
  lastPhysicalTime : option number;
  scheduledTimeRate : list number;
  cpuTimeRate : list number;
  rowInputRate : list number;
  byteInputRate : list number;
  physicalInputRate : list number;
  reservedMemory : list (option number);
  qd_initialized : bool;
  queryEnded : bool;
  qd_lastRefresh : option Z;
  qd_lastRender : option Z;
  stageRefresh : bool;
  taskRefresh : bool;
}.

Definition qd_constructor : qd_state := {|
  qd_query := None; lastSnapshotStages := None; lastSnapshotStage := None; lastSnapshotTasks := None;
  lastScheduledTime := Some zero; lastCpuTime := Some zero; lastRowInput := zero; lastByteInput := Some zero;
  lastPhysicalInput := Some zero; lastPhysicalTime := Some zero; scheduledTimeRate := []; cpuTimeRate := [];
  rowInputRate := []; byteInputRate := []; physicalInputRate := []; reservedMemory := [];
  qd_initialized := false; queryEnded := false; qd_lastRefresh := None; qd_lastRender := None;
  stageRefresh := true; taskRefresh := true |}.

(** ** Views *)

Definition refresh_on_button : query_view :=
  el "button" [A "className" "btn btn-info live-button"; AH "onClick" StageRefreshClick] [
      T "Auto-Refresh: On"].

Definition refresh_off_button : query_view :=
  el "button" [A "className" "btn btn-info live-button"; AH "onClick" StageRefreshClick] [
      T "Auto-Refresh: Off"].

Definition renderStageRefreshButton (s : qd_state) : query_view :=
  if stageRefresh s then refresh_on_button else refresh_off_button.

Definition stages_section (button stageList : query_view) : query_view :=
  el "div" [] [
      el "div" [A "className" "row"] [
        el "div" [A "className" "col-xs-9"] [el "h3" [] [T "Stages"]];
        el "div" [A "className" "col-xs-3"] [
          el "table" [A "className" "header-inline-links"] [
            el "tbody" [] [el "tr" [] [el "td" [] [button]]]]]];
      el "div" [A "className" "row"] [el "div" [A "className" "col-xs-12"] [stageList]]].

(** An absent output stage is [undefined], never [null], so that the section is always shown. *)
Definition renderStages (s : qd_state) (taskRetriesEnabled : bool) : query_view :=
  stages_section (renderStageRefreshButton s) (StageList_render (lastSnapshotStage s) taskRetriesEnabled).

Definition prepared_query_view (text : jstring) : query_view :=
  el "div" [A "className" "col-xs-12"] [
      el "h3" [] [
        T "Prepared Query";
        el "a" [A "className" "btn copy-button"; A "data-clipboard-target" "#prepared-query-text"; A "data-toggle" "tooltip"; A "data-placement" "right"; A "title" "Copy to clipboard"] [
          el "span" [A "className" "glyphicon glyphicon-copy"; A "aria-hidden" "true"; A "alt" "Copy to clipboard"] []]];
      el "pre" [A "id" "prepared-query"] [
        el "code" [A "className" "lang-sql"; A "id" "prepared-query-text"] [VText text]]].

Definition renderPreparedQuery (query : query_info) : query_view :=
  match preparedQuery query with Some text => prepared_query_view text | None => VNothing end.

Definition property_span (text : jstring) : query_view :=
  el "span" [] [T "- "; VText text; T " "; el "br" [] []].

Definition warning_row (w : warning) : query_view :=
  el "tr" [] [el "td" [] [VText (w_code_name w)]; el "td" [] [VText (w_message w)]].

Definition warnings_view (ws : list warning) : query_view :=
  el "div" [A "className" "row"] [
      el "div" [A "className" "col-xs-12"] [
        el "h3" [] [T "Warnings"];
        el "hr" [A "className" "h3-hr"] [];
        el "table" [A "className" "table"; A "id" "warnings-table"] [VList (map warning_row ws)]]].

Definition renderWarningInfo (query : query_info) : query_view :=
  match warnings query with [] => VNothing | ws => warnings_view ws end.

Definition failure_view (query : query_info) (trace : jstring) (code : error_code) : query_view :=
  el "div" [A "className" "row"] [
      el "div" [A "className" "col-xs-12"] [
        el "h3" [] [T "Error Information"];
        el "hr" [A "className" "h3-hr"] [];
        el "table" [A "className" "table"] [
          el "tbody" [] [
            el "tr" [] [
              el "td" [A "className" "info-title"] [T "Error Type"];
              el "td" [A "className" "info-text"] [VOpt (errorType (qi query))]];
            el "tr" [] [
              el "td" [A "className" "info-title"] [T "Error Code"];
              el "td" [A "className" "info-text"] [
                VText (ec_name code ++ js " (" ++ toString (ec_code code) ++ js ")")]];
            el "tr" [] [
              el "td" [A "className" "info-title"] [
                T "Stack Trace";
                el "a" [A "className" "btn copy-button"; A "data-clipboard-target" "#stack-trace"; A "data-toggle" "tooltip"; A "data-placement" "right"; A "title" "Copy to clipboard"] [
                  el "span" [A "className" "glyphicon glyphicon-copy"; A "aria-hidden" "true"; A "alt" "Copy to clipboard"] []]];
              el "td" [A "className" "info-text"] [el "pre" [A "id" "stack-trace"] [VText trace]]]]]]].

Definition renderFailureInfo (query : query_info) : res query_view :=
  match failureInfo query with
  | Some info =>
    code ← deref (errorCode (qi query));
    trace ← formatStackTrace info;
    Ok (failure_view query trace code)
  | None => Ok (VText [])
  end.

Definition query_message (label : query_view) : query_view :=
  el "div" [A "className" "row error-message"] [
      el "div" [A "className" "col-xs-12"] [el "h4" [] [label]]].

Definition session_table (query : query_info) : query_view :=
  el "table" [A "className" "table"] [
      el "tbody" [] [
        el "tr" [] [
          el "td" [A "className" "info-title"] [T "User"];
          el "td" [A "className" "info-text wrap-text"] [
            el "span" [A "id" "query-user"] [VText (ss_user (q_session query))];
            VText ([160%N; 160%N]);
            el "a" [A "href" "#"; A "className" "copy-button"; A "data-clipboard-target" "#query-user"; A "data-toggle" "tooltip"; A "data-placement" "right"; A "title" "Copy to clipboard"] [
              el "span" [A "className" "glyphicon glyphicon-copy"; A "aria-hidden" "true"; A "alt" "Copy to clipboard"] []]]];
        el "tr" [] [
          el "td" [A "className" "info-title"] [T "Principal"];
          el "td" [A "className" "info-text wrap-text"] [VOpt (ss_principal (q_session query))]];
        el "tr" [] [
          el "td" [A "className" "info-title"] [T "Source"];
          el "td" [A "className" "info-text wrap-text"] [VOpt (ss_source (q_session query))]];
        el "tr" [] [
          el "td" [A "className" "info-title"] [T "Catalog"];
          el "td" [A "className" "info-text"] [VOpt (ss_catalog (q_session query))]];
        el "tr" [] [
          el "td" [A "className" "info-title"] [T "Schema"];
          el "td" [A "className" "info-text"] [VOpt (ss_schema (q_session query))]];
        el "tr" [] [
          el "td" [A "className" "info-title"] [T "Time zone"];
          el "td" [A "className" "info-text"] [VText (ss_timeZone (q_session query))]];
        el "tr" [] [
          el "td" [A "className" "info-title"] [T "Client Address"];
          el "td" [A "className" "info-text"] [VOpt (ss_remoteUserAddress (q_session query))]];
        el "tr" [] [
          el "td" [A "className" "info-title"] [T "Client Tags"];
          el "td" [A "className" "info-text"] [
            VText (join (js ", ") (clientTags (q_session query)))]];
        el "tr" [] [
          el "td" [A "className" "info-title"] [T "Session Properties"];
          el "td" [A "className" "info-text wrap-text"] [
            VList (map property_span (session_properties (q_session query)))]];
        el "tr" [] [
          el "td" [A "className" "info-title"] [T "Resource Estimates"];
          el "td" [A "className" "info-text wrap-text"] [
            VList (map property_span (resource_estimates (q_session query)))]]]].

Definition execution_table `{DateParse, LocalTime} (query : query_info) (stats : query_stats) : query_view :=
  let d := detail query in
  el "table" [A "className" "table"] [
      el "tbody" [] [
        el "tr" [] [
          el "td" [A "className" "info-title"] [T "Resource Group"];
          el "td" [A "className" "info-text wrap-text"] [
            VText (match resourceGroupId (qi query) with Some path => join (js ".") path | None => js "n/a" end)]];
        el "tr" [] [
          el "td" [A "className" "info-title"] [T "Submission Time"];
          el "td" [A "className" "info-text"] [
            VText (formatShortDateTime (local_date (Date_parse (createTime stats))))]];
        el "tr" [] [
          el "td" [A "className" "info-title"] [T "Completion Time"];
          el "td" [A "className" "info-text"] [
            VText (match endTime d with Some e => if truthy e then formatShortDateTime (local_date (Date_parse e)) else [] | None => [] end)]];
        el "tr" [] [
          el "td" [A "className" "info-title"] [T "Elapsed Time"];
          el "td" [A "className" "info-text"] [VText (elapsedTime stats)]];
        el "tr" [] [
          el "td" [A "className" "info-title"] [T "Queued Time"];
          el "td" [A "className" "info-text"] [VText (queuedTime d)]];
        el "tr" [] [
          el "td" [A "className" "info-title"] [T "Analysis Time"];
          el "td" [A "className" "info-text"] [VText (analysisTime d)]];
        el "tr" [] [
          el "td" [A "className" "info-title"] [T "Planning Time"];
          el "td" [A "className" "info-text"] [VText (planningTime d)]];
        el "tr" [] [
          el "td" [A "className" "info-title"] [T "Execution Time"];
          el "td" [A "className" "info-text"] [VText (executionTime stats)]]]].

Definition resource_rows_input (taskRetriesEnabled : bool) (stats : query_stats) (d : detail_stats) : list query_view :=
  [ el "tr" [] [
        el "td" [A "className" "info-title"] [T "CPU Time"];
        el "td" [A "className" "info-text"] [VText (totalCpuTime stats)];
        VWhen taskRetriesEnabled (el "td" [A "className" "info-failed"] [VText (failedCpuTime d)])];
    el "tr" [] [
        el "td" [A "className" "info-title"] [T "Scheduled Time"];
        el "td" [A "className" "info-text"] [VText (totalScheduledTime d)];
        VWhen taskRetriesEnabled (el "td" [A "className" "info-failed"] [VText (failedScheduledTime d)])];
    el "tr" [] [
        el "td" [A "className" "info-title"] [T "Input Rows"];
        el "td" [A "className" "info-text"] [VText (formatCount (processedInputPositions d))];
        VWhen taskRetriesEnabled (el "td" [A "className" "info-failed"] [VNum (failedProcessedInputPositions d)])];
    el "tr" [] [
        el "td" [A "className" "info-title"] [T "Input Data"];
        el "td" [A "className" "info-text"] [
          VText (parseAndFormatDataSize (processedInputDataSize d))];
        VWhen taskRetriesEnabled (el "td" [A "className" "info-failed"] [VText (failedProcessedInputDataSize d)])];
    el "tr" [] [
        el "td" [A "className" "info-title"] [T "Physical Input Rows"];
        el "td" [A "className" "info-text"] [VText (formatCount (physicalInputPositions d))];
        VWhen taskRetriesEnabled (el "td" [A "className" "info-failed"] [
          VText (formatCount (failedPhysicalInputPositions d))])];
    el "tr" [] [
        el "td" [A "className" "info-title"] [T "Physical Input Data"];
        el "td" [A "className" "info-text"] [
          VText (parseAndFormatDataSize (physicalInputDataSize d))];
        VWhen taskRetriesEnabled (el "td" [A "className" "info-failed"] [
          VText (parseAndFormatDataSize (failedPhysicalInputDataSize d))])] ].

Definition resource_rows_memory (taskRetriesEnabled : bool) (stats : query_stats) (d : detail_stats) : list query_view :=
  [ el "tr" [] [
        el "td" [A "className" "info-title"] [T "Physical Input Read Time"];
        el "td" [A "className" "info-text"] [VText (physicalInputReadTime d)];
        VWhen taskRetriesEnabled (el "td" [A "className" "info-failed"] [VText (failedPhysicalInputReadTime d)])];
    el "tr" [] [
        el "td" [A "className" "info-title"] [T "Internal Network Rows"];
        el "td" [A "className" "info-text"] [VText (formatCount (internalNetworkInputPositions d))];
        VWhen taskRetriesEnabled (el "td" [A "className" "info-failed"] [
          VText (formatCount (failedInternalNetworkInputPositions d))])];
    el "tr" [] [
        el "td" [A "className" "info-title"] [T "Internal Network Data"];
        el "td" [A "className" "info-text"] [
          VText (parseAndFormatDataSize (internalNetworkInputDataSize d))];
        VWhen taskRetriesEnabled (el "td" [A "className" "info-failed"] [
          VText (parseAndFormatDataSize (failedInternalNetworkInputDataSize d))])];
    el "tr" [] [
        el "td" [A "className" "info-title"] [T "Peak User Memory"];
        el "td" [A "className" "info-text"] [
          VText (parseAndFormatDataSize (peakUserMemoryReservation d))]];
    VWhen (ngtb (num_of_nullable (parseDataSize (peakRevocableMemoryReservation d))) zero) (el "tr" [] [
        el "td" [A "className" "info-title"] [T "Peak Revocable Memory"];
        el "td" [A "className" "info-text"] [
          VText (parseAndFormatDataSize (peakRevocableMemoryReservation d))]]);
    el "tr" [] [
        el "td" [A "className" "info-title"] [T "Peak Total Memory"];
        el "td" [A "className" "info-text"] [
          VText (parseAndFormatDataSize (peakTotalMemoryReservation stats))]];
    el "tr" [] [
        el "td" [A "className" "info-title"] [T "Cumulative User Memory"];
        el "td" [A "className" "info-text"] [
          VText (formatDataSize (ndiv (cumulativeUserMemory stats) (of_Z 1000)) ++ js "*seconds")];
        VWhen taskRetriesEnabled (el "td" [A "className" "info-failed"] [
          VText (formatDataSize (ndiv (failedCumulativeUserMemory d) (of_Z 1000)) ++ js "*seconds")])] ].

Definition resource_rows_output (taskRetriesEnabled : bool) (stats : query_stats) (d : detail_stats) : list query_view :=
  [ el "tr" [] [
        el "td" [A "className" "info-title"] [T "Output Rows"];
        el "td" [A "className" "info-text"] [VText (formatCount (outputPositions d))];
        VWhen taskRetriesEnabled (el "td" [A "className" "info-failed"] [VText (formatCount (failedOutputPositions d))])];
    el "tr" [] [
        el "td" [A "className" "info-title"] [T "Output Data"];
        el "td" [A "className" "info-text"] [VText (parseAndFormatDataSize (outputDataSize d))];
        VWhen taskRetriesEnabled (el "td" [A "className" "info-failed"] [
          VText (parseAndFormatDataSize (failedOutputDataSize d))])];
    el "tr" [] [
        el "td" [A "className" "info-title"] [T "Written Rows"];
        el "td" [A "className" "info-text"] [VText (formatCount (writtenPositions d))]];
    el "tr" [] [
        el "td" [A "className" "info-title"] [T "Logical Written Data"];
        el "td" [A "className" "info-text"] [
          VText (parseAndFormatDataSize (logicalWrittenDataSize d))]];
    el "tr" [] [
        el "td" [A "className" "info-title"] [T "Physical Written Data"];
        el "td" [A "className" "info-text"] [
          VText (parseAndFormatDataSize (physicalWrittenDataSize d))];
        VWhen taskRetriesEnabled (el "td" [A "className" "info-failed"] [
          VText (parseAndFormatDataSize (failedPhysicalWrittenDataSize d))])];
    VWhen (ngtb (num_of_nullable (parseDataSize (spilledDataSize d))) zero) (el "tr" [] [
        el "td" [A "className" "info-title"] [T "Spilled Data"];
        el "td" [A "className" "info-text"] [VText (parseAndFormatDataSize (spilledDataSize d))]]) ].

Definition resource_table (taskRetriesEnabled : bool) (stats : query_stats) (d : detail_stats) : query_view :=
  el "table" [A "className" "table"] [
    el "tbody" [] (resource_rows_input taskRetriesEnabled stats d ++ resource_rows_memory taskRetriesEnabled stats d
                   ++ resource_rows_output taskRetriesEnabled stats d)].

(** The newest value of a history; there is none before the second measurement. *)
Definition last_value (h : list number) : number := default nan (last h).

Definition timeline_table (s : qd_state) : res (query_view) :=
  memory ← on_nullable formatDataSize (default (Some nan) (last (reservedMemory s)));
  Ok (el "table" [A "className" "table"] [
      el "tbody" [] [
        el "tr" [] [
          el "td" [A "className" "info-title"] [T "Parallelism"];
          el "td" [A "rowSpan" "2"] [
            el "div" [A "className" "query-stats-sparkline-container"] [
              el "span" [A "className" "sparkline"; A "id" "cpu-time-rate-sparkline"] [
                el "div" [A "className" "loader"] [T "Loading ..."]]]]];
        el "tr" [A "className" "tr-noborder"] [
          el "td" [A "className" "info-sparkline-text"] [
            VText (formatCount (last_value (cpuTimeRate s)))]];
        el "tr" [] [
          el "td" [A "className" "info-title"] [T "Scheduled Time/s"];
          el "td" [A "rowSpan" "2"] [
            el "div" [A "className" "query-stats-sparkline-container"] [
              el "span" [A "className" "sparkline"; A "id" "scheduled-time-rate-sparkline"] [
                el "div" [A "className" "loader"] [T "Loading ..."]]]]];
        el "tr" [A "className" "tr-noborder"] [
          el "td" [A "className" "info-sparkline-text"] [
            VText (formatCount (last_value (scheduledTimeRate s)))]];
        el "tr" [] [
          el "td" [A "className" "info-title"] [T "Input Rows/s"];
          el "td" [A "rowSpan" "2"] [
            el "div" [A "className" "query-stats-sparkline-container"] [
              el "span" [A "className" "sparkline"; A "id" "row-input-rate-sparkline"] [
                el "div" [A "className" "loader"] [T "Loading ..."]]]]];
        el "tr" [A "className" "tr-noborder"] [
          el "td" [A "className" "info-sparkline-text"] [
            VText (formatCount (last_value (rowInputRate s)))]];
        el "tr" [] [
          el "td" [A "className" "info-title"] [T "Input Bytes/s"];
          el "td" [A "rowSpan" "2"] [
            el "div" [A "className" "query-stats-sparkline-container"] [
              el "span" [A "className" "sparkline"; A "id" "byte-input-rate-sparkline"] [
                el "div" [A "className" "loader"] [T "Loading ..."]]]]];
        el "tr" [A "className" "tr-noborder"] [
          el "td" [A "className" "info-sparkline-text"] [
            VText (formatDataSize (last_value (byteInputRate s)))]];
        el "tr" [] [
          el "td" [A "className" "info-title"] [T "Physical Input Bytes/s"];
          el "td" [A "rowSpan" "2"] [
            el "div" [A "className" "query-stats-sparkline-container"] [
              el "span" [A "className" "sparkline"; A "id" "physical-input-rate-sparkline"] [
                el "div" [A "className" "loader"] [T "Loading ..."]]]]];
        el "tr" [A "className" "tr-noborder"] [
          el "td" [A "className" "info-sparkline-text"] [
            VText (formatDataSize (last_value (physicalInputRate s)))]];
        el "tr" [] [
          el "td" [A "className" "info-title"] [T "Memory Utilization"];
          el "td" [A "rowSpan" "2"] [
            el "div" [A "className" "query-stats-sparkline-container"] [
              el "span" [A "className" "sparkline"; A "id" "reserved-memory-sparkline"] [
                el "div" [A "className" "loader"] [T "Loading ..."]]]]];
        el "tr" [A "className" "tr-noborder"] [
          el "td" [A "className" "info-sparkline-text"] [VText memory]]]]).

Definition query_page (query : query_info) (header session execution resources timeline warningInfo failure prepared stages : query_view) : query_view :=
  el "div" [] [
      header;
      el "div" [A "className" "row"] [
        el "div" [A "className" "col-xs-6"] [
          el "h3" [] [T "Session"];
          el "hr" [A "className" "h3-hr"] [];
          session];
        el "div" [A "className" "col-xs-6"] [
          el "h3" [] [T "Execution"];
          el "hr" [A "className" "h3-hr"] [];
          execution]];
      el "div" [A "className" "row"] [
        el "div" [A "className" "col-xs-12"] [
          el "div" [A "className" "row"] [
            el "div" [A "className" "col-xs-6"] [
              el "h3" [] [T "Resource Utilization Summary"];
              el "hr" [A "className" "h3-hr"] [];
              resources];
            el "div" [A "className" "col-xs-6"] [
              el "h3" [] [T "Timeline"];
              el "hr" [A "className" "h3-hr"] [];
              timeline]]]];
      warningInfo;
      failure;
      el "div" [A "className" "row"] [
        el "div" [A "className" "col-xs-12"] [
          el "h3" [] [
            T "Query";
            el "a" [A "className" "btn copy-button"; A "data-clipboard-target" "#query-text"; A "data-toggle" "tooltip"; A "data-placement" "right"; A "title" "Copy to clipboard"] [
              el "span" [A "className" "glyphicon glyphicon-copy"; A "aria-hidden" "true"; A "alt" "Copy to clipboard"] []]];
          el "pre" [A "id" "query"] [
            el "code" [A "className" "lang-sql"; A "id" "query-text"] [VText (q_text query)]]];
        prepared];
      stages].

Section render.
Context `{DateParse, LocalTime}.

Definition qd_render (pathname : jstring) (s : qd_state) : res query_view :=
  match qd_query s with
  | None => Ok (query_message (if qd_initialized s then T "Query not found" else
                                 el "div" [A "className" "loader"] [T "Loading..."]))
  | Some query =>
    if negb (qd_initialized s) then Ok (query_message (el "div" [A "className" "loader"] [T "Loading..."]))
    else
      let taskRetriesEnabled := feq (retryPolicy (qi query)) (js "TASK") in
      stats ← deref (queryStats (qi query));
      header ← header_render pathname (qi query);
      timeline ← timeline_table s;
      failure ← renderFailureInfo query;
      Ok (query_page query (vmap (Empty_set_rect _) QueryHeaderAction header) (session_table query)
            (execution_table query stats) (resource_table taskRetriesEnabled stats (detail query)) timeline
            (renderWarningInfo query) failure (renderPreparedQuery query) (renderStages s taskRetriesEnabled))
  end.
End render.

(** ** The component *)

(** [componentDidUpdate] redraws the sparklines at most once per second; the state has no
    [ended], so that the end of the query does not force a redraw. *)
Definition redraw_due (now : Z) (s : qd_state) : bool :=
  match qd_lastRender s with None => true | Some last => (1000 <=? now - last)%Z end.

Definition qd_sparklines (s : qd_state) : list sparkline :=
  let some := map (λ x, Some x) in
  [{| sp_target := js "#scheduled-time-rate-sparkline"; sp_values := some (scheduledTimeRate s);
      sp_chartRangeMin := Some zero; sp_formatter := Some precisionRound |};
   {| sp_target := js "#cpu-time-rate-sparkline"; sp_values := some (cpuTimeRate s);
      sp_chartRangeMin := Some zero; sp_formatter := Some precisionRound |};
   {| sp_target := js "#row-input-rate-sparkline"; sp_values := some (rowInputRate s);
      sp_chartRangeMin := None; sp_formatter := Some formatCount |};
   {| sp_target := js "#byte-input-rate-sparkline"; sp_values := some (byteInputRate s);
      sp_chartRangeMin := None; sp_formatter := Some formatDataSize |};
   {| sp_target := js "#reserved-memory-sparkline"; sp_values := reservedMemory s;
      sp_chartRangeMin := None; sp_formatter := Some formatDataSize |};
   {| sp_target := js "#physical-input-rate-sparkline"; sp_values := some (physicalInputRate s);
      sp_chartRangeMin := None; sp_formatter := Some formatDataSize |}].

Definition set_lastRender (now : Z) (s : qd_state) : qd_state := {|
  qd_query := qd_query s; lastSnapshotStages := lastSnapshotStages s; lastSnapshotStage := lastSnapshotStage s;
  lastSnapshotTasks := lastSnapshotTasks s; lastScheduledTime := lastScheduledTime s; lastCpuTime := lastCpuTime s;
  lastRowInput := lastRowInput s; lastByteInput := lastByteInput s; lastPhysicalInput := lastPhysicalInput s;
  lastPhysicalTime := lastPhysicalTime s; scheduledTimeRate := scheduledTimeRate s; cpuTimeRate := cpuTimeRate s;
  rowInputRate := rowInputRate s; byteInputRate := byteInputRate s; physicalInputRate := physicalInputRate s;
  reservedMemory := reservedMemory s; qd_initialized := qd_initialized s; queryEnded := queryEnded s;
  qd_lastRefresh := qd_lastRefresh s; qd_lastRender := Some now; stageRefresh := stageRefresh s;
  taskRefresh := taskRefresh s |}.

Definition qd_didUpdate (now : Z) (s : qd_state) : list sparkline * qd_state :=
  if redraw_due now s then (qd_sparklines s, set_lastRender now s) else ([], s).

(** The first [setState] of the response handler. *)
Definition qd_received (now : Z) (query : query_info) (stats : query_stats) (s : qd_state) : qd_state :=
  let d := detail query in {|
  qd_query := Some query; lastSnapshotStages := lastSnapshotStages s;
  lastSnapshotStage := if stageRefresh s then outputStage query else lastSnapshotStage s;
  lastSnapshotTasks := if taskRefresh s then outputStage query else lastSnapshotTasks s;
  lastScheduledTime := parseDuration (totalScheduledTime d); lastCpuTime := parseDuration (totalCpuTime stats);
  lastRowInput := processedInputPositions d; lastByteInput := parseDataSize (processedInputDataSize d);
  lastPhysicalInput := parseDataSize (physicalInputDataSize d);
  lastPhysicalTime := parseDuration (physicalInputReadTime d);
  scheduledTimeRate := scheduledTimeRate s; cpuTimeRate := cpuTimeRate s; rowInputRate := rowInputRate s;
  byteInputRate := byteInputRate s; physicalInputRate := physicalInputRate s; reservedMemory := reservedMemory s;
  qd_initialized := true; queryEnded := finalQueryInfo query; qd_lastRefresh := Some now;
  qd_lastRender := qd_lastRender s; stageRefresh := stageRefresh s; taskRefresh := taskRefresh s |}.

(** The second: the rates since the last refresh.  [s] is the state before the first
    [setState], [s1] the state after it; [null] counts as 0. *)
Definition qd_measured (elapsedSecs : number) (query : query_info) (stats : query_stats) (s s1 : qd_state) : qd_state :=
  let d := detail query in
  let num := num_of_nullable in
  let elapsedMs := nmul elapsedSecs (of_Z 1000) in
  let currentScheduledTimeRate :=
    ndiv (nsub (num (parseDuration (totalScheduledTime d))) (num (lastScheduledTime s))) elapsedMs in
  let currentCpuTimeRate :=
    ndiv (nsub (num (parseDuration (totalCpuTime stats))) (num (lastCpuTime s))) elapsedMs in
  let currentPhysicalReadTime :=
    ndiv (nsub (num (parseDuration (physicalInputReadTime d))) (num (lastPhysicalTime s))) (of_Z 1000) in
  let currentRowInputRate := ndiv (nsub (processedInputPositions d) (lastRowInput s)) elapsedSecs in
  let currentByteInputRate :=
    ndiv (nsub (num (parseDataSize (processedInputDataSize d))) (num (lastByteInput s))) elapsedSecs in
  let currentPhysicalInputRate :=
    if ngtb currentPhysicalReadTime zero
    then ndiv (nsub (num (parseDataSize (physicalInputDataSize d))) (num (lastPhysicalInput s))) currentPhysicalReadTime
    else zero in {|
  qd_query := qd_query s1; lastSnapshotStages := lastSnapshotStages s1; lastSnapshotStage := lastSnapshotStage s1;
  lastSnapshotTasks := lastSnapshotTasks s1; lastScheduledTime := lastScheduledTime s1; lastCpuTime := lastCpuTime s1;
  lastRowInput := lastRowInput s1; lastByteInput := lastByteInput s1; lastPhysicalInput := lastPhysicalInput s1;
  lastPhysicalTime := lastPhysicalTime s1;
  scheduledTimeRate := addToHistory currentScheduledTimeRate (scheduledTimeRate s1);
  cpuTimeRate := addToHistory currentCpuTimeRate (cpuTimeRate s1);
  rowInputRate := addToHistory currentRowInputRate (rowInputRate s1);
  byteInputRate := addToHistory currentByteInputRate (byteInputRate s1);
  physicalInputRate := addToHistory currentPhysicalInputRate (physicalInputRate s1);
  reservedMemory := addToHistory (parseDataSize (totalMemoryReservation stats)) (reservedMemory s1);
  qd_initialized := qd_initialized s1; queryEnded := queryEnded s1; qd_lastRefresh := qd_lastRefresh s1;
  qd_lastRender := qd_lastRender s1; stageRefresh := stageRefresh s1; taskRefresh := taskRefresh s1 |}.

(** The seconds since the last refresh; at the first one, the age of the query. *)
Definition elapsed_secs (now : Z) (stats : query_stats) (s : qd_state) : number :=
  let last := match qd_lastRefresh s with
              | Some last => of_Z last
              | None => nsub (of_Z now) (num_of_nullable (parseDuration (elapsedTime stats)))
              end in
  ndiv (nsub (of_Z now) last) (of_Z 1000).

Section component.
Context `{DateParse, LocalTime}.

(** A state update renders the page and runs [componentDidUpdate]. *)
Definition qd_update (pathname : jstring) (now : Z) (s : qd_state) (k : qd_state → outcome qd_state) : outcome qd_state :=
  match qd_render pathname s with
  | Ok _ => k (qd_didUpdate now s).2
  | Throw _ => Escaped s
  end.

(** The success callback of [refreshLoop]'s request, up to [resetTimer]. *)
Definition qd_on_response (pathname : jstring) (r : Z * query_info) (s : qd_state) : outcome qd_state :=
  let '(now, query) := r in
  match queryStats (qi query) with
  | None => Escaped s
  | Some stats =>
    qd_update pathname now (qd_received now query stats s) (λ s1,
      if queryEnded s || (match qd_lastRefresh s with None => true | Some _ => false end
                          && jeqb (q_state (qi query)) (js "RUNNING"))
      then Done s1
      else
        let elapsedSecs := elapsed_secs now stats s in
        if ngeb elapsedSecs zero
        then qd_update pathname now (qd_measured elapsedSecs query stats s s1) Done
        else Done s1)
  end.

Definition set_initialized (s : qd_state) : qd_state := {|
  qd_query := qd_query s; lastSnapshotStages := lastSnapshotStages s; lastSnapshotStage := lastSnapshotStage s;
  lastSnapshotTasks := lastSnapshotTasks s; lastScheduledTime := lastScheduledTime s; lastCpuTime := lastCpuTime s;
  lastRowInput := lastRowInput s; lastByteInput := lastByteInput s; lastPhysicalInput := lastPhysicalInput s;
  lastPhysicalTime := lastPhysicalTime s; scheduledTimeRate := scheduledTimeRate s; cpuTimeRate := cpuTimeRate s;
  rowInputRate := rowInputRate s; byteInputRate := byteInputRate s; physicalInputRate := physicalInputRate s;
  reservedMemory := reservedMemory s; qd_initialized := true; queryEnded := queryEnded s;
  qd_lastRefresh := qd_lastRefresh s; qd_lastRender := qd_lastRender s; stageRefresh := stageRefresh s;
  taskRefresh := taskRefresh s |}.

Definition qd_on_failure (pathname : jstring) (now : Z) (s : qd_state) : outcome qd_state :=
  qd_update pathname now (set_initialized s) Done.

(** The guard of [resetTimer]. *)
Definition qd_keep_polling (s : qd_state) : bool :=
  match qd_query s with None => true | Some _ => negb (queryEnded s) end.

Definition handleStageRefreshClick (s : qd_state) : res qd_state :=
  let set refresh stages := {|
    qd_query := qd_query s; lastSnapshotStages := stages; lastSnapshotStage := lastSnapshotStage s;
    lastSnapshotTasks := lastSnapshotTasks s; lastScheduledTime := lastScheduledTime s; lastCpuTime := lastCpuTime s;
    lastRowInput := lastRowInput s; lastByteInput := lastByteInput s; lastPhysicalInput := lastPhysicalInput s;
    lastPhysicalTime := lastPhysicalTime s; scheduledTimeRate := scheduledTimeRate s; cpuTimeRate := cpuTimeRate s;
    rowInputRate := rowInputRate s; byteInputRate := byteInputRate s; physicalInputRate := physicalInputRate s;
    reservedMemory := reservedMemory s; qd_initialized := qd_initialized s; queryEnded := queryEnded s;
    qd_lastRefresh := qd_lastRefresh s; qd_lastRender := qd_lastRender s; stageRefresh := refresh;
    taskRefresh := taskRefresh s |} in
  if stageRefresh s then query ← deref (qd_query s); Ok (set false (outputStage query))
  else Ok (set true (lastSnapshotStages s)).

#[export] Instance qd_poller (pathname : jstring) : Poller qd_state (Z * query_info) := {
  poll_init := qd_constructor;
  on_refresh s := s;
  on_response := qd_on_response pathname;
  on_failure := qd_on_failure pathname;
  keep_polling := qd_keep_polling;
  on_user s s' := ∃ now s1, handleStageRefreshClick s = Ok s1 ∧ s' = outcome_state (qd_update pathname now s1 Done);
}.
End component.
