(* ===== verification/QueryPages.v ===== *)
(** * The query and stage pages over time

    What the refresh loops of the query page and of the stage page guarantee: the
    histories of the query page, the end of polling, frozen stages, and the stage
    that is selected. *)

From S2P Require Import Prelude JsString JsNumber JsNumberFacts JsCollections Model QueryState Format Sparkline Vdom QueryHeader Stage QueryInfo Samples Graph StageDetail StageDetailView QueryDetail QueryDetailView Poller.
From stdpp Require Import relations.

(** ** The query page *)

Section query_page.
Context `{DateParse, LocalTime}.
Context (pathname : jstring).
Let P := qd_poller pathname.

Lemma addToHistory_length {A} (v : A) h :
  length (addToHistory v h) = S (length h) - (length h - MAX_HISTORY).
Proof. rewrite addToHistory_drop, length_drop, length_app. simpl length. lia. Qed.

(** The histories grow together. *)
Definition histories_aligned (s : qd_state) : Prop :=
  length (scheduledTimeRate s) ≤ S MAX_HISTORY ∧
  length (cpuTimeRate s) = length (scheduledTimeRate s) ∧
  length (rowInputRate s) = length (scheduledTimeRate s) ∧
  length (byteInputRate s) = length (scheduledTimeRate s) ∧
  length (physicalInputRate s) = length (scheduledTimeRate s) ∧
  length (reservedMemory s) = length (scheduledTimeRate s).

Lemma aligned_didUpdate now s : histories_aligned s → histories_aligned (qd_didUpdate now s).2.
Proof. intros Hs. unfold qd_didUpdate. by destruct (redraw_due now s). Qed.

Lemma aligned_received now q stats s : histories_aligned s → histories_aligned (qd_received now q stats s).
Proof. done. Qed.

Lemma aligned_measured e q stats s s1 : histories_aligned s1 → histories_aligned (qd_measured e q stats s s1).
Proof.
  intros (Hb & Hc & Hr & Hy & Hp & Hm). unfold histories_aligned. cbn.
  rewrite !addToHistory_length, Hc, Hr, Hy, Hp, Hm. split_and!; try done. unfold MAX_HISTORY in *. lia.
Qed.

(** What a response handler that ends leaves behind. *)
Lemma qd_update_state now s k (I : qd_state → Prop) :
  I s → I (qd_didUpdate now s).2 → (I (qd_didUpdate now s).2 → I (outcome_state (k (qd_didUpdate now s).2))) →
  I (outcome_state (qd_update pathname now s k)).
Proof. intros Hs Hd Hk. unfold qd_update. destruct (qd_render pathname s); [by apply Hk|done]. Qed.

Lemma qd_response_state (I : qd_state → Prop) now q s :
  (∀ now s, I s → I (qd_didUpdate now s).2) →
  (∀ stats, I s → I (qd_received now q stats s)) →
  (∀ e stats s1, I s1 → I (qd_measured e q stats s s1)) →
  I s → I (outcome_state (qd_on_response pathname (now, q) s)).
Proof.
  intros Hd Hr Hm Hs. unfold qd_on_response. destruct (queryStats (qi q)) as [stats|]; [|done].
  apply qd_update_state; [by apply Hr|by apply Hd, Hr|]. intros H1.
  destruct (_ || _); [done|]. destruct (ngeb _ _); [|done].
  apply qd_update_state; [by apply Hm|by apply Hd, Hm|done].
Qed.

Lemma aligned_invariant : @state_invariant _ _ P histories_aligned.
Proof.
  unfold state_invariant, preserved. split_and!.
  - unfold histories_aligned. cbn. split_and!; done || lia.
  - done.
  - intros [now q] s Hs. apply (qd_response_state histories_aligned); [intros; by apply aligned_didUpdate| | |done].
    + intros stats. apply aligned_received.
    + intros e stats s1. apply aligned_measured.
  - intros now s Hs. apply (qd_update_state now _ _ histories_aligned); [done|by apply aligned_didUpdate|done].
  - intros s s' Hs (now & s1 & Hc & ->). assert (histories_aligned s1) as H1.
    { revert Hc. unfold handleStageRefreshClick. destruct (stageRefresh s); [|by intros [= <-]].
      by intros (q & _ & [= <-])%res_bind_ok. }
    apply (qd_update_state now _ _ histories_aligned); [done|by apply aligned_didUpdate|done].
Qed.

(** The six time series of the query page stay aligned: in every reachable state they have
    the same number of points, at most 301, so that a point of one belongs to the same refresh
    as the point of the others at the same place. *)
Theorem query_histories_aligned p :
  @reachable _ _ P p →
  let s := comp p in
  length (scheduledTimeRate s) ≤ 301 ∧
  length (cpuTimeRate s) = length (scheduledTimeRate s) ∧
  length (rowInputRate s) = length (scheduledTimeRate s) ∧
  length (byteInputRate s) = length (scheduledTimeRate s) ∧
  length (physicalInputRate s) = length (scheduledTimeRate s) ∧
  length (reservedMemory s) = length (scheduledTimeRate s).
Proof. apply (@reachable_invariant _ _ P histories_aligned), aligned_invariant. Qed.

(** After a response the page knows the query and whether it is final. *)
Definition knows (q : query_info) (s : qd_state) : Prop :=
  qd_query s = Some q ∧ queryEnded s = finalQueryInfo q.

Lemma response_knows now q s s' :
  qd_on_response pathname (now, q) s = Done s' → knows q s'.
Proof.
  unfold qd_on_response. destruct (queryStats (qi q)) as [stats|]; [|done].
  unfold qd_update. destruct (qd_render pathname (qd_received now q stats s)); [|done].
  assert (knows q (qd_didUpdate now (qd_received now q stats s)).2) as Hk
    by (unfold qd_didUpdate; by destruct (redraw_due _ _)).
  destruct (_ || _); [by intros [= <-]|]. destruct (ngeb _ _); [|by intros [= <-]].
  destruct (qd_render pathname _); [|done]. intros [= <-].
  unfold qd_didUpdate at 1. by destruct (redraw_due _ _).
Qed.

(** The query page stops polling when it has the final document of the query: after the
    handler has processed a final response, no request is outstanding, no timer is pending,
    and this stays so whatever the user does. *)
Theorem query_page_stops p now q s p' :
  @reachable _ _ P p → 0 < inflight p →
  qd_on_response pathname (now, q) (comp p) = Done s → finalQueryInfo q = true →
  rtc (@step _ _ P) (@answer _ _ P (@on_response _ _ P (now, q)) p) p' →
  inflight p' = 0 ∧ live p' = [].
Proof.
  intros Hp Hi Hs Hf. apply (@quiescent_forever _ _ P).
  eapply (@answer_quiescent _ _ P); [by apply (@reachable_exclusive _ _ P)|done|exact Hs|].
  apply response_knows in Hs as [Hq He]. cbn. unfold qd_keep_polling. by rewrite Hq, He, Hf.
Qed.

(** The stages that are shown do not change. *)
Definition frozen (st : option stage) (s : qd_state) : Prop := stageRefresh s = false ∧ lastSnapshotStage s = st.

Lemma frozen_didUpdate st now s : frozen st s → frozen st (qd_didUpdate now s).2.
Proof. intros Hs. unfold qd_didUpdate. by destruct (redraw_due now s). Qed.

(** Switching the automatic refresh off freezes the stages: while it is off, neither a
    response nor a failure changes the stages that are shown; switching it on again lets the
    next response replace them. *)
Theorem refresh_off_freezes_stages s now q :
  (stageRefresh s = false →
     lastSnapshotStage (outcome_state (qd_on_response pathname (now, q) s)) = lastSnapshotStage s ∧
     lastSnapshotStage (outcome_state (qd_on_failure pathname now s)) = lastSnapshotStage s) ∧
  (stageRefresh s = true → queryStats (qi q) ≠ None →
     lastSnapshotStage (outcome_state (qd_on_response pathname (now, q) s)) = outputStage q).
Proof.
  split.
  - intros Hoff. assert (frozen (lastSnapshotStage s) s) as Hs by done. split.
    + apply (qd_response_state (frozen (lastSnapshotStage s))); [intros; by apply frozen_didUpdate| |done|done].
      intros stats _. unfold frozen. cbn. by rewrite Hoff.
    + apply (qd_update_state now _ _ (frozen (lastSnapshotStage s))); [done|by apply frozen_didUpdate|done].
  - intros Hon Hst. unfold qd_on_response. destruct (queryStats (qi q)) as [stats|]; [|done].
    set (I := λ s', lastSnapshotStage s' = outputStage q).
    assert (∀ now s', I s' → I (qd_didUpdate now s').2) as Hd
      by (intros; unfold qd_didUpdate; by destruct (redraw_due _ _)).
    assert (I (qd_received now q stats s)) as Hr by (unfold I; cbn; by rewrite Hon).
    apply (qd_update_state now _ _ I); [done|by apply Hd|]. intros H1.
    destruct (_ || _); [done|]. destruct (ngeb _ _); [|done].
    apply (qd_update_state now _ _ I); [done|by apply Hd|done].
Qed.
End query_page.

(** ** The stage page *)

Section stage_page.
Context `{JsSort, DagreRender}.
Context (pathname search : jstring).
Let P := sd_poller pathname search.

Lemma sd_update_inv s s1 s' : sd_crashed s = false → sd_update pathname s s1 = Done s' → s' = s1.
Proof. intros Hc. unfold sd_update. rewrite Hc. destruct (_ ≫= _); [by intros [= ->]|done]. Qed.

(** The stage page stops polling when it has processed the final document of the query. *)
Theorem stage_page_stops p q s p' :
  @reachable _ _ P p → 0 < inflight p → sd_crashed (comp p) = false →
  sd_update pathname (comp p) (sd_on_response q (comp p)) = Done s → finalQueryInfo q = true →
  rtc (@step _ _ P) (@answer _ _ P (@on_response _ _ P q) p) p' →
  inflight p' = 0 ∧ live p' = [].
Proof.
  intros Hp Hi Hc Hs Hf. apply (@quiescent_forever _ _ P).
  eapply (@answer_quiescent _ _ P); [by apply (@reachable_exclusive _ _ P)|done|exact Hs|].
  apply sd_update_inv in Hs as ->; [|done]. cbn. unfold sd_keep_polling. cbn. by rewrite Hf.
Qed.

(** A stage page that an exception has removed shows nothing more, whatever happens. *)
Lemma sd_crashed_preserved : @preserved _ _ P (λ s, sd_crashed s = true).
Proof.
  unfold preserved. split_and!; [done| | |].
  - intros q s Hs. cbn. unfold sd_update. by rewrite Hs.
  - intros now s Hs. cbn. unfold sd_update. by rewrite Hs.
  - intros s s' Hs [id ->]. unfold sd_update. by rewrite Hs.
Qed.

(** If a click has removed the page, polling goes on: the answers change nothing, so that
    even the final document does not end it. *)
Theorem removed_stage_page_polls p q :
  @reachable _ _ P p → 0 < inflight p → sd_crashed (comp p) = true → sd_keep_polling (comp p) = true →
  alive (@answer _ _ P (@on_response _ _ P q) p) ∧
  comp (@answer _ _ P (@on_response _ _ P q) p) = comp p.
Proof.
  intros Hp Hi Hc Hk. pose proof (@reachable_exclusive _ _ P p Hp) as [Ht Hn _].
  rewrite (@comp_answer _ _ P). unfold answer. cbn. unfold sd_update. rewrite Hc. split; [|done].
  apply (@alive_resetTimer _ _ P); cbn; [done|lia|done].
Qed.

(** The selection that an outstanding request will set is the one of the time it was sent. *)
Lemma answer_selects p q :
  sd_crashed (comp p) = false →
  selectedStageId (comp (@answer _ _ P (@on_response _ _ P q) p)) = requestedStageId (comp p).
Proof.
  intros Hc. rewrite (@comp_answer _ _ P). cbn. unfold sd_update. rewrite Hc. by destruct (_ ≫= _).
Qed.

(** A stage selected while a request is outstanding is deselected by the answer, which
    restores the selection of the time when the request was sent. *)
Theorem stage_selection_reverted p id q s :
  sd_crashed (comp p) = false → sd_update pathname (comp p) (sd_select id (comp p)) = Done s →
  selectedStageId (comp (@answer _ _ P (@on_response _ _ P q) (set_comp s p))) = requestedStageId (comp p).
Proof. intros Hc Hs. apply sd_update_inv in Hs as ->; [|done]. by rewrite answer_selects. Qed.
End stage_page.

(** ** Witnesses *)

Definition sample_clock : DateParse := λ _, of_Z 1652260211123.
Definition sample_zone : LocalTime := λ _, InvalidDate.
Definition final_info : query_info := sample_info (js "FINISHED") (Some sample_stage) true.
Definition qp : Poller qd_state (Z * query_info) := @qd_poller sample_clock sample_zone (js "/ui/query.html").
Definition qd_final : qd_state :=
  outcome_state (@qd_on_response sample_clock sample_zone (js "/ui/query.html") (1652260300000%Z, final_info) qd_constructor).

Lemma query_histories_aligned_witness :
  let s := comp (@answer _ _ qp (@on_response _ _ qp (1652260300000%Z, final_info)) (@mounted _ _ qp)) in
  length (scheduledTimeRate s) ≤ 301 ∧
  length (cpuTimeRate s) = length (scheduledTimeRate s) ∧
  length (rowInputRate s) = length (scheduledTimeRate s) ∧
  length (byteInputRate s) = length (scheduledTimeRate s) ∧
  length (physicalInputRate s) = length (scheduledTimeRate s) ∧
  length (reservedMemory s) = length (scheduledTimeRate s).
Proof.
  apply (@query_histories_aligned sample_clock sample_zone (js "/ui/query.html")).
  apply rtc_once, (@step_response _ _ qp). apply Nat.lt_0_1.
Defined.

Lemma query_page_stops_witness :
  let p := @answer _ _ qp (@on_response _ _ qp (1652260300000%Z, final_info)) (@mounted _ _ qp) in
  inflight p = 0 ∧ live p = [].
Proof.
  apply (@query_page_stops sample_clock sample_zone (js "/ui/query.html") (@mounted _ _ qp) 1652260300000%Z
    final_info qd_final).
  - apply rtc_refl.
  - apply Nat.lt_0_1.
  - vm_compute. reflexivity.
  - reflexivity.
  - apply rtc_refl.
Defined.

(** The final response adds a point to each history. *)
Example qd_final_rates : length (scheduledTimeRate qd_final) = 1 ∧ queryEnded qd_final = true.
Proof. vm_compute. done. Qed.

(** Before the second measurement of a running query there is no rate to show: the timeline
    reads NaN. *)
Example timeline_before_first_rate :
  match timeline_table qd_constructor with
  | Ok v => includes (js "ParallelismLoading ...NaN") (text_of v) = true
  | Throw _ => False
  end.
Proof. vm_compute. reflexivity. Qed.

Definition sample_layout : DagreRender := λ C group g, Ok (of_nat (length (set_nodes (calls g))), of_Z 100).
Definition final_stage_info : query_info := sample_info (js "FINISHED") None true.
Definition sp : Poller sd_state query_info := @sd_poller insertion_js_sort sample_layout (js "/ui/stage.html") (js "?q1.0").

Lemma stage_page_stops_witness :
  let p := @answer _ _ sp (@on_response _ _ sp final_stage_info) (@mounted _ _ sp) in
  inflight p = 0 ∧ live p = [].
Proof.
  apply (@stage_page_stops insertion_js_sort sample_layout (js "/ui/stage.html") (js "?q1.0") (@mounted _ _ sp) final_stage_info
    (sd_on_response final_stage_info (comp (@mounted _ _ sp)))).
  - apply rtc_refl.
  - apply Nat.lt_0_1.
  - reflexivity.
  - reflexivity.
  - reflexivity.
  - apply rtc_refl.
Defined.

(** The page of stage 0; a click on stage 1 during the first request does not survive it. *)
Lemma stage_selection_reverted_witness :
  selectedStageId (comp (@answer _ _ sp (@on_response _ _ sp final_info)
    (set_comp (sd_select (js "1") (comp (@mounted _ _ sp))) (@mounted _ _ sp)))) = Some (SelNumber zero).
Proof.
  apply (@stage_selection_reverted insertion_js_sort sample_layout (js "/ui/stage.html") (js "?q1.0")
    (@mounted _ _ sp) (js "1")); reflexivity.
Defined.

(** ** The columns of the task list *)

Definition columns (tag : jstring) (v : task_view) : list jstring :=
  omap (λ e, match attribute (js "column") e.1 with Some (AText c) => Some c | _ => None end) (elements_by_tag tag v).

(** The task list has a heading for every column of its rows except for the buffered bytes:
    each other cell of a row belongs to a column with a heading, and each heading has a cell in
    every row. *)
Theorem task_columns_headed `{DateParse, UrlParser} now ports retries t row :
  TaskList_row now ports retries t = Ok row →
  let cells := columns (js "Td") row in
  let headings := columns (js "Th") (TaskList_table retries []) in
  Forall (λ c, c = js "bufferedBytes" ∨ c ∈ headings) cells ∧ Forall (λ c, c ∈ cells) headings ∧
  js "bufferedBytes" ∈ cells ∧ js "bufferedBytes" ∉ headings.
Proof.
  unfold TaskList_row. intros Hrow.
  apply res_bind_ok in Hrow as (host & _ & Hrow). apply res_bind_ok in Hrow as (hostText & _ & Hrow).
  apply res_bind_ok in Hrow as (bytes & _ & <-%Ok_inj).
  destruct retries; cbv zeta;
    match goal with |- context [columns (js "Td") ?v] =>
      let l := eval vm_compute in (columns (js "Td") v) in
      replace (columns (js "Td") v) with l by (vm_compute; reflexivity) end;
    by apply (bool_decide_unpack _).
Qed.

Lemma task_columns_headed_witness :
  let row := match @TaskList_row sample_clock (λ s, Ok {| hostname := s; port := [] |}) zero false false
               (sample_task (js "q1.0.0.0") (js "RUNNING") (js "host1")) with Ok r => r | Throw _ => VNothing end in
  let cells := columns (js "Td") row in
  let headings := columns (js "Th") (TaskList_table false []) in
  Forall (λ c, c = js "bufferedBytes" ∨ c ∈ headings) cells ∧ Forall (λ c, c ∈ cells) headings ∧
  js "bufferedBytes" ∈ cells ∧ js "bufferedBytes" ∉ headings.
Proof.
  apply (@task_columns_headed sample_clock (λ s, Ok {| hostname := s; port := [] |}) zero false false
    (sample_task (js "q1.0.0.0") (js "RUNNING") (js "host1"))).
  vm_compute. reflexivity.
Defined.
