(* ===== verification/ClusterHUD.v ===== *)
(** * The cluster overview (components/ClusterHUD.jsx)

    Nine time series of the statistics of the cluster: instantaneous values, smoothed
    values, and smoothed rates between two refreshes. *)

From S2P Require Import Prelude JsString JsNumber JsNumberFacts Format Sparkline Vdom Poller.
From stdpp Require Import relations.

(** The response of [/ui/api/stats]. *)
Record cluster_stats := {
  c_runningQueries : number;
  c_queuedQueries : number;
  c_blockedQueries : number;
  c_activeWorkers : number;
  c_runningDrivers : number;
  c_reservedMemory : number;
  totalInputRows : number;
  totalInputBytes : number;
  totalCpuTimeSecs : number;
}.

Record hud_state := {
  runningQueries : list number;
  queuedQueries : list number;
  blockedQueries : list number;
  activeWorkers : list number;
  runningDrivers : list number;
  reservedMemory : list number;
  rowInputRate : list number;
  byteInputRate : list number;
  perWorkerCpuTimeRate : list number;
  hud_lastRender : option Z;
  hud_lastRefresh : option Z;
  lastInputRows : option number;
  lastInputBytes : option number;
  lastCpuTime : option number;
  hud_initialized : bool;
}.

Definition hud_constructor : hud_state := {|
  runningQueries := []; queuedQueries := []; blockedQueries := []; activeWorkers := [];
  runningDrivers := []; reservedMemory := []; rowInputRate := []; byteInputRate := [];
  perWorkerCpuTimeRate := []; hud_lastRender := None; hud_lastRefresh := None; lastInputRows := None;
  lastInputBytes := None; lastCpuTime := None; hud_initialized := false |}.

(** ** The refresh *)

(** A response, and the clock at the three times the handler reads it: for the rates, for
    [lastRefresh], and in [componentDidUpdate]. *)
Record hud_response := {
  clusterState : cluster_stats;
  measured_at : Z;
  refreshed_at : Z;
  updated_at : Z;
}.

(** The rates since the last refresh; [null] counts as 0. *)
Definition since (total : number) (last : option number) : number := nsub total (num_of_nullable last).

(** The new histories of rows, bytes and CPU time per worker; empty at the first refresh. *)
Definition hud_rates (r : hud_response) (s : hud_state) : list number * list number * list number :=
  let c := clusterState r in
  match hud_lastRefresh s with
  | None => ([], [], [])
  | Some lastRefresh =>
    let rowsInputSinceRefresh := since (totalInputRows c) (lastInputRows s) in
    let bytesInputSinceRefresh := since (totalInputBytes c) (lastInputBytes s) in
    let cpuTimeSinceRefresh := since (totalCpuTimeSecs c) (lastCpuTime s) in
    let secsSinceRefresh := ndiv (of_Z (measured_at r - lastRefresh)) (of_Z 1000) in
    (addExponentiallyWeightedToHistory (ndiv rowsInputSinceRefresh secsSinceRefresh) (rowInputRate s),
     addExponentiallyWeightedToHistory (ndiv bytesInputSinceRefresh secsSinceRefresh) (byteInputRate s),
     addExponentiallyWeightedToHistory
       (ndiv (ndiv cpuTimeSinceRefresh (c_activeWorkers c)) secsSinceRefresh) (perWorkerCpuTimeRate s))
  end.

(** The [setState] of the response handler. *)
Definition hud_received (r : hud_response) (s : hud_state) : hud_state :=
  let c := clusterState r in
  let '(newRowInputRate, newByteInputRate, newPerWorkerCpuTimeRate) := hud_rates r s in {|
  runningQueries := addToHistory (c_runningQueries c) (runningQueries s);
  queuedQueries := addToHistory (c_queuedQueries c) (queuedQueries s);
  blockedQueries := addToHistory (c_blockedQueries c) (blockedQueries s);
  activeWorkers := addToHistory (c_activeWorkers c) (activeWorkers s);
  runningDrivers := addExponentiallyWeightedToHistory (c_runningDrivers c) (runningDrivers s);
  reservedMemory := addExponentiallyWeightedToHistory (c_reservedMemory c) (reservedMemory s);
  rowInputRate := newRowInputRate; byteInputRate := newByteInputRate;
  perWorkerCpuTimeRate := newPerWorkerCpuTimeRate;
  hud_lastRender := hud_lastRender s; hud_lastRefresh := Some (refreshed_at r);
  lastInputRows := Some (totalInputRows c); lastInputBytes := Some (totalInputBytes c);
  lastCpuTime := Some (totalCpuTimeSecs c); hud_initialized := true |}.

Definition hud_redraw_due (now : Z) (s : hud_state) : bool :=
  match hud_lastRender s with None => true | Some last => (1000 <=? now - last)%Z end.

Definition hud_sparklines (s : hud_state) : list sparkline :=
  let chart target values min formatter :=
    {| sp_target := target; sp_values := map (λ x, Some x) values; sp_chartRangeMin := min; sp_formatter := formatter |} in
  [chart (js "#running-queries-sparkline") (runningQueries s) (Some zero) None;
   chart (js "#blocked-queries-sparkline") (blockedQueries s) (Some zero) None;
   chart (js "#queued-queries-sparkline") (queuedQueries s) (Some zero) None;
   chart (js "#active-workers-sparkline") (activeWorkers s) (Some zero) None;
   chart (js "#running-drivers-sparkline") (runningDrivers s) None (Some precisionRound);
   chart (js "#reserved-memory-sparkline") (reservedMemory s) None (Some formatDataSizeBytes);
   chart (js "#row-input-rate-sparkline") (rowInputRate s) None (Some formatCount);
   chart (js "#byte-input-rate-sparkline") (byteInputRate s) None (Some formatDataSizeBytes);
   chart (js "#cpu-time-rate-sparkline") (perWorkerCpuTimeRate s) None (Some precisionRound)].

(** [componentDidUpdate]: what is drawn, and the state with [lastRender]. *)
Definition hud_didUpdate (now : Z) (s : hud_state) : list sparkline * hud_state :=
  if hud_redraw_due now s then
    (hud_sparklines s, {|
      runningQueries := runningQueries s; queuedQueries := queuedQueries s; blockedQueries := blockedQueries s;
      activeWorkers := activeWorkers s; runningDrivers := runningDrivers s; reservedMemory := reservedMemory s;
      rowInputRate := rowInputRate s; byteInputRate := byteInputRate s;
      perWorkerCpuTimeRate := perWorkerCpuTimeRate s; hud_lastRender := Some now;
      hud_lastRefresh := hud_lastRefresh s; lastInputRows := lastInputRows s; lastInputBytes := lastInputBytes s;
      lastCpuTime := lastCpuTime s; hud_initialized := hud_initialized s |})
  else ([], s).

Definition hud_on_response (r : hud_response) (s : hud_state) : outcome hud_state :=
  Done (hud_didUpdate (updated_at r) (hud_received r s)).2.

(** The failure handler only restarts the timer. *)
Definition hud_on_failure (s : hud_state) : outcome hud_state := Done s.

(** The guard of [resetTimer]: the state has neither a [query] nor an [ended], so that
    [undefined === null || !undefined] holds always. *)
Definition hud_keep_polling (s : hud_state) : bool := true.

#[export] Instance hud_poller : Poller hud_state hud_response := {
  poll_init := hud_constructor;
  on_refresh s := s;
  on_response := hud_on_response;
  on_failure _ := hud_on_failure;
  keep_polling := hud_keep_polling;
  on_user _ _ := False;
}.

(** ** The view *)

Abbreviation hud_view := (vnode Empty_set Empty_set).

(** The last value of a history; nothing while it is empty. *)
Definition latest (h : list number) : hud_view :=
  match last h with Some n => VNum n | None => VNothing end.

Definition hud_render (s : hud_state) : hud_view :=
  el "div" [A "className" "row"] [
      el "div" [A "className" "col-xs-12"] [
        el "div" [A "className" "row"] [
          el "div" [A "className" "col-xs-4"] [
            el "div" [A "className" "stat-title"] [
              el "span" [A "className" "text"; A "data-toggle" "tooltip"; A "data-placement" "right"; A "title" "Total number of queries currently running"] [
                T "Running queries"]]];
          el "div" [A "className" "col-xs-4"] [
            el "div" [A "className" "stat-title"] [
              el "span" [A "className" "text"; A "data-toggle" "tooltip"; A "data-placement" "right"; A "title" "Total number of active worker nodes"] [
                T "Active workers"]]];
          el "div" [A "className" "col-xs-4"] [
            el "div" [A "className" "stat-title"] [
              el "span" [A "className" "text"; A "data-toggle" "tooltip"; A "data-placement" "right"; A "title" "Moving average of input rows processed per second"] [
                T "Rows/sec"]]]];
        el "div" [A "className" "row stat-line-end"] [
          el "div" [A "className" "col-xs-4"] [
            el "div" [A "className" "stat stat-large"] [
              el "span" [A "className" "stat-text"] [latest (runningQueries s)];
              el "span" [A "className" "sparkline"; A "id" "running-queries-sparkline"] [
                el "div" [A "className" "loader"] [T "Loading ..."]]]];
          el "div" [A "className" "col-xs-4"] [
            el "div" [A "className" "stat stat-large"] [
              el "a" [A "target" "_blank"; A "href" "workers.html"] [
                el "span" [A "className" "stat-text"] [latest (activeWorkers s)]];
              el "span" [A "className" "sparkline"; A "id" "active-workers-sparkline"] [
                el "div" [A "className" "loader"] [T "Loading ..."]]]];
          el "div" [A "className" "col-xs-4"] [
            el "div" [A "className" "stat stat-large"] [
              el "span" [A "className" "stat-text"] [
                VText (formatCount (default nan (last (rowInputRate s))))];
              el "span" [A "className" "sparkline"; A "id" "row-input-rate-sparkline"] [
                el "div" [A "className" "loader"] [T "Loading ..."]]]]];
        el "div" [A "className" "row"] [
          el "div" [A "className" "col-xs-4"] [
            el "div" [A "className" "stat-title"] [
              el "span" [A "className" "text"; A "data-toggle" "tooltip"; A "data-placement" "right"; A "title" "Total number of queries currently queued and awaiting execution"] [
                T "Queued queries"]]];
          el "div" [A "className" "col-xs-4"] [
            el "div" [A "className" "stat-title"] [
              el "span" [A "className" "text"; A "data-toggle" "tooltip"; A "data-placement" "right"; A "title" "Moving average of total running drivers"] [
                T "Runnable drivers"]]];
          el "div" [A "className" "col-xs-4"] [
            el "div" [A "className" "stat-title"] [
              el "span" [A "className" "text"; A "data-toggle" "tooltip"; A "data-placement" "right"; A "title" "Moving average of input bytes processed per second"] [
                T "Bytes/sec"]]]];
        el "div" [A "className" "row stat-line-end"] [
          el "div" [A "className" "col-xs-4"] [
            el "div" [A "className" "stat stat-large"] [
              el "span" [A "className" "stat-text"] [latest (queuedQueries s)];
              el "span" [A "className" "sparkline"; A "id" "queued-queries-sparkline"] [
                el "div" [A "className" "loader"] [T "Loading ..."]]]];
          el "div" [A "className" "col-xs-4"] [
            el "div" [A "className" "stat stat-large"] [
              el "span" [A "className" "stat-text"] [
                VText (formatCount (default nan (last (runningDrivers s))))];
              el "span" [A "className" "sparkline"; A "id" "running-drivers-sparkline"] [
                el "div" [A "className" "loader"] [T "Loading ..."]]]];
          el "div" [A "className" "col-xs-4"] [
            el "div" [A "className" "stat stat-large"] [
              el "span" [A "className" "stat-text"] [
                VText (formatDataSizeBytes (default nan (last (byteInputRate s))))];
              el "span" [A "className" "sparkline"; A "id" "byte-input-rate-sparkline"] [
                el "div" [A "className" "loader"] [T "Loading ..."]]]]];
        el "div" [A "className" "row"] [
          el "div" [A "className" "col-xs-4"] [
            el "div" [A "className" "stat-title"] [
              el "span" [A "className" "text"; A "data-toggle" "tooltip"; A "data-placement" "right"; A "title" "Total number of queries currently blocked and unable to make progress"] [
                T "Blocked Queries"]]];
          el "div" [A "className" "col-xs-4"] [
            el "div" [A "className" "stat-title"] [
              el "span" [A "className" "text"; A "data-toggle" "tooltip"; A "data-placement" "right"; A "title" "Total amount of memory reserved by all running queries"] [
                T "Reserved Memory (B)"]]];
          el "div" [A "className" "col-xs-4"] [
            el "div" [A "className" "stat-title"] [
              el "span" [A "className" "text"; A "data-toggle" "tooltip"; A "data-placement" "right"; A "title" "Moving average of CPU time utilized per second per worker"] [
                T "Worker Parallelism"]]]];
        el "div" [A "className" "row stat-line-end"] [
          el "div" [A "className" "col-xs-4"] [
            el "div" [A "className" "stat stat-large"] [
              el "span" [A "className" "stat-text"] [latest (blockedQueries s)];
              el "span" [A "className" "sparkline"; A "id" "blocked-queries-sparkline"] [
                el "div" [A "className" "loader"] [T "Loading ..."]]]];
          el "div" [A "className" "col-xs-4"] [
            el "div" [A "className" "stat stat-large"] [
              el "span" [A "className" "stat-text"] [
                VText (formatDataSizeBytes (default nan (last (reservedMemory s))))];
              el "span" [A "className" "sparkline"; A "id" "reserved-memory-sparkline"] [
                el "div" [A "className" "loader"] [T "Loading ..."]]]];
          el "div" [A "className" "col-xs-4"] [
            el "div" [A "className" "stat stat-large"] [
              el "span" [A "className" "stat-text"] [
                VText (formatCount (default nan (last (perWorkerCpuTimeRate s))))];
              el "span" [A "className" "sparkline"; A "id" "cpu-time-rate-sparkline"] [
                el "div" [A "className" "loader"] [T "Loading ..."]]]]]]].

(** ** Properties *)

(** The state that the responses [rs] lead to, the oldest first. *)
Definition hud_after (rs : list hud_response) : hud_state :=
  fold_left (λ s r, outcome_state (hud_on_response r s)) rs hud_constructor.

Lemma hud_after_snoc rs r : hud_after (rs ++ [r]) = outcome_state (hud_on_response r (hud_after rs)).
Proof. unfold hud_after. by rewrite fold_left_app. Qed.

Lemma hud_didUpdate_histories now s :
  let s' := (hud_didUpdate now s).2 in
  runningQueries s' = runningQueries s ∧ queuedQueries s' = queuedQueries s ∧
  blockedQueries s' = blockedQueries s ∧ activeWorkers s' = activeWorkers s ∧
  runningDrivers s' = runningDrivers s ∧ reservedMemory s' = reservedMemory s ∧
  rowInputRate s' = rowInputRate s ∧ byteInputRate s' = byteInputRate s ∧
  perWorkerCpuTimeRate s' = perWorkerCpuTimeRate s ∧ hud_lastRefresh s' = hud_lastRefresh s.
Proof. unfold hud_didUpdate. by destruct (hud_redraw_due now s). Qed.

(** A page is in the state that its responses lead to. *)
Lemma hud_run_after rs p : run rs p → comp p = hud_after rs.
Proof.
  apply (run_invariant (λ rs s, s = hud_after rs)); try done.
  intros rs1 r s ->. by rewrite hud_after_snoc.
Qed.

Definition window_of {A} (get : cluster_stats → A) (rs : list hud_response) : list A :=
  window (map (λ r, get (clusterState r)) rs).

Lemma window_of_snoc {A} (get : cluster_stats → A) rs r :
  addToHistory (get (clusterState r)) (window_of get rs) = window_of get (rs ++ [r]).
Proof. unfold window_of. by rewrite addToHistory_window, map_app. Qed.

(** The instantaneous series. *)
Lemma hud_instantaneous rs :
  let s := hud_after rs in
  runningQueries s = window_of c_runningQueries rs ∧ queuedQueries s = window_of c_queuedQueries rs ∧
  blockedQueries s = window_of c_blockedQueries rs ∧ activeWorkers s = window_of c_activeWorkers rs.
Proof.
  induction rs as [|r rs IH] using rev_ind; [done|]. cbv zeta in *. rewrite hud_after_snoc.
  cbn [hud_on_response outcome_state].
  destruct (hud_didUpdate_histories (updated_at r) (hud_received r (hud_after rs)))
    as (-> & -> & -> & -> & _).
  unfold hud_received. destruct (hud_rates r (hud_after rs)) as [[? ?] ?]. cbn.
  destruct IH as (-> & -> & -> & ->). by rewrite !window_of_snoc.
Qed.

Lemma addToHistory_count {A} (v : A) h k :
  length h = Nat.min 301 k → length (addToHistory v h) = Nat.min 301 (S k).
Proof. intros Hk. rewrite addToHistory_drop, length_drop, length_app, Hk. unfold MAX_HISTORY. simpl length. lia. Qed.

Lemma ewma_count v h k :
  length h = Nat.min 301 k → length (addExponentiallyWeightedToHistory v h) = Nat.min 301 (S k).
Proof. rewrite ewma_length. apply addToHistory_count. Qed.

Lemma hud_lengths rs :
  let s := hud_after rs in
  (hud_lastRefresh s = None ↔ rs = []) ∧
  length (runningDrivers s) = Nat.min 301 (length rs) ∧ length (reservedMemory s) = Nat.min 301 (length rs) ∧
  length (rowInputRate s) = Nat.min 301 (Nat.pred (length rs)) ∧
  length (byteInputRate s) = Nat.min 301 (Nat.pred (length rs)) ∧
  length (perWorkerCpuTimeRate s) = Nat.min 301 (Nat.pred (length rs)).
Proof.
  induction rs as [|r rs IH] using rev_ind; [done|]. cbv zeta in *. rewrite hud_after_snoc.
  cbn [hud_on_response outcome_state].
  destruct (hud_didUpdate_histories (updated_at r) (hud_received r (hud_after rs)))
    as (_ & _ & _ & _ & -> & -> & -> & -> & -> & ->).
  destruct IH as (Hn & Hd & Hm & Hr & Hb & Hw).
  rewrite length_app, Nat.add_comm. cbn [length Nat.add Nat.pred]. unfold hud_received, hud_rates.
  destruct (hud_lastRefresh (hud_after rs)) as [t|] eqn:Et;
    cbn [runningDrivers reservedMemory rowInputRate byteInputRate perWorkerCpuTimeRate hud_lastRefresh].
  - destruct rs as [|r0 rs]; [by discriminate (proj2 Hn eq_refl)|]. cbn [length Nat.pred] in *.
    split; [split; [done|by destruct rs]|]. split_and!; by apply ewma_count.
  - assert (rs = []) as -> by by apply Hn. split; [done|].
    split_and!; [by apply ewma_count..|done|done|done].
Qed.

(** C37: At every time the series of the cluster overview show the responses [rs] received so far:
    the counts of queries and workers are exactly the last 301 values in order, the smoothed
    series have as many points, and the three rates, which need two refreshes, have the number
    of points that one response less gives. *)
Theorem hud_series rs p :
  run rs p →
  let s := comp p in let k := length rs in
  runningQueries s = drop (k - 301) (map (λ r, c_runningQueries (clusterState r)) rs) ∧
  queuedQueries s = drop (k - 301) (map (λ r, c_queuedQueries (clusterState r)) rs) ∧
  blockedQueries s = drop (k - 301) (map (λ r, c_blockedQueries (clusterState r)) rs) ∧
  activeWorkers s = drop (k - 301) (map (λ r, c_activeWorkers (clusterState r)) rs) ∧
  length (runningDrivers s) = Nat.min 301 k ∧ length (reservedMemory s) = Nat.min 301 k ∧
  length (rowInputRate s) = Nat.min 301 (k - 1) ∧ length (byteInputRate s) = Nat.min 301 (k - 1) ∧
  length (perWorkerCpuTimeRate s) = Nat.min 301 (k - 1).
Proof.
  intros ->%hud_run_after. cbv zeta.
  destruct (hud_instantaneous rs) as (-> & -> & -> & ->).
  destruct (hud_lengths rs) as (_ & -> & -> & -> & -> & ->).
  unfold window_of, window. rewrite !length_map. rewrite Nat.sub_1_r. done.
Qed.

(** The cluster overview polls forever, one request at a time, although the comment in
    [resetTimer] speaks of an end. *)
Theorem hud_polls_forever p : reachable p → inflight p + length (live p) = 1.
Proof.
  apply (reachable_alive (λ _, True)); [by split_and!| |]; intros; eexists; by split.
Qed.

(** ** Witnesses *)

Definition sample_stats (rows : Z) : cluster_stats := {|
  c_runningQueries := of_Z 3; c_queuedQueries := of_Z 1; c_blockedQueries := zero; c_activeWorkers := of_Z 4;
  c_runningDrivers := of_Z 16; c_reservedMemory := of_Z 1048576; totalInputRows := of_Z rows;
  totalInputBytes := of_Z (rows * 8); totalCpuTimeSecs := of_Z 10 |}.
Definition hud_sample (t rows : Z) : hud_response :=
  {| clusterState := sample_stats rows; measured_at := t; refreshed_at := t; updated_at := t |}.
Definition hud_first : page hud_state := answer (on_response (hud_sample 1000 500)) mounted.

Lemma hud_first_reachable : reachable hud_first.
Proof. apply rtc_once, step_response. apply Nat.lt_0_1. Qed.

Lemma hud_series_witness :
  runningQueries (comp hud_first) = [of_Z 3] ∧ rowInputRate (comp hud_first) = [].
Proof.
  destruct (hud_series [hud_sample 1000 500] hud_first) as (Hq & _ & _ & _ & _ & _ & Hr & _).
  - apply (run_response []); [constructor|apply Nat.lt_0_1].
  - split; [exact Hq|]. by apply length_zero_iff_nil.
Defined.

Lemma hud_polls_forever_witness : inflight hud_first + length (live hud_first) = 1.
Proof. exact (hud_polls_forever hud_first hud_first_reachable). Defined.

(** Two refreshes a second apart: 1000 rows per second; before the second one, the rates are
    not numbers. *)
Example hud_rates_sample :
  rowInputRate (hud_after [hud_sample 1000 500; hud_sample 2000 1500]) = [of_Z 1000] ∧
  formatCount (default nan (last (rowInputRate (hud_after [hud_sample 1000 500])))) = js "NaN".
Proof. vm_compute. done. Qed.
