(* ===== verification/PageTitle.v ===== *)
(** * The title bar (components/PageTitle.jsx)

    The title of a page, the version of the cluster, the light that shows whether the
    coordinator answers, and the dialog that is shown while it does not. *)

From S2P Require Import Prelude JsString Vdom Poller.
From stdpp Require Import relations.

(** The response of [/ui/api/cluster]; [nodeVersion] is missing in documents of another kind. *)
Record cluster_info := { nodeVersion : option jstring; environment : jstring; uptime : jstring }.

Record title_state := {
  noConnection : bool;
  lightShown : bool;
  info : option cluster_info;
  lastSuccess : Z;
  modalShown : bool;
  errorText : option jstring;
  unmounted_by_error : bool;             (* React has removed the component *)
}.

Definition title_constructor (now : Z) : title_state := {|
  noConnection := false; lightShown := false; info := None; lastSuccess := now;
  modalShown := false; errorText := None; unmounted_by_error := false |}.

(** ** The view *)

Abbreviation title_view := (vnode Empty_set Empty_set).

Definition light_red : title_view :=
  el "span" [A "className" "status-light status-light-red"; A "id" "status-indicator"] [].

Definition light_off : title_view :=
  el "span" [A "className" "status-light"; A "id" "status-indicator"] [].

Definition light_green : title_view :=
  el "span" [A "className" "status-light status-light-green"; A "id" "status-indicator"] [].

Definition renderStatusLight (s : title_state) : title_view :=
  if noConnection s then if lightShown s then light_red else light_off else light_green.

Definition title_page (title : jstring) (info : cluster_info) (s : title_state) : res (title_view) :=
  version ← deref (nodeVersion info);
  Ok (el "div" [] [
      el "nav" [A "className" "navbar"] [
        el "div" [A "className" "container-fluid"] [
          el "div" [A "className" "navbar-header"] [
            el "table" [] [
              el "tbody" [] [
                el "tr" [] [
                  el "td" [] [el "a" [A "href" "/ui/"] [el "img" [A "src" "assets/logo.png"] []]];
                  el "td" [] [el "span" [A "className" "navbar-brand"] [VText title]]]]]];
          el "div" [A "id" "navbar"; A "className" "navbar-collapse collapse"] [
            el "ul" [A "className" "nav navbar-nav navbar-right"] [
              el "li" [] [
                el "span" [A "className" "navbar-cluster-info"] [
                  el "span" [A "className" "uppercase"] [T "Version"];
                  el "br" [] [];
                  el "span" [A "className" "text uppercase"; A "id" "version-number"] [
                    VText version]]];
              el "li" [] [
                el "span" [A "className" "navbar-cluster-info"] [
                  el "span" [A "className" "uppercase"] [T "Environment"];
                  el "br" [] [];
                  el "span" [A "className" "text uppercase"; A "id" "environment"] [
                    VText (environment info)]]];
              el "li" [] [
                el "span" [A "className" "navbar-cluster-info"] [
                  el "span" [A "className" "uppercase"] [T "Uptime"];
                  el "br" [] [];
                  el "span" [A "data-toggle" "tooltip"; A "data-placement" "bottom"; A "title" "Connection status"] [
                    renderStatusLight s];
                  VText ([160%N]);
                  el "span" [A "className" "text"; A "id" "uptime"] [VText (uptime info)]]];
              el "li" [] [
                el "span" [A "className" "navbar-cluster-info"] [
                  el "span" [A "className" "text"; A "id" "logout"] [
                    el "a" [A "className" "btn btn-logout"; A "href" "logout"] [T "Log Out"]]]]]]]];
      el "div" [A "id" "no-connection-modal"; A "className" "modal"; A "tabIndex" "-1"; A "role" "dialog"] [
        el "div" [A "className" "modal-dialog modal-sm"; A "role" "document"] [
          el "div" [A "className" "modal-content"] [
            el "div" [A "className" "row error-message"] [
              el "div" [A "className" "col-xs-12"] [
                el "br" [] [];
                el "h4" [] [T "Unable to connect to server"];
                el "p" [] [
                  match errorText s with Some e => VText (js "Error: " ++ e) | None => VNothing end]]]]]]]).

Definition title_render (title : jstring) (s : title_state) : res title_view :=
  match info s with
  | None => Ok VNothing
  | Some i => title_page title i s
  end.

(** ** The refresh *)

(** How the request of [refreshLoop] ends: the promise of [fetch] is rejected, or there is a
    response whose body is a JSON document or not.  [fail] is the text of the error. *)
Inductive fetch_result :=
| Rejected (fail : jstring)
| NotJson (status : Z) (fail : jstring)
| Json (status : Z) (document : option cluster_info).

(** What the handlers do outside of the state. *)
Inductive title_effect := Reload | ModalShow | ModalHide.

(** [setState] does nothing once the component has been removed. *)
Definition set_title (s' s : title_state) : title_state := if unmounted_by_error s then s else s'.

(** The callback of [then]: the new state is rendered before the handler goes on, and an
    exception of [render] removes the component and rejects the promise. *)
Definition title_then (title : jstring) (now : Z) (document : option cluster_info) (s : title_state)
  : res (list title_effect) * title_state :=
  let s1 := set_title {|
    noConnection := false; lightShown := lightShown s; info := document; lastSuccess := now;
    modalShown := false; errorText := errorText s; unmounted_by_error := false |} s in
  if unmounted_by_error s then (Ok [ModalHide], s)
  else match title_render title s1 with
       | Ok _ => (Ok [ModalHide], s1)
       | Throw e => (Throw e, {|
           noConnection := noConnection s1; lightShown := lightShown s1; info := info s1;
           lastSuccess := lastSuccess s1; modalShown := modalShown s1; errorText := errorText s1;
           unmounted_by_error := true |})
       end.

(** The callback of [catch].  The error it receives is an object, so that
    [fail || Date.now() - lastSuccess > 30 * 1000] holds without a look at the clock. *)
Definition title_catch (fail : jstring) (s : title_state) : list title_effect * title_state :=
  let s1 := set_title {|
    noConnection := true; lightShown := negb (lightShown s); info := info s; lastSuccess := lastSuccess s;
    modalShown := modalShown s; errorText := Some fail; unmounted_by_error := false |} s in
  if negb (modalShown s1)
  then ([ModalShow], set_title {|
    noConnection := noConnection s1; lightShown := lightShown s1; info := info s1; lastSuccess := lastSuccess s1;
    modalShown := true; errorText := errorText s1; unmounted_by_error := false |} s1)
  else ([], s1).

(** The text of the exception that [render] throws. *)
Definition render_error : jstring := js "TypeError".

Definition title_settled (title : jstring) (now : Z) (r : fetch_result) (s : title_state)
  : list title_effect * title_state :=
  let reload status := if (status =? 401)%Z then [Reload] else [] in
  match r with
  | Rejected fail => title_catch fail s
  | NotJson status fail => let '(e, s1) := title_catch fail s in (reload status ++ e, s1)
  | Json status document =>
    match title_then title now document s with
    | (Ok e, s1) => (reload status ++ e, s1)
    | (Throw _, s1) => let '(e, s2) := title_catch render_error s1 in (reload status ++ e, s2)
    end
  end.

(** [resetTimer] has no guard. *)
Definition title_keep_polling (s : title_state) : bool := true.

#[export] Instance title_poller (title network_error : jstring) (start : Z) :
  Poller title_state (Z * fetch_result) := {
  poll_init := title_constructor start;
  on_refresh s := s;
  on_response r s := Done (title_settled title r.1 r.2 s).2;
  on_failure now s := Done (title_settled title now (Rejected network_error) s).2;
  keep_polling := title_keep_polling;
  on_user _ _ := False;
}.

(** ** Properties *)

(** A request that ends in [catch] without touching the document on the page. *)
Definition failed (r : fetch_result) : bool :=
  match r with Rejected _ | NotJson _ _ => true | Json _ _ => false end.
Definition unauthorized (r : fetch_result) : bool :=
  match r with Rejected _ => false | NotJson status _ | Json status _ => (status =? 401)%Z end.

Definition title_outage (title : jstring) (rs : list (Z * fetch_result)) (s : title_state)
  : list title_effect * title_state :=
  fold_left (λ es r, let '(e, s') := title_settled title r.1 r.2 es.2 in (es.1 ++ e, s')) rs ([], s).

Lemma title_failed title now r s :
  failed r = true → unmounted_by_error s = false →
  (title_settled title now r s).2 = {|
    noConnection := true; lightShown := negb (lightShown s); info := info s; lastSuccess := lastSuccess s;
    modalShown := true; errorText := errorText (title_settled title now r s).2; unmounted_by_error := false |} ∧
  List.filter (λ e, match e with Reload => false | _ => true end) (title_settled title now r s).1 =
    (if modalShown s then [] else [ModalShow]).
Proof.
  intros Hf Hu. destruct r as [fail|status fail|]; [| |done];
    unfold title_settled, title_catch, set_title; rewrite Hu; cbn;
    destruct (modalShown s) eqn:Em; cbn; rewrite ?Em; try done; by destruct (status =? 401)%Z.
Qed.

Lemma title_outage_snoc title rs r s :
  title_outage title (rs ++ [r]) s =
  let '(e, s') := title_settled title r.1 r.2 (title_outage title rs s).2 in ((title_outage title rs s).1 ++ e, s').
Proof. unfold title_outage. by rewrite fold_left_app. Qed.

Lemma outage_state title rs s :
  Forall (λ r, failed r.2 = true) rs → unmounted_by_error s = false →
  let '(e, s') := title_outage title rs s in
  unmounted_by_error s' = false ∧ info s' = info s ∧ lastSuccess s' = lastSuccess s ∧
  lightShown s' = xorb (lightShown s) (Nat.odd (length rs)) ∧
  modalShown s' = modalShown s || negb (length rs =? 0) ∧
  noConnection s' = noConnection s || negb (length rs =? 0) ∧
  List.filter (λ e, match e with Reload => false | _ => true end) e =
    (if modalShown s || (length rs =? 0) then [] else [ModalShow]).
Proof.
  intros Hrs Hu. induction rs as [|r rs IH] using rev_ind.
  - cbn. rewrite !orb_false_r, xorb_false_r, orb_true_r. done.
  - apply Forall_app in Hrs as [Hrs Hr]. apply Forall_cons in Hr as [Hr _]. specialize (IH Hrs).
    rewrite title_outage_snoc. destruct (title_outage title rs s) as [e s1]. cbn [fst snd].
    destruct IH as (Hu1 & Hi1 & Ht1 & Hl1 & Hm1 & Hn1 & He1).
    destruct (title_failed title r.1 r.2 s1 Hr Hu1) as [Hs He].
    destruct (title_settled title r.1 r.2 s1) as [e2 s2]. cbn [fst snd] in *. rewrite Hs. cbn [unmounted_by_error info lastSuccess lightShown modalShown noConnection].
    rewrite List.filter_app, He1, He, Hm1, Hl1, length_app, Nat.add_comm. cbn [length Nat.add Nat.eqb negb].
    rewrite Nat.odd_succ, <-Nat.negb_odd, !orb_true_r, !orb_false_r.
    split_and!; try done; destruct (lightShown s), (modalShown s), (Nat.odd (length rs)), rs; done.
Qed.

(** When the coordinator stops answering, the dialog appears with the first failure, once,
    whatever the time since the last success (the thirty seconds of grace in the code never
    apply); with every further failure the light changes between red and off, and the
    document on the page stays. *)
Theorem outage_shown title rs s :
  rs ≠ [] → Forall (λ r, failed r.2 = true) rs →
  unmounted_by_error s = false → modalShown s = false →
  let '(e, s') := title_outage title rs s in
  List.filter (λ e, match e with Reload => false | _ => true end) e = [ModalShow] ∧
  modalShown s' = true ∧ info s' = info s ∧ lastSuccess s' = lastSuccess s ∧
  renderStatusLight s' = if xorb (lightShown s) (Nat.odd (length rs)) then light_red else light_off.
Proof.
  intros Hne Hrs Hu Hm. pose proof (outage_state title rs s Hrs Hu) as H.
  destruct (title_outage title rs s) as [e s']. destruct H as (_ & -> & -> & Hl & -> & Hn & ->).
  assert ((length rs =? 0) = false) as -> by by destruct rs. rewrite Hm. split_and!; try done.
  unfold renderStatusLight. rewrite Hn, Hl.
  destruct rs; [done|]. cbn [length Nat.eqb negb]. by rewrite orb_true_r.
Qed.

(** A document of the cluster ends the outage: the dialog is hidden, the light is green and
    the time of the success is noted.  A document without a version makes [render] throw; the
    title bar disappears and no later answer brings it back, although polling goes on. *)
Theorem title_recovers title now document s :
  unmounted_by_error s = false →
  (∀ i, document = Some i → nodeVersion i ≠ None →
     ∃ s', title_settled title now (Json 200 document) s = ([ModalHide], s') ∧
     renderStatusLight s' = light_green ∧ lastSuccess s' = now ∧ modalShown s' = false ∧ info s' = document) ∧
  (∀ i, document = Some i → nodeVersion i = None →
     ∀ rs, unmounted_by_error (title_outage title rs (title_settled title now (Json 200 document) s).2).2 = true).
Proof.
  intros Hu. split; intros i -> Hi.
  - destruct (nodeVersion i) as [v|] eqn:Ev; [|done]. eexists. unfold title_settled, title_then, set_title. rewrite Hu.
    unfold title_render, title_page. cbn [info]. rewrite Ev. done.
  - assert (∀ rs s, unmounted_by_error s = true → unmounted_by_error (title_outage title rs s).2 = true) as Hgone.
    { intros rs s1 H1. induction rs as [|r rs IH] using rev_ind; [done|]. rewrite title_outage_snoc.
      destruct (title_outage title rs s1) as [e s2]. cbn [fst snd] in *.
      unfold title_settled, title_then, title_catch, set_title. rewrite IH.
      destruct r.2; destruct (modalShown s2); cbn; by rewrite ?IH. }
    intros rs. apply Hgone. unfold title_settled, title_then, set_title. rewrite Hu.
    unfold title_render, title_page. cbn [info]. rewrite Hi. done.
Qed.

(** The title bar polls forever, one request at a time, whatever the answers are. *)
Theorem title_polls_forever title network_error start p :
  @reachable _ _ (title_poller title network_error start) p → inflight p + length (live p) = 1.
Proof.
  apply (@reachable_alive _ _ (title_poller title network_error start) (λ _, True)); [by split_and!| |];
    intros; eexists; by split.
Qed.

(** ** Witnesses *)

Definition sample_cluster : cluster_info :=
  {| nodeVersion := Some (js "381"); environment := js "production"; uptime := js "3.25d" |}.
Definition sample_failures : list (Z * fetch_result) :=
  [(1000%Z, Rejected (js "TypeError: Failed to fetch")); (2000%Z, NotJson 503 (js "SyntaxError"))].

Lemma outage_shown_witness :
  let '(e, s') := title_outage (js "Overview") sample_failures (title_constructor 0) in
  e = [ModalShow] ∧ modalShown s' = true ∧ renderStatusLight s' = light_off.
Proof.
  pose proof (outage_shown (js "Overview") sample_failures (title_constructor 0) ltac:(done)
    ltac:(by repeat constructor) eq_refl eq_refl) as H.
  vm_compute in H. destruct H as (He & Hm & _ & _ & Hl). vm_compute. done.
Defined.

Lemma title_recovers_witness :
  ∃ s', title_settled (js "Overview") 5000 (Json 200 (Some sample_cluster)) (title_constructor 0) = ([ModalHide], s') ∧
  renderStatusLight s' = light_green.
Proof.
  destruct (title_recovers (js "Overview") 5000 (Some sample_cluster) (title_constructor 0) eq_refl) as [H _].
  destruct (H sample_cluster eq_refl ltac:(done)) as (s' & Hs & Hl & _). by exists s'.
Defined.

Lemma title_polls_forever_witness :
  let p := @mounted _ _ (title_poller (js "Overview") (js "TypeError: Failed to fetch") 0) in
  inflight p + length (live p) = 1.
Proof.
  apply (title_polls_forever (js "Overview") (js "TypeError: Failed to fetch") 0). apply rtc_refl.
Defined.
