(* ===== verification/WorkerList.v ===== *)
(** * The list of workers (components/WorkerList.jsx) *)

From S2P Require Import Prelude JsString JsNumber JsNumberFacts JsCollections Vdom Poller.
From stdpp Require Import relations sorting.

(** An element of the response of [/ui/api/worker]. *)
Record worker := {
  w_nodeId : jstring;
  w_nodeIp : jstring;
  w_nodeVersion : jstring;
  coordinator : bool;
  w_state : jstring;
}.

Record wl_state := { wl_initialized : bool; workers : option (list worker) }.

Definition wl_constructor : wl_state := {| wl_initialized := false; workers := Some [] |}.

(** [String.prototype.localeCompare] depends on the locale; ECMA-262 (22.1.3.12) requires a
    consistent comparator. *)
Class LocaleCompare := localeCompare : jstring → jstring → number.
Class LocaleCompareLaws `{LocaleCompare} : Prop := localeCompare_consistent l : consistent localeCompare l.

Section worker_list.
Context `{LocaleCompare, JsSort}.

(** The comparator: coordinators first, then by node id. *)
Definition worker_cmp (workerA workerB : worker) : number :=
  if coordinator workerA && negb (coordinator workerB) then of_Z (-1)
  else if negb (coordinator workerA) && coordinator workerB then of_Z 1
  else localeCompare (w_nodeId workerA) (w_nodeId workerB).

(** The success callback; the response may be [null]. *)
Definition wl_on_response (r : option (list worker)) (s : wl_state) : outcome wl_state :=
  Done {| wl_initialized := true; workers := js_sort worker_cmp <$> r |}.

Definition wl_on_failure (s : wl_state) : outcome wl_state :=
  Done {| wl_initialized := true; workers := workers s |}.

Definition wl_keep_polling (s : wl_state) : bool := true.

#[export] Instance wl_poller : Poller wl_state (option (list worker)) := {
  poll_init := wl_constructor;
  on_refresh s := s;
  on_response := wl_on_response;
  on_failure _ := wl_on_failure;
  keep_polling := wl_keep_polling;
  on_user _ _ := False;
}.
End worker_list.

(** ** The view *)

Abbreviation workers_view := (vnode Empty_set Empty_set).

Definition workers_loading : workers_view :=
  el "div" [A "className" "loader"] [T "Loading..."].

Definition workers_error : workers_view :=
  el "div" [A "className" "row error-message"] [
      el "div" [A "className" "col-xs-12"] [
        el "h4" [] [T "Worker list information could not be loaded"]]].

Definition worker_row (worker : worker) : workers_view :=
  el "tr" [] [
      el "td" [A "className" "info-text wrap-text"] [
        el "a" [AX "href" (js "worker.html?" ++ w_nodeId worker); A "className" "font-light"; A "target" "_blank"] [
          VText (w_nodeId worker)]];
      el "td" [A "className" "info-text wrap-text"] [
        el "a" [AX "href" (js "worker.html?" ++ w_nodeId worker); A "className" "font-light"; A "target" "_blank"] [
          VText (w_nodeIp worker)]];
      el "td" [A "className" "info-text wrap-text"] [VText (w_nodeVersion worker)];
      el "td" [A "className" "info-text wrap-text"] [
        VText (if coordinator worker then js "true" else js "false")];
      el "td" [A "className" "info-text wrap-text"] [VText (w_state worker)]].

Definition workers_table (workers : list worker) : workers_view :=
  el "div" [] [
      el "div" [A "className" "row"] [
        el "div" [A "className" "col-xs-12"] [
          el "h3" [] [T "Overview"];
          el "hr" [A "className" "h3-hr"] [];
          el "table" [A "className" "table"] [
            el "tbody" [] [
              el "tr" [] [
                el "td" [A "className" "info-title stage-table-stat-text"] [T "Node ID"];
                el "td" [A "className" "info-title stage-table-stat-text"] [T "Node IP"];
                el "td" [A "className" "info-title stage-table-stat-text"] [T "Node Version"];
                el "td" [A "className" "info-title stage-table-stat-text"] [T "Coordinator"];
                el "td" [A "className" "info-title stage-table-stat-text"] [T "State"]];
              VList (map worker_row workers)]]]]].

Definition workers_render (s : wl_state) : workers_view :=
  match workers s with
  | None => if wl_initialized s then workers_error else workers_loading
  | Some l => workers_table l
  end.

(** ** Properties *)

Section properties.
Context `{LocaleCompareLaws, JsSortLaws}.

Lemma worker_cmp_consistent l : consistent worker_cmp l.
Proof.
  pose proof (localeCompare_consistent (map w_nodeId l)) as [Hsym Htrans].
  assert (∀ w, w ∈ l → w_nodeId w ∈ map w_nodeId l) as Hin
    by (intros w Hw; apply list_elem_of_In, in_map, list_elem_of_In, Hw).
  split.
  - intros a b Ha Hb. unfold worker_cmp. destruct (coordinator a), (coordinator b); cbn [andb negb]; try done; auto.
  - intros a b c Ha Hb Hc. unfold cmp_le, worker_cmp in *.
    destruct (coordinator a), (coordinator b), (coordinator c); cbn [andb negb]; try done; eauto.
Qed.

(** A coordinator never stands behind a worker that is none. *)
Lemma cmp_le_coordinator a b : cmp_le worker_cmp a b → coordinator b = true → coordinator a = true.
Proof. unfold cmp_le, worker_cmp. by destruct (coordinator a), (coordinator b). Qed.

Lemma sorted_coordinators l :
  StronglySorted (cmp_le worker_cmp) l →
  l = List.filter coordinator l ++ List.filter (λ w, negb (coordinator w)) l.
Proof.
  induction 1 as [|w l Hs IH Hw]; [done|]. cbn [List.filter]. destruct (coordinator w) eqn:Ew; cbn [negb app].
  - by f_equal.
  - assert (∀ v, v ∈ l → coordinator v = false) as Hnone.
    { intros v Hv. rewrite Forall_forall in Hw. specialize (Hw v Hv).
      destruct (coordinator v) eqn:Ev; [|done]. by rewrite (cmp_le_coordinator w v Hw Ev) in Ew. }
    rewrite (filter_bool_none coordinator) by done. cbn [app]. f_equal.
    symmetry. apply filter_bool_all. intros v Hv. by rewrite (Hnone v Hv).
Qed.

(** Within a group of workers of the same kind the comparator is that of the ids. *)
Lemma cmp_le_same_kind a b :
  coordinator a = coordinator b → cmp_le worker_cmp a b → ngtb (localeCompare (w_nodeId a) (w_nodeId b)) zero = false.
Proof. unfold cmp_le, worker_cmp. intros ->. by destruct (coordinator b). Qed.

Lemma sorted_group (p : worker → bool) l :
  (∀ a b, p a = true → p b = true → coordinator a = coordinator b) →
  StronglySorted (cmp_le worker_cmp) l →
  StronglySorted (λ a b, ngtb (localeCompare (w_nodeId a) (w_nodeId b)) zero = false) (List.filter p l).
Proof.
  intros Hp. induction 1 as [|w l Hs IH Hw]; cbn [List.filter]; [constructor|].
  destruct (p w) eqn:Ew; [|done]. constructor; [done|]. rewrite Forall_forall in *.
  intros v [Hv Ev]%elem_of_filter_bool. apply cmp_le_same_kind; auto.
Qed.

(** After a response the page lists exactly the workers of the response, the coordinators
    first, and each of the two groups in the order of the node ids. *)
Theorem workers_listed l s :
  ∃ coordinators others,
  wl_on_response (Some l) s = Done {| wl_initialized := true; workers := Some (coordinators ++ others) |} ∧
  coordinators ++ others ≡ₚ l ∧
  Forall (λ w, coordinator w = true) coordinators ∧ Forall (λ w, coordinator w = false) others ∧
  StronglySorted (λ a b, ngtb (localeCompare (w_nodeId a) (w_nodeId b)) zero = false) coordinators ∧
  StronglySorted (λ a b, ngtb (localeCompare (w_nodeId a) (w_nodeId b)) zero = false) others.
Proof.
  pose proof (js_sort_sorted worker_cmp l (worker_cmp_consistent l)) as Hs.
  exists (List.filter coordinator (js_sort worker_cmp l)),
         (List.filter (λ w, negb (coordinator w)) (js_sort worker_cmp l)).
  unfold wl_on_response. cbn [fmap option_fmap option_map]. rewrite <-sorted_coordinators by done.
  split_and!; [done|apply js_sort_perm|..].
  - apply Forall_forall. by intros w [_ Hw]%elem_of_filter_bool.
  - apply Forall_forall. intros w [_ Hw]%elem_of_filter_bool. by apply negb_true_iff.
  - apply sorted_group; [|done]. by intros a b -> ->.
  - apply sorted_group; [|done]. intros a b. by destruct (coordinator a), (coordinator b).
Qed.
End properties.

(** A failed request is not reported: as long as no request has succeeded, the page shows
    the table without rows, and later failures leave the last list in place; the message that
    the list could not be loaded appears only for the answer [null]. *)
Theorem worker_failures_hidden `{LocaleCompare, JsSort} p :
  reachable p →
  (workers_render (comp p) = workers_error ↔ workers (comp p) = None) ∧
  workers_render (comp p) ≠ workers_loading ∧
  workers (outcome_state (wl_on_failure (comp p))) = workers (comp p).
Proof.
  intros Hp.
  assert (workers (comp p) = None → wl_initialized (comp p) = true) as Hi.
  { revert Hp. apply (reachable_invariant (λ s, workers s = None → wl_initialized s = true)).
    split; [done|]. by split_and!. }
  apply and_assoc. split; [|done]. unfold workers_render. destruct (workers (comp p)) as [l|].
  - split; [split; discriminate|discriminate].
  - rewrite Hi by done. done.
Qed.

(** ** Witnesses *)

(** Comparison by code units. *)
Fixpoint code_unit_compare (a b : jstring) : number :=
  match a, b with
  | [], [] => zero
  | [], _ :: _ => of_Z (-1)
  | _ :: _, [] => of_Z 1
  | x :: a', y :: b' =>
    if (x <? y)%N then of_Z (-1) else if (y <? x)%N then of_Z 1 else code_unit_compare a' b'
  end.
Definition code_unit_locale : LocaleCompare := code_unit_compare.

Lemma code_unit_sym a b : nltb (code_unit_compare a b) zero = ngtb (code_unit_compare b a) zero.
Proof.
  revert b. induction a as [|x a IH]; intros [|y b]; cbn [code_unit_compare]; try done.
  destruct (N.ltb_spec x y), (N.ltb_spec y x); try lia; done || apply IH.
Qed.

Lemma code_unit_trans a b c :
  cmp_le code_unit_compare a b → cmp_le code_unit_compare b c → cmp_le code_unit_compare a c.
Proof.
  unfold cmp_le. revert b c. induction a as [|x a IH]; intros [|y b] [|z c]; cbn [code_unit_compare]; try done.
  destruct (N.ltb_spec x y), (N.ltb_spec y x); try lia; try done;
  destruct (N.ltb_spec y z), (N.ltb_spec z y); try lia; try done;
  destruct (N.ltb_spec x z), (N.ltb_spec z x); try lia; done || apply IH.
Qed.

#[export] Instance code_unit_locale_laws : @LocaleCompareLaws code_unit_locale.
Proof. intros l. split; intros; [apply code_unit_sym|by eapply code_unit_trans]. Qed.

Definition sample_worker (id : jstring) (c : bool) : worker :=
  {| w_nodeId := id; w_nodeIp := js "10.0.0.1"; w_nodeVersion := js "381"; coordinator := c; w_state := js "active" |}.
Definition sample_workers : list worker :=
  [sample_worker (js "b") false; sample_worker (js "z") true; sample_worker (js "a") false].

Example workers_sample :
  workers (outcome_state (@wl_on_response code_unit_locale insertion_js_sort (Some sample_workers) wl_constructor)) =
  Some [sample_worker (js "z") true; sample_worker (js "a") false; sample_worker (js "b") false].
Proof. vm_compute. reflexivity. Qed.

Lemma workers_listed_witness :
  ∃ coordinators others, coordinators ++ others ≡ₚ sample_workers ∧
  Forall (λ w, coordinator w = true) coordinators ∧ Forall (λ w, coordinator w = false) others.
Proof.
  destruct (@workers_listed code_unit_locale code_unit_locale_laws insertion_js_sort insertion_js_sort_laws
              sample_workers wl_constructor) as (cs & os & _ & Hp & Hc & Ho & _).
  by exists cs, os.
Defined.

Lemma worker_failures_hidden_witness :
  let p := @answer _ _ (@wl_poller code_unit_locale insertion_js_sort)
             (@on_failure _ _ (@wl_poller code_unit_locale insertion_js_sort) 0)
             (@mounted _ _ (@wl_poller code_unit_locale insertion_js_sort)) in
  workers_render (comp p) = workers_table [] ∧ workers_render (comp p) ≠ workers_loading.
Proof.
  split; [reflexivity|].
  apply (@worker_failures_hidden code_unit_locale insertion_js_sort). apply rtc_once, step_failure. apply Nat.lt_0_1.
Defined.
