(* ===== verification/WorkerStatus.v ===== *)
(** * The status of a worker (components/WorkerStatus.jsx)

    Four time series, and the memory pool with the queries that use it. *)

From S2P Require Import Prelude JsString JsNumber JsNumberFacts JsCollections Format Sparkline Vdom Poller.
From stdpp Require Import relations.

(** [memoryInfo.pool]; the two objects map query ids to bytes.  A query id is never the name
    of an inherited property. *)
Record pool := {
  maxBytes : number;
  reservedBytes : number;
  reservedRevocableBytes : number;
  queryMemoryReservations : list (jstring * number);
  queryMemoryRevocableReservations : list (jstring * number);
}.

(** The response of [/ui/api/worker/{nodeId}/status]. *)
Record server_info := {
  s_nodeId : jstring;
  s_uptime : jstring;
  externalAddress : jstring;
  internalAddress : jstring;
  processors : number;
  s_processCpuLoad : number;
  s_systemCpuLoad : number;
  heapUsed : number;
  heapAvailable : number;
  s_nonHeapUsed : number;
  s_pool : option pool;
}.

Record ws_state := {
  ws_serverInfo : option server_info;
  ws_initialized : bool;
  ended : bool;
  processCpuLoad : list number;
  systemCpuLoad : list number;
  heapPercentUsed : list number;
  nonHeapUsed : list number;
}.

Definition ws_constructor : ws_state := {|
  ws_serverInfo := None; ws_initialized := false; ended := false;
  processCpuLoad := []; systemCpuLoad := []; heapPercentUsed := []; nonHeapUsed := [] |}.

(** ** The refresh *)

Definition ws_on_response (serverInfo : server_info) (s : ws_state) : outcome ws_state := Done {|
  ws_serverInfo := Some serverInfo; ws_initialized := true; ended := ended s;
  processCpuLoad := addToHistory (nmul (s_processCpuLoad serverInfo) (of_Z 100)) (processCpuLoad s);
  systemCpuLoad := addToHistory (nmul (s_systemCpuLoad serverInfo) (of_Z 100)) (systemCpuLoad s);
  heapPercentUsed := addToHistory (ndiv (nmul (heapUsed serverInfo) (of_Z 100)) (heapAvailable serverInfo)) (heapPercentUsed s);
  nonHeapUsed := addToHistory (s_nonHeapUsed serverInfo) (nonHeapUsed s) |}.

Definition ws_on_failure (s : ws_state) : outcome ws_state := Done {|
  ws_serverInfo := ws_serverInfo s; ws_initialized := true; ended := ended s; processCpuLoad := processCpuLoad s;
  systemCpuLoad := systemCpuLoad s; heapPercentUsed := heapPercentUsed s; nonHeapUsed := nonHeapUsed s |}.

(** The guard of [resetTimer]; the state has no [query], and [undefined] is not [null]. *)
Definition ws_keep_polling (s : ws_state) : bool := negb (ended s).

(** [componentDidUpdate] *)
Definition ws_sparklines (s : ws_state) : list sparkline :=
  let chart target values formatter :=
    {| sp_target := target; sp_values := map (λ x, Some x) values; sp_chartRangeMin := Some zero; sp_formatter := Some formatter |} in
  [chart (js "#process-cpu-load-sparkline") (processCpuLoad s) precisionRound;
   chart (js "#system-cpu-load-sparkline") (systemCpuLoad s) precisionRound;
   chart (js "#heap-percent-used-sparkline") (heapPercentUsed s) precisionRound;
   chart (js "#nonheap-used-sparkline") (nonHeapUsed s) formatDataSize].

#[export] Instance ws_poller : Poller ws_state server_info := {
  poll_init := ws_constructor;
  on_refresh s := s;
  on_response := ws_on_response;
  on_failure _ := ws_on_failure;
  keep_polling := ws_keep_polling;
  on_user _ _ := False;
}.

(** ** The memory pool *)

Abbreviation status_view := (vnode Empty_set Empty_set).

(** [x === 0 ? 0 : Math.max(Math.round(x * 100.0 / size), 15)] *)
Definition share (x size : number) : number :=
  if neqb x zero then zero else nmax (nround (ndiv (nmul x (of_Z 100)) size)) (of_Z 15).

Definition percentageReservedNonRevocable (p : pool) : number := share (reservedBytes p) (maxBytes p).
Definition percentageRevocable (p : pool) : number := share (reservedRevocableBytes p) (maxBytes p).
Definition percentageFree (p : pool) : number :=
  nsub (of_Z 100) (nadd (percentageRevocable p) (percentageReservedNonRevocable p)).

Definition pool_bar (name : jstring) (p : pool) : status_view :=
  el "div" [A "className" "row"] [
      el "div" [A "className" "col-xs-12"] [
        el "div" [A "className" "row"] [
          el "div" [A "className" "col-xs-8"] [el "h4" [] [VText name; T " Pool"]];
          el "div" [A "className" "col-xs-4"] [
            el "div" [A "className" "progress"; ASt "style" [(js "marginTop", js "6px")]] [
              el "div" [A "className" "progress-bar memory-progress-bar memory-progress-bar-info"; A "role" "progressbar"; ASt "style" [(js "width", js "100%")]] [
                VText (formatDataSize (maxBytes p));
                T " total"]]]];
        el "div" [A "className" "row"] [
          el "div" [A "className" "col-xs-12"] [
            el "hr" [A "className" "h4-hr"] [];
            el "div" [A "className" "progress"] [
              el "div" [A "className" "progress-bar memory-progress-bar progress-bar-warning progress-bar-striped active"; A "role" "progressbar"; ASt "style" [(js "width", toString (percentageReservedNonRevocable p) ++ js "%")]] [
                VText (formatDataSize (reservedBytes p))];
              el "div" [A "className" "progress-bar memory-progress-bar progress-bar-danger progress-bar-striped active"; A "role" "progressbar"; ASt "style" [(js "width", toString (percentageRevocable p) ++ js "%")]] [
                VText (formatDataSize (reservedRevocableBytes p))];
              el "div" [A "className" "progress-bar memory-progress-bar progress-bar-success"; A "role" "progressbar"; ASt "style" [(js "width", toString (percentageFree p) ++ js "%")]] [
                VText (formatDataSize (nsub (nsub (maxBytes p) (reservedBytes p)) (reservedRevocableBytes p)))]]]]]].

Definition renderPoolBar (name : jstring) (p : option pool) : status_view :=
  match p with None => VNothing | Some p => pool_bar name p end.

Definition renderPoolQuery (query : jstring) (reserved revocable total : number) : status_view :=
  el "tr" [] [
      el "td" [] [
        el "div" [A "className" "row query-memory-list-header"] [
          el "div" [A "className" "col-xs-7"] [
            el "a" [AX "href" (js "query.html?" ++ query); A "target" "_blank"] [VText query]];
          el "div" [A "className" "col-xs-5"] [
            el "div" [A "className" "row text-right"] [
              el "div" [A "className" "col-xs-6"] [
                el "span" [A "data-toggle" "tooltip"; A "data-placement" "top"; A "title" "% of pool memory reserved"] [
                  VNum (nround (ndiv (nmul reserved (of_Z 100)) total));
                  T "%"]];
              el "div" [A "className" "col-xs-6"] [
                el "span" [A "data-toggle" "tooltip"; A "data-placement" "top"; AX "title" (js "Reserved: " ++ formatDataSize reserved ++ js ". Revocable: " ++ formatDataSize revocable)] [
                  VText (formatDataSize reserved)]]]]]]].

(** The two loops of [renderPoolQueries]: the bytes a query reserves and those it can give
    back. *)
Definition add_reserved (queries : list (jstring * (number * number))) (r : jstring * number)
  : list (jstring * (number * number)) :=
  map_set r.1 (r.2, zero) queries.
Definition add_revocable (queries : list (jstring * (number * number))) (r : jstring * number)
  : list (jstring * (number * number)) :=
  match map_get r.1 queries with
  | Some (reserved, _) => map_set r.1 (reserved, r.2) queries
  | None => map_set r.1 (zero, r.2) queries
  end.
Definition pool_queries (p : pool) : list (jstring * (number * number)) :=
  fold_left add_revocable (obj_order (queryMemoryRevocableReservations p))
    (fold_left add_reserved (obj_order (queryMemoryReservations p)) []).

Definition pool_unused : status_view :=
  el "div" [] [
      el "table" [A "className" "table table-condensed"] [
        el "tbody" [] [el "tr" [] [el "td" [] [T "No queries using pool"]]]]].

Definition pool_table (p : pool) : status_view :=
  el "div" [] [
      el "table" [A "className" "table"] [
        el "tbody" [] [
          VList (map (λ '(key, (reserved, revocable)), renderPoolQuery key reserved revocable (maxBytes p)) (obj_order (pool_queries p)))]]].

Definition renderPoolQueries (p : option pool) : status_view :=
  match p with
  | None => VNothing
  | Some p => if length (pool_queries p) =? 0 then pool_unused else pool_table p
  end.

(** ** The page *)

Definition status_loading : status_view :=
  el "div" [A "className" "loader"] [T "Loading..."].

Definition status_error : status_view :=
  el "div" [A "className" "row error-message"] [
      el "div" [A "className" "col-xs-12"] [el "h4" [] [T "Node information could not be loaded"]]].

Definition status_overview (serverInfo : server_info) : status_view :=
  el "div" [A "className" "row"] [
      el "div" [A "className" "col-xs-6"] [
        el "table" [A "className" "table"] [
          el "tbody" [] [
            el "tr" [] [
              el "td" [A "className" "info-title"] [T "Node ID"];
              el "td" [A "className" "info-text wrap-text"] [
                el "span" [A "id" "node-id"] [VText (s_nodeId serverInfo)];
                VText ([160%N; 160%N]);
                el "a" [A "href" "#"; A "className" "copy-button"; A "data-clipboard-target" "#node-id"; A "data-toggle" "tooltip"; A "data-placement" "right"; A "title" "Copy to clipboard"] [
                  el "span" [A "className" "glyphicon glyphicon-copy"; A "alt" "Copy to clipboard"] []]]];
            el "tr" [] [
              el "td" [A "className" "info-title"] [T "Heap Memory"];
              el "td" [A "className" "info-text wrap-text"] [
                el "span" [A "id" "node-heap-available"] [
                  VText (formatDataSize (heapAvailable serverInfo))]]];
            el "tr" [] [
              el "td" [A "className" "info-title"] [T "Processors"];
              el "td" [A "className" "info-text wrap-text"] [
                el "span" [A "id" "node-processors"] [VNum (processors serverInfo)]]]]]];
      el "div" [A "className" "col-xs-6"] [
        el "table" [A "className" "table"] [
          el "tbody" [] [
            el "tr" [] [
              el "td" [A "className" "info-title"] [T "Uptime"];
              el "td" [A "className" "info-text wrap-text"] [VText (s_uptime serverInfo)]];
            el "tr" [] [
              el "td" [A "className" "info-title"] [T "External Address"];
              el "td" [A "className" "info-text wrap-text"] [
                el "span" [A "id" "external-address"] [VText (externalAddress serverInfo)];
                VText ([160%N; 160%N]);
                el "a" [A "href" "#"; A "className" "copy-button"; A "data-clipboard-target" "#external-address"; A "data-toggle" "tooltip"; A "data-placement" "right"; A "title" "Copy to clipboard"] [
                  el "span" [A "className" "glyphicon glyphicon-copy"; A "alt" "Copy to clipboard"] []]]];
            el "tr" [] [
              el "td" [A "className" "info-title"] [T "Internal Address"];
              el "td" [A "className" "info-text wrap-text"] [
                el "span" [A "id" "internal-address"] [VText (internalAddress serverInfo)];
                VText ([160%N; 160%N]);
                el "a" [A "href" "#"; A "className" "copy-button"; A "data-clipboard-target" "#internal-address"; A "data-toggle" "tooltip"; A "data-placement" "right"; A "title" "Copy to clipboard"] [
                  el "span" [A "className" "glyphicon glyphicon-copy"; A "alt" "Copy to clipboard"] []]]]]]]].

Definition status_utilization (s : ws_state) : status_view :=
  el "div" [A "className" "row"] [
      el "div" [A "className" "col-xs-6"] [
        el "table" [A "className" "table"] [
          el "tbody" [] [
            el "tr" [] [
              el "td" [A "className" "info-title"] [T "Process CPU Utilization"];
              el "td" [A "rowSpan" "2"] [
                el "div" [A "className" "query-stats-sparkline-container"] [
                  el "span" [A "className" "sparkline"; A "id" "process-cpu-load-sparkline"] [
                    el "div" [A "className" "loader"] [T "Loading ..."]]]]];
            el "tr" [A "className" "tr-noborder"] [
              el "td" [A "className" "info-sparkline-text"] [
                VText (formatCount (default nan (last (processCpuLoad s))));
                T "%"]];
            el "tr" [] [
              el "td" [A "className" "info-title"] [T "System CPU Utilization"];
              el "td" [A "rowSpan" "2"] [
                el "div" [A "className" "query-stats-sparkline-container"] [
                  el "span" [A "className" "sparkline"; A "id" "system-cpu-load-sparkline"] [
                    el "div" [A "className" "loader"] [T "Loading ..."]]]]];
            el "tr" [A "className" "tr-noborder"] [
              el "td" [A "className" "info-sparkline-text"] [
                VText (formatCount (default nan (last (systemCpuLoad s))));
                T "%"]]]]];
      el "div" [A "className" "col-xs-6"] [
        el "table" [A "className" "table"] [
          el "tbody" [] [
            el "tr" [] [
              el "td" [A "className" "info-title"] [T "Heap Utilization"];
              el "td" [A "rowSpan" "2"] [
                el "div" [A "className" "query-stats-sparkline-container"] [
                  el "span" [A "className" "sparkline"; A "id" "heap-percent-used-sparkline"] [
                    el "div" [A "className" "loader"] [T "Loading ..."]]]]];
            el "tr" [A "className" "tr-noborder"] [
              el "td" [A "className" "info-sparkline-text"] [
                VText (formatCount (default nan (last (heapPercentUsed s))));
                T "%"]];
            el "tr" [] [
              el "td" [A "className" "info-title"] [T "Non-Heap Memory Used"];
              el "td" [A "rowSpan" "2"] [
                el "div" [A "className" "query-stats-sparkline-container"] [
                  el "span" [A "className" "sparkline"; A "id" "nonheap-used-sparkline"] [
                    el "div" [A "className" "loader"] [T "Loading ..."]]]]];
            el "tr" [A "className" "tr-noborder"] [
              el "td" [A "className" "info-sparkline-text"] [
                VText (formatDataSize (default nan (last (nonHeapUsed s))))]]]]]].

Definition status_page (serverInfo : server_info) (s : ws_state) : status_view :=
  el "div" [] [
      el "div" [A "className" "row"] [
        el "div" [A "className" "col-xs-12"] [
          el "h3" [] [T "Overview"];
          el "hr" [A "className" "h3-hr"] [];
          status_overview serverInfo;
          el "div" [A "className" "row"] [
            el "div" [A "className" "col-xs-12"] [
              el "h3" [] [T "Resource Utilization"];
              el "hr" [A "className" "h3-hr"] [];
              status_utilization s]]]];
      el "div" [A "className" "row"] [
        el "div" [A "className" "col-xs-12"] [
          el "h3" [] [T "Memory"];
          el "hr" [A "className" "h3-hr"] [];
          el "div" [A "className" "row"] [
            el "div" [A "className" "col-xs-6"] [
              renderPoolBar (js "Memory Usage") (s_pool serverInfo);
              renderPoolQueries (s_pool serverInfo)]]]]].

Definition status_render (s : ws_state) : status_view :=
  match ws_serverInfo s with
  | None => if ws_initialized s then status_error else status_loading
  | Some serverInfo => status_page serverInfo s
  end.

(** ** Properties *)

(** The state that the responses [rs] lead to, the oldest first; failures in between change
    nothing that is shown afterwards. *)
Definition ws_shows (rs : list server_info) (s : ws_state) : Prop :=
  ws_serverInfo s = last rs ∧ (rs ≠ [] → ws_initialized s = true) ∧ ended s = false ∧
  processCpuLoad s = window (map (λ i, nmul (s_processCpuLoad i) (of_Z 100)) rs) ∧
  systemCpuLoad s = window (map (λ i, nmul (s_systemCpuLoad i) (of_Z 100)) rs) ∧
  heapPercentUsed s = window (map (λ i, ndiv (nmul (heapUsed i) (of_Z 100)) (heapAvailable i)) rs) ∧
  nonHeapUsed s = window (map s_nonHeapUsed rs).

Lemma ws_run_shows rs p : run rs p → ws_shows rs (comp p).
Proof.
  apply (run_invariant ws_shows); [done|done| | |done].
  - intros rs1 i s (Hi & Hn & He & Hp & Hy & Hh & Hu). unfold ws_shows. cbn [outcome_state on_response ws_poller ws_on_response
      ws_serverInfo ws_initialized ended processCpuLoad systemCpuLoad heapPercentUsed nonHeapUsed].
    rewrite Hp, Hy, Hh, Hu, !addToHistory_window, !map_app, last_snoc. done.
  - intros rs1 now s (Hi & Hn & He & Hh). split; [done|]. split; [done|]. split; [done|]. exact Hh.
Qed.

(** At every time the page of a worker shows the last of the responses [rs] received so far,
    and its four series are exactly the last 301 measurements in order, the loads and the heap
    as percentages; failed requests leave no trace in them. *)
Theorem status_series rs p :
  run rs p →
  let s := comp p in let recent {A} (get : server_info → A) := drop (length rs - 301) (map get rs) in
  ws_serverInfo s = last rs ∧
  processCpuLoad s = recent (λ i, nmul (s_processCpuLoad i) (of_Z 100)) ∧
  systemCpuLoad s = recent (λ i, nmul (s_systemCpuLoad i) (of_Z 100)) ∧
  heapPercentUsed s = recent (λ i, ndiv (nmul (heapUsed i) (of_Z 100)) (heapAvailable i)) ∧
  nonHeapUsed s = recent s_nonHeapUsed.
Proof.
  intros (Hi & _ & _ & Hl & Hy & Hh & Hu)%ws_run_shows.
  cbv zeta. unfold window in *. rewrite !length_map in *. done.
Qed.

(** The page of a worker polls forever, one request at a time: nothing sets [ended]. *)
Theorem status_polls_forever p : reachable p → inflight p + length (live p) = 1.
Proof.
  apply (reachable_alive (λ s, ended s = false)); [by split_and!|..].
  - intros r s He. eexists. split; [done|]. cbn. unfold ws_keep_polling. cbn. by rewrite He.
  - intros now s He. eexists. split; [done|]. cbn. unfold ws_keep_polling. cbn. by rewrite He.
Qed.

(** The queries of a pool. *)
Section pool_queries.
Abbreviation queries := (list (jstring * (number * number))).
Implicit Types (m : queries) (l : list (jstring * number)).

Lemma add_reserved_get l m q :
  NoDup l.*1 →
  map_get q (fold_left add_reserved l m) =
  match map_get q l with Some x => Some (x, zero) | None => map_get q m end.
Proof.
  revert m. induction l as [|[k x] l IH]; intros m; cbn [fmap list_fmap map fst]; [done|].
  intros [Hk Hl]%NoDup_cons. cbn [fold_left map_get]. rewrite IH by done. unfold add_reserved. cbn [fst snd].
  case_decide as E; subst.
  - apply map_get_None in Hk. rewrite Hk, map_get_set_eq. done.
  - rewrite map_get_set_ne by done. done.
Qed.

Lemma add_revocable_get l m q :
  NoDup l.*1 →
  map_get q (fold_left add_revocable l m) =
  match map_get q l with
  | Some x => Some (default zero (fst <$> map_get q m), x)
  | None => map_get q m
  end.
Proof.
  revert m. induction l as [|[k x] l IH]; intros m; cbn [fmap list_fmap map fst]; [done|].
  intros [Hk Hl]%NoDup_cons. cbn [fold_left map_get]. rewrite IH by done. unfold add_revocable. cbn [fst snd].
  case_decide as E; subst.
  - apply map_get_None in Hk. rewrite Hk. destruct (map_get k m) as [[r v]|]; by rewrite map_get_set_eq.
  - destruct (map_get k m) as [[r v]|]; by rewrite map_get_set_ne.
Qed.

Lemma add_revocable_NoDup l m : NoDup (map_keys m) → NoDup (map_keys (fold_left add_revocable l m)).
Proof.
  revert m. induction l as [|[k x] l IH]; intros m Hm; [done|]. cbn [fold_left]. apply IH. unfold add_revocable.
  destruct (map_get _ m) as [[r v]|]; by apply map_set_NoDup.
Qed.

Lemma add_reserved_NoDup l m : NoDup (map_keys m) → NoDup (map_keys (fold_left add_reserved l m)).
Proof. revert m. induction l as [|[k x] l IH]; intros m Hm; [done|]. cbn [fold_left]. apply IH. by apply map_set_NoDup. Qed.

Lemma map_get_perm {V} (l l' : list (jstring * V)) q : NoDup l.*1 → l ≡ₚ l' → map_get q l = map_get q l'.
Proof.
  intros Hn Hp. assert (NoDup l'.*1) as Hn' by by rewrite <-Hp.
  destruct (map_get q l) as [x|] eqn:E.
  - apply map_get_elem in E; [|done]. rewrite Hp in E. symmetry. by apply map_get_elem.
  - symmetry. apply map_get_None. apply map_get_None in E. unfold map_keys in *. by rewrite <-Hp.
Qed.
End pool_queries.

(** C31: The table of a memory pool has one row for every query that holds memory of the pool,
    reserved or revocable, and the row shows the bytes of both kinds, 0 for a kind the query
    does not hold; no query is listed twice. *)
Theorem pool_queries_listed p :
  NoDup (map_keys (queryMemoryReservations p)) → NoDup (map_keys (queryMemoryRevocableReservations p)) →
  let rows := obj_order (pool_queries p) in
  NoDup (map_keys rows) ∧
  ∀ q, map_get q rows =
    match map_get q (queryMemoryReservations p), map_get q (queryMemoryRevocableReservations p) with
    | None, None => None
    | reserved, revocable => Some (default zero reserved, default zero revocable)
    end.
Proof.
  intros Hr Hv. cbv zeta.
  assert (NoDup (map_keys (pool_queries p))) as Hn
    by (apply add_revocable_NoDup, add_reserved_NoDup, NoDup_nil_2).
  split; [unfold map_keys; by rewrite obj_order_perm|]. intros q.
  rewrite <-(map_get_perm (pool_queries p)); [|done|by rewrite obj_order_perm].
  assert (∀ l : list (jstring * number), NoDup (map_keys l) →
    NoDup (obj_order l).*1 ∧ map_get q (obj_order l) = map_get q l) as Ho.
  { intros l Hl. split; [unfold map_keys in Hl; by rewrite obj_order_perm|].
    symmetry. apply map_get_perm; [done|by rewrite obj_order_perm]. }
  destruct (Ho _ Hr) as [Hr1 Hr2], (Ho _ Hv) as [Hv1 Hv2].
  unfold pool_queries. rewrite add_revocable_get, add_reserved_get, Hr2, Hv2 by done.
  by destruct (map_get q (queryMemoryReservations p)), (map_get q (queryMemoryRevocableReservations p)).
Qed.

(** In the bar of a memory pool a kind of memory that is in use takes at least 15 percent
    of the width and an unused kind takes none, whatever the size of the pool. *)
Theorem share_visible x size :
  (neqb x zero = true → share x size = zero) ∧
  (neqb x zero = false → is_nan (ndiv (nmul x (of_Z 100)) size) = false → ngeb (share x size) (of_Z 15) = true).
Proof.
  unfold share. split; intros E; rewrite E; [done|]. intros Hn.
  generalize (ndiv (nmul x (of_Z 100)) size) Hn. clear. intros y Hy.
  apply nmax_ge; [by apply nround_not_nan|done].
Qed.

(** ** Witnesses *)

Definition sample_pool : pool := {|
  maxBytes := of_Z 1000; reservedBytes := of_Z 900; reservedRevocableBytes := of_Z 100;
  queryMemoryReservations := [(js "q1", of_Z 600); (js "q2", of_Z 300)];
  queryMemoryRevocableReservations := [(js "q2", of_Z 40); (js "q3", of_Z 60)] |}.
Definition sample_server : server_info := {|
  s_nodeId := js "worker-1"; s_uptime := js "2.00h"; externalAddress := js "10.0.0.1"; internalAddress := js "10.0.0.1";
  processors := of_Z 16; s_processCpuLoad := of_decimal 5 1; s_systemCpuLoad := of_decimal 5 1; heapUsed := of_Z 512;
  heapAvailable := of_Z 1024; s_nonHeapUsed := of_Z 100; s_pool := Some sample_pool |}.
Definition ws_first : page ws_state := answer (on_response sample_server) mounted.

Lemma ws_first_reachable : reachable ws_first.
Proof. apply rtc_once, step_response. apply Nat.lt_0_1. Qed.

Lemma status_series_witness :
  ws_serverInfo (comp ws_first) = Some sample_server ∧ nonHeapUsed (comp ws_first) = [of_Z 100].
Proof.
  destruct (status_series [sample_server] ws_first) as (Hi & _ & _ & _ & Hn); [|by split].
  apply (run_response []); [constructor|apply Nat.lt_0_1].
Defined.

Lemma status_polls_forever_witness : inflight ws_first + length (live ws_first) = 1.
Proof. exact (status_polls_forever ws_first ws_first_reachable). Defined.

Lemma pool_queries_listed_witness :
  map_get (js "q3") (obj_order (pool_queries sample_pool)) = Some (zero, of_Z 60).
Proof.
  destruct (pool_queries_listed sample_pool) as [_ H]; [by apply (bool_decide_unpack _)..|].
  rewrite H. reflexivity.
Defined.

Lemma share_visible_witness : ngeb (share (of_Z 1) (of_Z 1000)) (of_Z 15) = true.
Proof. apply share_visible; reflexivity. Defined.

(** A pool that is in use up to the last byte: the three widths are 90, 15 and -5 percent. *)
Example pool_bar_overflows :
  percentageReservedNonRevocable sample_pool = of_Z 90 ∧ percentageRevocable sample_pool = of_Z 15 ∧
  percentageFree sample_pool = of_Z (-5).
Proof. vm_compute. done. Qed.
