(* ===== verification/WorkerThreadList.v ===== *)
(** * The threads of a worker (components/WorkerThreadList.jsx)

    A snapshot of the threads of a worker, grouped by the prefix of their names. *)

From S2P Require Import Prelude JsString JsNumber JsNumberFacts JsCollections JsRegex Vdom.
From stdpp Require Import relations.

Record stack_line := { className : jstring; method : jstring; file : option jstring; line : number }.

(** An element of the response of [/ui/api/worker/{nodeId}/thread]. *)
Record thread := {
  th_id : number;
  th_name : jstring;
  th_state : jstring;
  lockOwnerId : option jstring;
  stackTrace : list stack_line;
}.

Definition ALL_THREADS : jstring := js "All Threads".
Definition QUERY_THREADS : jstring := js "Running Queries".
Definition ALL_THREAD_STATE : jstring := js "ALL".
Definition THREAD_STATES : list jstring :=
  [ALL_THREAD_STATE; js "RUNNABLE"; js "BLOCKED"; js "WAITING"; js "TIMED_WAITING"; js "NEW"; js "TERMINATED"].

(** [.] matches every character but the line terminators. *)
Definition is_dot (c : N) : bool := negb (bool_decide (c ∈ [10; 13; 8232; 8233])%N).

(** [/([0-9])*_([0-9])*_([0-9])*_.*?\.([0-9])*\.([0-9])*-([0-9])*-([0-9])*/] *)
Definition QUERY_THREAD_REGEX : regex :=
  let digits n := RStar true (RGroup n (RChar is_digit)) in
  let char c := RChar (N.eqb c) in
  RSeq (digits 1) (RSeq (char UNDERSCORE) (RSeq (digits 2) (RSeq (char UNDERSCORE)
    (RSeq (digits 3) (RSeq (char UNDERSCORE) (RSeq (RStar false (RChar is_dot)) (RSeq (char DOT)
    (RSeq (digits 4) (RSeq (char DOT) (RSeq (digits 5) (RSeq (char DASH) (RSeq (digits 6)
    (RSeq (char DASH) (digits 7)))))))))))))).

(** [/(.*?)-[0-9]+/] *)
Definition THREAD_GROUP_REGEXP : regex :=
  RSeq (RGroup 1 (RStar false (RChar is_dot))) (RSeq (RChar (N.eqb DASH)) (RPlus (RChar is_digit))).

(** ** Grouping *)

(** [thread.name.match(QUERY_THREAD_REGEX)] *)
Definition is_query_thread (t : thread) : bool :=
  match exec QUERY_THREAD_REGEX (th_name t) with Some _ => true | None => false end.

Definition threadGroup (t : thread) : jstring :=
  match exec THREAD_GROUP_REGEXP (th_name t) with
  | Some caps => default (js "undefined") (group 1 caps)
  | None => th_name t
  end.

(** The object of the groups: the name of a group and its array, in the order of creation. *)
Definition groups := list (jstring * list thread).

(** [if (!result[g]) { result[g] = []; } result[g].push(thread)]: an inherited property is
    truthy and has no [push]. *)
Definition push_thread (g : jstring) (t : thread) (result : groups) : res groups :=
  if bool_decide (g ∈ prototype_keys) then Throw TypeError
  else Ok (map_set g (default [] (map_get g result) ++ [t]) result).

(** The body of the loop. *)
Definition process_thread (t : thread) (result : groups) : res groups :=
  result ← (if is_query_thread t then push_thread QUERY_THREADS t result else Ok result);
  push_thread (threadGroup t) t result.

(** The loop.  [result[ALL_THREADS]] is the array [threads] itself, so that the length the
    loop tests is the one of that entry.  [None]: the loop runs on. *)
Fixpoint process_loop (fuel : nat) (i : nat) (result : groups) : option (res groups) :=
  match fuel with
  | O => None
  | S fuel' =>
    match default [] (map_get ALL_THREADS result) !! i with
    | None => Some (Ok result)
    | Some t =>
      match process_thread t result with
      | Ok result' => process_loop fuel' (S i) result'
      | Throw e => Some (Throw e)
      end
    end
  end.

Definition processThreads (fuel : nat) (threads : list thread) : option (res groups) :=
  process_loop fuel 0 [(ALL_THREADS, threads)].

(** ** The component *)

Record wt_state := {
  wt_initialized : bool;
  wt_threads : option groups;
  snapshotTime : option Z;
  selectedGroup : jstring;
  selectedThreadState : jstring;
}.

Definition wt_constructor : wt_state := {|
  wt_initialized := false; wt_threads := None; snapshotTime := None;
  selectedGroup := ALL_THREADS; selectedThreadState := ALL_THREAD_STATE |}.

Inductive wt_event := GroupClick (g : jstring) | ThreadStateClick (state : jstring) | NewSnapshotClick.

Definition handleGroupClick (g : jstring) (s : wt_state) : wt_state := {|
  wt_initialized := wt_initialized s; wt_threads := wt_threads s; snapshotTime := snapshotTime s;
  selectedGroup := g; selectedThreadState := selectedThreadState s |}.

Definition handleThreadStateClick (state : jstring) (s : wt_state) : wt_state := {|
  wt_initialized := wt_initialized s; wt_threads := wt_threads s; snapshotTime := snapshotTime s;
  selectedGroup := selectedGroup s; selectedThreadState := state |}.

(** The state change; the request of [captureSnapshot] follows. *)
Definition handleNewSnapshotClick (s : wt_state) : wt_state := {|
  wt_initialized := false; wt_threads := wt_threads s; snapshotTime := snapshotTime s;
  selectedGroup := selectedGroup s; selectedThreadState := selectedThreadState s |}.

(** [setState] of the success callback of [captureSnapshot], and the failure callback. *)
Definition wt_captured (now : Z) (result : groups) (s : wt_state) : wt_state := {|
  wt_initialized := true; wt_threads := Some result; snapshotTime := Some now;
  selectedGroup := selectedGroup s; selectedThreadState := selectedThreadState s |}.

Definition wt_failed (s : wt_state) : wt_state := {|
  wt_initialized := true; wt_threads := wt_threads s; snapshotTime := snapshotTime s;
  selectedGroup := selectedGroup s; selectedThreadState := selectedThreadState s |}.

(** [this.state.threads[group].filter(...)]: the member may be missing or inherited, and
    neither has a [filter]. *)
Definition filterThreads (s : wt_state) (g state : jstring) : res (list thread) :=
  threads ← deref (wt_threads s);
  members ← deref (map_get g threads);
  Ok (List.filter (λ t, jeqb (th_state t) state || jeqb state ALL_THREAD_STATE) members).

(** ** The view *)

Abbreviation threads_view := (vnode Empty_set wt_event).

Definition renderGroupListItem (s : wt_state) (g : jstring) : res (threads_view) :=
  found ← filterThreads s g (selectedThreadState s);
  Ok (el "li" [AX "key" (g)] [
      el "a" [A "href" "#"; AX "className" (if jeqb (selectedGroup s) g then js "selected" else []); AH "onClick" (GroupClick g)] [
        VText g;
        T " (";
        VNum (of_nat (length found));
        T ")"]]).

Definition renderThreadStateListItem (s : wt_state) (threadState : jstring) : res (threads_view) :=
  found ← filterThreads s (selectedGroup s) threadState;
  Ok (el "li" [AX "key" (threadState)] [
      el "a" [A "href" "#"; AX "className" (if jeqb (selectedThreadState s) threadState then js "selected" else []); AH "onClick" (ThreadStateClick threadState)] [
        VText threadState;
        T " (";
        VNum (of_nat (length found));
        T ")"]]).

Definition renderStackLine (threadId : number) (index : nat) (stackLine : stack_line) : threads_view :=
  el "div" [AN "key" (nadd threadId (of_nat index))] [
      VText ([160%N; 160%N] ++ js "at ");
      VText (className stackLine);
      T ".";
      VText (method stackLine);
      T "(";
      el "span" [A "className" "font-light"] [VOpt (file stackLine); T ":"; VNum (line stackLine)];
      T ")"].

Definition renderThread (threadInfo : thread) : threads_view :=
  el "div" [AN "key" (th_id threadInfo)] [
      el "span" [A "className" "font-white"] [
        VText (th_name threadInfo);
        T " ";
        VText (th_state threadInfo);
        T " #";
        VNum (th_id threadInfo);
        T " ";
        VOpt (lockOwnerId threadInfo)];
      el "a" [A "className" "copy-button"; AX "data-clipboard-target" (js "#stack-trace-" ++ toString (th_id threadInfo)); A "data-toggle" "tooltip"; A "data-placement" "right"; A "title" "Copy to clipboard"] [
        el "span" [A "className" "glyphicon glyphicon-copy"; A "alt" "Copy to clipboard"] []];
      el "br" [] [];
      el "span" [A "className" "stack-traces"; AX "id" (js "stack-trace-" ++ toString (th_id threadInfo))] [
        VList (imap (renderStackLine (th_id threadInfo)) (stackTrace threadInfo))];
      el "div" [] [VText ([160%N])]].

Definition capture_button : threads_view :=
  el "div" [A "className" "row error-message"] [
      el "div" [A "className" "col-xs-12"] [
        el "button" [A "className" "btn btn-info live-button"; AH "onClick" NewSnapshotClick] [
          T "Capture Snapshot"]]].

Definition snapshot_error : threads_view :=
  el "div" [A "className" "row error-message"] [
      el "div" [A "className" "col-xs-12"] [el "h4" [] [T "Thread snapshot could not be loaded"]]].

Definition threads_toolbar (snapshot : jstring) (s : wt_state) (groupItems stateItems : list threads_view) : threads_view :=
  el "div" [A "className" "col-xs-9"] [
      el "table" [A "className" "header-inline-links"] [
        el "tbody" [] [
          el "tr" [] [
            el "td" [] [el "small" [] [T "Snapshot at "; VText snapshot]; VText ([160%N; 160%N])];
            el "td" [] [
              el "button" [A "className" "btn btn-info live-button"; AH "onClick" NewSnapshotClick] [
                T "New Snapshot"];
              VText ([160%N; 160%N] ++ js " " ++ [160%N; 160%N])];
            el "td" [] [
              el "div" [A "className" "input-group-btn text-right"] [
                el "button" [A "type" "button"; A "className" "btn btn-default dropdown-toggle pull-right text-right"; A "data-toggle" "dropdown"; A "aria-haspopup" "true"; A "aria-expanded" "false"] [
                  el "strong" [] [T "Group:"];
                  T " ";
                  VText (selectedGroup s);
                  T " ";
                  el "span" [A "className" "caret"] []];
                el "ul" [A "className" "dropdown-menu"] [VList groupItems]]];
            el "td" [] [
              el "div" [A "className" "input-group-btn text-right"] [
                el "button" [A "type" "button"; A "className" "btn btn-default dropdown-toggle pull-right text-right"; A "data-toggle" "dropdown"; A "aria-haspopup" "true"; A "aria-expanded" "false"] [
                  el "strong" [] [T "State:"];
                  T " ";
                  VText (selectedThreadState s);
                  T " ";
                  el "span" [A "className" "caret"] []];
                el "ul" [A "className" "dropdown-menu"] [VList stateItems]]]]]]].

Definition no_threads_in_group (s : wt_state) : threads_view :=
  el "div" [A "className" "row error-message"] [
      el "div" [A "className" "col-xs-12"] [
        el "h4" [] [T "No threads in group '"; VText (selectedGroup s); T "'"]]].

Definition no_threads_with_state (s : wt_state) : threads_view :=
  el "div" [A "className" "row error-message"] [
      el "div" [A "className" "col-xs-12"] [
        el "h4" [] [T "No threads with state "; VText (selectedThreadState s)]]].

Definition no_threads_in_group_with_state (s : wt_state) : threads_view :=
  el "div" [A "className" "row error-message"] [
      el "div" [A "className" "col-xs-12"] [
        el "h4" [] [
          T "No threads in group '";
          VText (selectedGroup s);
          T "' with state ";
          VText (selectedThreadState s)]]].

Definition thread_dump (filteredThreads : list thread) : threads_view :=
  el "pre" [] [VList (map renderThread filteredThreads)].

Definition threads_display (displayedThreads : threads_view) : threads_view :=
  el "div" [A "id" "stack-traces"] [displayedThreads].

Definition threads_page (toolbar display : threads_view) : threads_view :=
  el "div" [] [
      el "div" [A "className" "row"] [
        el "div" [A "className" "col-xs-3"] [
          el "h3" [] [
            T "Thread Snapshot";
            el "a" [A "className" "btn copy-button"; A "data-clipboard-target" "#stack-traces"; A "data-toggle" "tooltip"; A "data-placement" "right"; A "title" "Copy to clipboard"] [
              el "span" [A "className" "glyphicon glyphicon-copy"; A "alt" "Copy to clipboard"] []];
            VText ([160%N])]];
        toolbar];
      el "div" [A "className" "row"] [
        el "div" [A "className" "col-xs-12"] [el "hr" [A "className" "h3-hr"] []; display]]].

(** [Date.prototype.toTimeString] depends on the time zone. *)
Class TimeString := toTimeString : Z → jstring.

Definition threads_render `{TimeString} (s : wt_state) : res threads_view :=
  match wt_threads s with
  | None => Ok (threads_page VNothing (if wt_initialized s then snapshot_error else capture_button))
  | Some threads =>
    time ← deref (snapshotTime s);
    groupItems ← res_map (renderGroupListItem s) (map_keys (obj_order threads));
    stateItems ← res_map (renderThreadStateListItem s) THREAD_STATES;
    filteredThreads ← filterThreads s (selectedGroup s) (selectedThreadState s);
    Ok (threads_page
      (threads_toolbar (toTimeString time) s groupItems stateItems)
      (threads_display (
        if (length filteredThreads =? 0) && jeqb (selectedThreadState s) ALL_THREAD_STATE then no_threads_in_group s
        else if (length filteredThreads =? 0) && jeqb (selectedGroup s) ALL_THREADS then no_threads_with_state s
        else if length filteredThreads =? 0 then no_threads_in_group_with_state s
        else thread_dump filteredThreads)))
  end.

(** The component over time: requests may overlap, every response is rendered, and an
    exception of [render] removes the component.  The clicks are those on the items of the two
    menus.  An exception of [processThreads] leaves the
    state as it was. *)
Record wt_component := { wt : wt_state; requests : nat; removed : bool }.

Definition wt_update `{TimeString} (s : wt_state) (requests : nat) : wt_component :=
  {| wt := s; requests := requests; removed := negb (is_ok (threads_render s)) |}.

Inductive wt_step `{TimeString} : wt_component → wt_component → Prop :=
| wt_group c g threads :
    removed c = false → wt_threads (wt c) = Some threads → g ∈ map_keys threads →
    wt_step c (wt_update (handleGroupClick g (wt c)) (requests c))
| wt_filter c state threads :
    removed c = false → wt_threads (wt c) = Some threads → state ∈ THREAD_STATES →
    wt_step c (wt_update (handleThreadStateClick state (wt c)) (requests c))
| wt_snapshot c : removed c = false → wt_step c (wt_update (handleNewSnapshotClick (wt c)) (S (requests c)))
| wt_response c now threads fuel result n :
    removed c = false → requests c = S n → processThreads fuel threads = Some (Ok result) →
    wt_step c (wt_update (wt_captured now result (wt c)) n)
| wt_response_throws c threads fuel e n :
    removed c = false → requests c = S n → processThreads fuel threads = Some (Throw e) →
    wt_step c {| wt := wt c; requests := n; removed := false |}
| wt_failure c n : removed c = false → requests c = S n → wt_step c (wt_update (wt_failed (wt c)) n).

(** ** The group of a thread *)

(** The part of a name before the first dash that a digit follows. *)
Fixpoint group_prefix (s : jstring) : option jstring :=
  match s with
  | [] => None
  | c :: s' =>
    if (c =? DASH)%N && match s' with d :: _ => is_digit d | [] => false end
    then Some [] else (c ::.) <$> group_prefix s'
  end.

Abbreviation suffix_pattern := (RSeq (RChar (N.eqb DASH)) (RPlus (RChar is_digit))).

Lemma lazy_star_cons p x s c :
  rmatch (RStar false (RChar p)) (x :: s, c) =
  (x :: s, c) :: if p x then rmatch (RStar false (RChar p)) (s, c) else [].
Proof.
  unfold rmatch; fold rmatch. cbn [fst snd length star_iter]. f_equal. destruct (p x); [|done].
  rewrite list_bind_single. cbn [fst]. assert ((length s <? S (length s)) = true) as -> by (apply Nat.ltb_lt; lia).
  done.
Qed.

Lemma suffix_match s c :
  match s with
  | x :: d :: _ => if (x =? DASH)%N && is_digit d then ∃ st, head (rmatch suffix_pattern (s, c)) = Some st ∧ st.2 = c
                   else rmatch suffix_pattern (s, c) = []
  | _ => rmatch suffix_pattern (s, c) = []
  end.
Proof.
  assert (∀ st, st ∈ rmatch suffix_pattern (s, c) ↔
    ∃ a, s = DASH :: a ++ st.1 ∧ a ≠ [] ∧ Forall (λ x, is_digit x = true) a ∧ st.2 = c) as Hm.
  { intros st. rewrite elem_of_rmatch_seq. split.
    - intros ([s1 c1] & H1 & H2). apply elem_of_rmatch_char in H1 as (x & Hs & Hx & Hc).
      apply elem_of_plus_char in H2 as (a & Hs1 & Hne & Ha & Hc1). cbn [fst snd] in *. apply N.eqb_eq in Hx. subst.
      exists a. naive_solver.
    - intros (a & -> & Hne & Ha & <-). exists (a ++ st.1, st.2).
      rewrite elem_of_rmatch_char, elem_of_plus_char. cbn [fst snd]. split; [by exists DASH|by exists a]. }
  assert (∀ st, (∀ a, s = DASH :: a ++ st.1 → a = [] ∨ ¬ Forall (λ x, is_digit x = true) a) →
                st ∉ rmatch suffix_pattern (s, c)) as Hno.
  { intros st H Hin. apply Hm in Hin as (a & Hs & Hne & Ha & _). destruct (H a Hs); done. }
  assert ((∀ st a, s = DASH :: a ++ st → a = [] ∨ ¬ Forall (λ x, is_digit x = true) a) →
          rmatch suffix_pattern (s, c) = []) as Hnil.
  { intros H. destruct (rmatch suffix_pattern (s, c)) as [|st l]; [done|].
    destruct (Hno st); [naive_solver|]. by left. }
  destruct s as [|x [|d s]]; [apply Hnil; done| |].
  - apply Hnil. intros st a [= -> E]. symmetry in E. apply app_nil in E as [-> _]. by left.
  - destruct ((x =? DASH)%N && is_digit d) eqn:E.
    + apply andb_true_iff in E as [->%N.eqb_eq Hd].
      destruct (rmatch suffix_pattern (DASH :: d :: s, c)) as [|st l] eqn:El.
      * assert ((s, c) ∈ @nil mstate) as Hin; [|by apply elem_of_nil in Hin].
        apply Hm. exists [d]. split_and!; [done|done|by constructor|done].
      * exists st. split; [done|]. assert (st ∈ st :: l) as Hin by by left. apply Hm in Hin. naive_solver.
    + apply Hnil. intros st a [= -> E']. destruct a as [|y a]; [by left|]. right. intros Ha.
      apply Forall_cons in Ha as [Hy _]. injection E' as -> _. rewrite Hy, N.eqb_refl in E. done.
Qed.

Lemma head_app_l {A} (l k : list A) x : head l = Some x → head (l ++ k) = Some x.
Proof. by destruct l. Qed.

Lemma head_app_r {A} (l k : list A) x : l = [] → head k = Some x → head (l ++ k) = Some x.
Proof. by intros ->. Qed.

(** The outcomes of the lazy group, each with the text it captured. *)
Lemma group_outcomes full s c :
  Forall (λ x, is_dot x = true) s →
  ∀ pre, full = pre ++ s →
  match group_prefix s with
  | Some g => ∃ st, head (st' ← rmatch (RStar false (RChar is_dot)) (s, c);
                          [(st'.1, (1, take (length full - length st'.1) full) :: st'.2)] ≫= rmatch suffix_pattern)
                    = Some st ∧ st.2 = (1, pre ++ g) :: c
  | None => (st' ← rmatch (RStar false (RChar is_dot)) (s, c);
             [(st'.1, (1, take (length full - length st'.1) full) :: st'.2)] ≫= rmatch suffix_pattern) = []
  end.
Proof.
  intros Hs. induction Hs as [|x s Hx Hs IH]; intros pre ->.
  - change (rmatch (RStar false (RChar is_dot)) ([], c)) with [(@nil N, c)]. cbn [group_prefix].
    rewrite !list_bind_single. apply (suffix_match []).
  - rewrite lazy_star_cons, Hx, bind_cons. cbn [fst snd]. rewrite list_bind_single.
    rewrite length_app, Nat.add_sub, take_app_length.
    specialize (IH (pre ++ [x]) ltac:(by rewrite <-app_assoc)).
    rewrite length_app in IH.
    pose proof (suffix_match (x :: s) ((1, pre) :: c)) as Hm. cbn [group_prefix].
    destruct s as [|d s].
    + rewrite andb_false_r. cbn [group_prefix fmap option_fmap option_map] in *.
      apply app_nil. split; [exact Hm|exact IH].
    + destruct ((x =? DASH)%N && is_digit d).
      * destruct Hm as (st & Hst & Hc). exists st. split; [by apply head_app_l|by rewrite app_nil_r].
      * destruct (group_prefix (d :: s)) as [g|]; cbn [fmap option_fmap option_map].
        -- destruct IH as (st & Hst & Hc). exists st. split; [by apply head_app_r|]. by rewrite Hc, <-app_assoc.
        -- apply app_nil. split; [exact Hm|exact IH].
Qed.

Lemma list_bind_bind {A B C} (l : list A) (f : A → list B) (g : B → list C) :
  (l ≫= f) ≫= g = l ≫= (λ x, f x ≫= g).
Proof. induction l as [|x l IH]; [done|]. rewrite !bind_cons, bind_app. by rewrite IH. Qed.

Lemma exec_head r s st : head (rmatch r (s, [])) = Some st → exec r s = Some st.2.
Proof. intros H. destruct s; cbn [exec]; by rewrite H. Qed.

Lemma exec_miss r s : rmatch r (s, []) = [] → exec r s = match s with [] => None | _ :: s' => exec r s' end.
Proof. intros H. destruct s; cbn [exec]; by rewrite H. Qed.

Lemma group_prefix_tail c s : group_prefix (c :: s) = None → group_prefix s = None.
Proof. cbn [group_prefix]. destruct (_ && _); [done|]. by destruct (group_prefix s). Qed.

(** The pattern finds the prefix, at the first position. *)
Lemma thread_group_exec s :
  Forall (λ x, is_dot x = true) s →
  match group_prefix s with
  | Some g => ∃ caps, exec THREAD_GROUP_REGEXP s = Some caps ∧ group 1 caps = Some g
  | None => exec THREAD_GROUP_REGEXP s = None
  end.
Proof.
  assert (∀ full, rmatch THREAD_GROUP_REGEXP (full, []) =
    (st' ← rmatch (RStar false (RChar is_dot)) (full, []);
     [(st'.1, (1, take (length full - length st'.1) full) :: st'.2)] ≫= rmatch suffix_pattern)) as Hr.
  { intros full. unfold THREAD_GROUP_REGEXP. unfold rmatch at 1; fold rmatch. apply list_bind_bind. }
  intros Hs. destruct (group_prefix s) as [g|] eqn:Eg.
  - pose proof (group_outcomes s s [] Hs [] eq_refl) as H. rewrite Eg in H. destruct H as (st & Hst & Hc).
    exists st.2. split; [apply exec_head; rewrite Hr; exact Hst|]. by rewrite Hc.
  - induction Hs as [|x s Hx Hs IH].
    + pose proof (group_outcomes [] [] [] ltac:(constructor) [] eq_refl) as H. cbn [group_prefix] in H.
      apply (exec_miss _ []). rewrite Hr. exact H.
    + pose proof (group_outcomes (x :: s) (x :: s) [] ltac:(by constructor) [] eq_refl) as H. rewrite Eg in H.
      rewrite (exec_miss _ (x :: s)) by (rewrite Hr; exact H). apply IH. by eapply group_prefix_tail.
Qed.

(** A thread belongs to the group named by the part of its name before the first dash that a
    digit follows; a thread without such a dash is a group of its own name. *)
Theorem thread_group_prefix t :
  Forall (λ x, is_dot x = true) (th_name t) →
  threadGroup t = default (th_name t) (group_prefix (th_name t)).
Proof.
  intros Hs. unfold threadGroup. pose proof (thread_group_exec (th_name t) Hs) as H.
  destruct (group_prefix (th_name t)); [destruct H as (caps & -> & Hg); by rewrite Hg|by rewrite H].
Qed.

(** ** Grouping *)

(** What a thread contributes to a group other than that of all threads. *)
Definition contributes (g : jstring) (t : thread) : list thread :=
  (if is_query_thread t && jeqb g QUERY_THREADS then [t] else []) ++ (if jeqb g (threadGroup t) then [t] else []).
Definition members (g : jstring) (threads : list thread) : list thread := concat (map (contributes g) threads).

(** The group exists when it has members. *)
Definition group_of (g : jstring) (threads : list thread) : option (list thread) :=
  match members g threads with [] => None | l => Some l end.

(** A thread whose group is an ordinary one. *)
Definition ordinary (t : thread) : bool :=
  negb (bool_decide (threadGroup t ∈ prototype_keys)) && negb (jeqb (threadGroup t) ALL_THREADS).

Lemma members_snoc g l t : members g (l ++ [t]) = members g l ++ contributes g t.
Proof. unfold members. rewrite map_app, concat_app. cbn [map concat]. by rewrite app_nil_r. Qed.

Lemma push_thread_ok g t r :
  g ∉ prototype_keys → push_thread g t r = Ok (map_set g (default [] (map_get g r) ++ [t]) r).
Proof. intros Hg. unfold push_thread. by rewrite bool_decide_eq_false_2. Qed.

(** One thread is added to its groups. *)
Lemma process_thread_ok t r :
  threadGroup t ∉ prototype_keys →
  ∃ r', process_thread t r = Ok r' ∧
  ∀ g, default [] (map_get g r') = default [] (map_get g r) ++ contributes g t ∧
       (map_get g r' = None ↔ map_get g r = None ∧ contributes g t = []).
Proof.
  intros Hp. unfold process_thread.
  set (r1 := if is_query_thread t then map_set QUERY_THREADS (default [] (map_get QUERY_THREADS r) ++ [t]) r else r).
  assert ((if is_query_thread t then push_thread QUERY_THREADS t r else Ok r) = Ok r1) as ->
    by (unfold r1; destruct (is_query_thread t); [apply push_thread_ok; by apply (bool_decide_unpack _)|done]).
  exists (map_set (threadGroup t) (default [] (map_get (threadGroup t) r1) ++ [t]) r1).
  split; [by apply push_thread_ok|]. intros g.
  assert (default [] (map_get g r1) = default [] (map_get g r) ++
            (if is_query_thread t && jeqb g QUERY_THREADS then [t] else []) ∧
          (map_get g r1 = None ↔ map_get g r = None ∧ (is_query_thread t && jeqb g QUERY_THREADS) = false)) as [H1 H2].
  { unfold r1, jeqb. destruct (is_query_thread t); cbn [andb].
    - case_bool_decide as E; [subst; rewrite map_get_set_eq; naive_solver|].
      rewrite map_get_set_ne by done. rewrite app_nil_r. naive_solver.
    - rewrite app_nil_r. naive_solver. }
  unfold contributes, jeqb at 2 4. case_bool_decide as Eg.
  - subst. rewrite map_get_set_eq. cbn [default from_option id]. rewrite H1, <-app_assoc. split; [done|].
    split; [done|]. intros [_ H]. by apply app_nil in H as [_ ?].
  - rewrite map_get_set_ne by done. rewrite H1, app_nil_r. split; [done|]. rewrite H2.
    destruct (is_query_thread t && jeqb g QUERY_THREADS); naive_solver.
Qed.

Lemma contributes_all t : contributes ALL_THREADS t = if jeqb ALL_THREADS (threadGroup t) then [t] else [].
Proof. unfold contributes. change (jeqb ALL_THREADS QUERY_THREADS) with false. by rewrite andb_false_r. Qed.

Lemma ordinary_all t : ordinary t = true → (threadGroup t ∉ prototype_keys) ∧ contributes ALL_THREADS t = [].
Proof.
  unfold ordinary. rewrite contributes_all. unfold jeqb. rewrite andb_true_iff, !negb_true_iff, !bool_decide_eq_false.
  intros [Hp Ha]. split; [done|]. by rewrite bool_decide_eq_false_2 by done.
Qed.

(** After [done_] the groups hold the threads processed so far. *)
Definition grouped (threads done_ : list thread) (r : groups) : Prop :=
  map_get ALL_THREADS r = Some threads ∧
  ∀ g, g ≠ ALL_THREADS → map_get g r = group_of g done_.

Lemma grouped_step threads done_ t r :
  grouped threads done_ r → ordinary t = true →
  ∃ r', process_thread t r = Ok r' ∧ grouped threads (done_ ++ [t]) r'.
Proof.
  intros [Hall Hg] [Hp Hc]%ordinary_all. destruct (process_thread_ok t r Hp) as (r' & Hr' & H).
  exists r'. split; [done|]. split.
  - destruct (H ALL_THREADS) as [Hd Hn]. rewrite Hall, Hc, app_nil_r in Hd.
    destruct (map_get ALL_THREADS r') eqn:E; [cbn in Hd; by f_equal|].
    destruct Hn as [Hn _]. destruct (Hn eq_refl) as [Hn' _]. congruence.
  - intros g Hne. destruct (H g) as [Hd Hn]. rewrite (Hg g Hne) in Hd, Hn. unfold group_of in *.
    rewrite members_snoc. destruct (members g done_) as [|x l]; cbn [app default from_option id] in *.
    + destruct (map_get g r') as [l|] eqn:E; cbn in Hd; [|by destruct Hn as [Hn _]; destruct (Hn eq_refl) as [_ ->]].
      subst. destruct (contributes g t); [|done]. by destruct Hn as [_ Hn]; discriminate Hn.
    + destruct (map_get g r') as [l'|] eqn:E; cbn in Hd; [by f_equal|].
      destruct Hn as [Hn _]. by destruct (Hn eq_refl).
Qed.

Lemma grouped_loop threads fuel done_ rest r :
  threads = done_ ++ rest → Forall (λ t, ordinary t = true) rest → length rest < fuel →
  grouped threads done_ r →
  ∃ r', process_loop fuel (length done_) r = Some (Ok r') ∧ grouped threads threads r'.
Proof.
  revert done_ rest r. induction fuel as [|fuel IH]; intros done_ rest r Ht Hrest Hf Hr; [lia|].
  cbn [process_loop]. destruct Hr as [Hall Hg]. rewrite Hall. cbn [default from_option id]. subst threads.
  rewrite lookup_app_r, Nat.sub_diag by done. destruct rest as [|t rest]; cbn [lookup list_lookup].
  - exists r. rewrite app_nil_r in *. done.
  - apply Forall_cons in Hrest as [Ht Hrest].
    destruct (grouped_step (done_ ++ t :: rest) done_ t r) as (r' & -> & Hr'); [by split|done|].
    destruct (IH (done_ ++ [t]) rest r') as (r2 & Hr2 & Hg2);
      [by rewrite <-app_assoc|done|simpl in Hf; lia|done|].
    exists r2. split; [|done]. rewrite <-Hr2. f_equal. rewrite length_app. simpl. lia.
Qed.

Lemma grouped_init threads : grouped threads [] [(ALL_THREADS, threads)].
Proof. split; [done|]. intros g Hne. cbn [map_get]. by rewrite decide_False. Qed.

(** C29: Grouping a snapshot ends, with the array of all threads unchanged, with the threads of
    running queries in one group, and with every thread in the group of its name, in the order
    of the snapshot; a group without threads does not exist.  It suffices that no group is
    called "All Threads" or like an inherited property of objects. *)
Theorem threads_grouped threads fuel :
  Forall (λ t, ordinary t = true) threads → length threads < fuel →
  ∃ r, processThreads fuel threads = Some (Ok r) ∧
  map_get ALL_THREADS r = Some threads ∧
  ∀ g, g ≠ ALL_THREADS → map_get g r = group_of g threads.
Proof.
  intros Ho Hf. destruct (grouped_loop threads fuel [] threads [(ALL_THREADS, threads)]) as (r & Hr & Hg);
    [done|done|done|apply grouped_init|]. exists r. by split.
Qed.

(** The loop catches up with the array it extends. *)
Lemma loop_runs_on fuel i j r a t :
  map_get ALL_THREADS r = Some a → Forall (λ t, threadGroup t ∉ prototype_keys) a →
  i ≤ j → a !! j = Some t → threadGroup t = ALL_THREADS → process_loop fuel i r = None.
Proof.
  revert i j r a t. induction fuel as [|fuel IH]; intros i j r a t Ha Hp Hij Hj Ht; [done|].
  cbn [process_loop]. rewrite Ha. cbn [default from_option id].
  assert (is_Some (a !! i)) as [u Hu] by (apply lookup_lt_is_Some; apply lookup_lt_Some in Hj; lia).
  rewrite Hu. assert (threadGroup u ∉ prototype_keys) as Hup by (rewrite Forall_lookup in Hp; by eapply Hp).
  destruct (process_thread_ok u r Hup) as (r' & -> & H). destruct (H ALL_THREADS) as [Hd Hn].
  rewrite Ha, contributes_all in Hd. destruct (map_get ALL_THREADS r') as [a'|] eqn:Ea';
    [|destruct Hn as [Hn _]; destruct (Hn eq_refl); congruence].
  cbn [default from_option id] in Hd. subst a'.
  destruct (decide (i = j)) as [<-|Hne].
  - assert (u = t) as -> by congruence.
    assert (jeqb ALL_THREADS (threadGroup t) = true) as E by (rewrite Ht; apply bool_decide_eq_true_2; done).
    rewrite E in Ea'. apply (IH (S i) (length a) r' (a ++ [t]) t); try done.
    + apply Forall_app. split; [done|]. by constructor.
    + apply lookup_lt_Some in Hu. lia.
    + by apply list_lookup_middle.
  - eapply (IH (S i) j r' _ t); [exact Ea'| |lia| |done].
    + apply Forall_app. split; [done|]. destruct (jeqb _ _); by repeat constructor.
    + by apply lookup_app_l_Some.
Qed.

(** Two kinds of thread names break the grouping.  If a thread belongs to a group called
    "All Threads", the loop never ends, since it appends the thread to the array it runs over.
    If the first thread that is not ordinary belongs to a group called like an inherited
    property of objects, such as "constructor", the grouping throws. *)
Theorem snapshot_breaks :
  (∀ threads t fuel, Forall (λ t, threadGroup t ∉ prototype_keys) threads →
     t ∈ threads → threadGroup t = ALL_THREADS → processThreads fuel threads = None) ∧
  (∀ before t after fuel, Forall (λ t, ordinary t = true) before → threadGroup t ∈ prototype_keys →
     length before < fuel → processThreads fuel (before ++ t :: after) = Some (Throw TypeError)).
Proof.
  split.
  - intros threads t fuel Hp [j Hj]%list_elem_of_lookup Ht. by apply (loop_runs_on fuel 0 j _ threads t); [..|lia|done|].
  - intros before t after fuel Hb Ht Hf. unfold processThreads. set (threads := before ++ t :: after).
    assert (∀ fuel done_ rest r, before = done_ ++ rest → Forall (λ t, ordinary t = true) rest → length rest < fuel →
      grouped threads done_ r → process_loop fuel (length done_) r = Some (Throw TypeError)) as Hloop.
    { clear Hb Hf fuel. induction fuel as [|fuel IH]; intros done_ rest r Hbd Hrest Hf Hr; [lia|].
      cbn [process_loop]. destruct Hr as [Hall Hg]. rewrite Hall. cbn [default from_option id]. unfold threads.
      rewrite Hbd, <-app_assoc, lookup_app_r, Nat.sub_diag by done.
      destruct rest as [|u rest]; cbn [app lookup list_lookup].
      - unfold process_thread, push_thread. rewrite (bool_decide_eq_true_2 (threadGroup t ∈ _)) by done.
        by destruct (is_query_thread t).
      - apply Forall_cons in Hrest as [Hu Hrest].
        destruct (grouped_step threads done_ u r) as (r' & -> & Hr'); [by split|done|].
        rewrite <-(IH (done_ ++ [u]) rest r'); [|by rewrite <-app_assoc|done|simpl in Hf; lia|done].
        f_equal. rewrite length_app. simpl. lia. }
    apply (Hloop fuel [] before); [done|done|done|apply grouped_init].
Qed.

(** ** The page *)

Lemma filterThreads_found s threads g state l :
  wt_threads s = Some threads → map_get g threads = Some l →
  filterThreads s g state = Ok (List.filter (λ t, jeqb (th_state t) state || jeqb state ALL_THREAD_STATE) l).
Proof. intros Ht Hg. unfold filterThreads. rewrite Ht. cbn. by rewrite Hg. Qed.

Lemma res_map_total {A B} (f : A → res B) l : (∀ x, x ∈ l → is_ok (f x) = true) → is_ok (res_map f l) = true.
Proof.
  induction l as [|x l IH]; intros H; [done|]. cbn [res_map].
  destruct (f x) as [y|] eqn:E; [|by specialize (H x (list_elem_of_here _ _)); rewrite E in H].
  cbn. specialize (IH (λ z Hz, H z (list_elem_of_further _ _ _ Hz))). by destruct (res_map f l).
Qed.

Section page.
Context `{TimeString}.

(** A rendered page shows the selected threads. *)
Lemma threads_render_found s threads time l :
  wt_threads s = Some threads → snapshotTime s = Some time → map_get (selectedGroup s) threads = Some l →
  is_ok (threads_render s) = true.
Proof.
  intros Ht Htime Hl. unfold threads_render. rewrite Ht, Htime. cbn [deref mbind res_bind].
  assert (is_ok (res_map (renderGroupListItem s) (map_keys (obj_order threads))) = true) as Hg.
  { apply res_map_total. intros g Hg. unfold map_keys in Hg. rewrite obj_order_perm in Hg.
    apply map_has_spec in Hg. unfold map_has in Hg. destruct (map_get g threads) as [lg|] eqn:E; [|done].
    unfold renderGroupListItem. by rewrite (filterThreads_found s threads g _ lg). }
  assert (is_ok (res_map (renderThreadStateListItem s) THREAD_STATES) = true) as Hs.
  { apply res_map_total. intros state _. unfold renderThreadStateListItem.
    by rewrite (filterThreads_found s threads _ _ l). }
  destruct (res_map (renderGroupListItem s) _); [|done]. cbn [mbind res_bind].
  destruct (res_map (renderThreadStateListItem s) _); [|done]. cbn [mbind res_bind].
  by rewrite (filterThreads_found s threads _ _ l).
Qed.

Lemma threads_render_missing s threads :
  wt_threads s = Some threads → map_get (selectedGroup s) threads = None → is_ok (threads_render s) = false.
Proof.
  intros Ht Hl. unfold threads_render. rewrite Ht.
  destruct (deref (snapshotTime s)); [|done]. cbn [mbind res_bind].
  destruct (res_map (renderGroupListItem s) _); [|done]. cbn [mbind res_bind THREAD_STATES res_map].
  unfold renderThreadStateListItem, filterThreads. rewrite Ht. cbn. by rewrite Hl.
Qed.

(** C22: A new snapshot is shown exactly when it still has the group that is selected.  If the
    threads of that group have ended, rendering throws and the thread list disappears from the
    page; the group of all threads is always there. *)
Theorem snapshot_shown_iff now threads fuel r s :
  Forall (λ t, ordinary t = true) threads → processThreads fuel threads = Some (Ok r) →
  is_ok (threads_render (wt_captured now r s)) =
    jeqb (selectedGroup s) ALL_THREADS || negb (bool_decide (members (selectedGroup s) threads = [])).
Proof.
  intros Ho Hr.
  assert (map_get ALL_THREADS r = Some threads ∧ ∀ g, g ≠ ALL_THREADS → map_get g r = group_of g threads) as [Hall Hg].
  { assert (∀ fuel fuel' i r0 r1 r2, process_loop fuel i r0 = Some r1 → process_loop fuel' i r0 = Some r2 → r1 = r2) as Hdet.
    { clear. induction fuel as [|fuel IH]; intros [|fuel'] i r0 r1 r2; cbn [process_loop]; try done.
      destruct (_ !! i); [|congruence]. destruct (process_thread _ r0); [apply IH|congruence]. }
    destruct (grouped_loop threads (S (length threads)) [] threads [(ALL_THREADS, threads)]) as (r' & Hr' & Hg);
      [done|done|lia|apply grouped_init|].
    cbn [length] in Hr'. by assert (r' = r) as -> by (apply (f_equal (λ x, match x with Ok y => y | _ => [] end) (Hdet _ _ _ _ _ _ Hr' Hr))). }
  unfold jeqb. case_bool_decide as E; cbn [orb].
  - eapply (threads_render_found _ r now threads); [done|done|]. cbn. by rewrite E.
  - specialize (Hg _ E). unfold group_of in Hg. case_bool_decide as Em; cbn [negb].
    + eapply threads_render_missing; [done|]. cbn. by rewrite Hg, Em.
    + destruct (members (selectedGroup s) threads) as [|x l]; [done|]. by eapply threads_render_found.
Qed.

(** What a state that renders looks like. *)
Definition renderable (s : wt_state) : Prop :=
  ∀ threads, wt_threads s = Some threads →
  is_Some (snapshotTime s) ∧ is_Some (map_get (selectedGroup s) threads).

Lemma threads_render_ok s : is_ok (threads_render s) = true ↔ renderable s.
Proof.
  split.
  - intros Hok threads Ht. split.
    + unfold threads_render in Hok. rewrite Ht in Hok. by destruct (snapshotTime s).
    + destruct (map_get (selectedGroup s) threads) eqn:E; [done|].
      by rewrite (threads_render_missing s threads) in Hok.
  - intros Hr. destruct (wt_threads s) as [threads|] eqn:Et; [|unfold threads_render; by rewrite Et].
    destruct (Hr threads Et) as [[time Htime] [l Hl]]. by eapply threads_render_found.
Qed.

Definition wt_start : wt_component := {| wt := wt_constructor; requests := 0; removed := false |}.

Lemma wt_update_kept s n : removed (wt_update s n) = false ↔ renderable s.
Proof. unfold wt_update. cbn [removed]. rewrite negb_false_iff. apply threads_render_ok. Qed.

Lemma wt_renderable c : rtc wt_step wt_start c → removed c = false → renderable (wt c).
Proof.
  revert c. apply (rtc_ind_r (λ c, removed c = false → renderable (wt c))); [done|].
  intros c c' _ Hs IH Hr. destruct Hs; try (by apply wt_update_kept in Hr). by apply IH.
Qed.

(** Clicks in the menus and failed requests never make the thread list disappear: from a
    reachable state, the only step that removes it is a snapshot that lacks the selected
    group. *)
Theorem only_snapshots_break c c' :
  rtc wt_step wt_start c → removed c = false → wt_step c c' → removed c' = true →
  ∃ now r, wt c' = wt_captured now r (wt c) ∧ map_get (selectedGroup (wt c)) r = None.
Proof.
  intros Hc Hkept Hs Hgone. pose proof (wt_renderable c Hc Hkept) as Hr.
  assert (∀ s n, renderable s → removed (wt_update s n) = true → False) as Hno.
  { intros s n Hren Hrem. apply wt_update_kept with (n := n) in Hren. congruence. }
  destruct Hs as [c g threads _ Ht Hg|c state threads _ Ht _|c _|c now threads fuel r n _ _ _|c threads fuel e n _ _ _|c n _ _].
  - exfalso. eapply Hno, Hgone. intros th Hth. cbn in *. split; [by eapply Hr|].
    assert (th = threads) as -> by congruence. apply map_has_spec in Hg. unfold map_has in Hg. by destruct (map_get g threads).
  - exfalso. eapply Hno, Hgone. exact Hr.
  - exfalso. eapply Hno, Hgone. exact Hr.
  - exists now, r. split; [done|]. destruct (map_get (selectedGroup (wt c)) r) as [l|] eqn:E; [|done].
    exfalso. eapply Hno, Hgone. intros th [= <-]. cbn. by rewrite E.
  - done.
  - exfalso. eapply Hno, Hgone. exact Hr.
Qed.
End page.

(** ** Witnesses *)

Definition sample_thread (name state : jstring) : thread :=
  {| th_id := of_Z 1; th_name := name; th_state := state; lockOwnerId := None; stackTrace := [] |}.
Definition sample_threads : list thread :=
  [sample_thread (js "http-worker-12") (js "RUNNABLE");
   sample_thread (js "20220511_091011_00001_abcde.1.0-0-85") (js "RUNNABLE");
   sample_thread (js "main") (js "WAITING")].

(** The thread of a running query is in the group of running queries, and in one of its own. *)
Example sample_groups :
  (λ r, match r with Ok r => map_keys r | Throw _ => [] end) <$> processThreads 4 sample_threads =
  Some [ALL_THREADS; js "http-worker"; QUERY_THREADS; js "20220511_091011_00001_abcde.1.0"; js "main"].
Proof. vm_compute. reflexivity. Qed.

Lemma sample_threads_ordinary : Forall (λ t, ordinary t = true) sample_threads.
Proof. apply (bool_decide_unpack _). vm_compute. exact I. Qed.

Lemma thread_group_prefix_witness :
  threadGroup (sample_thread (js "http-worker-12") (js "RUNNABLE")) = js "http-worker".
Proof. rewrite thread_group_prefix; [reflexivity|]. by apply (bool_decide_unpack _). Defined.

Lemma threads_grouped_witness :
  ∃ r, processThreads 4 sample_threads = Some (Ok r) ∧ map_get ALL_THREADS r = Some sample_threads.
Proof.
  destruct (threads_grouped sample_threads 4) as (r & Hr & Ha & _); [exact sample_threads_ordinary|simpl; lia|].
  exists r. split; [exact Hr|exact Ha].
Defined.

Lemma snapshot_breaks_witness :
  processThreads 1000 [sample_thread (js "main") (js "WAITING"); sample_thread (js "All Threads-1") (js "NEW")] = None ∧
  processThreads 2 [sample_thread (js "main") (js "WAITING"); sample_thread (js "constructor-1") (js "NEW")] =
    Some (Throw TypeError).
Proof.
  destruct snapshot_breaks as [Hhang Hthrow]. split.
  - apply (Hhang _ (sample_thread (js "All Threads-1") (js "NEW"))); [by apply (bool_decide_unpack _)| |reflexivity].
    right. left.
  - apply (Hthrow [sample_thread (js "main") (js "WAITING")]); by apply (bool_decide_unpack _).
Defined.

Definition sample_time : TimeString := λ _, js "10:00:00 GMT+0000".
Lemma snapshot_shown_iff_witness :
  ∃ r, processThreads 4 sample_threads = Some (Ok r) ∧
  is_ok (@threads_render sample_time (wt_captured 0 r (handleGroupClick (js "query-management") wt_constructor))) = false.
Proof.
  assert (∃ r, processThreads 4 sample_threads = Some (Ok r)) as [r Hr] by (eexists; vm_compute; reflexivity).
  exists r. split; [exact Hr|].
  rewrite (@snapshot_shown_iff sample_time 0 sample_threads 4 r); [reflexivity| |exact Hr].
  exact sample_threads_ordinary.
Defined.

(** Two snapshots; the group "main", selected after the first one, is missing in the second. *)
Definition first_groups : groups :=
  match processThreads 2 [sample_thread (js "main") (js "WAITING")] with Some (Ok r) => r | _ => [] end.
Definition second_groups : groups :=
  match processThreads 2 [sample_thread (js "http-worker-1") (js "WAITING")] with Some (Ok r) => r | _ => [] end.
Definition wt_before : wt_component :=
  {| wt := handleNewSnapshotClick (handleGroupClick (js "main") (wt_captured 0 first_groups (handleNewSnapshotClick wt_constructor)));
     requests := 1; removed := false |}.

Lemma only_snapshots_break_witness :
  ∃ now r, wt_captured 1000 second_groups (wt wt_before) = wt_captured now r (wt wt_before) ∧
  map_get (selectedGroup (wt wt_before)) r = None.
Proof.
  apply (@only_snapshots_break sample_time wt_before
    (@wt_update sample_time (wt_captured 1000 second_groups (wt wt_before)) 0)).
  - eapply rtc_l; [apply (@wt_snapshot sample_time); reflexivity|].
    eapply rtc_l; [apply (@wt_response sample_time _ 0 [sample_thread (js "main") (js "WAITING")] 2 first_groups 0);
      vm_compute; reflexivity|].
    eapply rtc_l; [apply (@wt_group sample_time _ (js "main") first_groups); [vm_compute; reflexivity..|]|].
    { apply (bool_decide_unpack _). vm_compute. exact I. }
    eapply rtc_l; [apply (@wt_snapshot sample_time); vm_compute; reflexivity|].
    match goal with |- rtc _ ?a ?b => assert (a = b) as -> by (vm_compute; reflexivity) end. apply rtc_refl.
  - reflexivity.
  - apply (@wt_response sample_time wt_before 1000 [sample_thread (js "http-worker-1") (js "WAITING")] 2 second_groups 0);
      vm_compute; reflexivity.
  - vm_compute. reflexivity.
Defined.
