(* ===== verification/QueryListView.v ===== *)
(** * The view of the list of queries (components/QueryList.jsx, the [render] methods)

    The item of a query, the toolbar with the filters, the sort orders and the limits, and
    what is shown in place of an empty list. *)

From S2P Require Import Prelude JsString JsNumber JsNumberFacts JsCollections Model QueryState Format Vdom Poller QueryList QueryListFacts.
From stdpp Require Import relations.

(** The handlers of the toolbar; the text of the search field is an argument of its handler. *)
Inductive list_handler :=
| SearchInput
| Click (e : ql_event).

(** The event a handler raises, given the text in the search field. *)
Definition handler_event (text : jstring) (h : list_handler) : ql_event :=
  match h with SearchInput => SearchChange text | Click e => e end.

Abbreviation list_view := (vnode Empty_set list_handler).

(** ** QueryListItem *)

Definition splitDetails (query : query) (stats : query_stats) : list_view :=
  el "div" [A "className" "col-xs-12 tinystat-row"] [
      el "span" [A "className" "tinystat"; A "data-toggle" "tooltip"; A "data-placement" "top"; A "title" "Completed splits"] [
        el "span" [A "className" "glyphicon glyphicon-ok"; ASt "style" [(js "color", GLYPHICON_HIGHLIGHT)]] [];
        VText ([160%N; 160%N]);
        VNum (completedDrivers stats)];
      el "span" [A "className" "tinystat"; A "data-toggle" "tooltip"; A "data-placement" "top"; A "title" "Running splits"] [
        el "span" [A "className" "glyphicon glyphicon-play"; ASt "style" [(js "color", GLYPHICON_HIGHLIGHT)]] [];
        VText ([160%N; 160%N]);
        VNum (if jeqb (q_state query) (js "FINISHED") || jeqb (q_state query) (js "FAILED") then zero else runningDrivers stats)];
      el "span" [A "className" "tinystat"; A "data-toggle" "tooltip"; A "data-placement" "top"; A "title" "Queued splits"] [
        el "span" [A "className" "glyphicon glyphicon-pause"; ASt "style" [(js "color", GLYPHICON_HIGHLIGHT)]] [];
        VText ([160%N; 160%N]);
        VNum (if jeqb (q_state query) (js "FINISHED") || jeqb (q_state query) (js "FAILED") then zero else queuedDrivers stats)];
      VWhen (feq (retryPolicy query) (js "TASK")) (el "span" [A "className" "tinystat"; A "data-toggle" "tooltip"; A "data-placement" "top"; A "title" "Failed tasks"] [
        el "span" [A "className" "glyphicon glyphicon-remove-circle"; ASt "style" [(js "color", GLYPHICON_HIGHLIGHT)]] [];
        VText ([160%N; 160%N]);
        VNum (failedTasks stats)])].

Definition timingDetails (stats : query_stats) : list_view :=
  el "div" [A "className" "col-xs-12 tinystat-row"] [
      el "span" [A "className" "tinystat"; A "data-toggle" "tooltip"; A "data-placement" "top"; A "title" "Wall time spent executing the query (not including queued time)"] [
        el "span" [A "className" "glyphicon glyphicon-hourglass"; ASt "style" [(js "color", GLYPHICON_HIGHLIGHT)]] [];
        VText ([160%N; 160%N]);
        VText (executionTime stats)];
      el "span" [A "className" "tinystat"; A "data-toggle" "tooltip"; A "data-placement" "top"; A "title" "Total query wall time"] [
        el "span" [A "className" "glyphicon glyphicon-time"; ASt "style" [(js "color", GLYPHICON_HIGHLIGHT)]] [];
        VText ([160%N; 160%N]);
        VText (elapsedTime stats)];
      el "span" [A "className" "tinystat"; A "data-toggle" "tooltip"; A "data-placement" "top"; A "title" "CPU time spent by this query"] [
        el "span" [A "className" "glyphicon glyphicon-dashboard"; ASt "style" [(js "color", GLYPHICON_HIGHLIGHT)]] [];
        VText ([160%N; 160%N]);
        VText (totalCpuTime stats)]].

Definition memoryDetails (stats : query_stats) : list_view :=
  el "div" [A "className" "col-xs-12 tinystat-row"] [
      el "span" [A "className" "tinystat"; A "data-toggle" "tooltip"; A "data-placement" "top"; A "title" "Current total reserved memory"] [
        el "span" [A "className" "glyphicon glyphicon-scale"; ASt "style" [(js "color", GLYPHICON_HIGHLIGHT)]] [];
        VText ([160%N; 160%N]);
        VText (parseAndFormatDataSize (totalMemoryReservation stats))];
      el "span" [A "className" "tinystat"; A "data-toggle" "tooltip"; A "data-placement" "top"; A "title" "Peak total memory"] [
        el "span" [A "className" "glyphicon glyphicon-fire"; ASt "style" [(js "color", GLYPHICON_HIGHLIGHT)]] [];
        VText ([160%N; 160%N]);
        VText (parseAndFormatDataSize (peakTotalMemoryReservation stats))];
      el "span" [A "className" "tinystat"; A "data-toggle" "tooltip"; A "data-placement" "top"; A "title" "Cumulative user memory"] [
        el "span" [A "className" "glyphicon glyphicon-equalizer"; ASt "style" [(js "color", GLYPHICON_HIGHLIGHT)]] [];
        VText ([160%N; 160%N]);
        VText (formatDataSizeBytes (ndiv (cumulativeUserMemory stats) (of_Z 1000)))]].

Definition user_plain (query : query) : list_view :=
  el "span" [] [VOpt (sessionUser query)].

Definition user_locked (query : query) : list_view :=
  el "span" [] [
      VOpt (sessionUser query);
      el "span" [A "className" "glyphicon glyphicon-lock-inverse"; ASt "style" [(js "color", GLYPHICON_DEFAULT)]] []].

(** The element that is passed to [truncateString]: it has no [length], so that it is shown
    as it is. *)
Definition session_user (query : query) : list_view :=
  if ftruthy (sessionPrincipal query) then user_locked query else user_plain query.

Section views.
Context `{DateParse, LocalTime}.

Definition QueryListItem_render (query : query) : res (list_view) :=
  pct ← getProgressBarPercentage query;
  color ← getQueryStateColor query;
  stats ← deref (queryStats query);
  title ← getProgressBarTitle query true;
  Ok (el "div" [A "className" "query"] [
      el "div" [A "className" "row"] [
        el "div" [A "className" "col-xs-4"] [
          el "div" [A "className" "row stat-row query-header query-header-queryid"] [
            el "div" [A "className" "col-xs-9"; A "data-toggle" "tooltip"; A "data-placement" "bottom"; A "data-trigger" "hover"; A "title" "Query ID"] [
              el "a" [AX "href" (js "query.html?" ++ queryId query); A "target" "_blank"] [
                VText (queryId query)]];
            el "div" [A "className" "col-xs-3 query-header-timestamp"; A "data-toggle" "tooltip"; A "data-placement" "bottom"; A "title" "Submit time"] [
              el "span" [] [VText (formatShortTime (local_date (Date_parse (createTime stats))))]]];
          el "div" [A "className" "row stat-row"] [
            el "div" [A "className" "col-xs-12"] [
              el "span" [A "data-toggle" "tooltip"; A "data-placement" "right"; A "title" "User"] [
                el "span" [A "className" "glyphicon glyphicon-user"; ASt "style" [(js "color", GLYPHICON_DEFAULT)]] [];
                VText ([160%N; 160%N]);
                el "span" [] [session_user query]]]];
          el "div" [A "className" "row stat-row"] [
            el "div" [A "className" "col-xs-12"] [
              el "span" [A "data-toggle" "tooltip"; A "data-placement" "right"; A "title" "Source"] [
                el "span" [A "className" "glyphicon glyphicon-log-in"; ASt "style" [(js "color", GLYPHICON_DEFAULT)]] [];
                VText ([160%N; 160%N]);
                el "span" [] [VOpt (truncateString (sessionSource query) 35)]]]];
          el "div" [A "className" "row stat-row"] [
            el "div" [A "className" "col-xs-12"] [
              el "span" [A "data-toggle" "tooltip"; A "data-placement" "right"; A "title" "Resource Group"] [
                el "span" [A "className" "glyphicon glyphicon-road"; ASt "style" [(js "color", GLYPHICON_DEFAULT)]] [];
                VText ([160%N; 160%N]);
                el "span" [] [
                  VOpt (truncateString (Some match resourceGroupId query with Some parts => JsString.join (js ".") parts | None => js "n/a" end) 35)]]]];
          el "div" [A "className" "row stat-row"] [splitDetails query stats];
          el "div" [A "className" "row stat-row"] [timingDetails stats];
          el "div" [A "className" "row stat-row"] [memoryDetails stats]];
        el "div" [A "className" "col-xs-8"] [
          el "div" [A "className" "row query-header"] [
            el "div" [A "className" "col-xs-12 query-progress-container"] [
              el "div" [A "className" "progress"] [
                el "div" [A "className" "progress-bar progress-bar-info"; A "role" "progressbar"; AN "aria-valuenow" pct; A "aria-valuemin" "0"; A "aria-valuemax" "100"; ASt "style" [(js "width", toString pct ++ js "%"); (js "backgroundColor", color)]] [
                  VText title]]]];
          el "div" [A "className" "row query-row-bottom"] [
            el "div" [A "className" "col-xs-12"] [
              el "pre" [A "className" "query-snippet"] [
                el "code" [A "className" "sql"] [
                  VText (stripQueryTextWhitespace (queryTextPreview query))]]]]]]]).

(** ** DisplayedQueriesList *)

Definition DisplayedQueriesList_render (queries : list query) : res list_view :=
  queryNodes ← res_map QueryListItem_render queries;
  Ok (el "div" [] [VList queryNodes]).
End views.

(** ** The toolbar *)

Definition renderMaxQueriesListItem (s : ql_state) (max : nat) (maxQueriesText : String.string) : list_view :=
  el "li" [] [
      el "a" [A "href" "#"; AX "className" (if maxQueries s =? max then js "selected" else []); AH "onClick" (Click (MaxQueriesClick max))] [
        T maxQueriesText]].

Definition renderReorderListItem (s : ql_state) (interval : Z) (intervalText : String.string) : list_view :=
  el "li" [] [
      el "a" [A "href" "#"; AX "className" (if (reorderInterval s =? interval)%Z then js "selected" else []); AH "onClick" (Click (ReorderClick interval))] [
        T intervalText]].

Definition directionArrow (s : ql_state) : list_view :=
  match currentSortOrder s with
  | ASCENDING => el "span" [A "className" "glyphicon glyphicon-triangle-top"] []
  | DESCENDING => el "span" [A "className" "glyphicon glyphicon-triangle-bottom"] []
  end.

Definition sort_item_selected (s : ql_state) (sortType : sort_type) (sortText : String.string) : list_view :=
  el "li" [] [
      el "a" [A "href" "#"; A "className" "selected"; AH "onClick" (Click (SortClick sortType))] [
        T sortText;
        T " ";
        directionArrow s]].

Definition sort_item_other (sortType : sort_type) (sortText : String.string) : list_view :=
  el "li" [] [el "a" [A "href" "#"; AH "onClick" (Click (SortClick sortType))] [T sortText]].

Definition renderSortListItem (s : ql_state) (sortType : sort_type) (sortText : String.string) : list_view :=
  if bool_decide (currentSortType s = sortType) then sort_item_selected s sortType sortText
  else sort_item_other sortType sortText.

Definition renderFilterButton (s : ql_state) (filterType : filter_type) (filterText : String.string) : list_view :=
  let active := bool_decide (filterType ∈ stateFilters s) in
  let checkmark := if active then js "#ffffff" else js "#57aac7" in
  let classNames := js "btn btn-sm btn-info style-check" ++ (if active then js " active" else []) in
  el "button" [A "type" "button"; AX "className" (classNames); AH "onClick" (Click (StateFilterClick filterType))] [
      el "span" [A "className" "glyphicon glyphicon-ok"; ASt "style" [(js "color", checkmark)]] [];
      VText ([160%N]);
      T filterText].

Definition renderErrorTypeListItem (s : ql_state) (errorType : error_type) (errorTypeText : String.string) : list_view :=
  let checkmark := if bool_decide (errorType ∈ errorTypeFilters s) then GLYPHICON_HIGHLIGHT else js "#ffffff" in
  el "li" [] [
      el "a" [A "href" "#"; AH "onClick" (Click (ErrorTypeFilterClick errorType))] [
        el "span" [A "className" "glyphicon glyphicon-ok"; ASt "style" [(js "color", checkmark)]] [];
        VText ([160%N]);
        T errorTypeText]].

Arguments renderMaxQueriesListItem s max maxQueriesText%_string_scope.
Arguments renderReorderListItem s interval intervalText%_string_scope.
Arguments renderSortListItem s sortType sortText%_string_scope.
Arguments renderFilterButton s filterType filterText%_string_scope.
Arguments renderErrorTypeListItem s errorType errorTypeText%_string_scope.

(** ** The page *)

Definition queries_message (label : list_view) : list_view :=
  el "div" [A "className" "row error-message"] [
      el "div" [A "className" "col-xs-12"] [el "h4" [] [label]]].

Definition ql_page (s : ql_state) (queryList : list_view) : list_view :=
  el "div" [] [
      el "div" [A "className" "row toolbar-row"] [
        el "div" [A "className" "col-xs-12 toolbar-col"] [
          el "div" [A "className" "input-group input-group-sm"] [
            el "input" [A "type" "text"; A "className" "form-control form-control-small search-bar"; A "placeholder" "User, source, query ID, query state, resource group, error name, or query text"; AH "onChange" SearchInput; AX "value" (searchString s)] [];
            el "span" [A "className" "input-group-addon filter-addon"] [T "State:"];
            el "div" [A "className" "input-group-btn"] [
              renderFilterButton s F_RUNNING "Running";
              renderFilterButton s F_QUEUED "Queued";
              renderFilterButton s F_FINISHED "Finished";
              el "button" [A "type" "button"; A "id" "error-type-dropdown"; A "className" "btn btn-default dropdown-toggle"; A "data-toggle" "dropdown"; A "aria-haspopup" "true"; A "aria-expanded" "false"] [
                T "Failed ";
                el "span" [A "className" "caret"] []];
              el "ul" [A "className" "dropdown-menu error-type-dropdown-menu"] [
                renderErrorTypeListItem s E_INTERNAL_ERROR "Internal Error";
                renderErrorTypeListItem s E_EXTERNAL "External Error";
                renderErrorTypeListItem s E_INSUFFICIENT_RESOURCES "Resources Error";
                renderErrorTypeListItem s E_USER_ERROR "User Error"]];
            VText ([160%N]);
            el "div" [A "className" "input-group-btn"] [
              el "button" [A "type" "button"; A "className" "btn btn-default dropdown-toggle"; A "data-toggle" "dropdown"; A "aria-haspopup" "true"; A "aria-expanded" "false"] [
                T "Sort ";
                el "span" [A "className" "caret"] []];
              el "ul" [A "className" "dropdown-menu"] [
                renderSortListItem s S_CREATED "Creation Time";
                renderSortListItem s S_ELAPSED "Elapsed Time";
                renderSortListItem s S_CPU "CPU Time";
                renderSortListItem s S_EXECUTION "Execution Time";
                renderSortListItem s S_CURRENT_MEMORY "Current Memory";
                renderSortListItem s S_CUMULATIVE_MEMORY "Cumulative User Memory"]];
            VText ([160%N]);
            el "div" [A "className" "input-group-btn"] [
              el "button" [A "type" "button"; A "className" "btn btn-default dropdown-toggle"; A "data-toggle" "dropdown"; A "aria-haspopup" "true"; A "aria-expanded" "false"] [
                T "Reorder Interval ";
                el "span" [A "className" "caret"] []];
              el "ul" [A "className" "dropdown-menu"] [
                renderReorderListItem s 1000%Z "1s";
                renderReorderListItem s 5000%Z "5s";
                renderReorderListItem s 10000%Z "10s";
                renderReorderListItem s 30000%Z "30s";
                el "li" [A "role" "separator"; A "className" "divider"] [];
                renderReorderListItem s 0%Z "Off"]];
            VText ([160%N]);
            el "div" [A "className" "input-group-btn"] [
              el "button" [A "type" "button"; A "className" "btn btn-default dropdown-toggle"; A "data-toggle" "dropdown"; A "aria-haspopup" "true"; A "aria-expanded" "false"] [
                T "Show ";
                el "span" [A "className" "caret"] []];
              el "ul" [A "className" "dropdown-menu"] [
                renderMaxQueriesListItem s 20 "20 queries";
                renderMaxQueriesListItem s 50 "50 queries";
                renderMaxQueriesListItem s 100 "100 queries";
                el "li" [A "role" "separator"; A "className" "divider"] [];
                renderMaxQueriesListItem s 0 "All queries"]]]]];
      queryList].

(** The message in place of an empty list. *)
Definition empty_label (s : ql_state) : list_view :=
  if ql_initialized s then
    if length (allQueries s) =? 0 then T "No queries" else T "No queries matched filters"
  else el "div" [A "className" "loader"] [T "Loading..."].

Definition ql_render `{DateParse, LocalTime} (s : ql_state) : res list_view :=
  if length (displayedQueries s) =? 0 then Ok (ql_page s (queries_message (empty_label s)))
  else queryList ← DisplayedQueriesList_render (displayedQueries s); Ok (ql_page s queryList).

(** ** Properties *)

Lemma state_ok_overview q b b' : is_ok (getHumanReadableState q b) = is_ok (getHumanReadableState q b').
Proof.
  unfold getHumanReadableState. destruct (switch_fallthrough _ _ _), (queryStats q), (errorCode q); cbn;
    repeat match goal with |- context [if ?c then _ else _] => destruct c end; done.
Qed.

(** A query with a text for its state has a colour. *)
Lemma showable_color q : showable q = true → is_ok (getQueryStateColor q) = true.
Proof.
  unfold showable. intros [_ Hs]%andb_true_iff. destruct (getQueryStateColor q) as [c|e] eqn:E; [done|].
  assert (q_state q = js "FAILED" ∧ errorType q = Some (js "USER_ERROR") ∧ errorCode q = None) as (H1 & H2 & H3).
  { revert E. unfold getQueryStateColor.
    repeat match goal with |- (if ?b then _ else _) = _ → _ => destruct b eqn:? end; try done.
    boolp. destruct (errorCode q) eqn:Ec; [done|]. rewrite feq_Some in *. done. }
  revert Hs. rewrite getHumanReadableState_failed by done. rewrite H2. unfold errorCases. rewrite H3. done.
Qed.

Section properties.
Context `{DateParse, LocalTime}.

Lemma item_renders q : showable q = true → is_ok (QueryListItem_render q) = true.
Proof.
  intros Hs. pose proof (showable_color q Hs) as Hc.
  unfold showable in Hs. apply andb_true_iff in Hs as [Hst Hs]. rewrite (state_ok_overview q false true) in Hs.
  unfold has_stats in Hst. destruct (queryStats q) as [stats|] eqn:Est; [|done].
  assert (is_ok (getProgressBarPercentage q) = true) as Hp.
  { unfold getProgressBarPercentage. rewrite Est. cbn. cases. }
  assert (is_ok (getProgressBarTitle q true) = true) as Ht.
  { unfold getProgressBarTitle. rewrite Est. cbn [deref mbind res_bind].
    destruct (getHumanReadableState q true); [|done]. destruct (getProgressBarPercentage q); [|done].
    cbn [mbind res_bind]. by destruct (_ && _). }
  unfold QueryListItem_render. destruct (getProgressBarPercentage q); [|done]. cbn [mbind res_bind].
  destruct (getQueryStateColor q); [|done]. rewrite Est. cbn [deref mbind res_bind].
  by destruct (getProgressBarTitle q true).
Qed.

(** The page of a state. *)
Definition shows (s : ql_state) (v : list_view) : Prop :=
  if length (displayedQueries s) =? 0 then v = ql_page s (queries_message (empty_label s))
  else ∃ items, v = ql_page s (el "div" [] [VList items]) ∧
       Forall2 (λ q item, QueryListItem_render q = Ok item) (displayedQueries s) items.

Lemma ql_render_shows s v : ql_render s = Ok v → shows s v.
Proof.
  unfold ql_render, shows. destruct (_ =? 0); [by intros [= <-]|].
  intros (list_ & Hl & [= <-])%res_bind_ok. unfold DisplayedQueriesList_render in Hl.
  apply res_bind_ok in Hl as (items & Hi & [= <-]). exists items. split; [done|]. by apply res_map_ok.
Qed.

Context `{LowerCase, JsSortLaws}.

Lemma handle_all e c : allQueries (ql (ql_handle e c)) = allQueries (ql c).
Proof.
  assert (∀ m s, (∀ s', m = Ok s' → allQueries s' = allQueries s) → allQueries (or_else m s) = allQueries s) as Hor.
  { intros [s'|] s Hm; [by apply Hm|done]. }
  assert (∀ s t o sf ef n, allQueries (or_else
     (filtered ← filterQueries (allQueries s) sf ef (searchString s);
      displayed ← sortAndLimitQueries filtered t o n; Ok (set_view displayed t o sf ef n s)) s) = allQueries s) as Hh.
  { intros s t o sf ef n. apply Hor. intros s' (f & _ & Hf)%res_bind_ok. by apply res_bind_ok in Hf as (d & _ & [= <-]). }
  destruct e as [str| |n|i|t|f|e]; cbn [ql_handle ql]; try done; try apply Hh.
  - destruct (search_pending c); [apply Hh|done].
  - unfold handleReorderClick. by destruct (negb _).
Qed.

(** Exactly the rows that can be shown are rendered. *)
Lemma item_showable q : is_ok (QueryListItem_render q) = showable q.
Proof.
  destruct (showable q) eqn:Hs; [by apply item_renders|].
  destruct (QueryListItem_render q) as [v|] eqn:Hv; [|done]. exfalso. unfold QueryListItem_render in Hv.
  apply res_bind_ok in Hv as (pct & _ & Hv). apply res_bind_ok in Hv as (color & _ & Hv).
  apply res_bind_ok in Hv as (stats & Hst & Hv). apply res_bind_ok in Hv as (title & Ht & _).
  unfold showable, has_stats in Hs. destruct (queryStats q) as [st|] eqn:Est; [|done]. cbn in Hs.
  unfold getProgressBarTitle in Ht. rewrite Est in Ht. cbn [deref mbind res_bind] in Ht.
  rewrite (state_ok_overview q false true) in Hs. destruct (getHumanReadableState q true); [done|].
  by destruct (_ && _) in Ht.
Qed.

Lemma ql_render_ok s : is_ok (ql_render s) = forallb showable (displayedQueries s).
Proof.
  unfold ql_render, DisplayedQueriesList_render. destruct (displayedQueries s) as [|q0 l0]; [done|].
  cbn [length Nat.eqb]. generalize (q0 :: l0). intros l.
  transitivity (is_ok (res_map QueryListItem_render l)); [by destruct (res_map QueryListItem_render l)|].
  induction l as [|q l IH]; [done|]. cbn [res_map forallb]. rewrite <-item_showable, <-IH.
  destruct (QueryListItem_render q); [|done]. cbn. by destruct (res_map QueryListItem_render l).
Qed.
End properties.

(** The toolbar offers every filter, error type, sort order, interval and limit of the page, and
    its items raise exactly the events of the page's handlers. *)
Theorem toolbar_handlers s list_ :
  handlers list_ = [] →
  handlers (ql_page s list_) =
    SearchInput ::
    map Click ([StateFilterClick F_RUNNING; StateFilterClick F_QUEUED; StateFilterClick F_FINISHED;
                ErrorTypeFilterClick E_INTERNAL_ERROR; ErrorTypeFilterClick E_EXTERNAL;
                ErrorTypeFilterClick E_INSUFFICIENT_RESOURCES; ErrorTypeFilterClick E_USER_ERROR;
                SortClick S_CREATED; SortClick S_ELAPSED; SortClick S_CPU; SortClick S_EXECUTION;
                SortClick S_CURRENT_MEMORY; SortClick S_CUMULATIVE_MEMORY] ++
               map ReorderClick [1000; 5000; 10000; 30000; 0]%Z ++ map MaxQueriesClick [20; 50; 100; 0]).
Proof.
  intros Hl.
  assert (∀ t txt, handlers (renderSortListItem s t txt) = [Click (SortClick t)]) as Hsort.
  { intros t txt. unfold renderSortListItem. case_bool_decide; [|done].
    unfold sort_item_selected, directionArrow. by destruct (currentSortOrder s). }
  unfold ql_page, el. cbn [handlers map concat omap list_omap A AX snd]. rewrite !Hsort, Hl. done.
Qed.

(** ** Witnesses *)

Definition sample_noon : LocalTime :=
  λ _, ValidDate {| getFullYear := 2022; getMonth := 4; getDate := 11; getHours := 12; getMinutes := 5 |}.

Lemma toolbar_handlers_witness :
  length (handlers (ql_page (ql_constructor 0) (queries_message (empty_label (ql_constructor 0))))) = 23.
Proof. rewrite toolbar_handlers; reflexivity. Defined.

(** A user name of any length is shown in full: [truncateString] is given an element. *)
Example long_user_shown :
  let q := sample_query (js "q1") (js "RUNNING") None None in
  text_of (session_user q) = default [] (sessionUser q).
Proof. vm_compute. reflexivity. Qed.
