(* ===== verification/QueryListPage.v ===== *)
(** * The list of queries over time

    The component QueryList with its view and its refresh loop.  The coordinator may answer with
    any list of queries.  An exception of the response handler leaves the loop without a timer;
    an exception while rendering removes the component from the page as well, after which
    [setState] has no effect.  The theorems say what holds for all answers and what for answers
    with distinct ids and complete records. *)

From S2P Require Import Prelude JsString JsNumber JsNumberFacts JsCollections Model QueryState Format Vdom Poller QueryList QueryListFacts QueryListView.
From stdpp Require Import relations.

(** The component, and whether an exception while rendering has removed it. *)
Record mounted_list := { ml : ql_component; ml_removed : bool }.

Section page.
Context `{DateParse, LocalTime, LowerCase, JsSort}.

(** The component is rendered after a state update. *)
Definition rerender (c : ql_component) : mounted_list :=
  {| ml := c; ml_removed := negb (is_ok (ql_render (ql c))) |}.

(** An update in a response handler: the exception of [render] leaves the handler. *)
Definition update_list (c : ql_component) : outcome mounted_list :=
  let l := rerender c in if ml_removed l then Escaped l else Done l.

(** The success callback, up to [resetTimer].  Once the component is removed, only the
    computation of the new rows can throw.  A removed component shows nothing, so that its state
    matters no more when the loop has ended as well. *)
Definition ql_answer (r : ql_response) (l : mounted_list) : outcome mounted_list :=
  let c := ml l in
  match ql_merge r (ql c) with
  | Throw _ => Escaped l
  | Ok _ =>
    if ml_removed l then Done l
    else match ql_on_response r (ql c) with
         | Ok s => update_list {| ql := s; search_pending := search_pending c |}
         | Throw _ => Escaped {| ml := c; ml_removed := true |}
         end
  end.

(** The failure callback. *)
Definition ql_failed (l : mounted_list) : outcome mounted_list :=
  if ml_removed l then Done l
  else update_list {| ql := ql_on_failure (ql (ml l)); search_pending := search_pending (ml l) |}.

(** An event: a removed component has no elements to click on. *)
Definition ql_event_step (e : ql_event) (l : mounted_list) : mounted_list :=
  if ml_removed l then l else rerender (ql_handle e (ml l)).

(** The guard of [resetTimer]: the state has neither [query] nor [ended]. *)
Definition ql_keep_polling (l : mounted_list) : bool := true.

#[export] Instance ql_poller (now : Z) : Poller mounted_list ql_response := {
  poll_init := {| ml := {| ql := ql_constructor now; search_pending := false |}; ml_removed := false |};
  on_refresh l := {| ml := ql_refresh (ml l); ml_removed := ml_removed l |};
  on_response := ql_answer;
  on_failure _ := ql_failed;
  keep_polling := ql_keep_polling;
  on_user l l' := ∃ e, l' = ql_event_step e l;
}.
End page.

Section properties.
Context `{DateParse, LocalTime, LowerCase, JsSortLaws}.

Lemma rerender_list c : ml (rerender c) = c.
Proof. done. Qed.

Lemma update_list_state c : outcome_state (update_list c) = rerender c.
Proof. unfold update_list. by destruct (ml_removed (rerender c)). Qed.

(** What an answer does to the state of the list. *)
Lemma answer_list r l :
  ml (outcome_state (ql_answer r l)) = ml l ∨
  ∃ s, ql_on_response r (ql (ml l)) = Ok s ∧ ql (ml (outcome_state (ql_answer r l))) = s.
Proof.
  unfold ql_answer. destruct (ql_merge r (ql (ml l))); [|by left]. destruct (ml_removed l); [by left|].
  destruct (ql_on_response r (ql (ml l))) as [s|]; [|by left]. right. exists s. by rewrite update_list_state.
Qed.

(** A property of the list that answers, failures and events keep. *)
Lemma list_run_invariant (I : ql_state → Prop) (G : ql_response → Prop) now rs p :
  I (ql_constructor now) →
  (∀ r s s', G r → I s → ql_on_response r s = Ok s' → I s') →
  (∀ s, I s → I (ql_on_failure s)) →
  (∀ e c, I (ql c) → I (ql (ql_handle e c))) →
  @run _ _ (ql_poller now) rs p → Forall G rs → I (ql (ml (comp p))).
Proof.
  intros Hinit Hr Hf He Hrun.
  refine (@run_invariant _ _ (ql_poller now) (λ rs l, Forall G rs → I (ql (ml l))) rs p _ _ _ _ _ Hrun); [done|done|..].
  - intros rs' r l IH [HG [Hg _]%Forall_cons]%Forall_app. specialize (IH HG). cbn.
    destruct (answer_list r l) as [->|(s & Hs & ->)]; [done|by eapply Hr].
  - intros rs' now' l IH HG. cbn. unfold ql_failed. destruct (ml_removed l); [by apply IH|].
    rewrite update_list_state. by apply Hf, IH.
  - intros rs' l l' IH [e ->] HG. unfold ql_event_step. destruct (ml_removed l); [by apply IH|]. by apply He, IH.
Qed.

(** C3: Whatever the user does and whatever the coordinator answers, the page shows only queries of
    the last answer it has processed, and never more rows than the selected number (unless that
    number is 0).  If moreover no answer lists an id twice (nor an id that is the name of a
    property of every object), the page never shows a query twice. *)
Theorem rows_invariant now rs p :
  @run _ _ (ql_poller now) rs p →
  let s := ql (ml (comp p)) in
  (∀ q, q ∈ displayedQueries s → q ∈ allQueries s) ∧
  (maxQueries s ≠ 0 → length (displayedQueries s) ≤ maxQueries s) ∧
  (Forall (λ r, good_ids (queryList r)) rs → NoDup (ids (displayedQueries s))).
Proof.
  intros Hp s.
  assert (ql_bounded s) as [Hk Hb].
  { apply (list_run_invariant ql_bounded (λ _, True) now rs p); [split; cbn; [done|lia]| |by intros ? []| |done|by apply Forall_true].
    - intros r s1 s2 _ _. apply bounded_response.
    - intros e c. apply bounded_event. }
  split_and!; [done..|]. intros HG.
  assert (ql_invariant s) as [Hi Hn _].
  { apply (list_run_invariant ql_invariant (λ r, good_ids (queryList r)) now rs p); [| | | |done|done].
    - split; cbn; [|done|lia]. split; constructor.
    - intros r s1 s2. apply inv_response.
    - by intros s1 [].
    - intros e c. apply inv_event. }
  apply (fmap_nodup_sub _ _ Hn Hi).
Qed.

(** While the answers are good: the component is shown, and all its queries can be. *)
Record list_healthy (l : mounted_list) : Prop := {
  lh_shown : ml_removed l = false;
  lh_inv : ql_invariant (ql (ml l));
  lh_all : Forall (λ q, showable q = true) (allQueries (ql (ml l)));
}.

Lemma healthy_rerender c :
  ql_invariant (ql c) → Forall (λ q, showable q = true) (allQueries (ql c)) → list_healthy (rerender c).
Proof.
  intros Hi Ha. split; [|done..]. cbn. rewrite ql_render_ok. apply negb_false_iff, forallb_forall.
  intros q Hq. rewrite Forall_forall in Ha. apply Ha. eapply elem_of_submseteq; [by apply list_elem_of_In|apply Hi].
Qed.

Lemma healthy_update c :
  ql_invariant (ql c) → Forall (λ q, showable q = true) (allQueries (ql c)) →
  ∃ l, update_list c = Done l ∧ list_healthy l.
Proof.
  intros Hi Ha. pose proof (healthy_rerender c Hi Ha) as Hh. exists (rerender c). split; [|done].
  unfold update_list. by rewrite (lh_shown _ Hh).
Qed.

Lemma healthy_response r l : good_response r → list_healthy l → ∃ l', ql_answer r l = Done l' ∧ list_healthy l'.
Proof.
  intros Hr [Hs Hi Ha]. destruct (good_response_ok r _ Hr Hi) as (s' & Ho & Hi' & Hall).
  unfold ql_answer. pose proof Ho as (rows & -> & _)%res_bind_ok. rewrite Hs, Ho. apply healthy_update; [done|].
  cbn. rewrite Hall. apply Hr.
Qed.

Lemma healthy_failure l : list_healthy l → ∃ l', ql_failed l = Done l' ∧ list_healthy l'.
Proof. intros [Hs [Hi Hk Hb] Ha]. unfold ql_failed. rewrite Hs. by apply healthy_update. Qed.

Lemma healthy_event e l : list_healthy l → list_healthy (ql_event_step e l).
Proof.
  intros [Hs Hi Ha]. unfold ql_event_step. rewrite Hs. apply healthy_rerender; [by apply inv_event|].
  by rewrite handle_all.
Qed.

Lemma healthy_init now :
  let l := @on_refresh _ _ (ql_poller now) (@poll_init _ _ (ql_poller now)) in
  list_healthy l ∧ @keep_polling _ _ (ql_poller now) l = true.
Proof. split; [|done]. split; [done| |constructor]. split; cbn; [|done|lia]. split; constructor. Qed.

Lemma healthy_refresh now l :
  list_healthy l → list_healthy (@on_refresh _ _ (ql_poller now) l) ∧
  @keep_polling _ _ (ql_poller now) (@on_refresh _ _ (ql_poller now) l) = @keep_polling _ _ (ql_poller now) l.
Proof. by intros []. Qed.

Lemma healthy_user now l l' :
  list_healthy l → @on_user _ _ (ql_poller now) l l' →
  list_healthy l' ∧ @keep_polling _ _ (ql_poller now) l' = @keep_polling _ _ (ql_poller now) l.
Proof. intros Hl [e ->]. split; [by apply healthy_event|done]. Qed.

(** An answer with a row that cannot be shown ends it. *)
Lemma unshowable_removes r l s :
  ml_removed l = false → ql_on_response r (ql (ml l)) = Ok s → forallb showable (displayedQueries s) = false →
  ∃ l', ql_answer r l = Escaped l' ∧ ml_removed l' = true.
Proof.
  intros Hl Ho Hd. unfold ql_answer. pose proof Ho as (rows & -> & _)%res_bind_ok. rewrite Hl, Ho.
  assert (ml_removed (rerender {| ql := s; search_pending := search_pending (ml l) |}) = true) as Hr
    by (cbn; by rewrite ql_render_ok, Hd).
  unfold update_list. rewrite Hr. by eexists.
Qed.

(** C35: As long as every answer lists distinct ids and complete records (with statistics, and an
    error code for a failure of the user), the list goes on polling, one request at a time, and
    renders without an exception: the toolbar, and below it one item per displayed query in
    their order, or the message that explains the empty list.  The condition is needed: an
    answer that puts a query without them on the page removes the list and ends its polling
    for good. *)
Theorem overview_renders now rs p :
  @run _ _ (ql_poller now) rs p →
  (Forall good_response rs →
   inflight p + length (live p) = 1 ∧ ml_removed (comp p) = false ∧
   let s := ql (ml (comp p)) in
   ∃ v, ql_render s = Ok v ∧
   if length (displayedQueries s) =? 0 then v = ql_page s (queries_message (empty_label s))
   else ∃ items, v = ql_page s (el "div" [] [VList items]) ∧
        Forall2 (λ q item, QueryListItem_render q = Ok item) (displayedQueries s) items) ∧
  (∀ r s q p', 0 < inflight p → ml_removed (comp p) = false → ql_on_response r (ql (ml (comp p))) = Ok s →
   q ∈ displayedQueries s → showable q = false →
   rtc (@step _ _ (ql_poller now)) (@answer _ _ (ql_poller now) (ql_answer r) p) p' →
   ml_removed (comp p') = true ∧ inflight p' = 0 ∧ live p' = []).
Proof.
  intros Hp. split.
  - intros HG. destruct (@run_alive _ _ (ql_poller now) list_healthy good_response (healthy_refresh now)
      healthy_response (λ _, healthy_failure) (healthy_user now) (healthy_init now) rs p Hp HG) as [[Hs Hi Ha] Hgo].
    split_and!; [exact Hgo|done|]. cbv zeta.
    pose proof (healthy_rerender _ Hi Ha) as [Hok _ _]. cbn in Hok. apply negb_false_iff in Hok.
    destruct (ql_render _) as [v|] eqn:Ev; [|done]. exists v. split; [done|]. by apply ql_render_shows.
  - intros r s q p' Hi Hs Ho Hq Hn Hr.
    destruct (unshowable_removes r (comp p) s Hs Ho) as (l' & Ha & Hl').
    { destruct (forallb showable (displayedQueries s)) eqn:E; [|done]. rewrite forallb_forall in E.
      rewrite E in Hn; [done|by apply list_elem_of_In]. }
    assert (quiescent (@answer _ _ (ql_poller now) (ql_answer r) p)) as Hqu.
    { destruct (@reachable_exclusive _ _ (ql_poller now) p (@run_reachable _ _ (ql_poller now) rs p Hp)) as [Ht _ _].
      unfold answer. cbn. rewrite Ha. split; cbn; [lia|]. destruct (live p); [done|cbn in Ht; lia]. }
    split; [|exact (@quiescent_forever _ _ (ql_poller now) _ _ Hqu Hr)].
    assert (@preserved _ _ (ql_poller now) (λ l, ml_removed l = true)) as Hpr.
    { split_and!.
      - done.
      - intros r' l Hl. cbn. unfold ql_answer. destruct (ql_merge _ _); [|done]. by rewrite Hl.
      - intros now' l Hl. cbn. unfold ql_failed. by rewrite Hl.
      - intros l l2 Hl [e ->]. unfold ql_event_step. by rewrite Hl. }
    apply (@preserved_forever _ _ (ql_poller now) _ _ _ Hpr) in Hr; [done|].
    rewrite (@comp_answer _ _ (ql_poller now)), Ha. done.
Qed.
End properties.

(** ** Witnesses *)

(** The page after its first answer. *)
Definition sample_ql_poller : Poller mounted_list ql_response :=
  @ql_poller sample_dates sample_noon sample_lower insertion_js_sort 0.
Definition sample_mounted : page mounted_list :=
  @answer _ _ sample_ql_poller (@on_response _ _ sample_ql_poller sample_response) (@mounted _ _ sample_ql_poller).

Lemma sample_mounted_run : @run _ _ sample_ql_poller [sample_response] sample_mounted.
Proof. apply (@run_response _ _ sample_ql_poller [] _ sample_response); [constructor|apply Nat.lt_0_1]. Qed.

Lemma sample_good : good_response sample_response.
Proof. split; [by apply (bool_decide_unpack _)|by repeat constructor]. Qed.

(** A failed query without an error code. *)
Definition sample_broken : query :=
  sample_query (js "20220511_091014_00004_abcde") (js "FAILED") (Some (js "USER_ERROR")) None.
Definition broken_response : ql_response := {| queryList := [sample_broken]; now1 := 6000; now2 := 6000 |}.

Lemma rows_invariant_witness :
  let s := ql (ml (comp sample_mounted)) in
  displayedQueries s ≠ [] ∧ (∀ q, q ∈ displayedQueries s → q ∈ allQueries s) ∧ NoDup (ids (displayedQueries s)).
Proof.
  destruct (@rows_invariant sample_dates sample_noon sample_lower insertion_js_sort insertion_js_sort_laws 0
    [sample_response] sample_mounted sample_mounted_run) as (Hk & _ & Hn).
  split_and!; [vm_compute; discriminate|exact Hk|]. apply Hn. constructor; [apply sample_good|constructor].
Defined.

(** A page that shows every failed query. *)
Definition sample_failures_shown : page mounted_list :=
  @set_comp mounted_list (@ql_event_step sample_dates sample_noon sample_lower insertion_js_sort
    (ErrorTypeFilterClick E_USER_ERROR) (comp (@mounted _ _ sample_ql_poller))) (@mounted _ _ sample_ql_poller).
Lemma sample_failures_run : @run _ _ sample_ql_poller [] sample_failures_shown.
Proof. apply (@run_user _ _ sample_ql_poller []); [constructor|]. by eexists. Qed.

Lemma overview_renders_witness :
  is_ok (@ql_render sample_dates sample_noon (ql (ml (comp sample_mounted)))) = true ∧
  let p := @answer _ _ sample_ql_poller (@ql_answer sample_dates sample_noon sample_lower insertion_js_sort broken_response)
             sample_failures_shown in
  ml_removed (comp p) = true ∧ inflight p = 0 ∧ live p = [].
Proof.
  split.
  - destruct (@overview_renders sample_dates sample_noon sample_lower insertion_js_sort insertion_js_sort_laws 0
      [sample_response] sample_mounted sample_mounted_run) as [Hgood _].
    destruct Hgood as (_ & _ & v & Hv & _); [constructor; [apply sample_good|constructor]|]. by rewrite Hv.
  - destruct (@overview_renders sample_dates sample_noon sample_lower insertion_js_sort insertion_js_sort_laws 0
      [] sample_failures_shown sample_failures_run) as [_ Hbad].
    apply (Hbad broken_response (or_else (@ql_on_response sample_dates sample_lower insertion_js_sort broken_response
      (ql (ml (comp sample_failures_shown)))) (ql_constructor 0)) sample_broken).
    + apply Nat.lt_0_1.
    + vm_compute. reflexivity.
    + vm_compute. reflexivity.
    + vm_compute. apply list_elem_of_here.
    + vm_compute. reflexivity.
    + apply rtc_refl.
Defined.
