(* ===== verification/QueryTree.v ===== *)
(** * The query page with its stages

    QueryDetail renders a StageSummary for every stage of the snapshot, a component
    with a state of its own (expanded or not, the filter of its tasks, the time of its
    last charts) that React keeps from one rendering to the next by the key, the
    stage id.  This file composes the parent (QueryDetailView.v) with its children: how
    they are mounted, kept and removed, what they render, and what an exception in one
    of them does to the page.

    Documents are values in this file.  [componentDidUpdate] of a child sorts [stage.tasks] in
    place; SharedDocuments.v models that and shows that the page behaves as it does here. *)

From S2P Require Import Prelude JsString JsNumber JsNumberFacts JsCollections Model QueryState Format Sparkline Vdom QueryHeader Stage QueryInfo QueryDetail QueryDetailView QueryDetailFacts QueryPages QueryList QueryListFacts QueryListView Samples Poller Loop.
From stdpp Require Import relations.

(** ** The tree *)

Abbreviation kids := (list (jstring * summary_state)).

(** [tr_crashed]: an exception while rendering has removed the page, and later updates have no
    effect. *)
Record tree := {
  tr_query : qd_state;
  tr_stages : kids;
  tr_crashed : bool;
}.

Definition tree_constructor : tree := {| tr_query := qd_constructor; tr_stages := []; tr_crashed := false |}.

Definition child_key (c : query_child) : jstring := let '(StageSummary st _) := c in stageId st.

(** The state of the child with a key; a child that is not there yet starts with its constructor. *)
Definition child_state (k : jstring) (cs : kids) : summary_state := default summary_constructor (map_get k cs).

Definition crash_tree (s : qd_state) (cs : kids) : tree := {| tr_query := s; tr_stages := cs; tr_crashed := true |}.

Section tree.
Context `{DateParse, LocalTime, UrlParser, JsSort}.
Context (pathname : jstring).

(** [render] of one child. *)
Definition render_child (now : Z) (cs : kids) (c : query_child) : res summary_view :=
  let '(StageSummary st retries) := c in
  StageSummary_render (of_Z now) (Some st) retries (child_state (stageId st) cs).

Definition render_children (now : Z) (children : list query_child) (cs : kids) : res (list summary_view) :=
  res_map (render_child now cs) children.

(** The children after a rendering: those that were there run [componentDidUpdate], new ones
    only start, and the states of the others are lost. *)
Definition commit_children (now : Z) (children : list query_child) (cs : kids) : kids :=
  map (λ c, let '(StageSummary st _) := c in
            (stageId st,
             match map_get (stageId st) cs with
             | Some s => (summary_didUpdate now st s).2
             | None => summary_constructor
             end)) children.

(** An update of the parent: the page is rendered with its children, the children update before
    the parent, and what they set in [componentDidUpdate] renders them once more: with the
    parent if the parent redraws its charts, and on their own otherwise. *)
Definition flush (now : Z) (s : qd_state) (cs : kids) : res (qd_state * kids) :=
  view ← qd_render pathname s;
  shown ← render_children now (child_components view) cs;
  let cs1 := commit_children now (child_components view) cs in
  if redraw_due now s then
    let s2 := set_lastRender now s in
    view2 ← qd_render pathname s2;
    shown2 ← render_children now (child_components view2) cs1;
    let cs2 := commit_children now (child_components view2) cs1 in
    shown3 ← render_children now (child_components view2) cs2;
    Ok (s2, cs2)
  else
    shown1 ← render_children now (child_components view) cs1;
    Ok (s, cs1).

Definition update_tree (now : Z) (s : qd_state) (cs : kids) (k : qd_state → kids → outcome tree) : outcome tree :=
  match flush now s cs with
  | Ok (s', cs') => k s' cs'
  | Throw _ => Escaped (crash_tree s cs)
  end.

Definition done_tree (s : qd_state) (cs : kids) : outcome tree :=
  Done {| tr_query := s; tr_stages := cs; tr_crashed := false |}.

(** The success callback, up to [resetTimer]. *)
Definition tree_on_response (r : Z * query_info) (t : tree) : outcome tree :=
  let '(now, query) := r in
  let s := tr_query t in
  match queryStats (qi query) with
  | None => Escaped t
  | Some stats =>
    if tr_crashed t then Done t
    else
      update_tree now (qd_received now query stats s) (tr_stages t) (λ s1 cs1,
        if queryEnded s || (match qd_lastRefresh s with None => true | Some _ => false end
                            && jeqb (q_state (qi query)) (js "RUNNING"))
        then done_tree s1 cs1
        else
          let elapsedSecs := elapsed_secs now stats s in
          if ngeb elapsedSecs zero
          then update_tree now (qd_measured elapsedSecs query stats s s1) cs1 done_tree
          else done_tree s1 cs1)
  end.

Definition tree_on_failure (now : Z) (t : tree) : outcome tree :=
  if tr_crashed t then Done t
  else update_tree now (set_initialized (tr_query t)) (tr_stages t) done_tree.

(** A state update of one child: it renders, runs [componentDidUpdate], and renders again. *)
Definition update_child (now : Z) (c : query_child) (f : summary_state → summary_state) (t : tree) : tree :=
  let '(StageSummary st _) := c in
  let cs1 := map_set (stageId st) (f (child_state (stageId st) (tr_stages t))) (tr_stages t) in
  let cs2 := map_set (stageId st) (summary_didUpdate now st (child_state (stageId st) cs1)).2 cs1 in
  match (v1 ← render_child now cs1 c; render_child now cs2 c) with
  | Ok _ => {| tr_query := tr_query t; tr_stages := cs2; tr_crashed := false |}
  | Throw _ => crash_tree (tr_query t) cs1
  end.

Inductive tree_event :=
| RefreshClick
| ToggleClick (k : jstring)
| FilterClick (k : jstring) (f : task_filter).

(** The child with a key in the view that is shown. *)
Definition shown_child (k : jstring) (t : tree) : option query_child :=
  match qd_render pathname (tr_query t) with
  | Ok view => List.find (λ c, jeqb (child_key c) k) (child_components view)
  | Throw _ => None
  end.

(** The handlers, which are only reached while their element is shown: the button of the refresh
    of the stages, the icon of a stage, and the list of task filters of a stage. *)
Definition refresh_click (now : Z) (t : tree) : tree :=
  match handleStageRefreshClick (tr_query t) with
  | Ok s => outcome_state (update_tree now s (tr_stages t) done_tree)
  | Throw _ => t
  end.
Definition toggle_click (now : Z) (k : jstring) (t : tree) : tree :=
  match shown_child k t with Some c => update_child now c toggleExpanded t | None => t end.
Definition filter_click (now : Z) (k : jstring) (f : task_filter) (t : tree) : tree :=
  match shown_child k t with Some c => update_child now c (handleTaskFilterClick f) t | None => t end.

(** An event on the page. *)
Definition tree_event_step (now : Z) (e : tree_event) (t : tree) : tree :=
  if tr_crashed t then t
  else match e with
       | RefreshClick => refresh_click now t
       | ToggleClick k => toggle_click now k t
       | FilterClick k f => filter_click now k f t
       end.

Definition tree_keep_polling (t : tree) : bool := qd_keep_polling (tr_query t).

#[export] Instance tree_poller : Poller tree (Z * query_info) := {
  poll_init := tree_constructor;
  on_refresh t := t;
  on_response := tree_on_response;
  on_failure := tree_on_failure;
  keep_polling := tree_keep_polling;
  on_user t t' := ∃ now e, t' = tree_event_step now e t;
}.
End tree.
(** ** The children of the view *)

(** The children that the page shows. *)
Definition listed (s : qd_state) : list query_child :=
  match qd_query s with
  | Some q =>
    if qd_initialized s
    then map (λ st, StageSummary st (feq (retryPolicy (qi q)) (js "TASK"))) (getStages_opt (lastSnapshotStage s))
    else []
  | None => []
  end.

Lemma cc_VOpt {C H} o : child_components (VOpt o : vnode C H) = [].
Proof. by destruct o. Qed.
Lemma cc_VWhen {C H} b (v : vnode C H) : child_components v = [] → child_components (VWhen b v) = [].
Proof. intros Hv. by destruct b. Qed.
Lemma cc_map {C H A} (f : A → vnode C H) l :
  (∀ x, child_components (f x) = []) → concat (map child_components (map f l)) = [].
Proof. intros Hf. induction l as [|x l IH]; [done|]. cbn [map concat]. by rewrite Hf, IH. Qed.
Lemma cc_embedded {C H H'} (f : Empty_set → C) (g : H → H') (v : vnode Empty_set H) :
  child_components (vmap f g v) = [].
Proof. rewrite child_components_vmap. by destruct (child_components v) as [|[]]. Qed.

Ltac no_children :=
  unfold el, T; cbn [child_components map concat app];
  repeat first [rewrite cc_VOpt | rewrite cc_VWhen by (by cbn) | rewrite cc_map by (intros; by cbn)];
  cbn [app]; done.

Lemma cc_session q : child_components (session_table q) = [].
Proof. unfold session_table. no_children. Qed.
Lemma cc_warnings q : child_components (renderWarningInfo q) = [].
Proof. unfold renderWarningInfo. destruct (warnings q) as [|w ws]; [done|]. unfold warnings_view. no_children. Qed.
Lemma cc_prepared q : child_components (renderPreparedQuery q) = [].
Proof. unfold renderPreparedQuery. by destruct (preparedQuery q). Qed.
Lemma cc_failure q v : renderFailureInfo q = Ok v → child_components v = [].
Proof.
  unfold renderFailureInfo. destruct (failureInfo q) as [info|]; [|by intros [= <-]].
  intros (code & _ & Hv)%res_bind_ok. apply res_bind_ok in Hv as (trace & _ & <-%Ok_inj).
  unfold failure_view. no_children.
Qed.
Lemma cc_resources b stats d : child_components (resource_table b stats d) = [].
Proof.
  unfold resource_table, resource_rows_input, resource_rows_memory, resource_rows_output. no_children.
Qed.

Section children.
Context `{DateParse, LocalTime}.

Lemma cc_execution q stats : child_components (execution_table q stats) = [].
Proof. unfold execution_table. no_children. Qed.

Lemma cc_timeline s v : timeline_table s = Ok v → child_components v = [].
Proof. unfold timeline_table. intros (memory & _ & <-%Ok_inj)%res_bind_ok. no_children. Qed.

Lemma cc_stages s b :
  child_components (renderStages s b) =
  map (λ st, StageSummary st b) (getStages_opt (lastSnapshotStage s)).
Proof.
  unfold renderStages, stages_section, renderStageRefreshButton, StageList_render.
  assert (child_components (if stageRefresh s then refresh_on_button else refresh_off_button) = []) as Hb
    by (by destruct (stageRefresh s)).
  unfold el, T. cbn [child_components map concat]. rewrite Hb. cbn [app]. rewrite !app_nil_r.
  destruct (getStages_opt (lastSnapshotStage s)) as [|st l]; [done|].
  unfold stages_table, el. cbn [child_components map concat app]. rewrite !app_nil_r. f_equal.
  induction l as [|x l IH]; [done|]. cbn [map concat child_components app]. by rewrite IH.
Qed.

(** The page has exactly one child for each stage of the snapshot. *)
Lemma view_children pathname s v : qd_render pathname s = Ok v → child_components v = listed s.
Proof.
  unfold qd_render, listed. destruct (qd_query s) as [q|];
    [|intros [= <-]; by destruct (qd_initialized s)].
  destruct (qd_initialized s); cbn [negb]; [|by intros [= <-]].
  intros (stats & _ & Hv)%res_bind_ok. apply res_bind_ok in Hv as (header & _ & Hv).
  apply res_bind_ok in Hv as (timeline & Ht & Hv). apply res_bind_ok in Hv as (failure & Hf & <-%Ok_inj).
  unfold query_page, el, T. cbn [child_components map concat app].
  rewrite cc_embedded, cc_session, cc_execution, cc_resources, (cc_timeline _ _ Ht), cc_warnings,
    (cc_failure _ _ Hf), cc_prepared, cc_stages. cbn [app]. by rewrite !app_nil_r.
Qed.
End children.

(** ** The tree refines the query component *)

(** The same page with another view of its state. *)
Definition map_page {S S'} (f : S → S') (p : page S) : page S' := {|
  comp := f (comp p); timeoutId := timeoutId p; live := live p; inflight := inflight p; next_timer := next_timer p |}.

Section refinement.
Context `{DateParse, LocalTime, UrlParser, JsSort}.
Context (pathname : jstring).
Let P := tree_poller pathname.
Let Q := qd_poller pathname.

Lemma flush_query now s cs s' cs' k :
  flush pathname now s cs = Ok (s', cs') → qd_update pathname now s k = k s'.
Proof.
  unfold flush, qd_update, qd_didUpdate. intros (view & Hv & Hf)%res_bind_ok. rewrite Hv.
  apply res_bind_ok in Hf as (shown & _ & Hf). destruct (redraw_due now s).
  - apply res_bind_ok in Hf as (view2 & _ & Hf). apply res_bind_ok in Hf as (shown2 & _ & Hf).
    apply res_bind_ok in Hf as (shown3 & _ & [= <- <-]). done.
  - apply res_bind_ok in Hf as (shown1 & _ & [= <- <-]). done.
Qed.

(** An update that ends without a crash is an update of the query component. *)
Lemma update_tree_done now s cs t :
  update_tree pathname now s cs done_tree = Done t →
  tr_crashed t = false ∧ qd_update pathname now s Done = Done (tr_query t).
Proof.
  unfold update_tree. destruct (flush pathname now s cs) as [[s' cs']|] eqn:Hf; [|done].
  intros [= <-]. split; [done|]. by apply (flush_query now s cs s' cs').
Qed.

Lemma update_tree_crash now s cs t :
  update_tree pathname now s cs done_tree = Escaped t → tr_crashed t = true.
Proof. unfold update_tree. destruct (flush pathname now s cs) as [[s' cs']|]; [done|]. by intros [= <-]. Qed.

Lemma response_query r t :
  tr_crashed t = false →
  match tree_on_response pathname r t with
  | Done t' => tr_crashed t' = false ∧ qd_on_response pathname r (tr_query t) = Done (tr_query t')
  | Escaped t' => tr_crashed t' = true ∨ (tr_crashed t' = false ∧
      qd_on_response pathname r (tr_query t) = Escaped (tr_query t'))
  end.
Proof.
  intros Hc. destruct r as [now q]. unfold tree_on_response, qd_on_response.
  destruct (queryStats (qi q)) as [stats|]; [|by right]. rewrite Hc. unfold update_tree at 1.
  destruct (flush pathname now (qd_received now q stats (tr_query t)) (tr_stages t)) as [[s1 cs1]|] eqn:Hf; [|by left].
  rewrite (flush_query _ _ _ _ _ _ Hf). destruct (_ || _); [done|]. destruct (ngeb _ _); [|done].
  destruct (update_tree _ _ _ _ _) as [t'|t'] eqn:Hu; [by apply update_tree_done in Hu|].
  left. by apply update_tree_crash in Hu.
Qed.

Lemma failure_query now t :
  tr_crashed t = false →
  match tree_on_failure pathname now t with
  | Done t' => tr_crashed t' = false ∧ qd_on_failure pathname now (tr_query t) = Done (tr_query t')
  | Escaped t' => tr_crashed t' = true
  end.
Proof.
  intros Hc. unfold tree_on_failure, qd_on_failure. rewrite Hc.
  destruct (update_tree _ _ _ _ _) as [t'|t'] eqn:Hu; [by apply update_tree_done in Hu|].
  by apply update_tree_crash in Hu.
Qed.

Lemma update_child_query now c f t : tr_query (update_child now c f t) = tr_query t.
Proof. destruct c as [st b]. unfold update_child. by destruct (_ ≫= _). Qed.

Lemma event_query now e t :
  tr_crashed t = false → tr_crashed (tree_event_step pathname now e t) = false →
  tr_query (tree_event_step pathname now e t) = tr_query t ∨
  @on_user _ _ Q (tr_query t) (tr_query (tree_event_step pathname now e t)).
Proof.
  intros Hc. unfold tree_event_step, refresh_click, toggle_click, filter_click. rewrite Hc. destruct e as [|k|k f].
  - destruct (handleStageRefreshClick (tr_query t)) as [s|] eqn:Hs; [|by left]. intros Ht. right.
    exists now, s. split; [done|]. destruct (update_tree _ _ _ _ _) as [t'|t'] eqn:Hu.
    + apply update_tree_done in Hu as [_ Hu]. by rewrite Hu.
    + apply update_tree_crash in Hu. cbn in Ht. congruence.
  - left. destruct (shown_child _ _ _); [apply update_child_query|done].
  - left. destruct (shown_child _ _ _); [apply update_child_query|done].
Qed.

(** A page that has been removed does not come back. *)
Lemma crashed_stays : @preserved _ _ P (λ t, tr_crashed t = true).
Proof.
  unfold preserved. split_and!; [done| | |].
  - intros [now q] t Ht. cbn. destruct (queryStats (qi q)); [|done]. by rewrite Ht.
  - intros now t Ht. cbn. unfold tree_on_failure. by rewrite Ht.
  - intros t t' Ht (now & e & ->). unfold tree_event_step. by rewrite Ht.
Qed.

Lemma tree_step_query p p' :
  tr_crashed (comp p') = false → @step _ _ P p p' →
  map_page tr_query p' = map_page tr_query p ∨ @step _ _ Q (map_page tr_query p) (map_page tr_query p').
Proof.
  intros Hc Hs.
  assert (tr_crashed (comp p) = false) as Hp.
  { destruct (tr_crashed (comp p)) eqn:E; [|done].
    rewrite (@preserved_step _ _ P _ p p' crashed_stays E Hs) in Hc. done. }
  destruct Hs as [p u Hin|p r Hi|p now Hi|p t (now & e & ->)].
  - right. by apply (@step_fire _ _ Q (map_page tr_query p)).
  - right. pose proof (response_query r (comp p) Hp) as Hr. rewrite (@comp_answer _ _ P) in Hc.
    assert (map_page tr_query (@answer _ _ P (@on_response _ _ P r) p)
            = @answer _ _ Q (@on_response _ _ Q r) (map_page tr_query p)) as ->
      ; [|by apply (@step_response _ _ Q (map_page tr_query p))].
    unfold answer. cbn in Hc |- *. destruct (tree_on_response pathname r (comp p)) as [t'|t'].
    + destruct Hr as [_ ->]. unfold resetTimer. cbn. unfold tree_keep_polling.
      by destruct (qd_keep_polling (tr_query t')).
    + destruct Hr as [Hr|[_ ->]]; [cbn in Hc; congruence|done].
  - right. pose proof (failure_query now (comp p) Hp) as Hr. rewrite (@comp_answer _ _ P) in Hc.
    assert (map_page tr_query (@answer _ _ P (@on_failure _ _ P now) p)
            = @answer _ _ Q (@on_failure _ _ Q now) (map_page tr_query p)) as ->
      ; [|by apply (@step_failure _ _ Q (map_page tr_query p))].
    unfold answer. cbn in Hc |- *. destruct (tree_on_failure pathname now (comp p)) as [t'|t'].
    + destruct Hr as [_ ->]. unfold resetTimer. cbn. unfold tree_keep_polling.
      by destruct (qd_keep_polling (tr_query t')).
    + cbn in Hc. congruence.
  - destruct (event_query now e (comp p) Hp Hc) as [E|Hu].
    + left. unfold map_page. cbn. by rewrite E.
    + right. by apply (@step_user _ _ Q (map_page tr_query p)).
Qed.

(** C6: The query page with its stages refines the query component: as long as no exception has
    removed the page, forgetting the stages turns every run of the page into a run of the
    component alone, with the same timers and requests.  What the component guarantees
    therefore holds on the page: the time series stay aligned. *)
Theorem tree_refines_query p :
  @reachable _ _ P p → tr_crashed (comp p) = false →
  @reachable _ _ Q (map_page tr_query p) ∧ histories_aligned (tr_query (comp p)).
Proof.
  intros Hp Hc.
  assert (@reachable _ _ Q (map_page tr_query p)) as Hq.
  { revert p Hp Hc. apply (rtc_ind_r (λ p, tr_crashed (comp p) = false → @reachable _ _ Q (map_page tr_query p))
      (@mounted _ _ P)); [intros _; apply rtc_refl|].
    intros p p' _ Hs IH Hc.
    assert (tr_crashed (comp p) = false) as Hp.
    { destruct (tr_crashed (comp p)) eqn:E; [|done].
      rewrite (@preserved_step _ _ P _ p p' crashed_stays E Hs) in Hc. done. }
    destruct (tree_step_query p p' Hc Hs) as [->|Hstep]; [by apply IH|].
    eapply rtc_r; [by apply IH|done]. }
  split; [done|]. apply (@reachable_invariant _ _ Q histories_aligned _ (aligned_invariant pathname) Hq).
Qed.
End refinement.

(** ** The stages keep their settings *)

(** What the user has set for a stage: whether it is expanded, and the filter of its tasks. *)
Definition settings (k : jstring) (cs : kids) : bool * task_filter :=
  (expanded (child_state k cs), taskFilter (child_state k cs)).

Section settings.
Context `{DateParse, LocalTime, UrlParser, JsSort}.
Context (pathname : jstring).
Let P := tree_poller pathname.

Lemma commit_keys now ch cs : map fst (commit_children now ch cs) = map child_key ch.
Proof. unfold commit_children. rewrite map_map. apply map_ext. by intros [st b]. Qed.

Lemma didUpdate_settings now st s :
  expanded (summary_didUpdate now st s).2 = expanded s ∧ taskFilter (summary_didUpdate now st s).2 = taskFilter s.
Proof. unfold summary_didUpdate. by destruct (match lastRender s with None => true | Some _ => _ end). Qed.

Lemma commit_settings now ch cs k :
  k ∈ map child_key ch → settings k (commit_children now ch cs) = settings k cs.
Proof.
  unfold settings, child_state. induction ch as [|[st b] ch IH]; [by intros ?%elem_of_nil|].
  cbn [map child_key commit_children]. intros Hin. cbn [map_get]. case_decide as Hk.
  - subst k. cbn [default from_option id]. destruct (map_get (stageId st) cs) as [s|]; [|done].
    cbn [default from_option id]. by destruct (didUpdate_settings now st s) as [-> ->].
  - apply IH. apply elem_of_cons in Hin as [E|Hin]; [congruence|done].
Qed.

Lemma listed_lastRender now s : listed (set_lastRender now s) = listed s.
Proof. done. Qed.

Lemma flush_settings now s cs s' cs' :
  flush pathname now s cs = Ok (s', cs') →
  map fst cs' = map child_key (listed s') ∧
  ∀ k, k ∈ map fst cs' → settings k cs' = settings k cs.
Proof.
  unfold flush. intros (view & Hv & Hf)%res_bind_ok. apply view_children in Hv. rewrite Hv in Hf.
  apply res_bind_ok in Hf as (shown & _ & Hf). destruct (redraw_due now s).
  - apply res_bind_ok in Hf as (view2 & Hv2 & Hf). apply view_children in Hv2. rewrite Hv2, listed_lastRender in Hf.
    apply res_bind_ok in Hf as (shown2 & _ & Hf). apply res_bind_ok in Hf as (shown3 & _ & [= <- <-]).
    rewrite commit_keys. split; [done|]. intros k Hk. by rewrite !commit_settings.
  - apply res_bind_ok in Hf as (shown1 & _ & [= <- <-]). rewrite commit_keys. split; [done|].
    intros k Hk. by apply commit_settings.
Qed.

(** A relation between trees: the second lists its stages, with the settings of the first. *)
Definition keeps (cs : kids) (t : tree) : Prop :=
  map fst (tr_stages t) = map child_key (listed (tr_query t)) ∧
  ∀ k, k ∈ map fst (tr_stages t) → settings k (tr_stages t) = settings k cs.

Lemma update_keeps now s cs t : update_tree pathname now s cs done_tree = Done t → keeps cs t.
Proof.
  unfold update_tree. destruct (flush pathname now s cs) as [[s' cs']|] eqn:Hf; [|done].
  intros [= <-]. by apply flush_settings in Hf.
Qed.

Lemma keeps_trans now s cs s1 cs1 t :
  flush pathname now s cs = Ok (s1, cs1) → keeps cs1 t → listed (tr_query t) = listed s1 → keeps cs t.
Proof.
  intros Hf [Hk Hs] Hl. apply flush_settings in Hf as [Hk1 Hs1]. split; [done|].
  intros k Hin. rewrite Hs by done. apply Hs1. by rewrite Hk1, <-Hl, <-Hk.
Qed.

Lemma flush_listed now s cs s' cs' : flush pathname now s cs = Ok (s', cs') → listed s' = listed s.
Proof.
  unfold flush. intros (view & _ & Hf)%res_bind_ok. apply res_bind_ok in Hf as (shown & _ & Hf).
  destruct (redraw_due now s).
  - apply res_bind_ok in Hf as (view2 & _ & Hf). apply res_bind_ok in Hf as (shown2 & _ & Hf).
    by apply res_bind_ok in Hf as (shown3 & _ & [= <- <-]).
  - by apply res_bind_ok in Hf as (shown1 & _ & [= <- <-]).
Qed.

Lemma response_keeps r t t' :
  tr_crashed t = false → tree_on_response pathname r t = Done t' → keeps (tr_stages t) t'.
Proof.
  intros Hc. destruct r as [now q]. unfold tree_on_response. rewrite Hc.
  destruct (queryStats (qi q)) as [stats|]; [|done]. unfold update_tree at 1.
  destruct (flush pathname now (qd_received now q stats (tr_query t)) (tr_stages t)) as [[s1 cs1]|] eqn:Hf; [|done].
  pose proof (flush_settings _ _ _ _ _ Hf) as Hk.
  destruct (_ || _); [by intros [= <-]|]. destruct (ngeb _ _); [|by intros [= <-]].
  intros Hu. eapply keeps_trans; [exact Hf|by eapply update_keeps|].
  revert Hu. unfold update_tree. destruct (flush pathname now _ cs1) as [[s2 cs2]|] eqn:Hf2; [|done].
  intros [= <-]. cbn [tr_query]. by rewrite (flush_listed _ _ _ _ _ Hf2).
Qed.

(** C7: The settings of the stages survive a refresh: after an answer that the page survives it
    has exactly one row for each stage of the snapshot, in order; a stage that was shown before
    is as expanded and filtered as the user left it, and a stage that was not starts collapsed,
    with all tasks. *)
Theorem stage_settings_kept p r :
  tr_crashed (comp p) = false → queryStats (qi r.2) ≠ None →
  let t := comp p in
  let t' := comp (@answer _ _ P (@on_response _ _ P r) p) in
  tr_crashed t' = false →
  map fst (tr_stages t') = map child_key (listed (tr_query t')) ∧
  (∀ k, k ∈ map fst (tr_stages t') → k ∈ map fst (tr_stages t) →
     settings k (tr_stages t') = settings k (tr_stages t)) ∧
  (∀ k, k ∈ map fst (tr_stages t') → k ∉ map fst (tr_stages t) → settings k (tr_stages t') = (false, TF_ALL)).
Proof.
  intros Hc Hst. cbv zeta. rewrite (@comp_answer _ _ P). cbn. intros Hc'.
  pose proof (response_query pathname r (comp p) Hc) as Hr.
  destruct (tree_on_response pathname r (comp p)) as [t'|t'] eqn:Ho.
  - apply response_keeps in Ho as [Hk Hs]; [|done]. split_and!; [done|by intros k Hin _; apply Hs|].
    intros k Hin Hnot. cbn in *. rewrite Hs by done. unfold settings, child_state.
    assert (map_get k (tr_stages (comp p)) = None) as ->; [|done].
    apply map_get_None. intros Hk'. apply Hnot. exact Hk'.
  - destruct Hr as [Hr|[_ Hr]]; [cbn in Hc'; congruence|]. exfalso. destruct r as [now q]. cbn in Hst.
    revert Ho. unfold tree_on_response. rewrite Hc. destruct (queryStats (qi q)) as [stats|]; [|done].
    unfold update_tree at 1. destruct (flush _ _ _ _) as [[s1 cs1]|]; [|by intros [= <-]].
    destruct (_ || _); [done|]. destruct (ngeb _ _); [|done].
    intros Hu%update_tree_crash. cbn in Hc'. congruence.
Qed.

(** A click on the button of a stage changes this stage only. *)
Theorem stage_toggle_local now k t :
  tr_crashed t = false → shown_child pathname k t ≠ None →
  let t' := tree_event_step pathname now (ToggleClick k) t in
  tr_query t' = tr_query t ∧
  (tr_crashed t' = false →
   settings k (tr_stages t') = (negb (settings k (tr_stages t)).1, (settings k (tr_stages t)).2)) ∧
  ∀ k', k' ≠ k → settings k' (tr_stages t') = settings k' (tr_stages t).
Proof.
  intros Hc Hs. unfold tree_event_step, refresh_click, toggle_click, filter_click. rewrite Hc. cbv zeta.
  destruct (shown_child pathname k t) as [c|] eqn:Ec; [|done]. split; [apply update_child_query|].
  assert (child_key c = k) as <-.
  { revert Ec. unfold shown_child. destruct (qd_render _ _); [|done]. by intros [_ Hk%jeqb_eq]%find_some. }
  destruct c as [st b]. cbn [child_key]. unfold update_child. cbv zeta.
  destruct (_ ≫= _); cbn [tr_stages tr_crashed crash_tree]; split.
  - intros _. unfold settings, child_state. rewrite !map_get_set_eq. cbn [default from_option id].
    destruct (didUpdate_settings now st (toggleExpanded (default summary_constructor (map_get (stageId st) (tr_stages t)))))
      as [-> ->]. done.
  - intros k' Hk. unfold settings, child_state. by rewrite !map_get_set_ne by done.
  - done.
  - intros k' Hk. unfold settings, child_state. by rewrite !map_get_set_ne by done.
Qed.
End settings.

(** ** Documents that the page can show *)

Definition good_task `{UrlParser} (t : task) : bool :=
  is_ok (new_URL (self t)) && match parseDataSize (t_rawInputDataSize t) with Some _ => true | None => false end.
Definition good_stage `{UrlParser} (st : stage) : bool :=
  match plan st with
  | None => true
  | Some _ => match stageStats st with Some _ => forallb good_task (tasks st) | None => false end
  end.
Definition good_failure (q : query_info) : bool :=
  match failureInfo q with
  | None => true
  | Some info => match errorCode (qi q) with Some _ => printable info | None => false end
  end.
Definition good_memory (q : query_info) : bool :=
  match queryStats (qi q) with
  | Some stats => match parseDataSize (totalMemoryReservation stats) with Some _ => true | None => false end
  | None => false
  end.

(** A document with statistics, a text for its state, an error code and complete stacks where it
    has a failure, and stages with statistics whose tasks have a readable address and size. *)
Definition good_info `{UrlParser} (q : query_info) : bool :=
  showable (qi q) && good_failure q && good_memory q && forallb good_stage (getStages_opt (outputStage q)).

Lemma res_map_is_ok {A B} (f : A → res B) l : Forall (λ x, is_ok (f x) = true) l → is_ok (res_map f l) = true.
Proof.
  induction 1 as [|x l Hx _ IH]; [done|]. cbn [res_map]. destruct (f x); [|done]. cbn [mbind res_bind].
  by destruct (res_map f l).
Qed.

Lemma is_ok_bind {A B} (m : res A) (f : A → res B) :
  is_ok m = true → (∀ a, is_ok (f a) = true) → is_ok (m ≫= f) = true.
Proof. intros Hm Hf. destruct m as [a|]; [apply Hf|done]. Qed.

Section survival.
Context `{DateParse, LocalTime, UrlParser, JsSort}.
Context (pathname : jstring).
Let P := tree_poller pathname.

Lemma hostname_ok t : good_task t = true →
  is_ok (getHostname (self t)) = true ∧ is_ok (getPort (self t)) = true ∧ is_ok (getHostAndPort (self t)) = true.
Proof.
  unfold good_task. intros [Hu _]%andb_true_iff. unfold getHostname, getPort, getHostAndPort.
  destruct (new_URL (self t)) as [u|]; [|done]. cbn. split_and!; try done. by destruct (_ && _).
Qed.

Lemma row_ok now ports retries t : good_task t = true → is_ok (TaskList_row now ports retries t) = true.
Proof.
  intros Ht. destruct (hostname_ok t Ht) as (Hh & _ & Hp). unfold TaskList_row.
  apply is_ok_bind; [done|]. intros host. apply is_ok_bind; [by destruct ports|]. intros text.
  apply is_ok_bind; [|done]. unfold good_task in Ht. apply andb_true_iff in Ht as [_ Hs].
  by destruct (parseDataSize (t_rawInputDataSize t)).
Qed.

Lemma ports_ok ts m : Forall (λ t, good_task t = true) ts → is_ok (port_conflict ts m) = true.
Proof.
  intros Hts. revert m. induction Hts as [|t ts Ht _ IH]; intros m; [done|]. cbn [port_conflict].
  destruct (hostname_ok t Ht) as (Hh & Hp & _). apply is_ok_bind; [done|]. intros host.
  apply is_ok_bind; [done|]. intros port. by destruct (match map_get _ _ with Some _ => _ | None => _ end).
Qed.

Lemma tasks_ok now ts retries : Forall (λ t, good_task t = true) ts → is_ok (TaskList_render now (Some ts) retries) = true.
Proof.
  intros Hts. unfold TaskList_render. destruct ts as [|t ts]; [done|].
  apply is_ok_bind; [by apply ports_ok|]. intros ports. apply is_ok_bind; [|done].
  apply res_map_is_ok. eapply Forall_impl; [exact Hts|]. intros t' Ht'. by apply row_ok.
Qed.

Lemma summary_ok now st retries s : good_stage st = true → is_ok (StageSummary_render now (Some st) retries s) = true.
Proof.
  unfold good_stage, StageSummary_render. destruct (plan st); [|done]. destruct (stageStats st); [|done].
  intros Hts. cbn [deref mbind res_bind]. apply is_ok_bind; [|done]. apply tasks_ok. unfold listed_tasks.
  apply Forall_forall. intros t [Hin _]%elem_of_filter_bool. destruct (expanded s); [|by apply elem_of_nil in Hin].
  rewrite forallb_forall in Hts. by apply Hts, list_elem_of_In.
Qed.

Lemma header_ok q : showable q = true → is_ok (header_render pathname q) = true.
Proof.
  intros Hs. pose proof (showable_color q Hs) as Hc.
  unfold showable in Hs. apply andb_true_iff in Hs as [Hst Hs].
  unfold has_stats in Hst. destruct (queryStats q) as [stats|] eqn:Est; [|done].
  assert (is_ok (getProgressBarPercentage q) = true) as Hp.
  { unfold getProgressBarPercentage. rewrite Est. cbn. cases. }
  assert (is_ok (getProgressBarTitle q false) = true) as Ht.
  { unfold getProgressBarTitle. rewrite Est. cbn [deref mbind res_bind].
    destruct (getHumanReadableState q false); [|done]. destruct (getProgressBarPercentage q); [|done].
    cbn [mbind res_bind]. by destruct (_ && _). }
  unfold header_render. apply is_ok_bind; [|done]. unfold renderProgressBar, progressBar_ended, progressBar_running.
  destruct (isQueryEnded q); (apply is_ok_bind; [done|]; intros ?; apply is_ok_bind; [done|]; intros ?; by apply is_ok_bind).
Qed.

(** A state of the component that can be rendered. *)
Record presentable (s : qd_state) : Prop := {
  pr_query q : qd_query s = Some q → good_info q = true;
  pr_stages : Forall (λ st, good_stage st = true) (getStages_opt (lastSnapshotStage s));
  pr_memory : Forall is_Some (reservedMemory s);
}.

Lemma page_ok s : presentable s → is_ok (qd_render pathname s) = true.
Proof.
  intros [Hq _ Hm]. unfold qd_render. destruct (qd_query s) as [q|]; [|done].
  destruct (qd_initialized s); cbn [negb]; [|done]. specialize (Hq q eq_refl). unfold good_info in Hq.
  apply andb_true_iff in Hq as [[[Hs Hf]%andb_true_iff _]%andb_true_iff _].
  apply is_ok_bind.
  { unfold showable, has_stats in Hs. apply andb_true_iff in Hs as [Hs _]. by destruct (queryStats (qi q)). }
  intros stats. apply is_ok_bind; [by apply header_ok|]. intros header. apply is_ok_bind.
  { unfold timeline_table. apply is_ok_bind; [|done]. unfold on_nullable. apply is_ok_bind; [|done].
    destruct (last (reservedMemory s)) as [m|] eqn:El; [|done]. apply last_Some_elem_of in El.
    rewrite Forall_forall in Hm. by destruct (Hm m El) as [x ->]. }
  intros timeline. apply is_ok_bind; [|done]. unfold renderFailureInfo, good_failure in *.
  destruct (failureInfo q) as [info|]; [|done]. destruct (errorCode (qi q)); [|done]. cbn [deref mbind res_bind].
  destruct (stack_trace_total info Hf) as [trace ->]. done.
Qed.

Lemma children_ok now s cs : presentable s → is_ok (render_children now (listed s) cs) = true.
Proof.
  intros [_ Hst _]. apply res_map_is_ok, Forall_forall. intros c Hc. unfold listed in Hc.
  destruct (qd_query s); [|by apply elem_of_nil in Hc]. destruct (qd_initialized s); [|by apply elem_of_nil in Hc].
  apply list_elem_of_In, in_map_iff in Hc as (st & <- & Hin%list_elem_of_In). cbn. apply summary_ok.
  by apply (proj1 (Forall_forall _ _) Hst).
Qed.

Lemma presentable_lastRender now s : presentable s → presentable (set_lastRender now s).
Proof. by intros []. Qed.

Lemma flush_ok now s cs : presentable s → ∃ s' cs', flush pathname now s cs = Ok (s', cs') ∧ presentable s'.
Proof.
  intros Hs. pose proof (page_ok s Hs) as Hv. unfold flush.
  destruct (qd_render pathname s) as [v|] eqn:Ev; [|done]. apply view_children in Ev. cbn [mbind res_bind]. rewrite Ev.
  pose proof (children_ok now s cs Hs) as Hc. destruct (render_children now (listed s) cs); [|done]. cbn [mbind res_bind].
  destruct (redraw_due now s).
  - pose proof (presentable_lastRender now s Hs) as Hs2. pose proof (page_ok _ Hs2) as Hv2.
    destruct (qd_render pathname (set_lastRender now s)) as [v2|] eqn:Ev2; [|done]. apply view_children in Ev2.
    cbn [mbind res_bind]. rewrite Ev2.
    assert (∀ cs, ∃ x, render_children now (listed (set_lastRender now s)) cs = Ok x) as Hr.
    { intros cs'. pose proof (children_ok now _ cs' Hs2) as Hc'. destruct (render_children _ _ cs'); [by eexists|done]. }
    edestruct Hr as [x1 ->]. cbn [mbind res_bind]. edestruct Hr as [x2 ->]. cbn [mbind res_bind]. by eauto.
  - pose proof (children_ok now s (commit_children now (listed s) cs) Hs) as Hc1.
    destruct (render_children now (listed s) (commit_children now (listed s) cs)); [|done]. cbn [mbind res_bind]. by eauto.
Qed.

(** The whole tree can be rendered. *)
Definition healthy (t : tree) : Prop := tr_crashed t = false ∧ presentable (tr_query t).

Lemma update_ok now s cs :
  presentable s → ∃ t, update_tree pathname now s cs done_tree = Done t ∧ healthy t.
Proof.
  intros Hs. destruct (flush_ok now s cs Hs) as (s' & cs' & Hf & Hs').
  unfold update_tree. rewrite Hf. by eexists.
Qed.

Lemma received_presentable now q stats s :
  good_info q = true → presentable s → presentable (qd_received now q stats s).
Proof.
  intros Hq [Hp1 Hp2 Hp3]. split; cbn; [by intros q' [= <-]| |done].
  destruct (stageRefresh s); [|done]. unfold good_info in Hq. apply andb_true_iff in Hq as [_ Hq].
  apply Forall_forall. intros st Hin. rewrite forallb_forall in Hq. by apply Hq, list_elem_of_In.
Qed.

Lemma measured_presentable e q stats s s1 :
  queryStats (qi q) = Some stats → good_info q = true → presentable s1 → presentable (qd_measured e q stats s s1).
Proof.
  intros Hst Hq [Hp1 Hp2 Hp3]. split; cbn; [done|done|].
  rewrite addToHistory_drop. apply Forall_drop, Forall_app. split; [done|]. constructor; [|constructor].
  unfold good_info, good_memory in Hq. rewrite Hst in Hq.
  apply andb_true_iff in Hq as [[_ Hm]%andb_true_iff _]. by destruct (parseDataSize (totalMemoryReservation stats)).
Qed.

Lemma response_ok r t :
  good_info r.2 = true → healthy t → ∃ t', tree_on_response pathname r t = Done t' ∧ healthy t'.
Proof.
  destruct r as [now q]. cbn [snd]. intros Hq [Hc Hs]. unfold tree_on_response.
  assert (∃ stats, queryStats (qi q) = Some stats) as [stats Hst].
  { unfold good_info, good_memory in Hq. apply andb_true_iff in Hq as [[_ Hm]%andb_true_iff _].
    destruct (queryStats (qi q)) as [stats|]; [by exists stats|done]. }
  rewrite Hst, Hc. unfold update_tree at 1.
  destruct (flush_ok now (qd_received now q stats (tr_query t)) (tr_stages t)) as (s1 & cs1 & -> & Hp1);
    [by apply received_presentable|].
  destruct (_ || _); [by eexists|]. destruct (ngeb _ _); [|by eexists].
  apply update_ok. by apply measured_presentable.
Qed.

Lemma failure_ok now t : healthy t → ∃ t', tree_on_failure pathname now t = Done t' ∧ healthy t'.
Proof.
  intros [Hc Hs]. unfold tree_on_failure. rewrite Hc. apply update_ok. by destruct Hs.
Qed.

Lemma shown_child_listed k t c :
  shown_child pathname k t = Some c → c ∈ listed (tr_query t) ∧ child_key c = k.
Proof.
  unfold shown_child. destruct (qd_render pathname (tr_query t)) as [v|] eqn:Ev; [|done].
  apply view_children in Ev. rewrite Ev. intros [Hin Hk]%find_some. split; [by apply list_elem_of_In|].
  by apply jeqb_eq in Hk.
Qed.

Lemma update_child_ok now c f t : healthy t → c ∈ listed (tr_query t) → healthy (update_child now c f t).
Proof.
  intros [Hc Hs] Hin. destruct c as [st b].
  assert (good_stage st = true) as Hst.
  { destruct Hs as [_ Hst _]. unfold listed in Hin. destruct (qd_query _); [|by apply elem_of_nil in Hin].
    destruct (qd_initialized _); [|by apply elem_of_nil in Hin].
    apply list_elem_of_In, in_map_iff in Hin as (st' & [= -> _] & Hin%list_elem_of_In).
    by apply (proj1 (Forall_forall _ _) Hst). }
  assert (∀ cs, is_ok (render_child now cs (StageSummary st b)) = true) as Hr by (intros cs; by apply summary_ok).
  assert (∀ cs1 cs2, is_ok (v1 ← render_child now cs1 (StageSummary st b);
    render_child now cs2 (StageSummary st b)) = true) as Hb by (intros; by apply is_ok_bind).
  unfold update_child. cbv zeta.
  match goal with |- healthy (match ?m with _ => _ end) => assert (is_ok m = true) as Hm by apply Hb; by destruct m end.
Qed.

Lemma event_ok now e t :
  healthy t → healthy (tree_event_step pathname now e t) ∧
  tree_keep_polling (tree_event_step pathname now e t) = tree_keep_polling t.
Proof.
  intros Ht. pose proof Ht as [Hc Hs]. unfold tree_event_step, refresh_click, toggle_click, filter_click. rewrite Hc. destruct e as [|k|k f].
  - unfold handleStageRefreshClick.
    assert (∀ s cs, presentable s → qd_keep_polling s = qd_keep_polling (tr_query t) →
      healthy (outcome_state (update_tree pathname now s cs done_tree)) ∧
      tree_keep_polling (outcome_state (update_tree pathname now s cs done_tree)) = tree_keep_polling t) as Hu.
    { intros s cs Hp Hk. destruct (update_ok now s cs Hp) as (t' & Ht' & Hh). rewrite Ht'. split; [done|].
      apply update_tree_done in Ht' as [_ Hq]. cbn. unfold tree_keep_polling. rewrite <-Hk.
      revert Hq. unfold qd_update. destruct (qd_render _ _); [|done]. intros [= <-].
      unfold qd_didUpdate. by destruct (redraw_due _ _). }
    destruct (stageRefresh (tr_query t)).
    + destruct (qd_query (tr_query t)) as [q|] eqn:Eq; cbn [deref mbind res_bind]; [|done].
      apply Hu; [|by unfold qd_keep_polling; rewrite Eq]. destruct Hs as [Hp1 Hp2 Hp3]. split; cbn; [|done|done].
      rewrite <-Eq. apply Hp1.
    + apply Hu; [|done]. destruct Hs as [Hp1 Hp2 Hp3]. by split.
  - destruct (shown_child pathname k t) as [c|] eqn:Es; [|done]. apply shown_child_listed in Es as [Hin _].
    split; [by apply update_child_ok|]. unfold tree_keep_polling. by rewrite update_child_query.
  - destruct (shown_child pathname k t) as [c|] eqn:Es; [|done]. apply shown_child_listed in Es as [Hin _].
    split; [by apply update_child_ok|]. unfold tree_keep_polling. by rewrite update_child_query.
Qed.

(** The handlers and the guard of the loop. *)
Lemma response_guard r t t' :
  tr_crashed t = false → tree_on_response pathname r t = Done t' → tree_keep_polling t' = negb (finalQueryInfo r.2).
Proof.
  intros Hc Hr. destruct r as [now q]. pose proof (response_query pathname (now, q) t Hc) as Hk. rewrite Hr in Hk.
  destruct Hk as [_ [Hq He]%response_knows]. unfold tree_keep_polling, qd_keep_polling. by rewrite Hq, He.
Qed.

Lemma failure_guard now t t' :
  tr_crashed t = false → tree_on_failure pathname now t = Done t' → tree_keep_polling t' = tree_keep_polling t.
Proof.
  intros Hc. unfold tree_on_failure. rewrite Hc. intros [_ Hq]%update_tree_done. unfold tree_keep_polling.
  revert Hq. unfold qd_update. destruct (qd_render _ _); [|done]. intros [= <-].
  unfold qd_didUpdate. by destruct (redraw_due _ _).
Qed.

(** With complete documents the tree can be rendered at any time, and the loop goes on until the
    final document. *)
Lemma tree_run_healthy rs p :
  @run _ _ P rs p → Forall (λ r, good_info r.2 = true) rs →
  healthy (comp p) ∧ inflight p + length (live p) = if existsb (λ r, finalQueryInfo r.2) rs then 0 else 1.
Proof.
  intros Hr Hg. apply (@run_until_final _ _ P healthy (λ r, good_info r.2 = true)) with (rs := rs); try done.
  - intros r t. apply response_ok.
  - intros now t. apply failure_ok.
  - intros t t' Ht (now & e & ->). by apply event_ok.
  - intros r t t' _ [Hc _]. by apply response_guard.
  - intros now t t' [Hc _]. by apply (failure_guard now).
Qed.

(** C5: With complete documents the query page never breaks: whatever the user clicks and however
    failures and answers alternate, no handler and no rendering of the page or of one of its
    stages throws; and the page polls, with exactly one request outstanding or one timer pending,
    until it has received the final document of the query, after which there is neither. *)
Theorem query_page_survives rs p :
  @run _ _ P rs p → Forall (λ r, good_info r.2 = true) rs →
  tr_crashed (comp p) = false ∧ is_ok (qd_render pathname (tr_query (comp p))) = true ∧
  inflight p + length (live p) = if existsb (λ r, finalQueryInfo r.2) rs then 0 else 1.
Proof.
  intros Hr Hg. destruct (tree_run_healthy rs p Hr Hg) as [[Hc Hs] Ha].
  split_and!; [done|by apply page_ok|done].
Qed.
End survival.

(** ** A broken task address *)

Section crash.
Context `{DateParse, LocalTime, UrlParser, JsSort}.
Context (pathname : jstring).
Let P := tree_poller pathname.

(** A stage with a task whose address is not a URL cannot be rendered when it is expanded. *)
Lemma res_map_throws {A B} (f : A → res B) l x : x ∈ l → is_ok (f x) = false → is_ok (res_map f l) = false.
Proof.
  intros Hx Hf. induction l as [|y l IH]; [by apply elem_of_nil in Hx|]. cbn [res_map].
  destruct (f y) as [v|] eqn:Ey; [|done]. cbn [mbind res_bind].
  apply elem_of_cons in Hx as [->|Hx]; [by rewrite Ey in Hf|]. specialize (IH Hx). by destruct (res_map f l).
Qed.

Lemma broken_address_throws now st retries s t :
  plan st ≠ None → t ∈ listed_tasks st s → is_ok (new_URL (self t)) = false →
  is_ok (StageSummary_render now (Some st) retries s) = false.
Proof.
  intros Hp Ht Hu. unfold StageSummary_render. destruct (plan st); [|done].
  destruct (stageStats st); [|done]. cbn [deref mbind res_bind].
  assert (is_ok (TaskList_render now (Some (listed_tasks st s)) retries) = false) as Hr;
    [|revert Hr; by destruct (TaskList_render _ _ _)].
  unfold TaskList_render. destruct (listed_tasks st s) as [|t0 ts] eqn:El; [by apply elem_of_nil in Ht|].
  destruct (showPortNumbers _) as [ports|]; [|done]. cbn [mbind res_bind].
  assert (is_ok (res_map (TaskList_row now ports retries) (t0 :: ts)) = false) as Hm;
    [|revert Hm; by destruct (res_map _ _)].
  apply (res_map_throws _ _ t); [done|]. unfold TaskList_row, getHostname. by destruct (new_URL (self t)).
Qed.

(** C30: Expanding a stage with a task whose address is not a URL removes the page, and polling then
    never ends: while the query has not ended, the click that expands such a stage (one with a
    plan) leaves nothing on the page, and whatever documents with query statistics the
    coordinator sends afterwards (also the final document of the query), and however often it
    fails to, the state that the guard of the timer reads stays as it is, so that at any time one
    request is outstanding or one timer pending. *)
Theorem removed_page_polls p now k st retries t p' :
  @reachable _ _ P p → inflight p + length (live p) = 1 → tr_crashed (comp p) = false →
  shown_child pathname k (comp p) = Some (StageSummary st retries) →
  queryEnded (tr_query (comp p)) = false → plan st ≠ None →
  t ∈ listed_tasks st (toggleExpanded (child_state (stageId st) (tr_stages (comp p)))) →
  is_ok (new_URL (self t)) = false →
  rtc (@step_on _ _ P (λ r, queryStats (qi r.2) ≠ None)) (set_comp (tree_event_step pathname now (ToggleClick k) (comp p)) p) p' →
  tr_crashed (comp p') = true ∧ tr_query (comp p') = tr_query (comp p) ∧ inflight p' + length (live p') = 1.
Proof.
  intros Hp Ha Hc Hk He Hpl Ht Hu Hr. set (t1 := tree_event_step pathname now (ToggleClick k) (comp p)) in *.
  assert (tr_crashed t1 = true ∧ tr_query t1 = tr_query (comp p)) as [Hc1 Hq1].
  { subst t1. unfold tree_event_step, toggle_click. rewrite Hc, Hk. split; [|apply update_child_query].
    unfold update_child. cbv zeta.
    assert (∀ cs : kids, is_ok (render_child now (map_set (stageId st)
      (toggleExpanded (child_state (stageId st) (tr_stages (comp p)))) cs) (StageSummary st retries)) = false) as Hthrow.
    { intros cs. cbn [render_child]. unfold child_state at 1. rewrite map_get_set_eq. cbn [default].
      by eapply broken_address_throws. }
    specialize (Hthrow (tr_stages (comp p))).
    revert Hthrow. by destruct (render_child now _ (StageSummary st retries)). }
  assert (tree_keep_polling t1 = true) as Hg.
  { unfold tree_keep_polling, qd_keep_polling. rewrite Hq1, He. by destruct (qd_query _). }
  destruct (@steps_on_alive _ _ P (λ t, t = t1) (λ r, queryStats (qi r.2) ≠ None)) with (p := set_comp t1 p) (p' := p')
    as [Hcomp Hgo]; [|..|exact Hr|].
  - done.
  - intros [now' q] s Hst ->. exists t1. split; [|done]. cbn. unfold tree_on_response. rewrite Hc1.
    cbn in Hst. by destruct (queryStats (qi q)) in Hst |- *.
  - intros now' s ->. exists t1. split; [|done]. cbn. unfold tree_on_failure. by rewrite Hc1.
  - intros s s' -> (now' & e & ->). unfold tree_event_step. by rewrite Hc1.
  - destruct (@reachable_exclusive _ _ P p Hp). by split.
  - done.
  - unfold goes_on. change (keep_polling _) with (tree_keep_polling t1). by rewrite Hg.
  - rewrite Hcomp. split_and!; [done..|]. unfold goes_on in Hgo.
    change (keep_polling (comp p')) with (tree_keep_polling (comp p')) in Hgo. by rewrite Hcomp, Hg in Hgo.
Qed.
End crash.

(** ** Witnesses *)

Definition hosts : UrlParser := λ s, Ok {| hostname := s; port := js "8080" |}.
Definition no_hosts : UrlParser := λ _, Throw TypeError.
Definition running_info : query_info := sample_info (js "RUNNING") (Some sample_stage) false.

Definition tree_sample (urls : UrlParser) : Poller tree (Z * query_info) :=
  @tree_poller sample_clock sample_zone urls insertion_js_sort (js "/ui/query.html").
(** After the first document, and after the first stage has been expanded. *)
Definition tree_first (urls : UrlParser) : page tree :=
  @answer _ _ (tree_sample urls) (@on_response _ _ (tree_sample urls) (1000%Z, running_info)) (@mounted _ _ (tree_sample urls)).
Definition tree_expanded (urls : UrlParser) : page tree :=
  set_comp (@tree_event_step sample_clock sample_zone urls insertion_js_sort (js "/ui/query.html") 1500
    (ToggleClick (js "q1.0")) (comp (tree_first urls))) (tree_first urls).
Definition tree_requesting (urls : UrlParser) : page tree := @fire _ _ (tree_sample urls) 0 (tree_expanded urls).

Lemma tree_requesting_reachable urls :
  live (tree_expanded urls) = [0] → @reachable _ _ (tree_sample urls) (tree_requesting urls).
Proof.
  intros Hl. apply (rtc_l _ _ (tree_first urls)).
  { exact (@step_response _ _ (tree_sample urls) (@mounted _ _ (tree_sample urls)) (1000%Z, running_info) Nat.lt_0_1). }
  apply (rtc_l _ _ (tree_expanded urls)).
  { apply (@step_user _ _ (tree_sample urls) (tree_first urls)). exists 1500%Z, (ToggleClick (js "q1.0")). reflexivity. }
  apply rtc_once. apply (@step_fire _ _ (tree_sample urls) (tree_expanded urls) 0). rewrite Hl. apply list_elem_of_here.
Qed.

Lemma tree_refines_query_witness :
  histories_aligned (tr_query (comp (tree_requesting hosts))) ∧
  settings (js "q1.0") (tr_stages (comp (tree_requesting hosts))) = (true, TF_ALL).
Proof.
  split; [|vm_compute; reflexivity].
  apply (@tree_refines_query sample_clock sample_zone hosts insertion_js_sort (js "/ui/query.html")).
  - apply tree_requesting_reachable. vm_compute. reflexivity.
  - vm_compute. reflexivity.
Defined.

Lemma stage_settings_kept_witness :
  let t' := comp (@answer _ _ (tree_sample hosts) (@on_response _ _ (tree_sample hosts) (4000%Z, final_info))
                    (tree_requesting hosts)) in
  settings (js "q1.0") (tr_stages t') = (true, TF_ALL) ∧ settings (js "q1.1") (tr_stages t') = (false, TF_ALL).
Proof.
  destruct (@stage_settings_kept sample_clock sample_zone hosts insertion_js_sort (js "/ui/query.html")
    (tree_requesting hosts) (4000%Z, final_info)) as (Hk & Hs & _).
  - vm_compute. reflexivity.
  - discriminate.
  - vm_compute. reflexivity.
  - split.
    + etrans; [apply Hs|vm_compute; reflexivity]; apply (bool_decide_unpack _); vm_compute; exact I.
    + etrans; [apply Hs|vm_compute; reflexivity]; apply (bool_decide_unpack _); vm_compute; exact I.
Defined.

Lemma query_page_survives_witness :
  let p := tree_first hosts in tr_crashed (comp p) = false ∧ inflight p + length (live p) = 1.
Proof.
  destruct (@query_page_survives sample_clock sample_zone hosts insertion_js_sort (js "/ui/query.html")
    [(1000%Z, running_info)] (tree_first hosts)) as (Hc & _ & Ha).
  - apply (@run_response _ _ (tree_sample hosts) [] _ (1000%Z, running_info)); [constructor|apply Nat.lt_0_1].
  - apply Forall_cons. split; [vm_compute; reflexivity|constructor].
  - exact (conj Hc Ha).
Defined.

(** A task whose address cannot be parsed: expanding its stage removes the page, and the final
    document does not end the polling. *)
Lemma removed_page_polls_witness :
  let p := @answer _ _ (tree_sample no_hosts) (@on_response _ _ (tree_sample no_hosts) (4000%Z, final_info))
             (tree_requesting no_hosts) in
  tr_crashed (comp p) = true ∧ tr_query (comp p) = tr_query (comp (tree_first no_hosts)) ∧
  inflight p + length (live p) = 1.
Proof.
  apply (@removed_page_polls sample_clock sample_zone no_hosts insertion_js_sort (js "/ui/query.html")
    (tree_first no_hosts) 1500 (js "q1.0") sample_stage false (sample_task (js "q1.0.0.0") (js "RUNNING") (js "http://host1:8080/v1/task/q1.0.0.0"))).
  - apply rtc_once. exact (@step_response _ _ (tree_sample no_hosts) (@mounted _ _ (tree_sample no_hosts))
      (1000%Z, running_info) Nat.lt_0_1).
  - vm_compute. reflexivity.
  - vm_compute. reflexivity.
  - vm_compute. reflexivity.
  - vm_compute. reflexivity.
  - discriminate.
  - vm_compute. apply list_elem_of_here.
  - reflexivity.
  - apply (rtc_l _ _ (tree_requesting no_hosts)).
    + apply (@on_fire _ _ (tree_sample no_hosts) _ (tree_expanded no_hosts) 0). vm_compute. apply list_elem_of_here.
    + apply rtc_once. apply (@on_answer _ _ (tree_sample no_hosts) _ (tree_requesting no_hosts) (4000%Z, final_info));
        [discriminate|vm_compute; apply Nat.lt_0_1].
Defined.
