(* ===== verification/SharedDocuments.v ===== *)
(** * Shared documents on the query page

    The stages of a document are objects that several fields of the state refer to: the query
    on display, the snapshot whose stages are listed, and two more snapshots.
    [componentDidUpdate] of StageSummary sorts [stage.tasks] in place, and every reference to
    the object sees it.  This file models the references: the documents live in a store, the
    state holds addresses, and drawing a stage changes the store.  The page with the store
    refines the page of QueryTree.v, where documents are values, up to the order of the tasks
    in each stage. *)

From S2P Require Import Prelude JsString JsNumber JsNumberFacts JsCollections Model QueryState Format Vdom QueryHeader Stage QueryInfo QueryDetail QueryDetailView QueryDetailFacts QueryPages QueryListFacts Samples Poller QueryTree.
From stdpp Require Import relations.

(** ** The store *)

(** The output stages of the documents that have arrived, the oldest first, as they are now. *)
Abbreviation store := (list (option stage)).

(** The addresses in [query.outputStage], [lastSnapshotStages], [lastSnapshotStage] and
    [lastSnapshotTasks]. *)
Record refs := {
  r_query : option nat;
  r_stages : option nat;
  r_stage : option nat;
  r_tasks : option nat;
}.

Definition fetch (h : store) (a : option nat) : option stage := a ≫= λ i, mjoin (h !! i).
Arguments fetch : simpl never.

Definition with_output (o : option stage) (q : query_info) : query_info := {|
  qi := qi q; outputStage := o; finalQueryInfo := finalQueryInfo q; q_session := q_session q;
  detail := detail q; q_text := q_text q; preparedQuery := preparedQuery q; warnings := warnings q;
  failureInfo := failureInfo q |}.

Definition with_docs (q : option query_info) (stages stage_ tasks_ : option stage) (s : qd_state) : qd_state := {|
  qd_query := q; lastSnapshotStages := stages; lastSnapshotStage := stage_; lastSnapshotTasks := tasks_;
  lastScheduledTime := lastScheduledTime s; lastCpuTime := lastCpuTime s; lastRowInput := lastRowInput s;
  lastByteInput := lastByteInput s; lastPhysicalInput := lastPhysicalInput s;
  lastPhysicalTime := lastPhysicalTime s; scheduledTimeRate := scheduledTimeRate s;
  cpuTimeRate := cpuTimeRate s; rowInputRate := rowInputRate s; byteInputRate := byteInputRate s;
  physicalInputRate := physicalInputRate s; reservedMemory := reservedMemory s;
  qd_initialized := qd_initialized s; queryEnded := queryEnded s; qd_lastRefresh := qd_lastRefresh s;
  qd_lastRender := qd_lastRender s; stageRefresh := stageRefresh s; taskRefresh := taskRefresh s |}.

(** The state as [render] reads it: the stages are those of the store. *)
Definition load (h : store) (r : refs) (s : qd_state) : qd_state :=
  with_docs (option_map (with_output (fetch h (r_query r))) (qd_query s))
    (fetch h (r_stages r)) (fetch h (r_stage r)) (fetch h (r_tasks r)) s.

(** The order of the tasks in the charts. *)
Definition chart_order (taskA taskB : task) : number :=
  nsub (getTaskNumber (taskId taskA)) (getTaskNumber (taskId taskB)).

(** The tree of stages after [componentDidUpdate] of some of its stages. *)
Fixpoint sort_stages `{JsSort} (ks : list jstring) (st : stage) : stage :=
  match st with
  | Stage id state p stats ts subs =>
    Stage id state p stats (if bool_decide (id ∈ ks) then js_sort chart_order ts else ts) (map (sort_stages ks) subs)
  end.

(** The listed stages are those of [lastSnapshotStage]. *)
Definition sort_store `{JsSort} (ks : list jstring) (r : refs) (h : store) : store :=
  match r_stage r with Some i => alter (option_map (sort_stages ks)) i h | None => h end.

(** ** The page *)

(** The fields of [sh_query] that hold stages are not used; they are read through [sh_refs]. *)
Record shared := {
  sh_query : qd_state;
  sh_refs : refs;
  sh_docs : store;
  sh_stages : kids;
  sh_crashed : bool;
}.

Definition shared_constructor : shared := {|
  sh_query := qd_constructor; sh_refs := {| r_query := None; r_stages := None; r_stage := None; r_tasks := None |};
  sh_docs := []; sh_stages := []; sh_crashed := false |}.

Definition shared_state (x : shared) : qd_state := load (sh_docs x) (sh_refs x) (sh_query x).

Section shared.
Context `{DateParse, LocalTime, UrlParser, JsSort}.
Context (pathname : jstring).

(** An update of the parent, as [flush], where every child that was there sorts its tasks before
    the next rendering. *)
Definition shared_flush (now : Z) (s : qd_state) (r : refs) (h : store) (cs : kids)
  : res (qd_state * store * kids) :=
  view ← qd_render pathname (load h r s);
  shown ← render_children now (child_components view) cs;
  let cs1 := commit_children now (child_components view) cs in
  let h1 := sort_store (map fst cs) r h in
  if redraw_due now s then
    let s2 := set_lastRender now s in
    view2 ← qd_render pathname (load h1 r s2);
    shown2 ← render_children now (child_components view2) cs1;
    let cs2 := commit_children now (child_components view2) cs1 in
    let h2 := sort_store (map fst cs1) r h1 in
    shown3 ← render_children now (listed (load h2 r s2)) cs2;
    Ok (s2, h2, cs2)
  else
    shown1 ← render_children now (listed (load h1 r s)) cs1;
    Ok (s, h1, cs1).

Definition shared_update (now : Z) (s : qd_state) (r : refs) (h : store) (cs : kids)
  (k : qd_state → store → kids → outcome shared) : outcome shared :=
  match shared_flush now s r h cs with
  | Ok (s', h', cs') => k s' h' cs'
  | Throw _ => Escaped {| sh_query := s; sh_refs := r; sh_docs := h; sh_stages := cs; sh_crashed := true |}
  end.

Definition done_shared (r : refs) (s : qd_state) (h : store) (cs : kids) : outcome shared :=
  Done {| sh_query := s; sh_refs := r; sh_docs := h; sh_stages := cs; sh_crashed := false |}.

(** The references after the first [setState] of the success callback: the new document is at
    address [a]. *)
Definition received_refs (a : nat) (s : qd_state) (r : refs) : refs := {|
  r_query := Some a; r_stages := r_stages r;
  r_stage := if stageRefresh s then Some a else r_stage r;
  r_tasks := if taskRefresh s then Some a else r_tasks r |}.

(** The success callback. *)
Definition shared_on_response (rsp : Z * query_info) (x : shared) : outcome shared :=
  let '(now, query) := rsp in
  let s := sh_query x in
  match queryStats (qi query) with
  | None => Escaped x
  | Some stats =>
    if sh_crashed x then Done x
    else
      let r := received_refs (length (sh_docs x)) s (sh_refs x) in
      shared_update now (qd_received now query stats s) r (sh_docs x ++ [outputStage query]) (sh_stages x)
        (λ s1 h1 cs1,
          if queryEnded s || (match qd_lastRefresh s with None => true | Some _ => false end
                              && jeqb (q_state (qi query)) (js "RUNNING"))
          then done_shared r s1 h1 cs1
          else
            let elapsedSecs := elapsed_secs now stats s in
            if ngeb elapsedSecs zero
            then shared_update now (qd_measured elapsedSecs query stats s s1) r h1 cs1 (done_shared r)
            else done_shared r s1 h1 cs1)
  end.

Definition shared_on_failure (now : Z) (x : shared) : outcome shared :=
  if sh_crashed x then Done x
  else shared_update now (set_initialized (sh_query x)) (sh_refs x) (sh_docs x) (sh_stages x)
         (done_shared (sh_refs x)).

(** A state update of one child; the second rendering sees its tasks sorted. *)
Definition shared_update_child (now : Z) (c : query_child) (f : summary_state → summary_state) (x : shared) : shared :=
  let '(StageSummary st b) := c in
  let cs1 := map_set (stageId st) (f (child_state (stageId st) (sh_stages x))) (sh_stages x) in
  let cs2 := map_set (stageId st) (summary_didUpdate now st (child_state (stageId st) cs1)).2 cs1 in
  match (v1 ← render_child now cs1 c; render_child now cs2 (StageSummary (sort_stages [stageId st] st) b)) with
  | Ok _ => {| sh_query := sh_query x; sh_refs := sh_refs x;
               sh_docs := sort_store [stageId st] (sh_refs x) (sh_docs x); sh_stages := cs2; sh_crashed := false |}
  | Throw _ => {| sh_query := sh_query x; sh_refs := sh_refs x; sh_docs := sh_docs x; sh_stages := cs1;
                  sh_crashed := true |}
  end.

Definition shared_shown_child (k : jstring) (x : shared) : option query_child :=
  match qd_render pathname (shared_state x) with
  | Ok view => List.find (λ c, jeqb (child_key c) k) (child_components view)
  | Throw _ => None
  end.

(** The button stores a reference to the stages of the query on display. *)
Definition clicked_refs (s : qd_state) (r : refs) : refs := {|
  r_query := r_query r; r_stages := if stageRefresh s then r_query r else r_stages r;
  r_stage := r_stage r; r_tasks := r_tasks r |}.

Definition shared_refresh_click (now : Z) (x : shared) : shared :=
  match handleStageRefreshClick (sh_query x) with
  | Ok s => let r := clicked_refs (sh_query x) (sh_refs x) in
            outcome_state (shared_update now s r (sh_docs x) (sh_stages x) (done_shared r))
  | Throw _ => x
  end.
Definition shared_toggle_click (now : Z) (k : jstring) (x : shared) : shared :=
  match shared_shown_child k x with Some c => shared_update_child now c toggleExpanded x | None => x end.
Definition shared_filter_click (now : Z) (k : jstring) (f : task_filter) (x : shared) : shared :=
  match shared_shown_child k x with Some c => shared_update_child now c (handleTaskFilterClick f) x | None => x end.

Definition shared_event_step (now : Z) (e : tree_event) (x : shared) : shared :=
  if sh_crashed x then x
  else match e with
       | RefreshClick => shared_refresh_click now x
       | ToggleClick k => shared_toggle_click now k x
       | FilterClick k f => shared_filter_click now k f x
       end.

#[export] Instance shared_poller : Poller shared (Z * query_info) := {
  poll_init := shared_constructor;
  on_refresh x := x;
  on_response := shared_on_response;
  on_failure := shared_on_failure;
  keep_polling x := qd_keep_polling (sh_query x);
  on_user x x' := ∃ now e, x' = shared_event_step now e x;
}.
End shared.

(** ** Documents up to the order of their tasks *)

Definition numbered (t : task) : Prop :=
  valid (getTaskNumber (taskId t)) = true ∧ is_nan (getTaskNumber (taskId t)) = false.

(** The same tasks in another order; if their numbers can be read, the charts order them in the
    same way. *)
Record same_tasks `{JsSort} (ts ts' : list task) : Prop := {
  same_perm : ts ≡ₚ ts';
  same_sorted : Forall numbered ts → js_sort chart_order ts = js_sort chart_order ts';
}.

#[export] Instance same_tasks_equivalence `{JsSort} : Equivalence same_tasks.
Proof.
  split.
  - done.
  - intros ts ts' [Hp Hs]. split; [done|]. intros Hn. symmetry. apply Hs. by rewrite Hp.
  - intros ts1 ts2 ts3 [Hp Hs] [Hp' Hs']. split; [by etrans|]. intros Hn. rewrite Hs by done. apply Hs'. by rewrite <-Hp.
Qed.

Inductive stage_equiv `{JsSort} : stage → stage → Prop :=
| stage_equiv_intro id state p stats ts ts' subs subs' :
  same_tasks ts ts' → Forall2 stage_equiv subs subs' →
  stage_equiv (Stage id state p stats ts subs) (Stage id state p stats ts' subs').

#[export] Instance equiv_stage `{JsSort} : Equiv stage := stage_equiv.

#[export] Instance stage_equivalence `{JsSort} : Equivalence (≡@{stage}).
Proof.
  split.
  - intros s. induction s as [id st p stats ts subs IH] using stage_tree_ind. constructor; [done|].
    by apply Forall_Forall2_diag.
  - intros s. induction s as [id st p stats ts subs IH] using stage_tree_ind. intros s' Hs.
    inversion Hs as [? ? ? ? ? ts' ? subs' Ht Hsub]; subst. constructor; [by symmetry|].
    apply Forall2_flip. clear Hs. revert IH. induction Hsub as [|x y l k Hxy _ IHl]; intros IH; [constructor|].
    apply Forall_cons in IH as [IHx IH]. constructor; [by apply IHx|by apply IHl].
  - intros s. induction s as [id st p stats ts subs IH] using stage_tree_ind. intros s' s'' Hs Hs'.
    inversion Hs as [? ? ? ? ? ts' ? subs' Ht Hsub]; subst.
    inversion Hs' as [? ? ? ? ? ts'' ? subs'' Ht' Hsub']; subst. constructor; [by etrans|].
    clear Hs Hs'. revert subs'' IH Hsub'. induction Hsub as [|x y l k Hxy _ IHl]; intros subs'' IH Hsub';
      inversion Hsub' as [|? z ? m Hyz Hrest]; subst; [constructor|].
    apply Forall_cons in IH as [IHx IH]. constructor; [by eapply IHx|].
    by apply IHl.
Qed.

#[export] Instance equiv_query_info `{JsSort} : Equiv query_info := λ q q',
  q' = with_output (outputStage q') q ∧ outputStage q ≡ outputStage q'.

#[export] Instance query_info_equivalence `{JsSort} : Equivalence (≡@{query_info}).
Proof.
  split.
  - intros q. split; [by destruct q|reflexivity].
  - intros q q' [-> Hq]. split; [by destruct q|by symmetry].
  - intros q q' q'' [-> Hq] [-> Hq']. split; [by destruct q|by etrans].
Qed.

#[export] Instance equiv_qd_state `{JsSort} : Equiv qd_state := λ s s',
  s' = with_docs (qd_query s') (lastSnapshotStages s') (lastSnapshotStage s') (lastSnapshotTasks s') s ∧
  qd_query s ≡ qd_query s' ∧ lastSnapshotStages s ≡ lastSnapshotStages s' ∧
  lastSnapshotStage s ≡ lastSnapshotStage s' ∧ lastSnapshotTasks s ≡ lastSnapshotTasks s'.

#[export] Instance qd_state_equivalence `{JsSort} : Equivalence (≡@{qd_state}).
Proof.
  split.
  - intros s. split_and!; [by destruct s|reflexivity..].
  - intros s s' (-> & H1 & H2 & H3 & H4). split_and!; [by destruct s|by symmetry..].
  - intros s s' s'' (-> & H1 & H2 & H3 & H4) (-> & G1 & G2 & G3 & G4). split_and!; [by destruct s|by etrans..].
Qed.

(** A child of the page, up to the order of its tasks. *)
Inductive child_equiv `{JsSort} : query_child → query_child → Prop :=
| child_equiv_intro st st' b : st ≡ st' → child_equiv (StageSummary st b) (StageSummary st' b).
#[export] Instance equiv_query_child `{JsSort} : Equiv query_child := child_equiv.

Lemma getStages_equiv `{JsSort} s s' : s ≡ s' → Forall2 (≡) (getStages s) (getStages s').
Proof.
  revert s'. induction s as [id st p stats ts subs IH] using stage_tree_ind. intros s' Hs.
  inversion Hs as [? ? ? ? ? ts' ? subs' Ht Hsub]; subst. cbn [getStages subStages]. constructor; [done|].
  clear Hs. revert IH. induction Hsub as [|x y l k Hxy _ IHl]; intros IH; [constructor|].
  apply Forall_cons in IH as [IHx IH]. cbn [map concat]. apply Forall2_app; [by apply IHx|by apply IHl].
Qed.

#[export] Instance listed_proper `{JsSort} : Proper ((≡) ==> Forall2 (≡)) listed.
Proof.
  intros s s' (E & Hq & _ & Hs & _). unfold listed.
  assert (qd_initialized s' = qd_initialized s) as -> by (by rewrite E).
  inversion Hq as [q q' [E' _] E1 E2|E1 E2]; [|constructor]. rewrite E'. cbn [qi with_output].
  destruct (qd_initialized s); [|constructor].
  apply Forall2_fmap_2.
  inversion Hs as [st st' Hst E3 E4|E3 E4]; cbn [getStages_opt]; [|constructor].
  eapply Forall2_impl; [by apply getStages_equiv|]. intros x y Hxy. by constructor.
Qed.

#[export] Instance child_key_proper `{JsSort} : Proper ((≡) ==> (=)) child_key.
Proof. intros c c' [st st' b Hst]. by inversion Hst. Qed.

(** ** Sorting in place keeps the documents, up to the order *)

Section sorting.
Context `{JsSortLaws}.

Lemma sorted_same ts : same_tasks (js_sort chart_order ts) ts.
Proof.
  split; [apply js_sort_perm|]. intros Hn. rewrite js_sort_perm in Hn. apply js_sort_idemp.
  by apply (by_key_consistent (λ t, getTaskNumber (taskId t))).
Qed.

Lemma sort_stages_equiv ks st : sort_stages ks st ≡ st.
Proof.
  induction st as [id state p stats ts subs IH] using stage_tree_ind. cbn [sort_stages]. constructor.
  - case_bool_decide; [apply sorted_same|done].
  - induction IH as [|x l Hx _ IHl]; [constructor|]. by constructor.
Qed.

Lemma sort_store_lookup ks r h i : mjoin (sort_store ks r h !! i) ≡ mjoin (h !! i).
Proof.
  unfold sort_store. destruct (r_stage r) as [j|]; [|reflexivity]. destruct (decide (i = j)) as [->|Hij].
  - rewrite list_lookup_alter_eq. destruct (h !! j) as [[st|]|]; cbn; [|reflexivity..].
    constructor. apply sort_stages_equiv.
  - by rewrite list_lookup_alter_ne.
Qed.

Lemma fetch_sort ks r h a : fetch (sort_store ks r h) a ≡ fetch h a.
Proof. destruct a as [i|]; [apply sort_store_lookup|reflexivity]. Qed.

Lemma load_sort ks r h s : load (sort_store ks r h) r s ≡ load h r s.
Proof.
  split_and!; [done| |apply fetch_sort..]. cbn [load with_docs qd_query].
  destruct (qd_query s) as [q|]; [|reflexivity]. constructor. split; [done|apply fetch_sort].
Qed.

Lemma length_sort_store ks r h : length (sort_store ks r h) = length h.
Proof. unfold sort_store. destruct (r_stage r); [apply length_alter|done]. Qed.
End sorting.

(** ** Rendering does not depend on the order *)

Section rendering.
Context `{DateParse, LocalTime, UrlParser, JsSort}.
Context (pathname : jstring).

(** A task list is shown exactly if the address and the size of each task can be read. *)
Lemma TaskList_row_ok now ports retries t : is_ok (TaskList_row now ports retries t) = good_task t.
Proof.
  destruct (good_task t) eqn:Ht; [by apply row_ok|]. unfold good_task in Ht. unfold TaskList_row.
  destruct (getHostname (self t)) as [host|] eqn:Eh; [|done]. cbn [mbind res_bind].
  assert (is_ok (new_URL (self t)) = true) as Hu.
  { unfold getHostname in Eh. by destruct (new_URL (self t)). }
  rewrite Hu in Ht. cbn [andb] in Ht.
  destruct (if ports then _ else _) as [text|]; [|done]. cbn [mbind res_bind].
  by destruct (parseDataSize (t_rawInputDataSize t)).
Qed.

Lemma TaskList_render_ok now ts retries :
  is_ok (TaskList_render now (Some ts) retries) = forallb good_task ts.
Proof.
  destruct (forallb good_task ts) eqn:E.
  - apply tasks_ok, Forall_forall. intros t Ht%list_elem_of_In. rewrite forallb_forall in E. by apply E.
  - unfold TaskList_render. destruct ts as [|t ts]; [done|].
    destruct (showPortNumbers (t :: ts)) as [ports|]; [|done]. cbn [mbind res_bind].
    enough (is_ok (res_map (TaskList_row now ports retries) (t :: ts)) = false) as Hf
      by (by destruct (res_map _ _)).
    revert E. generalize (t :: ts). clear t ts. intros l. induction l as [|t l IH]; [done|].
    cbn [forallb res_map]. rewrite <-(TaskList_row_ok now ports retries t).
    destruct (TaskList_row now ports retries t); [|done]. cbn [is_ok andb mbind res_bind].
    intros Hl%IH. by destruct (res_map _ l).
Qed.

Lemma forallb_perm {A} (f : A → bool) l l' : l ≡ₚ l' → forallb f l = forallb f l'.
Proof. induction 1; simpl; [done|congruence|by destruct (f x), (f y)|congruence]. Qed.

Lemma filter_perm {A} (f : A → bool) l l' : l ≡ₚ l' → List.filter f l ≡ₚ List.filter f l'.
Proof.
  induction 1 as [|x l l' _ IH|x y l|l1 l2 l3 _ IH1 _ IH2]; simpl; [done| | |by etrans].
  - destruct (f x); [by constructor|done].
  - destruct (f x), (f y); try done. constructor.
Qed.

(** The rows of the task list are the same, in another order. *)
Lemma listed_tasks_equiv st st' s : st ≡ st' → listed_tasks st s ≡ₚ listed_tasks st' s.
Proof.
  intros Hst. inversion Hst as [? ? ? ? ts ts' ? ? [Ht _] _]; subst. unfold listed_tasks. apply filter_perm. cbn.
  by destruct (expanded s).
Qed.

Lemma StageSummary_render_equiv now st st' b s :
  st ≡ st' → is_ok (StageSummary_render now (Some st) b s) = is_ok (StageSummary_render now (Some st') b s).
Proof.
  intros Hst. pose proof (listed_tasks_equiv st st' s Hst) as Hp.
  assert (plan st = plan st' ∧ stageStats st = stageStats st') as [Ep Es] by (by inversion Hst).
  unfold StageSummary_render. rewrite <-Ep, <-Es. destruct (plan st); [|done]. destruct (stageStats st); [|done].
  cbn [deref mbind res_bind].
  pose proof (TaskList_render_ok now (listed_tasks st s) b) as G1.
  pose proof (TaskList_render_ok now (listed_tasks st' s) b) as G2.
  rewrite (forallb_perm _ _ _ Hp), <-G2 in G1.
  destruct (TaskList_render now (Some (listed_tasks st s)) b), (TaskList_render now (Some (listed_tasks st' s)) b); done.
Qed.

Lemma render_child_equiv now cs c c' : c ≡ c' → is_ok (render_child now cs c) = is_ok (render_child now cs c').
Proof.
  intros [st st' b Hst]. unfold render_child. assert (stageId st = stageId st') as <- by (by inversion Hst).
  by apply StageSummary_render_equiv.
Qed.

Lemma render_children_equiv now cs l l' :
  Forall2 (≡) l l' → is_ok (render_children now l cs) = is_ok (render_children now l' cs).
Proof.
  unfold render_children. induction 1 as [|c c' l l' Hc _ IH]; [done|]. cbn [res_map].
  apply (render_child_equiv now cs) in Hc. destruct (render_child now cs c), (render_child now cs c'); try done.
  cbn [mbind res_bind]. by destruct (res_map _ l), (res_map _ l').
Qed.

Lemma qd_render_equiv s s' : s ≡ s' → is_ok (qd_render pathname s) = is_ok (qd_render pathname s').
Proof.
  intros (E & Hq & _). unfold qd_render.
  assert (qd_initialized s' = qd_initialized s) as -> by (by rewrite E).
  assert (timeline_table s' = timeline_table s) as -> by (by rewrite E).
  inversion Hq as [q q' [E' _] E1 E2|E1 E2]; [|done]. rewrite E'.
  cbn [qi with_output renderFailureInfo failureInfo detail].
  change (renderFailureInfo (with_output (outputStage q') q)) with (renderFailureInfo q).
  destruct (negb (qd_initialized s)); [done|]. destruct (queryStats (qi q)); [|done]. cbn [deref mbind res_bind].
  destruct (header_render pathname (qi q)); [|done]. cbn [mbind res_bind].
  destruct (timeline_table s); [|done]. cbn [mbind res_bind]. by destruct (renderFailureInfo q).
Qed.

Lemma commit_children_equiv now cs l l' :
  Forall2 (≡) l l' → commit_children now l cs = commit_children now l' cs.
Proof.
  induction 1 as [|c c' l l' [st st' b Hst] _ IH]; [done|]. cbn [commit_children map].
  unfold commit_children in IH. rewrite IH. assert (stageId st = stageId st') as <- by (by inversion Hst).
  f_equal. f_equal. destruct (map_get (stageId st) cs) as [s|]; [|done]. unfold summary_didUpdate.
  by destruct (match lastRender s with None => true | Some _ => _ end).
Qed.
End rendering.

(** ** The page with the store refines the page with values *)

(** Every address is one of the store. *)
Record valid_refs (n : nat) (r : refs) : Prop := {
  vr_query a : r_query r = Some a → a < n;
  vr_stages a : r_stages r = Some a → a < n;
  vr_stage a : r_stage r = Some a → a < n;
  vr_tasks a : r_tasks r = Some a → a < n;
}.

Record sim `{JsSort} (x : shared) (t : tree) : Prop := {
  sim_query : shared_state x ≡ tr_query t;
  sim_stages : sh_stages x = tr_stages t;
  sim_crashed : sh_crashed x = tr_crashed t;
  sim_valid : valid_refs (length (sh_docs x)) (sh_refs x);
}.

#[export] Instance set_lastRender_proper `{JsSort} now : Proper ((≡) ==> (≡)) (set_lastRender now).
Proof. intros s s' (E & Hd). split; [|exact Hd]. rewrite E. by destruct s'. Qed.

#[export] Instance set_initialized_proper `{JsSort} : Proper ((≡) ==> (≡)) set_initialized.
Proof. intros s s' (E & Hd). split; [|exact Hd]. rewrite E. by destruct s'. Qed.

#[export] Instance redraw_due_proper `{JsSort} now : Proper ((≡) ==> (=)) (redraw_due now).
Proof. intros s s' (-> & _). done. Qed.

Section simulation.
Context `{DateParse, LocalTime, UrlParser, JsSortLaws}.
Context (pathname : jstring).

(** Two results that are both exceptions, or values in a relation. *)
Definition related_results {A B} (R : A → B → Prop) (m : res A) (n : res B) : Prop :=
  match m, n with Ok a, Ok b => R a b | Throw _, Throw _ => True | _, _ => False end.

Lemma related_bind {A B A' B'} (R : A → B → Prop) (R' : A' → B' → Prop) m n f g :
  related_results R m n → (∀ a b, R a b → related_results R' (f a) (g b)) →
  related_results R' (m ≫= f) (n ≫= g).
Proof. intros Hm Hf. destruct m, n; try done. by apply Hf. Qed.

Lemma related_is_ok {A B} (m : res A) (n : res B) :
  is_ok m = is_ok n → related_results (λ _ _, True) m n.
Proof. by destruct m, n. Qed.

Lemma related_views s s' :
  s ≡ s' → related_results (λ v v', child_components v = listed s ∧ child_components v' = listed s')
             (qd_render pathname s) (qd_render pathname s').
Proof.
  intros Hs. pose proof (qd_render_equiv pathname s s' Hs) as Ho.
  destruct (qd_render pathname s) as [v|] eqn:E, (qd_render pathname s') as [v'|] eqn:E'; try done. cbn.
  by rewrite (view_children _ _ _ E), (view_children _ _ _ E').
Qed.

(** The children of equivalent states render alike. *)
Lemma related_children now s s' cs :
  s ≡ s' → related_results (λ _ _, True) (render_children now (listed s) cs) (render_children now (listed s') cs).
Proof. intros Hs. by apply related_is_ok, render_children_equiv, listed_proper. Qed.

Lemma related_flush now s r h cs t :
  load h r s ≡ t →
  related_results (λ '(s', h', cs') '(t', cs''), load h' r s' ≡ t' ∧ cs' = cs'' ∧ length h' = length h)
    (shared_flush pathname now s r h cs) (flush pathname now t cs).
Proof.
  intros Hs. unfold shared_flush, flush. eapply related_bind; [by apply related_views|]. intros v v' [-> ->].
  eapply related_bind; [by apply related_children|]. intros _ _ _. cbv zeta.
  rewrite (commit_children_equiv now cs _ _ (listed_proper _ _ Hs)).
  assert (redraw_due now s = redraw_due now t) as -> by (apply (redraw_due_proper now _ _ Hs)).
  assert (∀ ks, load (sort_store ks r h) r s ≡ t) as Hs1 by (intros ks; etrans; [apply load_sort|done]).
  destruct (redraw_due now t).
  - assert (∀ ks, load (sort_store ks r h) r (set_lastRender now s) ≡ set_lastRender now t) as Hs2
      by (intros ks; apply (set_lastRender_proper now _ _ (Hs1 ks))).
    eapply related_bind; [by apply related_views|]. intros v2 v2' [-> ->].
    eapply related_bind; [by apply related_children|]. intros _ _ _.
    rewrite (commit_children_equiv now _ _ _ (listed_proper _ _ (Hs2 _))).
    assert (∀ ks ks', load (sort_store ks' r (sort_store ks r h)) r (set_lastRender now s) ≡ set_lastRender now t) as Hs3
      by (intros ks ks'; etrans; [apply load_sort|done]).
    eapply related_bind; [by apply related_children|]. intros _ _ _. cbn. by rewrite !length_sort_store.
  - eapply related_bind; [by apply related_children|]. intros _ _ _. cbn. by rewrite length_sort_store.
Qed.

Lemma fetch_new h o : fetch (h ++ [o]) (Some (length h)) = o.
Proof. unfold fetch. simpl. by rewrite lookup_app_r, Nat.sub_diag by lia. Qed.

Lemma fetch_old h o a : (∀ i, a = Some i → i < length h) → fetch (h ++ [o]) a = fetch h a.
Proof. destruct a as [i|]; [|done]. intros Hi. unfold fetch. simpl. by rewrite lookup_app_l by auto. Qed.

(** The first [setState] of the success callback. *)
Lemma received_equiv now q stats s r h t :
  load h r s ≡ t → valid_refs (length h) r →
  load (h ++ [outputStage q]) (received_refs (length h) s r) (qd_received now q stats s) ≡ qd_received now q stats t.
Proof.
  intros (E & Hq & Hs & Hst & Ht) [V1 V2 V3 V4].
  assert (stageRefresh t = stageRefresh s ∧ taskRefresh t = taskRefresh s) as [Er Et] by (by rewrite E).
  split_and!.
  - rewrite E. by destruct q.
  - cbn. constructor. split; [by destruct q|]. cbn. by rewrite fetch_new.
  - cbn. by rewrite fetch_old.
  - cbn. rewrite Er. destruct (stageRefresh s); [by rewrite fetch_new|by rewrite fetch_old].
  - cbn. rewrite Et. destruct (taskRefresh s); [by rewrite fetch_new|by rewrite fetch_old].
Qed.

Lemma received_valid n s r : valid_refs n r → valid_refs (S n) (received_refs n s r).
Proof.
  intros [V1 V2 V3 V4]. split; cbn.
  - intros a [= <-]. lia.
  - intros a Ha%V2. lia.
  - destruct (stageRefresh s); [intros a [= <-]; lia|intros a Ha%V3; lia].
  - destruct (taskRefresh s); [intros a [= <-]; lia|intros a Ha%V4; lia].
Qed.

(** The second. *)
Lemma measured_equiv e q stats s r0 h0 t s1 r h t1 :
  load h0 r0 s ≡ t → load h r s1 ≡ t1 → load h r (qd_measured e q stats s s1) ≡ qd_measured e q stats t t1.
Proof. intros (E & _) (E1 & Hd). split; [|exact Hd]. rewrite E, E1. by destruct t1. Qed.

Lemma related_done r s h cs t :
  load h r s ≡ t → valid_refs (length h) r → related_outcomes sim (done_shared r s h cs) (done_tree t cs).
Proof. intros Hs Hv. by split. Qed.

Lemma related_update now s r h cs t k k' :
  load h r s ≡ t → valid_refs (length h) r →
  (∀ s' h' cs' t', load h' r s' ≡ t' → length h' = length h → related_outcomes sim (k s' h' cs') (k' t' cs')) →
  related_outcomes sim (shared_update pathname now s r h cs k) (update_tree pathname now t cs k').
Proof.
  intros Hs Hv Hk. unfold shared_update, update_tree. pose proof (related_flush now s r h cs t Hs) as Hf.
  destruct (shared_flush _ _ _ _ _ _) as [[[s' h'] cs']|], (flush _ _ _ _) as [[t' cs'']|]; try done.
  destruct Hf as (Hs' & <- & Hl). by apply Hk.
Qed.

Lemma related_response rsp x t :
  sim x t → related_outcomes sim (shared_on_response pathname rsp x) (tree_on_response pathname rsp t).
Proof.
  intros Hx. pose proof Hx as [Hs Hst Hc Hv]. destruct rsp as [now q]. unfold shared_on_response, tree_on_response.
  destruct (queryStats (qi q)) as [stats|]; [|done]. rewrite Hc. destruct (tr_crashed t); [done|].
  rewrite Hst. set (n := length (sh_docs x)) in *. set (r := received_refs n (sh_query x) (sh_refs x)).
  assert (valid_refs (S n) r) as Hr by (by apply received_valid).
  assert (length (sh_docs x ++ [outputStage q]) = S n) as Hl by (rewrite length_app; cbn; lia).
  apply related_update; [by apply received_equiv|by rewrite Hl|].
  intros s' h' cs' t' Hs' Hl'. rewrite Hl in Hl'. pose proof Hs as (E & _).
  assert (queryEnded (sh_query x) = queryEnded (tr_query t)) as -> by (by rewrite E).
  assert (qd_lastRefresh (sh_query x) = qd_lastRefresh (tr_query t)) as -> by (by rewrite E).
  assert (elapsed_secs now stats (sh_query x) = elapsed_secs now stats (tr_query t)) as -> by (by rewrite E).
  assert (related_outcomes sim (done_shared r s' h' cs') (done_tree t' cs')) as Hd
    by (apply related_done; [done|by rewrite Hl']).
  destruct (_ || _); [done|]. destruct (ngeb _ _); [|done].
  apply related_update; [by eapply measured_equiv|by rewrite Hl'|].
  intros s2 h2 cs2 t2 Hs2 Hl2. apply related_done; [done|by rewrite Hl2, Hl'].
Qed.

Lemma related_failure now x t :
  sim x t → related_outcomes sim (shared_on_failure pathname now x) (tree_on_failure pathname now t).
Proof.
  intros Hx. pose proof Hx as [Hs Hst Hc Hv]. unfold shared_on_failure, tree_on_failure.
  rewrite Hc. destruct (tr_crashed t); [done|]. rewrite Hst.
  apply related_update; [by apply (set_initialized_proper _ _ Hs)|done|].
  intros s' h' cs' t' Hs' Hl. apply related_done; [done|by rewrite Hl].
Qed.

(** *** Clicks *)

Lemma didUpdate_equiv now st st' s :
  st ≡ st' → (summary_didUpdate now st s).2 = (summary_didUpdate now st' s).2 ∧
             (Forall numbered (tasks st) → (summary_didUpdate now st s).1 = (summary_didUpdate now st' s).1).
Proof.
  intros Hst. inversion Hst as [id ? ? ? ts ts' ? ? [Hp Hs] _]; subst.
  unfold summary_didUpdate. cbn [tasks stageId]. split; [by destruct (match lastRender s with None => true | Some _ => _ end)|].
  intros Hn. specialize (Hs Hn). unfold chart_order in Hs. rewrite Hs, (Permutation_length Hp).
  by destruct (match lastRender s with None => true | Some _ => _ end).
Qed.

Lemma related_update_child now c c' f x t :
  c ≡ c' → sim x t → sim (shared_update_child now c f x) (update_child now c' f t).
Proof.
  intros [st st' b Hst] [Hs Hch Hc Hv]. unfold shared_update_child, update_child. cbv zeta.
  assert (stageId st = stageId st') as <- by (by inversion Hst). rewrite Hch.
  destruct (didUpdate_equiv now st st'
    (child_state (stageId st) (map_set (stageId st) (f (child_state (stageId st) (tr_stages t))) (tr_stages t))) Hst) as [-> _].
  set (cs1 := map_set (stageId st) (f (child_state (stageId st) (tr_stages t))) (tr_stages t)).
  set (cs2 := map_set (stageId st) _ cs1).
  assert (∀ cs st1, st1 ≡ st' → related_results (λ _ _, True) (render_child now cs (StageSummary st1 b))
    (render_child now cs (StageSummary st' b))) as Hr.
  { intros cs st1 Hst1. apply related_is_ok, render_child_equiv. by constructor. }
  assert (related_results (λ _ _, True)
    (v1 ← render_child now cs1 (StageSummary st b); render_child now cs2 (StageSummary (sort_stages [stageId st] st) b))
    (v1 ← render_child now cs1 (StageSummary st' b); render_child now cs2 (StageSummary st' b))) as Hm.
  { eapply related_bind; [by apply Hr|]. intros _ _ _. apply Hr. etrans; [apply sort_stages_equiv|done]. }
  destruct (v1 ← render_child now cs1 (StageSummary st b); _), (v1 ← render_child now cs1 (StageSummary st' b); _);
    try done; split; try done.
  - etrans; [apply load_sort|done].
  - cbn [sh_docs sh_refs]. by rewrite length_sort_store.
Qed.

Lemma find_child_equiv k l l' :
  Forall2 (≡) l l' →
  option_Forall2 (≡) (List.find (λ c, jeqb (child_key c) k) l) (List.find (λ c, jeqb (child_key c) k) l').
Proof.
  induction 1 as [|c c' l l' Hc _ IH]; [constructor|]. cbn [List.find]. rewrite (child_key_proper _ _ Hc).
  destruct (jeqb (child_key c') k); [by constructor|done].
Qed.

Lemma related_shown_child k x t :
  sim x t → option_Forall2 (≡) (shared_shown_child pathname k x) (shown_child pathname k t).
Proof.
  intros [Hs _ _ _]. unfold shared_shown_child, shown_child. pose proof (related_views _ _ Hs) as Hv.
  destruct (qd_render pathname (shared_state x)) as [v|], (qd_render pathname (tr_query t)) as [v'|]; try done; [|constructor].
  destruct Hv as [-> ->]. by apply find_child_equiv, listed_proper.
Qed.

Lemma related_child_click k x t now f :
  sim x t →
  sim (match shared_shown_child pathname k x with Some c => shared_update_child now c f x | None => x end)
      (match shown_child pathname k t with Some c => update_child now c f t | None => t end).
Proof.
  intros Hx. destruct (related_shown_child k x t Hx) as [c c' Hc|]; [by apply related_update_child|done].
Qed.

Lemma clicked_valid n s r : valid_refs n r → valid_refs n (clicked_refs s r).
Proof. intros [V1 V2 V3 V4]. split; cbn; auto. destruct (stageRefresh s); auto. Qed.

Lemma related_click s r h t :
  load h r s ≡ t →
  related_results (λ s' t', load h (clicked_refs s r) s' ≡ t') (handleStageRefreshClick s) (handleStageRefreshClick t).
Proof.
  intros (E & Hq & Hs & Hst & Ht). unfold handleStageRefreshClick.
  assert (stageRefresh t = stageRefresh s) as Er by (by rewrite E). rewrite Er.
  cbn [load with_docs qd_query] in Hq. destruct (stageRefresh s) eqn:Eb.
  - destruct (qd_query s) as [q|] eqn:Es; inversion Hq as [q1 q' [Eq' Ho] E0 Eq|E0 Eq]; [|done]. subst q1. cbn. split_and!.
    + rewrite E. by rewrite <-Eq.
    + cbn. constructor. by split.
    + cbn. rewrite Eb. done.
    + done.
    + done.
  - cbn. split_and!; cbn; rewrite ?Eb; try done. by rewrite E.
Qed.

Lemma related_event now e x t :
  sim x t → sim (shared_event_step pathname now e x) (tree_event_step pathname now e t).
Proof.
  intros Hx. pose proof Hx as [Hs Hch Hc Hv]. unfold shared_event_step, tree_event_step. rewrite Hc.
  destruct (tr_crashed t); [done|]. destruct e as [|k|k f]; [|by apply related_child_click..].
  unfold shared_refresh_click, refresh_click. pose proof (related_click _ _ _ _ Hs) as Hclick.
  destruct (handleStageRefreshClick (sh_query x)) as [s'|], (handleStageRefreshClick (tr_query t)) as [t'|]; try done.
  rewrite Hch. cbv zeta.
  assert (related_outcomes sim
    (shared_update pathname now s' (clicked_refs (sh_query x) (sh_refs x)) (sh_docs x) (tr_stages t)
       (done_shared (clicked_refs (sh_query x) (sh_refs x))))
    (update_tree pathname now t' (tr_stages t) done_tree)) as Hu.
  { apply related_update; [done|by apply clicked_valid|]. intros s1 h1 cs1 t1 Hs1 Hl.
    apply related_done; [done|]. rewrite Hl. by apply clicked_valid. }
  by destruct (shared_update _ _ _ _ _ _ _), (update_tree _ _ _ _ _).
Qed.

(** *** The theorem *)

Lemma sim_keep x t : sim x t → qd_keep_polling (sh_query x) = tree_keep_polling t.
Proof.
  intros [(E & Hq & _) _ _ _]. unfold tree_keep_polling, qd_keep_polling.
  assert (queryEnded (tr_query t) = queryEnded (sh_query x)) as -> by (by rewrite E).
  cbn [shared_state load with_docs qd_query] in Hq. destruct (qd_query (sh_query x)); by inversion Hq.
Qed.

Lemma shared_lockstep : lockstep (shared_poller pathname) (tree_poller pathname) sim.
Proof.
  split.
  - split; done.
  - done.
  - intros r x t. apply related_response.
  - intros now x t. apply related_failure.
  - intros x t. apply sim_keep.
  - intros x t x' Hx (now & e & ->). exists (tree_event_step pathname now e t).
    split; [by exists now, e|by apply related_event].
Qed.

(** What the two pages show of a stage: the same rows in another order, and the same charts. *)
Definition shown_alike (c c' : query_child) : Prop :=
  let '(StageSummary st b) := c in
  let '(StageSummary st' b') := c' in
  stageId st = stageId st' ∧ b = b' ∧ (∀ s, listed_tasks st s ≡ₚ listed_tasks st' s) ∧
  (Forall numbered (tasks st) → ∀ now s, summary_didUpdate now st s = summary_didUpdate now st' s).

Lemma equiv_shown_alike c c' : c ≡ c' → shown_alike c c'.
Proof.
  intros [st st' b Hst]. split_and!; [by inversion Hst|done|intros s; by apply listed_tasks_equiv|].
  intros Hn now s. destruct (didUpdate_equiv now st st' s Hst) as [Hd Hch]. specialize (Hch Hn).
  destruct (summary_didUpdate now st s), (summary_didUpdate now st' s). cbn in *. congruence.
Qed.

(** C16: That the documents are shared and sorted in place is not visible: the query page with its
    store of documents refines the page on which documents are values.  Every run has a run
    of the latter with the same timers, the same requests and the same state of every stage,
    that is removed by an exception exactly if this one is, and lists the same stages.  The
    rows of each stage are the same up to their order, and if the task numbers can be read,
    its charts are the same altogether. *)
Theorem sharing_invisible p :
  @reachable _ _ (shared_poller pathname) p →
  ∃ p', @reachable _ _ (tree_poller pathname) p' ∧
    timeoutId p = timeoutId p' ∧ live p = live p' ∧ inflight p = inflight p' ∧
    sh_crashed (comp p) = tr_crashed (comp p') ∧ sh_stages (comp p) = tr_stages (comp p') ∧
    Forall2 shown_alike (listed (shared_state (comp p))) (listed (tr_query (comp p'))).
Proof.
  intros Hp. destruct (lockstep_reachable _ _ sim p shared_lockstep Hp) as (p' & Hp' & [[Hs Hch Hc _] Ht Hl Hi _]).
  exists p'. split_and!; try done. eapply Forall2_impl; [by apply listed_proper|]. apply equiv_shown_alike.
Qed.

(** What holds with documents as values carries over: with complete documents the page never
    breaks, and polls until it has the final document. *)
Theorem shared_page_survives rs p :
  @run _ _ (shared_poller pathname) rs p → Forall (λ r, good_info r.2 = true) rs →
  sh_crashed (comp p) = false ∧ is_ok (qd_render pathname (shared_state (comp p))) = true ∧
  inflight p + length (live p) = if existsb (λ r, finalQueryInfo r.2) rs then 0 else 1.
Proof.
  intros Hr Hg. destruct (lockstep_run _ _ sim rs p shared_lockstep Hr) as (p' & Hr' & [Hx Ht Hl Hi _]).
  pose proof Hx as [Hs _ Hc _]. destruct (tree_run_healthy pathname rs p' Hr' Hg) as [[Hc' Hh] Ha].
  split_and!; [by rewrite Hc|by rewrite (qd_render_equiv pathname _ _ Hs), page_ok|]. by rewrite Hl, Hi.
Qed.
End simulation.

(** ** Witnesses *)

(** A stage whose tasks arrive out of order: the first refresh after its row was mounted sorts
    them, also in the document on display. *)
Definition unsorted_stage : stage :=
  Stage (js "q1.0") (js "RUNNING") (Some (sample_fragment (js "0") (js "6"))) (Some sample_stage_stats)
    [sample_task (js "q1.0.1.0") (js "RUNNING") (js "http://host2:8080");
     sample_task (js "q1.0.0.0") (js "RUNNING") (js "http://host1:8080")] [].
Definition unsorted_info : query_info := sample_info (js "RUNNING") (Some unsorted_stage) false.

Definition shared_sample : Poller shared (Z * query_info) :=
  @shared_poller sample_clock sample_zone hosts insertion_js_sort (js "/ui/query.html").
Definition shared_first : page shared :=
  @answer _ _ shared_sample (@on_response _ _ shared_sample (1000%Z, unsorted_info)) (@mounted _ _ shared_sample).

Example shared_first_sorted :
  map taskId (concat (map tasks (getStages_opt (lastSnapshotStage (shared_state (comp shared_first)))))) =
    [js "q1.0.0.0"; js "q1.0.1.0"] ∧
  qd_query (shared_state (comp shared_first)) ≫= outputStage = lastSnapshotStage (shared_state (comp shared_first)).
Proof. vm_compute. done. Qed.

Lemma sharing_invisible_witness :
  sh_crashed (comp shared_first) = false ∧
  ∃ p', @reachable _ _ (tree_sample hosts) p' ∧ tr_crashed (comp p') = false ∧ live p' = [0].
Proof.
  split; [vm_compute; reflexivity|].
  destruct (@sharing_invisible sample_clock sample_zone hosts insertion_js_sort insertion_js_sort_laws
    (js "/ui/query.html") shared_first) as (p' & Hp' & _ & Hl & _ & Hc & _).
  - apply rtc_once. exact (@step_response _ _ shared_sample (@mounted _ _ shared_sample) (1000%Z, unsorted_info) Nat.lt_0_1).
  - exists p'. split_and!; [exact Hp'|rewrite <-Hc; vm_compute; reflexivity|rewrite <-Hl; vm_compute; reflexivity].
Defined.

Lemma shared_page_survives_witness :
  sh_crashed (comp shared_first) = false ∧
  is_ok (@qd_render sample_clock sample_zone (js "/ui/query.html") (shared_state (comp shared_first))) = true.
Proof.
  destruct (@shared_page_survives sample_clock sample_zone hosts insertion_js_sort insertion_js_sort_laws
    (js "/ui/query.html") [(1000%Z, unsorted_info)] shared_first) as (Hc & Hr & _).
  - apply (@run_response _ _ shared_sample [] _ (1000%Z, unsorted_info)); [constructor|apply Nat.lt_0_1].
  - apply Forall_cons. split; [vm_compute; reflexivity|constructor].
  - split; [exact Hc|exact Hr].
Defined.
