(* ===== verification/PageSurvival.v ===== *)
(** * The stage page and the live plan with complete documents

    Both pages draw graphs with a library that rejects a graph with loose ends, read plans that
    may be absent and texts that may not parse, and an exception on the way removes the page.
    This file shows that complete documents never lead there: the graphs that the pages build
    are always graphs that the library draws, so that the pages stay alive until they have
    the final document. *)

From S2P Require Import Prelude JsString JsNumber JsCollections Model QueryState Format Vdom QueryHeader Stage QueryInfo Samples Graph QueryListFacts StageDetail StageDetailFacts StageDetailView LivePlan LivePlanFacts QueryPages Poller QueryTree.
From stdpp Require Import relations.

(** ** The graph of a stage *)

Definition is_operator_node (v : jstring) : bool := starts_with (js "operator-") v.

Lemma operator_node_inner o : is_operator_node (operatorNodeId o) = true.
Proof. apply starts_with_spec. by eexists. Qed.

Lemma chain_named l sink p :
  is_operator_node p = false → (∀ s, sink = Some s → is_operator_node s = true) →
  Forall (named_apart is_operator_node) (chain_calls l sink p).
Proof.
  intros Hp. revert sink. induction l as [o|o c IH] using linked_chain_ind; intros sink Hs;
    cbn [chain_calls]; rewrite !Forall_app; split_and!.
  - by apply Forall_singleton.
  - constructor.
  - destruct sink as [s|]; [|constructor]. apply Forall_singleton. split; [apply operator_node_inner|by apply Hs].
  - apply Forall_singleton. split; [apply operator_node_inner|done].
  - by apply Forall_singleton.
  - apply IH. intros s [= <-]. apply operator_node_inner.
  - destruct sink as [s|]; [|constructor]. apply Forall_singleton. split; [apply operator_node_inner|by apply Hs].
  - apply Forall_singleton. split; [apply operator_node_inner|done].
Qed.

(** Calls that can be added to a graph. *)
Definition part {C} (inner : jstring → bool) (l : list (graph_call C)) : Prop :=
  Forall (named_apart inner) l ∧
  (∀ v w, (v, w) ∈ set_edges l → v ∈ set_nodes l ∧ w ∈ set_nodes l) ∧
  (∀ v p, (v, p) ∈ set_parents l → v ∈ set_nodes l ∧ p ∈ set_nodes l).

Lemma pipeline_drawable pid l calls : pipeline_calls pid l = Ok calls → part is_operator_node calls.
Proof.
  unfold pipeline_calls. rewrite d3_calls. destruct (forallb labelled (ops_of l)); [|done]. intros [= <-].
  unfold part. set (k := pipelineNodeId pid).
  match goal with |- context [set_nodes ?c] => assert (set_nodes c = k :: node_ids l) as Hn by (cbn; f_equal; apply d3_nodes) end.
  rewrite Hn. split_and!.
  - constructor; [done|]. by apply chain_named.
  - intros v w Hin. change (SetNode ?i ?a ?b :: ?c) with ([SetNode i a b] ++ c) in Hin.
    rewrite set_edges_app in Hin. cbn [set_edges omap list_omap app] in Hin.
    rewrite d3_edges in Hin. cbv iota in Hin. rewrite zip_with_nil_r in Hin. cbn [app] in Hin.
    apply elem_of_zip_l in Hin as Hv. apply elem_of_zip_r in Hin as Hw. split; apply elem_of_cons; right; [|done].
    destruct (node_ids l); [done|]. by apply list_elem_of_further.
  - intros v p Hin. change (SetNode ?i ?a ?b :: ?c) with ([SetNode i a b] ++ c) in Hin.
    rewrite set_parents_app in Hin. cbn [set_parents omap list_omap app] in Hin.
    rewrite d3_parents in Hin. apply list_elem_of_fmap in Hin as (i & [= -> ->] & Hi).
    split; [by apply list_elem_of_further|apply list_elem_of_here].
Qed.

Lemma drawable_parts {C} inner (ls : list (list (graph_call C))) :
  Forall (part inner) ls → drawable (concat ls).
Proof.
  intros Hls.
  assert (∀ l x, l ∈ ls → x ∈ set_nodes l → x ∈ set_nodes (concat ls)) as Hsub.
  { intros l x (l1 & l2 & ->)%list_elem_of_split Hx. rewrite concat_app, set_nodes_app. cbn [concat].
    rewrite set_nodes_app. set_solver. }
  assert (∀ x, x ∈ concat ls → ∃ l, l ∈ ls ∧ x ∈ l) as Hin.
  { intros x (l & Hl & Hx)%list_elem_of_In%in_concat. exists l. by rewrite !list_elem_of_In. }
  rewrite Forall_forall in Hls. apply (drawable_named inner).
  - intros v w (c & Hc & Hv)%list_elem_of_omap. apply Hin in Hc as (l & Hl & Hc).
    destruct (Hls l Hl) as (_ & He & _). destruct (He v w) as [H1 H2]; [|by split; eapply Hsub].
    apply list_elem_of_omap. eauto.
  - intros v p (c & Hc & Hv)%list_elem_of_omap. apply Hin in Hc as (l & Hl & Hc).
    destruct (Hls l Hl) as (_ & _ & Hp). destruct (Hp v p) as [H1 H2]; [|by split; eapply Hsub].
    apply list_elem_of_omap. eauto.
  - apply Forall_forall. intros c (l & Hl & Hc)%Hin. destruct (Hls l Hl) as [Hn _].
    rewrite Forall_forall in Hn. by apply Hn.
Qed.

(** With labels that can be rendered, every pipeline is drawn. *)
Lemma pipelines_drawable (m : pipeline_map) :
  all_in (λ o, labelled o = true) m →
  ∃ ls, res_map (λ e, pipeline_calls e.1 e.2) m = Ok ls ∧ Forall (part is_operator_node) ls.
Proof.
  induction m as [|[pid l] m IH]; intros Hm; [by exists []|].
  destruct IH as (ls & Hls & Hp); [intros p' l' Hin; eapply Hm; by apply list_elem_of_further|].
  assert (forallb labelled (ops_of l) = true) as Hl.
  { apply forallb_forall. intros o Ho%list_elem_of_In. pose proof (Hm pid l (list_elem_of_here _ _)) as Hf.
    rewrite Forall_forall in Hf. by apply Hf. }
  destruct (pipeline_calls pid l) as [calls|] eqn:Ec.
  - exists (calls :: ls). cbn [res_map fst snd]. rewrite Ec. cbn [mbind res_bind]. rewrite Hls. split; [done|].
    constructor; [by eapply pipeline_drawable|done].
  - exfalso. unfold pipeline_calls in Ec. by rewrite d3_calls, Hl in Ec.
Qed.

(** ** The stage page *)

Section stage_page.
Context `{JsSortLaws, DagreLaws}.
Context (pathname search : jstring).
Let P := sd_poller pathname search.

Definition has_plan (st : stage) : bool := match plan st with Some _ => true | None => false end.

(** The operators of a stage can be shown: it has statistics with operators, whose blocked times
    can be read, and no node of its plan lacks a child that its type has. *)
Definition has_operators (st : stage) : bool :=
  match plan st, stageStats st with
  | Some fr, Some stats =>
    match operatorSummaries stats with
    | Some summaries => forallb labelled summaries && complete (fr_root fr)
    | None => false
    end
  | _, _ => false
  end.

(** A document that the stage page can show, whichever stage is selected. *)
Definition stage_ready (q : query_info) : bool :=
  match outputStage q with
  | None => true
  | Some out =>
    showable (qi q) && forallb has_plan (getStages out) &&
    (negb (isQueryEnded (qi q)) || forallb has_operators (getStages out))
  end.

Lemma draw_ok g : drawable (calls g) → is_ok (draw_operators (Some g)) = true.
Proof.
  intros Hg. apply (dagre_total operator g) in Hg. unfold draw_operators. cbn [option_map initializeSvg].
  change (has_group _) with true. by destruct (dagre_render true g).
Qed.

Lemma operators_drawn st :
  has_operators st = true → is_ok (g ← updateD3Graph st; draw_operators g) = true.
Proof.
  unfold has_operators, updateD3Graph. destruct (plan st) as [fr|]; [|done]. destruct (stageStats st) as [stats|]; [|done].
  cbn [deref mbind res_bind]. destruct (operatorSummaries stats) as [summaries|]; [|done].
  intros [Hl Hc]%andb_true_iff. cbn [deref mbind res_bind].
  destruct (graphs_total (computeOperatorMap summaries) (fr_root fr) Hc) as [[m errors] Hm]. rewrite Hm.
  cbn [mbind res_bind fst].
  destruct (pipelines_drawable m) as (ls & -> & Hls).
  { apply (graphs_in (λ o, labelled o = true) _ _ _) in Hm; [done|]. intros id ops Hid.
    rewrite (group_get planNodeId summaries id : map_get id (computeOperatorMap summaries) = _) in Hid.
    apply Forall_forall. intros o Ho. rewrite forallb_forall in Hl. apply Hl, list_elem_of_In.
    assert (o ∈ List.filter (λ v, bool_decide (planNodeId v = id)) summaries) as Hin
      by (destruct (List.filter _ summaries); [done|by injection Hid as <-]).
    by apply elem_of_filter_bool in Hin as [Hin _]. }
  cbn [mbind res_bind]. destruct (0 <? length m); [|done]. apply draw_ok. cbn [add_calls calls initializeGraph app].
  by apply (drawable_parts is_operator_node).
Qed.

Lemma plan_ids_total l : Forall (λ st, has_plan st = true) l → is_ok (plan_ids l) = true.
Proof.
  induction 1 as [|st l Hst _ IH]; [done|]. cbn [plan_ids]. unfold has_plan in Hst. destruct (plan st); [|done].
  cbn [deref mbind res_bind]. by destruct (plan_ids l).
Qed.

Definition presents (s : sd_state) : Prop := ∀ q, sd_query s = Some q → stage_ready q = true.

(** The page has at most one child, the graph of the selected stage. *)
Lemma stage_page_child header planId ids (v : stage_view) :
  child_components (stage_page (vmap (Empty_set_rect _) HeaderAction header) planId ids v) = child_components v.
Proof.
  unfold stage_page, el, T. cbn [child_components map concat app].
  rewrite cc_embedded, cc_map by (by intros). cbn [app]. by rewrite !app_nil_r.
Qed.

Lemma stage_view_ok s :
  presents s → is_ok (view ← sd_render pathname s; sd_commit view) = true.
Proof.
  intros Hs. unfold sd_render. destruct (sd_query s) as [q|] eqn:Eq; [|by destruct (sd_initialized s)].
  specialize (Hs q Eq). unfold stage_ready in Hs. destruct (outputStage q) as [out|]; [|done].
  apply andb_true_iff in Hs as [[Hsh Hp]%andb_true_iff Ho]. rewrite getAllStageIds_plan_ids.
  assert (Forall (λ st, has_plan st = true) (getStages out)) as Hp'
    by (apply Forall_forall; intros st Hst%list_elem_of_In; rewrite forallb_forall in Hp; by apply Hp).
  pose proof (plan_ids_total _ Hp') as Hids. destruct (plan_ids (getStages out)) as [ids|]; [|done]. cbn [mbind res_bind].
  rewrite find_getStages. destruct (List.find _ (getStages out)) as [st|] eqn:Ef; [|done].
  apply find_some in Ef as [Hst _].
  assert (has_plan st = true) as Hpl by (rewrite forallb_forall in Hp; by apply Hp).
  unfold has_plan in Hpl. destruct (plan st) as [fr|] eqn:Epl; [|done]. cbn [deref mbind res_bind].
  pose proof (header_ok pathname (qi q) Hsh) as Hh. destruct (header_render pathname (qi q)) as [header|]; [|done].
  cbn [mbind res_bind].
  destruct (isQueryEnded (qi q)); cbn [negb orb] in *.
  - assert (has_operators st = true) as Hop by (rewrite forallb_forall in Ho; by apply Ho).
    apply operators_drawn in Hop. unfold sd_commit. rewrite stage_page_child. cbn [child_components res_map].
    by destruct (updateD3Graph st ≫= _).
  - unfold sd_commit. by rewrite stage_page_child.
Qed.
Definition stage_healthy (s : sd_state) : Prop := sd_crashed s = false ∧ presents s.

Lemma stage_update_ok s s' :
  sd_crashed s = false → sd_crashed s' = false → presents s' →
  sd_update pathname s s' = Done s' ∧ stage_healthy s'.
Proof.
  intros Hc Hc' Hs'. pose proof (stage_view_ok s' Hs') as Hv. unfold sd_update. rewrite Hc.
  destruct (view ← sd_render pathname s'; sd_commit view); [|done]. by repeat split.
Qed.

(** C17: With complete documents the stage page never breaks: whichever stages the user selects and
    however failures and answers alternate, rendering the page does not throw and the operator
    graph of the selected stage is one that the library draws; and the page polls, with exactly
    one request outstanding or one timer pending, until it has received the final document,
    after which there is neither. *)
Theorem stage_page_survives rs p :
  @run _ _ P rs p → Forall (λ q, stage_ready q = true) rs →
  sd_crashed (comp p) = false ∧ is_ok (view ← sd_render pathname (comp p); sd_commit view) = true ∧
  inflight p + length (live p) = if existsb finalQueryInfo rs then 0 else 1.
Proof.
  intros Hr Hg.
  destruct (@run_until_final _ _ P stage_healthy (λ q, stage_ready q = true)) with (final := finalQueryInfo) (rs := rs) (p := p)
    as [[Hc Hs] Ha]; try done.
  - intros q s Hq [Hc Hs]. exists (sd_on_response q s). apply stage_update_ok; [done|done|]. by intros q' [= <-].
  - intros now s [Hc Hs]. exists (sd_on_failure s). by apply stage_update_ok.
  - intros s s' [Hc Hs] [id ->]. destruct (stage_update_ok s (sd_select id s)) as [-> Hh]; [done..|]. by split.
  - intros q s s' _ [Hc _] Hu. apply sd_update_inv in Hu as ->; [|done]. done.
  - intros now s s' [Hc _] Hu. apply sd_update_inv in Hu as ->; [|done]. done.
  - split_and!; [done|by apply stage_view_ok|done].
Qed.
End stage_page.

(** ** The graph of the live plan *)

Definition is_plan_node (v : jstring) : bool := starts_with (js "node-") v || starts_with (js "stage-") v.

Lemma plan_node_inner id : is_plan_node (planNodeName id) = true.
Proof. unfold is_plan_node. apply orb_true_iff. left. apply starts_with_spec. by eexists. Qed.
Lemma stage_root_inner id : is_plan_node (stageRootNodeId id) = true.
Proof. unfold is_plan_node. apply orb_true_iff. right. apply starts_with_spec. by eexists. Qed.

(** An entry of the map of stages that can be drawn. *)
Definition entry_ready (e : jstring * stage_node) : Prop :=
  is_Some (sn_stats e.2) ∧ is_plan_node (sn_stageId e.2) = false.

Section plan_graph.
Context (stages : list (jstring * stage_node)).
Hypothesis stages_ready : Forall entry_ready stages.

Lemma remote_edge_total nodeId sourceId : is_ok (remote_edge stages nodeId sourceId) = true.
Proof.
  unfold remote_edge. destruct (map_get sourceId stages) as [sn|] eqn:E; [|done].
  apply map_get_Some, (proj1 (Forall_forall _ _) stages_ready) in E as [[stats Es] _]. cbn in Es. by rewrite Es.
Qed.

Lemma node_calls_total cluster node : is_ok (node_calls stages cluster node) = true.
Proof.
  unfold node_calls. destruct (map_get _ (ni_descriptor node)) as [ids|]; [|done]. destruct (truthy ids); [|done].
  assert (is_ok (res_map (remote_edge stages (planNodeName (ni_id node))) (parseRemoteSources ids)) = true) as Hr
    by (apply res_map_is_ok, Forall_forall; intros; apply remote_edge_total).
  by destruct (res_map _ _).
Qed.

Lemma updateD3Stage_total e : entry_ready e → is_ok (updateD3Stage e.2 stages) = true.
Proof.
  intros [[stats Hs] _]. unfold updateD3Stage, StageStatistics_render. rewrite Hs. cbn [deref mbind res_bind].
  assert (is_ok (res_map (λ n : jstring * node_info, node_calls stages (sn_stageId e.2) n.2) (sn_nodes e.2)) = true) as Hr
    by (apply res_map_is_ok, Forall_forall; intros; apply node_calls_total).
  by destruct (res_map _ _).
Qed.

Lemma node_calls_part cluster node l :
  is_plan_node cluster = false → node_calls stages cluster node = Ok l →
  Forall (named_apart is_plan_node) l ∧
  (∀ v p, (v, p) ∈ set_parents l → v ∈ set_nodes l ∧ p = cluster).
Proof.
  intros Hc. unfold node_calls. intros (remote & Hr & <-%Ok_inj)%res_bind_ok.
  assert (Forall (named_apart is_plan_node) remote ∧ set_parents remote = []) as [Hn Hp].
  { destruct (map_get _ (ni_descriptor node)) as [ids|]; [|by injection Hr as <-].
    destruct (truthy ids); [|by injection Hr as <-]. apply res_bind_ok in Hr as (edges & He & <-%Ok_inj).
    apply res_map_ok in He. cbn [set_parents omap list_omap]. split.
    - constructor; [done|]. clear Hc. induction He as [|x y xs ys Hxy _ IH]; cbn [concat]; [constructor|].
      apply Forall_app. split; [|done]. unfold remote_edge in Hxy. destruct (map_get x stages); [|by injection Hxy as <-].
      apply res_bind_ok in Hxy as (stats & _ & <-%Ok_inj). apply Forall_singleton.
      split; [apply stage_root_inner|apply plan_node_inner].
    - change (set_parents (concat edges) = []). clear Hc. induction He as [|x y xs ys Hxy _ IH]; cbn [concat]; [done|].
      rewrite set_parents_app, IH, app_nil_r. unfold remote_edge in Hxy. destruct (map_get x stages); [|by injection Hxy as <-].
      by apply res_bind_ok in Hxy as (stats & _ & <-%Ok_inj). }
  split.
  - rewrite !Forall_app. split_and!; [| |done].
    + apply Forall_cons. split; [done|]. apply Forall_singleton. split; [apply plan_node_inner|done].
    + apply Forall_forall. intros c (source & -> & _)%list_elem_of_fmap. split; apply plan_node_inner.
  - intros v p. rewrite !set_parents_app, Hp, app_nil_r.
    assert (∀ k, set_parents (map (λ source, SetEdge (planNodeName source) (planNodeName k) PLAN_EDGE)
      (ni_sources node) : list (graph_call plan_label)) = []) as -> by (intros k; by induction (ni_sources node)).
    rewrite app_nil_r. intros [= -> ->]%list_elem_of_singleton. split; [|done].
    rewrite !set_nodes_app. apply elem_of_app. left. apply list_elem_of_here.
Qed.

Lemma updateD3Stage_part sn l :
  is_plan_node (sn_stageId sn) = false → updateD3Stage sn stages = Ok l →
  Forall (named_apart is_plan_node) l ∧ (∀ v p, (v, p) ∈ set_parents l → v ∈ set_nodes l ∧ p ∈ set_nodes l).
Proof.
  intros Hc. unfold updateD3Stage. intros (html & _ & Hl)%res_bind_ok.
  apply res_bind_ok in Hl as (nodes & Hn & <-%Ok_inj). apply res_map_ok in Hn.
  assert (Forall (λ c, Forall (named_apart is_plan_node) c ∧
    (∀ v p, (v, p) ∈ set_parents c → v ∈ set_nodes c ∧ p = sn_stageId sn)) nodes) as Hparts.
  { induction Hn as [|x y xs ys Hxy _ IH]; constructor; [|done]. by eapply node_calls_part. }
  clear Hn. split.
  - rewrite Forall_app. split.
    + rewrite !Forall_cons, Forall_nil. by split_and!.
    + induction Hparts as [|c cs [Hp _] _ IH]; cbn [concat]; [constructor|]. by apply Forall_app.
  - intros v p. rewrite set_parents_app, set_nodes_app, !elem_of_app. intros [Hin|Hin].
    + apply list_elem_of_singleton in Hin as [= -> ->].
      split; left; [apply list_elem_of_further, list_elem_of_here|apply list_elem_of_here].
    + enough (v ∈ set_nodes (concat nodes) ∧ p = sn_stageId sn) as [Hv ->]
        by (split; [by right|left; apply list_elem_of_here]).
      induction Hparts as [|c cs [_ Hp] _ IH]; cbn [concat] in *; [by apply elem_of_nil in Hin|].
      rewrite set_nodes_app, elem_of_app. rewrite set_parents_app, elem_of_app in Hin.
      destruct Hin as [[Hv ->]%Hp|[Hv ->]%IH]; auto.
Qed.
End plan_graph.

(** ** The live plan page *)

Section plan_page.
Context `{PlanParser, DagreLaws, PlanBox}.
Context (embedded : bool) (pathname : jstring).
Let P := lp_poller embedded pathname.

(** A stage that can be drawn: it has statistics and a plan whose text parses to a plan with the
    same root, and its id is not the name of a node. *)
Definition plan_stage_ready (st : stage) : bool :=
  match plan st, stageStats st with
  | Some fr, Some _ =>
    match JSON_parse (jsonRepresentation fr) with
    | Ok json => jeqb (pj_id json) (pn_id (fr_root fr)) && negb (is_plan_node (stageId st))
    | Throw _ => false
    end
  | _, _ => false
  end.

Definition plan_ready (q : query_info) : bool :=
  match outputStage q with
  | Some out => showable (qi q) && forallb plan_stage_ready (getStages out)
  | None => false
  end.

Lemma flattenStage_ready s r :
  Forall (λ st, plan_stage_ready st = true) (getStages s) → Forall entry_ready r →
  ∃ r', flattenStage s r = Ok r' ∧ Forall entry_ready r'.
Proof.
  revert r. induction s as [id st p stats ts subs IH] using stage_tree_ind. intros r Hs Hr.
  cbn [getStages subStages] in Hs. apply Forall_cons in Hs as [Hst Hs].
  assert (∃ r1, fold_left (λ acc sub, r ← acc; flattenStage sub r) subs (Ok r) = Ok r1 ∧ Forall entry_ready r1)
    as (r1 & Hf & Hr1).
  { clear Hst. revert r Hr. induction IH as [|s subs IHs _ IH]; intros r Hr; [by eexists|].
    cbn [map concat] in Hs. apply Forall_app in Hs as [Hs1 Hs2].
    destruct (IHs r Hs1 Hr) as (r1 & Hf & Hr1). cbn [fold_left mbind res_bind]. rewrite Hf. by apply IH. }
  cbn [flattenStage subStages]. rewrite Hf. cbn [mbind res_bind plan].
  unfold plan_stage_ready in Hst. cbn [plan stageStats stageId] in Hst.
  destruct p as [fr|]; [|done]. destruct stats as [stats|]; [|done].
  destruct (JSON_parse (jsonRepresentation fr)) as [json|] eqn:Ej; [|done].
  apply andb_true_iff in Hst as [_ Hid]. apply negb_true_iff in Hid.
  cbn [deref mbind res_bind]. rewrite Ej. cbn [mbind res_bind]. eexists. split; [done|].
  apply Forall_forall. intros [k sn] [[= -> ->]|Hin]%map_set_elem.
  - split; [by eexists|done].
  - by apply (proj1 (Forall_forall _ _) Hr1).
Qed.

Lemma plan_ready_roots out :
  forallb plan_stage_ready (getStages out) = true → roots_agree out.
Proof.
  rewrite forallb_forall. intros Hs. apply Forall_forall. intros st Hst fr json Hp Hj.
  apply list_elem_of_In, Hs in Hst. unfold plan_stage_ready in Hst. rewrite Hp, Hj in Hst.
  destruct (stageStats st); [|done]. apply andb_true_iff in Hst as [Hid _]. by apply jeqb_eq.
Qed.

(** The calls for such a document can be made, and the graph that they extend is still one that
    the library draws. *)
Lemma plan_calls_part q :
  plan_ready q = true → ∃ calls, plan_calls q = Ok calls ∧ part is_plan_node calls.
Proof.
  unfold plan_ready. destruct (outputStage q) as [out|] eqn:Eo; [|done]. intros [_ Hs]%andb_true_iff.
  destruct (flattenStage_ready out []) as (stages & Hf & Hready); [|constructor|].
  { apply Forall_forall. intros st Hst%list_elem_of_In. rewrite forallb_forall in Hs. by apply Hs. }
  assert (getPlanStages q = Ok stages) as Hg by (unfold getPlanStages; by rewrite Eo).
  assert (is_ok (res_map (λ e : jstring * stage_node, updateD3Stage e.2 stages) stages) = true) as Hm.
  { apply res_map_is_ok. eapply Forall_impl; [exact Hready|]. intros e He. by apply updateD3Stage_total. }
  destruct (res_map (λ e : jstring * stage_node, updateD3Stage e.2 stages) stages) as [ls|] eqn:El; [|done].
  assert (plan_calls q = Ok (concat ls)) as Hc by (unfold plan_calls; rewrite Hg; cbn [mbind res_bind]; by rewrite El).
  exists (concat ls). split; [done|].
  pose proof (plan_calls_closed q out (concat ls) Eo (plan_ready_roots out Hs) Hc) as Hedges.
  apply res_map_ok in El.
  assert (Forall (λ l, Forall (named_apart is_plan_node) l ∧
    (∀ v p, (v, p) ∈ set_parents l → v ∈ set_nodes l ∧ p ∈ set_nodes l)) ls) as Hparts.
  { apply Forall_forall. intros l [i Hi]%list_elem_of_lookup.
    destruct (Forall2_lookup_r _ _ _ _ _ El Hi) as (e & He%list_elem_of_lookup_2 & Hcalls).
    apply (proj1 (Forall_forall _ _) Hready) in He as [_ He]. by eapply updateD3Stage_part. }
  split_and!; [|exact Hedges|].
  - clear Hedges Hc El Hm. induction Hparts as [|l ls [Hn _] _ IH]; cbn [concat]; [constructor|]. by apply Forall_app.
  - clear Hedges Hc El Hm. induction Hparts as [|l ls [_ Hp] _ IH]; cbn [concat]; [by intros v p ?%elem_of_nil|].
    intros v p. rewrite set_parents_app, set_nodes_app, !elem_of_app. intros [[Hv Hq]%Hp|[Hv Hq]%IH]; auto.
Qed.

(** The canvas has been found, the document on display can be drawn, and so can the graph. *)
Record plan_healthy (s : lp_state) : Prop := {
  ph_crashed : lp_crashed s = false;
  ph_initialized : lp_initialized s = true;
  ph_query : ∃ q, lp_query s = Some q ∧ plan_ready q = true ∧ lp_ended s = finalQueryInfo q;
  ph_canvas : ∃ c, lp_svg s = Some (Some c) ∧ 0 < cv_groups c;
  ph_graph : ∃ ls, calls (lp_graph s) = concat ls ∧ Forall (part is_plan_node) ls;
}.

(** Drawing a document that is ready into a canvas that is there, or is found now. *)
Lemma plan_update_ok s q :
  lp_crashed s = false → lp_initialized s = true → lp_query s = Some q → plan_ready q = true →
  lp_ended s = finalQueryInfo q →
  (lp_svg s = None ∨ ∃ c, lp_svg s = Some (Some c) ∧ 0 < cv_groups c) →
  (∃ ls, calls (lp_graph s) = concat ls ∧ Forall (part is_plan_node) ls) →
  ∃ s', lp_update embedded pathname s = Ok s' ∧ plan_healthy s' ∧ lp_keep_polling s' = lp_keep_polling s.
Proof.
  intros Hc Hi Hq Hr He Hsvg (ls & Hg & Hls). destruct (plan_calls_part q Hr) as (new & Hnew & Hpart).
  assert (is_ok (lp_render embedded pathname s) = true) as Hv.
  { unfold lp_render. rewrite Hq, Hi. cbn [negb]. destruct embedded; [done|].
    unfold plan_ready in Hr. destruct (outputStage q); [|done]. apply andb_true_iff in Hr as [Hs _].
    pose proof (header_ok pathname (qi q) Hs) as Hh. by destruct (header_render pathname (qi q)). }
  unfold lp_update. destruct (lp_render embedded pathname s) as [v|]; [|done]. cbn [mbind res_bind].
  assert (∃ c, match lp_svg s with
               | None => initializeSvg (if canvas_present s then Some empty_canvas else None)
               | Some svg => svg
               end = Some c ∧ 0 < cv_groups c) as (c & Hcv & Hpos).
  { destruct Hsvg as [->|(c & -> & Hpos)]; [|by exists c]. unfold canvas_present. rewrite Hq, Hi.
    eexists. split; [reflexivity|]. cbn. lia. }
  unfold lp_didUpdate. cbv zeta. rewrite Hcv. cbn [lp_query set_svg]. rewrite Hq, Hnew. cbn [mbind res_bind].
  unfold draw_plan. cbn [has_group lp_graph set_svg set_graph]. rewrite (proj2 (Nat.ltb_lt _ _) Hpos).
  assert (is_ok (dagre_render true (add_calls (lp_graph s) new)) = true) as Hd.
  { apply dagre_total. cbn [calls add_calls]. rewrite Hg. replace (concat ls ++ new) with (concat (ls ++ [new]))
      by (rewrite concat_app; cbn; by rewrite app_nil_r).
    apply (drawable_parts is_plan_node), Forall_app. by split; [|apply Forall_singleton]. }
  destruct (dagre_render true (add_calls (lp_graph s) new)) as [size|]; [|done]. cbn [mbind res_bind].
  unfold canvas_present. cbn [lp_query lp_initialized set_svg set_graph]. rewrite Hq, Hi.
  eexists. split; [reflexivity|]. split; [|unfold lp_keep_polling; cbn; by rewrite Hq]. split; cbn; try done.
  - by exists q.
  - eexists. split; [reflexivity|]. by rewrite fit_canvas_groups.
  - exists (ls ++ [new]). rewrite concat_app, Hg. cbn. rewrite app_nil_r. split; [done|].
    apply Forall_app. by split; [|apply Forall_singleton].
Qed.

Lemma plan_response_ok q s :
  plan_ready q = true → lp_crashed s = false →
  (lp_svg s = None ∨ ∃ c, lp_svg s = Some (Some c) ∧ 0 < cv_groups c) →
  (∃ ls, calls (lp_graph s) = concat ls ∧ Forall (part is_plan_node) ls) →
  ∃ s', lp_on_response embedded pathname q s = Done s' ∧ plan_healthy s'.
Proof.
  intros Hq Hc Hsvg Hg. unfold lp_on_response. rewrite Hc.
  destruct (plan_update_ok (lp_set_response q s) q) as (s' & -> & Hh & _); try done. by exists s'.
Qed.

(** C18: With complete documents the live plan, once it is mounted, never breaks: after the first
    request has been answered, however failures and answers alternate, every document is drawn,
    the graph, which grows with every update, stays one that the library draws, the canvas has
    its group, and the page polls, with exactly one request outstanding or one timer pending,
    until it has the final document, after which there is neither. *)
Theorem plan_page_survives q p :
  plan_ready q = true →
  rtc (@step_on _ _ P (λ q, plan_ready q = true)) (@answer _ _ P (@on_response _ _ P q) (@mounted _ _ P)) p →
  lp_crashed (comp p) = false ∧ drawable (calls (lp_graph (comp p))) ∧
  (∃ c, lp_svg (comp p) = Some (Some c) ∧ 0 < cv_groups c) ∧
  (∃ q', lp_query (comp p) = Some q' ∧ lp_ended (comp p) = finalQueryInfo q') ∧
  inflight p + length (live p) = if lp_ended (comp p) then 0 else 1.
Proof.
  intros Hq Hr.
  destruct (plan_response_ok q lp_constructor Hq eq_refl) as (s0 & Hs0 & Hh0); [by left|by exists []|].
  destruct (@steps_on_alive _ _ P plan_healthy (λ q, plan_ready q = true)) with
    (p := @answer _ _ P (@on_response _ _ P q) (@mounted _ _ P)) (p' := p) as [Hh Ha]; try done.
  - intros q' s Hq' [H1' H2' _ H4' H5']. apply plan_response_ok; try done. by right.
  - intros now s [H1' H2' (q' & H3' & H3r & H3e) H4' H5']. cbn. unfold lp_on_failure. rewrite H1'.
    destruct (plan_update_ok (lp_set_failure s) q') as (s' & -> & Hh & _); try done; [by right|]. by exists s'.
  - eapply (@exclusive_step _ _ P); [apply (@exclusive_mounted _ _ P)|]. apply (@step_response _ _ P). apply Nat.lt_0_1.
  - rewrite (@comp_answer _ _ P).
    change (plan_healthy (outcome_state (lp_on_response embedded pathname q lp_constructor))). by rewrite Hs0.
  - eapply (@answer_goes_on _ _ P); [apply (@exclusive_mounted _ _ P)|apply Nat.lt_0_1|exact Hs0].
  - destruct Hh as [Hc _ (q' & Hq' & _ & He) Hsvg (ls & Hg & Hls)]. split_and!; [done| |done|by exists q'|].
    + rewrite Hg. by apply (drawable_parts is_plan_node).
    + unfold goes_on in Ha. change (keep_polling (comp p)) with (lp_keep_polling (comp p)) in Ha.
      unfold lp_keep_polling in Ha. rewrite Hq' in Ha. destruct (lp_ended (comp p)); [|done].
      by destruct Ha as [-> ->].
Qed.
End plan_page.

(** ** Witnesses *)

(** A layout that rejects a graph with loose ends. *)
Definition strict_layout : DagreRender := λ C group g,
  if group && bool_decide (Forall (λ e, e.1 ∈ set_nodes (calls g) ∧ e.2 ∈ set_nodes (calls g)) (set_edges (calls g)))
  then Ok (of_Z 100, of_nat (length (set_nodes (calls g)))) else Throw TypeError.

Lemma strict_layout_laws : @DagreLaws strict_layout.
Proof.
  intros C g [He _ _ _]. unfold dagre_render, strict_layout. cbn [andb].
  rewrite bool_decide_eq_true_2; [done|]. apply Forall_forall. intros [v w]. apply He.
Qed.

(** The final document of a query with one stage that has operators. *)
Definition operators_stage : stage :=
  Stage (js "q1.0") (js "FINISHED")
    (Some {| fr_id := js "0"; fr_root := sample_plan; jsonRepresentation := js "1"; distribution := js "SINGLE" |})
    (Some {| s_totalScheduledTime := js "3.00s"; s_totalBlockedTime := js "1.00s"; s_totalCpuTime := js "2.00s";
             s_failedScheduledTime := js "0.00ns"; s_failedCpuTime := js "0.00ns";
             s_cumulativeUserMemory := of_Z 5000; s_failedCumulativeUserMemory := zero;
             s_userMemoryReservation := js "1MB"; s_peakUserMemoryReservation := js "2MB"; s_fullyBlocked := false;
             s_bufferedDataSize := js "0B"; s_queuedDrivers := zero; s_runningDrivers := zero;
             s_completedDrivers := of_Z 4; s_rawInputDataSize := js "10MB"; s_rawInputPositions := of_Z 1000;
             s_outputDataSize := js "1kB"; s_outputPositions := of_Z 10;
             operatorSummaries := Some sample_operators |}) [] [].
Definition operators_info : query_info := sample_info (js "FINISHED") (Some operators_stage) true.

Definition strict_stage : Poller sd_state query_info :=
  @sd_poller insertion_js_sort strict_layout (js "/ui/stage.html") (js "?q1.0").

Lemma stage_page_survives_witness :
  let p := @answer _ _ strict_stage (@on_response _ _ strict_stage operators_info) (@mounted _ _ strict_stage) in
  sd_crashed (comp p) = false ∧ inflight p + length (live p) = 0.
Proof.
  destruct (@stage_page_survives insertion_js_sort insertion_js_sort_laws strict_layout strict_layout_laws
    (js "/ui/stage.html") (js "?q1.0") [operators_info]
    (@answer _ _ strict_stage (@on_response _ _ strict_stage operators_info) (@mounted _ _ strict_stage))) as (Hc & _ & Ha).
  - apply (@run_response _ _ strict_stage [] _ operators_info); [constructor|apply Nat.lt_0_1].
  - apply Forall_singleton. vm_compute. reflexivity.
  - exact (conj Hc Ha).
Defined.

(** The operators are drawn: the page has a canvas with the five operators and two pipelines. *)
Example operators_drawn_sample :
  match @updateD3Graph insertion_js_sort operators_stage with
  | Ok (Some g) => length (set_nodes (calls g)) = 7 ∧ @draw_operators strict_layout (Some g) ≠ Ok None
  | _ => False
  end.
Proof. vm_compute. done. Qed.

Definition strict_plan : Poller lp_state query_info :=
  @lp_poller sample_parser strict_layout sample_box false (js "/ui/plan.html").
Definition plan_running : query_info := sample_info (js "RUNNING") (Some sample_stage) false.
Definition plan_first : page lp_state :=
  @answer _ _ strict_plan (@on_response _ _ strict_plan plan_running) (@mounted _ _ strict_plan).

(** The first answer, then a request that fails. *)
Lemma plan_page_survives_witness :
  let p := @answer _ _ strict_plan (@on_failure _ _ strict_plan 2000%Z) (@fire _ _ strict_plan 0 plan_first) in
  lp_crashed (comp p) = false ∧ drawable (calls (lp_graph (comp p))) ∧ length (calls (lp_graph (comp p))) = 44.
Proof.
  destruct (@plan_page_survives sample_parser strict_layout strict_layout_laws sample_box false (js "/ui/plan.html")
    plan_running (@answer _ _ strict_plan (@on_failure _ _ strict_plan 2000%Z) (@fire _ _ strict_plan 0 plan_first)))
    as (Hc & Hd & _).
  - vm_compute. reflexivity.
  - apply (rtc_l _ _ (@fire _ _ strict_plan 0 plan_first)).
    + apply (@on_fire _ _ strict_plan _ plan_first 0). apply list_elem_of_here.
    + apply rtc_once. apply (@on_failed _ _ strict_plan _ (@fire _ _ strict_plan 0 plan_first) 2000%Z).
      vm_compute. apply Nat.lt_0_1.
  - split_and!; [exact Hc|exact Hd|vm_compute; reflexivity].
Defined.
