(* ===== verification/Targets.v ===== *)
(** * Elements that scripts refer to

    The charts are drawn by jQuery plugins into elements that React has rendered, and the copy
    buttons name the element whose text they copy: both refer to elements by a selector [#id].
    This file collects the identifiers and the selectors of a view and shows that the selectors
    find their elements on the cluster overview, the query page, the stage page and the page of
    a worker, and where they do not. *)

From S2P Require Import Prelude JsString JsNumber JsCollections Model QueryState Format Vdom Sparkline QueryHeader Stage QueryInfo Samples QueryDetail QueryDetailView StageDetail StageDetailView ClusterHUD WorkerStatus WorkerThreadList QueryPages QueryTree Poller.
From stdpp Require Import relations.

(** ** Identifiers and selectors of a view *)

(** The attribute of an element that holds a text. *)
Definition text_attribute {H} (name : jstring) (attrs : list (jstring * attr H)) : list jstring :=
  match attribute name attrs with Some (AText s) => [s] | _ => [] end.

(** The texts of an attribute in a tree, in document order, without the children that keep their
    own state. *)
Fixpoint attribute_texts {C H} (name : jstring) (v : vnode C H) : list jstring :=
  match v with
  | VElem _ attrs l => text_attribute name attrs ++ concat (map (attribute_texts name) l)
  | VList l => concat (map (attribute_texts name) l)
  | _ => []
  end.

Definition element_ids {C H} (v : vnode C H) : list jstring := attribute_texts (js "id") v.
Definition copy_targets {C H} (v : vnode C H) : list jstring := attribute_texts (js "data-clipboard-target") v.

(** The selector finds an element with one of the identifiers. *)
Definition finds (selector : jstring) (ids : list jstring) : Prop := ∃ id, selector = js "#" ++ id ∧ id ∈ ids.

Section texts.
Context {C H : Type} (name : jstring).
Implicit Types (v : vnode C H) (l : list (vnode C H)).

Lemma texts_of_list t l :
  t ∈ concat (map (attribute_texts name) l) ↔ Exists (λ v, t ∈ attribute_texts name v) l.
Proof.
  rewrite Exists_exists. induction l as [|v l IH]; cbn [map concat]; [set_solver|].
  rewrite elem_of_app, IH. set_solver.
Qed.

Lemma texts_elem t tag attrs l :
  t ∈ attribute_texts name (VElem tag attrs l) ↔
  t ∈ text_attribute name attrs ∨ Exists (λ v, t ∈ attribute_texts name v) l.
Proof. cbn [attribute_texts]. by rewrite elem_of_app, texts_of_list. Qed.

Lemma texts_here t tag attrs l : text_attribute name attrs = [t] → t ∈ attribute_texts name (el tag attrs l).
Proof. intros E. apply texts_elem. left. rewrite E. apply list_elem_of_here. Qed.

Lemma texts_inside t tag attrs l :
  Exists (λ v, t ∈ attribute_texts name v) l → t ∈ attribute_texts name (el tag attrs l).
Proof. intros E. apply texts_elem. by right. Qed.
End texts.

(** Finds an identifier in a view that is partly known. *)
Ltac find_id :=
  unfold element_ids;
  repeat match goal with
  | |- _ ∈ attribute_texts _ (el _ _ _) =>
    first [apply texts_here; reflexivity | apply texts_inside]
  | |- Exists _ (_ :: _) => first [apply Exists_cons_hd; solve [find_id] | apply Exists_cons_tl]
  end.

Ltac find_chart := eexists; split; [reflexivity|find_id].

Lemma hud_charts_found s : Forall (λ c, finds (sp_target c) (element_ids (hud_render s))) (hud_sparklines s).
Proof. unfold hud_render, hud_sparklines. repeat first [apply Forall_cons_2; [find_chart|]|apply Forall_nil_2]. Qed.

Lemma status_charts_found i s :
  Forall (λ c, finds (sp_target c) (element_ids (status_page i s))) (ws_sparklines s).
Proof.
  unfold status_page, status_utilization, ws_sparklines.
  repeat first [apply Forall_cons_2; [find_chart|]|apply Forall_nil_2].
Qed.

(** The four charts of a stage. *)
Definition row_charts : list jstring :=
  [js "scheduled-time-histogram-"; js "cpu-time-histogram-"; js "scheduled-time-bar-chart-"; js "cpu-time-bar-chart-"].

Lemma row_chart_found f s stats ts id color taskList :
  f ∈ row_charts → finds ((js "#" ++ f) ++ id) (element_ids (stage_row s stats ts id color taskList)).
Proof.
  unfold row_charts, stage_row, scheduled_histogram_table, cpu_histogram_table, scheduled_chart_row, cpu_chart_row.
  rewrite !elem_of_cons, elem_of_nil. intros Hf. exists (f ++ id). split; [by rewrite <-app_assoc|].
  destruct Hf as [->|[->|[->|[->|[]]]]]; find_id.
Qed.

Lemma timeline_charts_found s v :
  timeline_table s = Ok v → Forall (λ c, finds (sp_target c) (element_ids v)) (qd_sparklines s).
Proof.
  unfold timeline_table. intros (m & _ & [= <-])%res_bind_ok. unfold qd_sparklines.
  repeat first [apply Forall_cons_2; [find_chart|]|apply Forall_nil_2].
Qed.

(** ** Copy buttons *)

(** The copy buttons of [v] name one of the identifiers. *)
Definition covered {C H} (ids : list jstring) (v : vnode C H) : Prop := Forall (λ t, finds t ids) (copy_targets v).

Section covered.
Context {C H : Type} (ids : list jstring).
Implicit Types (v : vnode C H) (l : list (vnode C H)).

Lemma covered_all l : Forall (covered ids) l → Forall (λ t, finds t ids) (concat (map copy_targets l)).
Proof. induction 1 as [|v l Hv _ IH]; cbn [map concat]; [constructor|]. by apply Forall_app_2. Qed.

Lemma covered_elem tag attrs l :
  Forall (λ t, finds t ids) (text_attribute (js "data-clipboard-target") attrs) →
  Forall (covered ids) l → covered ids (el tag attrs l).
Proof. intros Ha Hl. apply Forall_app_2; [done|by apply covered_all]. Qed.

Lemma covered_list l : Forall (covered ids) l → covered ids (VList l).
Proof. apply covered_all. Qed.

Lemma covered_when b v : covered ids v → covered ids (VWhen b v).
Proof. destruct b; [done|constructor]. Qed.

Lemma covered_map {B} (f : B → vnode C H) (l : list B) : (∀ x, covered ids (f x)) → Forall (covered ids) (map f l).
Proof. intros Hf. by apply Forall_fmap, Forall_true. Qed.

Lemma covered_mono ids' v : ids ⊆ ids' → covered ids v → covered ids' v.
Proof. intros Hi Hv. eapply Forall_impl; [exact Hv|]. intros t (id & -> & Hid). exists id. auto. Qed.
End covered.

Lemma found_one ids id : id ∈ ids → Forall (λ t, finds t ids) [js "#" ++ id].
Proof. intros Hid. apply Forall_singleton. by exists id. Qed.

(** Goes down a view; what remains are the parts that are not known and the copy buttons. *)
Ltac cover :=
  repeat match goal with
  | |- covered _ (el _ _ _) => apply covered_elem
  | |- covered _ (VList _) => apply covered_list
  | |- covered _ (VWhen _ _) => apply covered_when
  | |- covered _ (VText _) => apply Forall_nil_2
  | |- covered _ (VNum _) => apply Forall_nil_2
  | |- covered _ (VOpt ?o) => destruct o; apply Forall_nil_2
  | |- covered _ VNothing => apply Forall_nil_2
  | |- covered _ (VComp _) => apply Forall_nil_2
  | |- covered _ (T _) => apply Forall_nil_2
  | |- Forall _ (text_attribute _ _) =>
    first [exact (Forall_nil_2 _) | apply found_one]
  | |- Forall _ [] => apply Forall_nil_2
  | |- Forall _ (_ :: _) => apply Forall_cons_2
  | |- Forall _ (_ ++ _) => apply Forall_app_2
  | |- Forall (covered _) (map _ _) => apply covered_map; intros ?
  end.

(** The identifiers of a part are identifiers of the view. *)
Ltac find_part Ht :=
  unfold element_ids;
  repeat match goal with
  | |- _ ∈ attribute_texts _ (el _ _ _) => apply texts_inside
  | |- Exists _ (_ :: _) => first [apply Exists_cons_hd; solve [exact Ht | find_part Ht] | apply Exists_cons_tl]
  end.

(** Every copy button of the view finds its element in the view. *)
Definition copies {C H} (v : vnode C H) : Prop := covered (element_ids v) v.

Lemma copies_part {C H C' H'} (sub : vnode C H) (v : vnode C' H') :
  element_ids sub ⊆ element_ids v → copies sub → covered (element_ids v) sub.
Proof. intros Hi. by apply covered_mono. Qed.

Lemma status_overview_copies i : copies (status_overview i).
Proof. unfold copies, status_overview. cover; find_id. Qed.

Lemma status_copies s : copies (status_render s).
Proof.
  unfold status_render. destruct (ws_serverInfo s) as [i|].
  - unfold copies, status_page. cover.
    + apply copies_part; [intros t Ht; find_part Ht|apply status_overview_copies].
    + unfold status_utilization. cover.
    + unfold renderPoolBar, pool_bar. destruct (s_pool i); cover.
    + unfold renderPoolQueries, pool_unused, pool_table. destruct (s_pool i) as [p|]; [|cover].
      destruct (_ =? _); cover. case_match. case_match. unfold renderPoolQuery. cover.
  - destruct (ws_initialized s); unfold copies, status_error, status_loading; cover.
Qed.

Lemma text_attribute_map {H H'} (g : H → H') name (attrs : list (jstring * attr H)) (m : attr H → attr H') :
  (∀ s, m (AText s) = AText s) → (∀ a s, m a = AText s → a = AText s) →
  text_attribute name (map (λ '(n, a), (n, m a)) attrs) = text_attribute name attrs.
Proof.
  intros Hm Hm'. unfold text_attribute, attribute. induction attrs as [|[n a] attrs IH]; [done|].
  cbn [map List.find fst]. destruct (jeqb n name); [|done]. cbn [fmap option_fmap option_map snd].
  destruct (m a) eqn:E; try (destruct a; try done; by rewrite Hm in E). by rewrite (Hm' _ _ E).
Qed.

Lemma attribute_texts_vmap {C H C' H'} (f : C → C') (g : H → H') name v :
  attribute_texts name (vmap f g v) = attribute_texts name v.
Proof.
  assert (∀ l : list (vnode C H), Forall (λ v, attribute_texts name (vmap f g v) = attribute_texts name v) l →
    concat (map (attribute_texts name) (map (vmap f g) l)) = concat (map (attribute_texts name) l)) as Hl.
  { induction 1 as [|v' l Hv _ IH]; cbn [map concat]; [done|]. by rewrite Hv, IH. }
  induction v as [s|n| |tag attrs l IH|l IH|c] using vnode_tree_ind; try done; cbn [vmap attribute_texts].
  - rewrite Hl by done. f_equal. apply text_attribute_map; [exact g|done|]. intros a t Ha. destruct a; by simplify_eq/=.
  - by apply Hl.
Qed.

Lemma tab_covered ids pathname query path name : covered ids (renderTab pathname query path name).
Proof. unfold renderTab, tab_here, tab_elsewhere. destruct (includes _ _); cover. Qed.

Lemma header_copies pathname query v : header_render pathname query = Ok v → copies v.
Proof.
  unfold header_render. intros (bar & Hbar & [= <-])%res_bind_ok. unfold copies. cover;
    try apply tab_covered; [find_id|].
  unfold renderProgressBar, progressBar_ended, progressBar_running in Hbar.
  destruct (isQueryEnded query); revert Hbar;
    intros (pct & _ & Hbar)%res_bind_ok; apply res_bind_ok in Hbar as (color & _ & Hbar);
    apply res_bind_ok in Hbar as (title & _ & [= <-]); cover.
Qed.

Lemma session_copies query : copies (session_table query).
Proof. unfold copies, session_table, property_span. cover; find_id. Qed.

Lemma failure_copies query v : renderFailureInfo query = Ok v → copies v.
Proof.
  unfold renderFailureInfo. destruct (failureInfo query); [|intros [= <-]; unfold copies; cover].
  intros (code & _ & Hv)%res_bind_ok. apply res_bind_ok in Hv as (trace & _ & [= <-]).
  unfold copies, failure_view. cover. find_id.
Qed.

Lemma prepared_copies query : copies (renderPreparedQuery query).
Proof.
  unfold copies, renderPreparedQuery, prepared_query_view. destruct (preparedQuery query); cover. find_id.
Qed.

Lemma execution_covered `{DateParse, LocalTime} ids query stats : covered ids (execution_table query stats).
Proof. unfold execution_table. cover. Qed.
Lemma resource_covered ids b stats d : covered ids (resource_table b stats d).
Proof. unfold resource_table, resource_rows_input, resource_rows_memory, resource_rows_output. cover. Qed.
Lemma timeline_covered ids s v : timeline_table s = Ok v → covered ids v.
Proof. unfold timeline_table. intros (m & _ & [= <-])%res_bind_ok. cover. Qed.
Lemma warnings_covered ids query : covered ids (renderWarningInfo query).
Proof. unfold renderWarningInfo, warnings_view, warning_row. destruct (warnings query) as [|w ws]; cover. Qed.
Lemma stages_covered ids s b : covered ids (renderStages s b).
Proof.
  unfold renderStages, stages_section, renderStageRefreshButton, refresh_on_button, refresh_off_button, StageList_render,
    no_stages_view, stages_table. destruct (getStages_opt _); destruct (stageRefresh s); cover.
Qed.

(** ** Properties of the pages *)

Lemma query_page_copies `{DateParse, LocalTime} pathname s v : qd_render pathname s = Ok v → copies v.
Proof.
  unfold qd_render, query_message. destruct (qd_query s) as [q|];
    [|intros [= <-]; destruct (qd_initialized s); unfold copies; cover].
  destruct (qd_initialized s); cbn [negb]; [|intros [= <-]; unfold copies; cover].
  intros (stats & _ & Hv)%res_bind_ok. apply res_bind_ok in Hv as (hd & Hhd & Hv).
  apply res_bind_ok in Hv as (tl & Htl & Hv). apply res_bind_ok in Hv as (fl & Hfl & [= <-]).
  unfold copies, query_page. cover.
  - apply copies_part; [intros t Ht; find_part Ht|].
    unfold copies, covered, copy_targets, element_ids. rewrite !attribute_texts_vmap. by eapply header_copies.
  - apply copies_part; [intros t Ht; find_part Ht|]. apply session_copies.
  - apply execution_covered.
  - apply resource_covered.
  - by eapply timeline_covered.
  - apply warnings_covered.
  - apply copies_part; [intros t Ht; find_part Ht|]. by eapply failure_copies.
  - find_id.
  - apply copies_part; [intros t Ht; find_part Ht|]. apply prepared_copies.
  - apply stages_covered.
Qed.

Lemma copies_list {C H} (l : list (vnode C H)) : Forall copies l → copies (VList l).
Proof.
  intros Hl. apply covered_list, Forall_forall. intros v Hv. apply copies_part; [|by eapply Forall_forall in Hl].
  intros t Ht. unfold element_ids. cbn [attribute_texts]. apply texts_of_list, Exists_exists. eauto.
Qed.

Lemma copies_elem {C H} tag attrs (l : list (vnode C H)) :
  text_attribute (js "data-clipboard-target") attrs = [] → Forall copies l → copies (el tag attrs l).
Proof.
  intros Ha Hl. apply covered_elem; [rewrite Ha; constructor|]. apply Forall_forall. intros v Hv.
  apply copies_part; [|by eapply Forall_forall in Hl]. intros t Ht. apply texts_inside, Exists_exists. eauto.
Qed.

Lemma stack_lines_covered ids id ls : Forall (covered ids) (imap (renderStackLine id) ls).
Proof.
  apply Forall_lookup. intros i v. rewrite list_lookup_imap. intros (x & _ & ->)%fmap_Some.
  unfold renderStackLine. cover.
Qed.

Lemma thread_copies t : copies (renderThread t).
Proof. unfold copies, renderThread. cover; [find_id|apply stack_lines_covered]. Qed.

Lemma items_covered {B} ids (f : B → res threads_view) l items :
  (∀ x v, f x = Ok v → covered ids v) → res_map f l = Ok items → Forall (covered ids) items.
Proof.
  intros Hf Hl%res_map_ok. apply Forall_forall. intros v Hv.
  apply list_elem_of_lookup_1 in Hv as [i Hi]. 
  destruct (Forall2_lookup_r _ _ _ _ _ Hl Hi) as (x & _ & Hx). exact (Hf x v Hx).
Qed.

Lemma group_item_covered ids s g v : renderGroupListItem s g = Ok v → covered ids v.
Proof. unfold renderGroupListItem. intros (found & _ & [= <-])%res_bind_ok. cover. Qed.
Lemma state_item_covered ids s x v : renderThreadStateListItem s x = Ok v → covered ids v.
Proof. unfold renderThreadStateListItem. intros (found & _ & [= <-])%res_bind_ok. cover. Qed.

Lemma threads_copies `{TimeString} s v : wt_threads s ≠ None → threads_render s = Ok v → copies v.
Proof.
  unfold threads_render. destruct (wt_threads s) as [threads|]; [|done].
  intros _ (time & _ & Hv)%res_bind_ok. apply res_bind_ok in Hv as (gi & Hgi & Hv).
  apply res_bind_ok in Hv as (si & Hsi & Hv). apply res_bind_ok in Hv as (fl & _ & [= <-]).
  unfold copies, threads_page, threads_display. cover; [find_id| |].
  - unfold threads_toolbar. cover.
    + eapply items_covered; [|exact Hgi]. intros x v. apply group_item_covered.
    + eapply items_covered; [|exact Hsi]. intros x v. apply state_item_covered.
  - apply copies_part; [intros t Ht; find_part Ht|].
    unfold no_threads_in_group, no_threads_with_state, no_threads_in_group_with_state.
    repeat case_match; try solve [unfold copies; cover].
    unfold thread_dump. apply copies_elem; [done|]. apply Forall_singleton, copies_list, Forall_fmap, Forall_true.
    intros x. apply thread_copies.
Qed.

Definition chart_target (c : chart) : jstring :=
  match c with Histogram h => h_target h | BarChart b => b_target b end.

Lemma query_charts_found `{DateParse, LocalTime} pathname s q v :
  qd_query s = Some q → qd_initialized s = true → qd_render pathname s = Ok v →
  Forall (λ c, finds (sp_target c) (element_ids v)) (qd_sparklines s).
Proof.
  unfold qd_render. intros -> ->. cbn [negb]. intros (stats & _ & Hv)%res_bind_ok.
  apply res_bind_ok in Hv as (hd & _ & Hv). apply res_bind_ok in Hv as (tl & Htl & Hv).
  apply res_bind_ok in Hv as (fl & _ & [= <-]). eapply Forall_impl; [by apply timeline_charts_found|].
  intros c (id & Hc & Hid). exists id. split; [done|]. unfold query_page. find_part Hid.
Qed.

Lemma stage_charts_found `{DateParse, UrlParser, JsSort} now t st b s s' p v :
  plan st = Some p → StageSummary_render now (Some st) b s = Ok v →
  Forall (λ c, finds (chart_target c) (element_ids v)) (summary_didUpdate t st s').1.
Proof.
  unfold StageSummary_render. intros ->. intros (stats & _ & Hv)%res_bind_ok.
  apply res_bind_ok in Hv as (tl & _ & [= <-]). unfold summary_didUpdate.
  destruct (match lastRender s' with None => true | Some last => (1000 <=? t - last)%Z end); [|constructor]. cbn [fst].
  apply Forall_app_2; [|destruct (expanded s'); [|apply Forall_nil_2]];
    (apply Forall_cons_2; [|apply Forall_singleton]); cbn [chart_target renderHistogram h_target b_target].
  - apply (row_chart_found (js "scheduled-time-histogram-")), list_elem_of_here.
  - apply (row_chart_found (js "cpu-time-histogram-")). do 1 apply list_elem_of_further. apply list_elem_of_here.
  - apply (row_chart_found (js "scheduled-time-bar-chart-")). do 2 apply list_elem_of_further. apply list_elem_of_here.
  - apply (row_chart_found (js "cpu-time-bar-chart-")). do 3 apply list_elem_of_further. apply list_elem_of_here.
Qed.

Lemma lone_button `{TimeString} s v : threads_render s = Ok v → wt_threads s = None → ~ copies v.
Proof.
  unfold threads_render. intros Hv Hn. rewrite Hn in Hv. injection Hv as <-.
  destruct (wt_initialized s); intros Hc; apply Forall_inv in Hc as (id & _ & Hid); by apply not_elem_of_nil in Hid.
Qed.

(** C23: The scripts find the elements they refer to.  The sparklines of the cluster overview, of a
    worker whose status is known and of a query on display are drawn into elements of the
    rendered view, the histograms and bar charts of a stage into its row, those of an operator
    into its statistic.  Every copy button of the query page, of the status of a worker and of
    a thread snapshot names an element of the same view.  Only the button of a thread list
    without a snapshot names an element that is not there. *)
Theorem targets_found `{DateParse, LocalTime, UrlParser, JsSort, TimeString} :
  (∀ s c, c ∈ hud_sparklines s → finds (sp_target c) (element_ids (hud_render s))) ∧
  (∀ s i c, ws_serverInfo s = Some i → c ∈ ws_sparklines s → finds (sp_target c) (element_ids (status_render s))) ∧
  (∀ pathname s q v c, qd_query s = Some q → qd_initialized s = true → qd_render pathname s = Ok v →
    c ∈ qd_sparklines s → finds (sp_target c) (element_ids v)) ∧
  (∀ now t st b s s' p v c, plan st = Some p → StageSummary_render now (Some st) b s = Ok v →
    c ∈ (summary_didUpdate t st s').1 → finds (chart_target c) (element_ids v)) ∧
  (∀ x ops, finds (bc_target (operator_chart x ops)) (element_ids (OperatorStatistic_render (stat_name x) (stat_id x)))) ∧
  (∀ pathname s v, qd_render pathname s = Ok v → copies v) ∧
  (∀ s, copies (status_render s)) ∧
  (∀ s v, threads_render s = Ok v → copies v ↔ wt_threads s ≠ None).
Proof.
  split_and!.
  - intros s. apply Forall_forall, hud_charts_found.
  - intros s i c Hi. unfold status_render. rewrite Hi. revert c. apply Forall_forall, status_charts_found.
  - intros pathname s q v c Hq Hi Hv. revert c. apply Forall_forall. by eapply query_charts_found.
  - intros now t st b s s' p v c Hp Hv. revert c. apply Forall_forall. by eapply stage_charts_found.
  - intros x ops. unfold OperatorStatistic_render. find_chart.
  - apply query_page_copies.
  - apply status_copies.
  - intros s v Hv. split; [intros Hc Hn; by eapply lone_button|intros Hn; by eapply threads_copies].
Qed.

(** The charts of the sample stage when its row is expanded, and the copy button before the first
    snapshot. *)
Lemma targets_found_witness :
  Forall (λ c, finds (chart_target c)
      (element_ids (match @StageSummary_render sample_clock hosts zero (Some sample_stage) false summary_constructor with
                    | Ok v => v | Throw _ => VNothing end)))
    (@summary_didUpdate insertion_js_sort 0 sample_stage (toggleExpanded summary_constructor)).1 ∧
  length (@summary_didUpdate insertion_js_sort 0 sample_stage (toggleExpanded summary_constructor)).1 = 4 ∧
  ~ copies (threads_page VNothing capture_button).
Proof.
  destruct (@targets_found sample_clock sample_zone hosts insertion_js_sort (λ _, [])) as (_ & _ & _ & Hs & _ & _ & _ & Ht).
  split_and!.
  - apply Forall_forall. intros c. eapply (Hs zero 0%Z sample_stage false summary_constructor); reflexivity.
  - reflexivity.
  - intros Hc. by apply (Ht wt_constructor (threads_page VNothing capture_button) eq_refl) in Hc.
Defined.

(** ** Syntax highlighting *)

(** The elements that [componentDidUpdate] of the query page hands to highlight.js: only when it
    draws for the first time. *)
Definition qd_highlighted (now : Z) (s : qd_state) (v : query_view) : list jstring :=
  if redraw_due now s then
    match qd_lastRender s with
    | None => List.filter (λ id, bool_decide (id ∈ element_ids v)) [js "query"; js "prepared-query"]
    | Some _ => []
    end
  else [].

Section highlight.
Context `{DateParse, LocalTime}.
Context (pathname : jstring).

Lemma texts_highlighted now s q v :
  qd_query s = Some q → qd_initialized s = true → qd_lastRender s = None → qd_render pathname s = Ok v →
  js "query" ∈ qd_highlighted now s v ∧
  (preparedQuery q ≠ None → js "prepared-query" ∈ qd_highlighted now s v).
Proof.
  unfold qd_render, qd_highlighted, redraw_due. intros -> -> ->. cbn [negb]. intros (stats & _ & Hv)%res_bind_ok.
  apply res_bind_ok in Hv as (hd & _ & Hv). apply res_bind_ok in Hv as (tl & _ & Hv).
  apply res_bind_ok in Hv as (fl & _ & [= <-]).
  rewrite !list_elem_of_In, !filter_In, !bool_decide_eq_true. split.
  - split; [by left|]. unfold query_page. find_id.
  - intros Hp. split; [by right; left|]. unfold renderPreparedQuery, prepared_query_view, query_page.
    destruct (preparedQuery q); [find_id|done].
Qed.

Definition drawn (s : qd_state) : Prop := qd_lastRender s ≠ None.

Lemma update_drawn now s k :
  drawn s → (∀ s', drawn s' → drawn (outcome_state (k s'))) → drawn (outcome_state (qd_update pathname now s k)).
Proof.
  unfold qd_update. intros Hs Hk. destruct (qd_render pathname s); [|done]. apply Hk. unfold qd_didUpdate.
  by destruct (redraw_due now s).
Qed.

Lemma drawn_preserved : @preserved _ _ (qd_poller pathname) drawn.
Proof.
  split_and!; cbn.
  - done.
  - intros [now q] s Hs. unfold qd_on_response. destruct (queryStats (qi q)); [|done].
    apply update_drawn; [done|]. intros s' Hs'. destruct (_ || _); [done|]. destruct (ngeb _ _); [|done].
    by apply update_drawn.
  - intros now s Hs. by apply update_drawn.
  - intros s s' Hs (now & s1 & Hc & ->). apply update_drawn; [|done]. unfold handleStageRefreshClick in Hc.
    destruct (stageRefresh s); [apply res_bind_ok in Hc as (q & _ & [= <-])|injection Hc as <-]; done.
Qed.

(** The text of a query is highlighted with its first document, and so is a prepared query.  If the
    first request fails, the page draws without a query, and no later document is ever
    highlighted. *)
Theorem query_highlighted :
  (∀ now q stats v, queryStats (qi q) = Some stats → qd_render pathname (qd_received now q stats qd_constructor) = Ok v →
    js "query" ∈ qd_highlighted now (qd_received now q stats qd_constructor) v ∧
    (preparedQuery q ≠ None → js "prepared-query" ∈ qd_highlighted now (qd_received now q stats qd_constructor) v)) ∧
  (∀ now p, let P := qd_poller pathname in
    rtc (@step _ _ P) (@answer _ _ P (@on_failure _ _ P now) (@mounted _ _ P)) p →
    ∀ t q stats v, qd_highlighted t (qd_received t q stats (comp p)) v = [] ∧ qd_highlighted t (comp p) v = []).
Proof.
  split.
  - intros now q stats v _. by apply texts_highlighted.
  - intros now p P Hp t q stats v.
    assert (drawn (comp p)) as Hd.
    { eapply (@preserved_forever _ _ P drawn); [apply drawn_preserved| |exact Hp]. by rewrite (@comp_answer _ _ P). }
    unfold qd_highlighted. cbn [qd_received qd_lastRender]. unfold drawn in Hd.
    destruct (qd_lastRender (comp p)); [|done]. split; by case_match.
Qed.
End highlight.

(** The first request fails, and the final document comes with the second. *)
Lemma query_highlighted_witness :
  let P := @qd_poller sample_clock sample_zone (js "/ui/query.html") in
  let p := @answer _ _ P (@on_failure _ _ P 1000) (@mounted _ _ P) in
  (∀ v, qd_highlighted 3000 (comp p) v = []) ∧
  js "query" ∈ match @qd_render sample_clock sample_zone (js "/ui/query.html")
                       (qd_received 1000 final_info QueryState.sample_stats qd_constructor) with
               | Ok v => qd_highlighted 1000 (qd_received 1000 final_info QueryState.sample_stats qd_constructor) v
               | Throw _ => []
               end.
Proof.
  destruct (@query_highlighted sample_clock sample_zone (js "/ui/query.html")) as [Hf Hl]. split.
  - intros v. apply (Hl 1000%Z _ (rtc_refl _ _) 3000%Z final_info QueryState.sample_stats v).
  - destruct (@qd_render sample_clock sample_zone (js "/ui/query.html")
                (qd_received 1000 final_info QueryState.sample_stats qd_constructor)) as [v|] eqn:E.
    + by apply (Hf 1000%Z final_info QueryState.sample_stats v eq_refl E).
    + vm_compute in E. discriminate E.
Defined.
