(* ===== verification/ChartOptions.v ===== *)
(** * The options of the charts

    Every chart is drawn with an options object that [$.extend] builds from a constant of the
    module and the settings of the chart.  [$.extend] changes its first argument, and the
    constants are shared by all charts of a page for as long as it lives, so the objects live
    in a store here.  The theorem shows that drawing never changes a constant, whatever was
    drawn before, and which options each chart gets. *)

From S2P Require Import Prelude JsString JsNumber JsCollections Format Sparkline Stage StageDetail QueryDetail QueryDetailView ClusterHUD WorkerStatus.

(** ** Objects in a store *)

Inductive option_value :=
| OText (s : jstring)
| ONum (n : number)
| OBool (b : bool)
| OFormatter (f : number → jstring)
| OLookups (offset : list jstring).      (* {'offset': {0: ..., 1: ...}} *)

Abbreviation options := (list (jstring * option_value)).
Abbreviation heap := (list options).

(** An object literal. *)
Definition new_object (o : options) (h : heap) : nat * heap := (length h, h ++ [o]).

(** The own properties of [o] are written into [target]. *)
Definition override (target o : options) : options := fold_left (λ t kv, map_set kv.1 kv.2 t) o target.

Definition assign (target source : nat) (h : heap) : heap :=
  alter (λ t, override t (default [] (h !! source))) target h.

(** [$.extend(target, source1, source2)], which returns its first argument. *)
Definition extend (target source1 source2 : nat) (h : heap) : nat * heap :=
  (target, assign target source2 (assign target source1 h)).

(** [$.extend({}, defaults, {...})] *)
Definition extend_new (defaults : nat) (settings : options) (h : heap) : nat * heap :=
  let '(target, h) := new_object [] h in
  let '(own, h) := new_object settings h in
  extend target defaults own h.

(** ** The constants *)

Definition T_ (k v : String.string) : jstring * option_value := (js k, OText (js v)).
Arguments T_ (k v)%_string_scope.

(** ClusterHUD.jsx *)
Definition SPARKLINE_PROPERTIES : options :=
  [T_ "width" "100%"; T_ "height" "75px"; T_ "fillColor" "#3F4552"; T_ "lineColor" "#747F96"; T_ "spotColor" "#1EDCFF";
   T_ "tooltipClassname" "sparkline-tooltip"; (js "disableHiddenCheck", OBool true)].
(** QueryDetail.jsx and WorkerStatus.jsx (and, unused, WorkerList.jsx) *)
Definition SMALL_SPARKLINE_PROPERTIES : options :=
  [T_ "width" "100%"; T_ "height" "57px"; T_ "fillColor" "#3F4552"; T_ "lineColor" "#747F96"; T_ "spotColor" "#1EDCFF";
   T_ "tooltipClassname" "sparkline-tooltip"; (js "disableHiddenCheck", OBool true)].
(** QueryDetail.jsx *)
Definition BAR_CHART_PROPERTIES : options :=
  [T_ "type" "bar"; T_ "barSpacing" "0"; T_ "height" "80px"; T_ "barColor" "#747F96"; T_ "zeroColor" "#8997B3";
   (js "chartRangeMin", ONum zero); T_ "tooltipClassname" "sparkline-tooltip";
   T_ "tooltipFormat" "Task {{offset:offset}} - {{value}}"; (js "disableHiddenCheck", OBool true)].
Definition HISTOGRAM_PROPERTIES : options :=
  [T_ "type" "bar"; T_ "barSpacing" "0"; T_ "height" "80px"; T_ "barColor" "#747F96"; T_ "zeroColor" "#747F96";
   (js "zeroAxis", OBool true); (js "chartRangeMin", ONum zero); T_ "tooltipClassname" "sparkline-tooltip";
   T_ "tooltipFormat" "{{offset:offset}} -- {{value}} tasks"; (js "disableHiddenCheck", OBool true)].
(** StageDetail.jsx *)
Definition OPERATOR_BAR_CHART_PROPERTIES : options :=
  [T_ "type" "bar"; T_ "barSpacing" "0"; T_ "height" "80px"; T_ "barColor" "#747F96"; T_ "zeroColor" "#8997B3";
   T_ "tooltipClassname" "sparkline-tooltip"; T_ "tooltipFormat" "Task {{offset:offset}} - {{value}}";
   (js "disableHiddenCheck", OBool true)].

(** The store when the modules have been loaded, and the addresses in it. *)
Definition modules_loaded : heap :=
  [SPARKLINE_PROPERTIES; SMALL_SPARKLINE_PROPERTIES; BAR_CHART_PROPERTIES; HISTOGRAM_PROPERTIES;
   OPERATOR_BAR_CHART_PROPERTIES].
Abbreviation SPARKLINE := 0.
Abbreviation SMALL_SPARKLINE := 1.
Abbreviation BAR_CHART := 2.
Abbreviation HISTOGRAM := 3.
Abbreviation OPERATOR_BAR_CHART := 4.

(** ** Drawing *)

(** The settings of a sparkline, as the calls write them. *)
Definition sparkline_settings (c : sparkline) : options :=
  match sp_chartRangeMin c with Some n => [(js "chartRangeMin", ONum n)] | None => [] end
  ++ match sp_formatter c with Some f => [(js "numberFormatter", OFormatter f)] | None => [] end.

(** The settings that depend on the number of bars. *)
Definition bar_settings (width : number) (offsets : list jstring) : options :=
  [(js "barWidth", ONum width); (js "tooltipValueLookups", OLookups offsets)].

Definition formatter_setting (f : number → jstring) : options := [(js "numberFormatter", OFormatter f)].

(** What is drawn at once: a sparkline, a histogram, the two bar charts of an expanded stage (which
    share [stageBarChartProperties]), or the chart of a statistic. *)
Inductive drawing :=
| DSparkline (small : bool) (c : sparkline)
| DHistogram (h : histogram)
| DStageBars (width : number) (offsets : list jstring)
| DOperator (s : statistic) (c : StageDetail.bar_chart).

(** The addresses of the options objects that are handed to the plugin. *)
Definition draw (d : drawing) (h : heap) : list nat * heap :=
  match d with
  | DSparkline small c =>
    let '(o, h) := extend_new (if small then SMALL_SPARKLINE else SPARKLINE) (sparkline_settings c) h in ([o], h)
  | DHistogram g =>
    let '(stageHistogramProperties, h) := extend_new HISTOGRAM (bar_settings (h_barWidth g) (h_offsets g)) h in
    ([stageHistogramProperties], h)
  | DStageBars width offsets =>
    let '(stageBarChartProperties, h) := extend_new BAR_CHART (bar_settings width offsets) h in
    let '(scheduled, h) := extend_new stageBarChartProperties (formatter_setting formatDuration) h in
    let '(cpu, h) := extend_new stageBarChartProperties (formatter_setting formatDuration) h in
    ([scheduled; cpu], h)
  | DOperator s c =>
    let '(stageBarChartProperties, h) := extend_new OPERATOR_BAR_CHART
      (bar_settings (bc_barWidth c) (map snd (bc_offsets c))) h in
    let '(o, h) := extend_new stageBarChartProperties (formatter_setting (renderer s)) h in ([o], h)
  end.

(** A sequence of drawings: the options of each, as the plugin reads them, and the store. *)
Fixpoint draw_all (ds : list drawing) (h : heap) : list (list options) * heap :=
  match ds with
  | [] => ([], h)
  | d :: ds =>
    let '(os, h1) := draw d h in
    let '(rest, h2) := draw_all ds h1 in
    (map (λ o, default [] (h1 !! o)) os :: rest, h2)
  end.

(** What the components draw. *)
Definition hud_drawings (s : hud_state) : list drawing := map (DSparkline false) (hud_sparklines s).
Definition qd_drawings (s : qd_state) : list drawing := map (DSparkline true) (qd_sparklines s).
Definition ws_drawings (s : ws_state) : list drawing := map (DSparkline true) (ws_sparklines s).
Definition summary_drawings `{JsSort} (now : Z) (st : stage) (s : summary_state) : list drawing :=
  let charts := (summary_didUpdate now st s).1 in
  omap (λ c, match c with Histogram g => Some (DHistogram g) | BarChart _ => None end) charts
  ++ match omap (λ c, match c with BarChart b => Some b | Histogram _ => None end) charts with
     | b :: _ => [DStageBars (b_barWidth b) (b_offsets b)]
     | [] => []
     end.
Definition detail_drawings `{JsSort} (o : operator) (ts : list task) : list drawing :=
  map (λ s, DOperator s (operator_chart s (getOperatorTasks o ts))) getInitialStatistics.

(** ** What each chart gets *)

(** The constant of a drawing, and the settings of its charts. *)
Definition chart_defaults (d : drawing) : options :=
  match d with
  | DSparkline small _ => if small then SMALL_SPARKLINE_PROPERTIES else SPARKLINE_PROPERTIES
  | DHistogram _ => HISTOGRAM_PROPERTIES
  | DStageBars _ _ => BAR_CHART_PROPERTIES
  | DOperator _ _ => OPERATOR_BAR_CHART_PROPERTIES
  end.
Definition chart_settings (d : drawing) : list options :=
  match d with
  | DSparkline _ c => [sparkline_settings c]
  | DHistogram g => [bar_settings (h_barWidth g) (h_offsets g)]
  | DStageBars width offsets => replicate 2 (bar_settings width offsets ++ formatter_setting formatDuration)
  | DOperator s c => [bar_settings (bc_barWidth c) (map snd (bc_offsets c)) ++ formatter_setting (renderer s)]
  end.

(** A setting of the chart, or else the one of the constant. *)
Definition effective (defaults settings : options) (k : jstring) : option option_value :=
  match map_get k settings with Some v => Some v | None => map_get k defaults end.

Lemma override_get t o k :
  NoDup o.*1 → map_get k (override t o) = effective t o k.
Proof.
  unfold override, effective. revert t. induction o as [|[k' v] o IH]; intros t Hn; [done|].
  cbn [fmap list_fmap fst] in Hn. apply NoDup_cons in Hn as [Hk Hn]. cbn [fold_left fst snd map_get].
  rewrite IH by done. case_decide as E.
  - subst k'. rewrite map_get_set_eq. destruct (map_get k o) eqn:Ek; [|done].
    apply map_get_Some in Ek. exfalso. apply Hk. apply list_elem_of_fmap. by exists (k, o0).
  - by rewrite map_get_set_ne.
Qed.

Lemma override_nil o : NoDup o.*1 → override [] o = o.
Proof.
  intros Hn. unfold override. enough (∀ t : options, (∀ k, k ∈ t.*1 → k ∉ o.*1) →
    fold_left (λ t kv, map_set kv.1 kv.2 t) o t = t ++ o) as Ht by (apply (Ht []); set_solver).
  induction o as [|[k v] o IH]; intros t Ht; [by rewrite app_nil_r|].
  cbn [fmap list_fmap fst] in Hn, Ht. apply NoDup_cons in Hn as [Hk Hn]. cbn [fold_left fst snd].
  rewrite map_set_fresh by (intros Hin; apply (Ht k Hin), list_elem_of_here).
  rewrite IH by (done || (intros x; rewrite fmap_app; set_solver)). by rewrite <-app_assoc.
Qed.

Lemma override_app t o1 o2 : override (override t o1) o2 = override t (o1 ++ o2).
Proof. unfold override. by rewrite fold_left_app. Qed.

(** [$.extend] with a fresh target writes to no other object. *)
Lemma extend_new_spec defaults D s h :
  h !! defaults = Some D → NoDup D.*1 →
  extend_new defaults s h = (length h, h ++ [override D s; s]).
Proof.
  intros HD Hn. pose proof (lookup_lt_Some _ _ _ HD) as Hlt.
  unfold extend_new, new_object, extend, assign. cbn [fst snd]. rewrite <-app_assoc. cbn [app]. f_equal.
  rewrite (lookup_app_l h) by done. rewrite HD. cbn [default].
  rewrite (alter_app_r_alt _ h) by lia. rewrite Nat.sub_diag. cbn [alter list_alter].
  rewrite length_app. cbn [length]. rewrite (lookup_app_r h) by lia.
  replace (length h + 1 - length h) with 1 by lia. cbn [lookup list_lookup default].
  rewrite (alter_app_r_alt _ h) by lia. rewrite Nat.sub_diag. cbn [alter list_alter].
  by rewrite override_nil.
Qed.

(** The constants have no property twice, and neither do the settings. *)
Lemma defaults_NoDup d : NoDup (chart_defaults d).*1.
Proof. destruct d as [[]| | |]; by apply (bool_decide_unpack _); vm_compute. Qed.

Lemma settings_NoDup d : Forall (λ s : options, NoDup s.*1) (chart_settings d).
Proof.
  destruct d as [small [t vs [n|] [f|]]| | |]; repeat (apply Forall_cons_2 || apply Forall_nil_2);
    by apply (bool_decide_unpack _); vm_compute.
Qed.

Lemma override_NoDup (t o : options) : NoDup t.*1 → NoDup (override t o).*1.
Proof. apply fold_map_set_NoDup. Qed.

Lemma constant_at d h c :
  modules_loaded `prefix_of` h → modules_loaded !! c = Some (chart_defaults d) → h !! c = Some (chart_defaults d).
Proof. intros [l ->] Hc. by apply lookup_app_l_Some. Qed.

(** A drawing only adds objects; the new ones that the plugin gets hold the settings over the
    constant. *)
Lemma draw_spec d h :
  modules_loaded `prefix_of` h →
  h `prefix_of` (draw d h).2 ∧
  Forall2 (λ a settings, length h ≤ a ∧ (draw d h).2 !! a = Some (override (chart_defaults d) settings))
    (draw d h).1 (chart_settings d).
Proof.
  intros Hm. pose proof (defaults_NoDup d) as Hn. destruct d as [small c|g|width offsets|s c]; cbn [draw chart_settings].
  - rewrite (extend_new_spec _ (chart_defaults (DSparkline small c))) by (done || by apply constant_at; destruct small).
    cbn [fst snd]. split; [by eexists|]. apply Forall2_cons. split; [|constructor]. split; [done|]. by rewrite list_lookup_middle.
  - rewrite (extend_new_spec _ (chart_defaults (DHistogram g))) by (done || by apply constant_at).
    cbn [fst snd]. split; [by eexists|]. apply Forall2_cons. split; [|constructor]. split; [done|]. by rewrite list_lookup_middle.
  - set (D := chart_defaults (DStageBars width offsets)) in *. set (bs := bar_settings width offsets).
    rewrite (extend_new_spec _ D) by (done || by apply (constant_at (DStageBars width offsets))).
    pose proof (override_NoDup D bs Hn) as Hn2. set (h1 := h ++ [override D bs; bs]).
    assert (length h ≤ length h1) as Hlen by (unfold h1; rewrite length_app; lia).
    assert (h1 !! length h = Some (override D bs)) as H1 by (unfold h1; by rewrite list_lookup_middle).
    rewrite (extend_new_spec _ (override D bs)) by done. set (o2 := override (override D bs) _).
    assert ((h1 ++ [o2; formatter_setting formatDuration]) !! length h = Some (override D bs)) as H2
      by (by apply lookup_app_l_Some).
    rewrite (extend_new_spec _ (override D bs)) by done. cbn [fst snd replicate]. split.
    { rewrite <-app_assoc. unfold h1. rewrite <-app_assoc. by eexists. }
    assert (override D (bs ++ formatter_setting formatDuration) = o2) as Ho by (unfold o2; by rewrite override_app).
    fold o2. apply Forall2_cons. split; [split; [done|rewrite Ho, <-app_assoc; by apply list_lookup_middle]|].
    apply Forall2_cons. split; [|constructor]. split; [rewrite length_app; lia|]. rewrite Ho. by apply list_lookup_middle.
  - set (D := chart_defaults (DOperator s c)) in *. set (bs := bar_settings _ _).
    rewrite (extend_new_spec _ D) by (done || by apply (constant_at (DOperator s c))).
    pose proof (override_NoDup D bs Hn) as Hn2. set (h1 := h ++ [override D bs; bs]).
    rewrite (extend_new_spec _ (override D bs)) by (done || (unfold h1; by rewrite list_lookup_middle)).
    cbn [fst snd]. split; [unfold h1; rewrite <-app_assoc; by eexists|].
    apply Forall2_cons. split; [|constructor]. split; [unfold h1; rewrite length_app; lia|].
    rewrite list_lookup_middle by done. by rewrite override_app.
Qed.

Lemma draw_all_prefix ds h : modules_loaded `prefix_of` h → h `prefix_of` (draw_all ds h).2.
Proof.
  revert h. induction ds as [|d ds IH]; intros h Hm; [done|]. cbn [draw_all].
  destruct (draw_spec d h Hm) as [Hp _]. destruct (draw d h) as [os h1]. cbn [fst snd] in *.
  pose proof (IH h1 ltac:(by etrans)) as Hp2. destruct (draw_all ds h1) as [rest h2]. by etrans.
Qed.

(** C38: Charts do not disturb each other's options.  Whatever has been drawn before, a drawing
    leaves every object that existed before as it was, the constants and the options of earlier
    charts alike; the objects it hands to the plugin are new, and hold, property by property,
    the settings of the chart and otherwise those of its constant; and they stay so whatever is
    drawn afterwards. *)
Theorem chart_options_independent before d after :
  let h1 := (draw_all before modules_loaded).2 in
  let '(os, h2) := draw d h1 in
  let h3 := (draw_all after h2).2 in
  (∀ a o, h1 !! a = Some o → h2 !! a = Some o) ∧
  Forall2 (λ a settings, h1 !! a = None ∧ ∃ o, h2 !! a = Some o ∧ h3 !! a = Some o ∧
    ∀ k, map_get k o = effective (chart_defaults d) settings k) os (chart_settings d).
Proof.
  cbv zeta. pose proof (draw_all_prefix before modules_loaded (reflexivity _)) as Hm.
  set (h1 := (draw_all before modules_loaded).2) in *. destruct (draw_spec d h1 Hm) as [Hp Ho].
  destruct (draw d h1) as [os h2]. cbn [fst snd] in *.
  pose proof (draw_all_prefix after h2 ltac:(by etrans)) as Hp3. split.
  - intros a o Ha. by eapply prefix_lookup_Some.
  - pose proof (settings_NoDup d) as Hs. revert Hs. induction Ho as [|a s os l [Hlen Ha] _ IH]; intros Hs; [constructor|].
    apply Forall_cons in Hs as [Hs Hl]. constructor; [|by apply IH].
    split; [by apply lookup_ge_None|]. eexists. split_and!; [exact Ha|by eapply prefix_lookup_Some|].
    intros k. by apply override_get.
Qed.

(** The sparklines: the range and the formatter of the call, the size of the page. *)
Lemma sparkline_options small c :
  let get := effective (chart_defaults (DSparkline small c)) (sparkline_settings c) in
  get (js "chartRangeMin") = option_map ONum (sp_chartRangeMin c) ∧
  get (js "numberFormatter") = option_map OFormatter (sp_formatter c) ∧
  get (js "height") = Some (OText (if small then js "57px" else js "75px")) ∧ get (js "type") = None.
Proof. destruct c as [t vs [n|] [f|]], small; by vm_compute. Qed.

(** The bar charts of the query page start at 0, those of the stage page where the plugin
    chooses. *)
Example bar_ranges : ∀ w os s c,
  effective (chart_defaults (DStageBars w os)) (bar_settings w os) (js "chartRangeMin") = Some (ONum zero) ∧
  effective (chart_defaults (DOperator s c)) (bar_settings w os) (js "chartRangeMin") = None.
Proof. done. Qed.
