(* ===== verification/Pages.v ===== *)
(** * The pages of the program

    The entry points (index.jsx, query.jsx, plan.jsx, embedded_plan.jsx, stage.jsx,
    worker.jsx, workers.jsx, timeline.jsx): which components a page mounts and where,
    what they request, and how the pages link to each other.  Then the pages as
    tabs: the components of a page share the browser (Tab.v). *)

From S2P Require Import Prelude JsString JsNumber JsNumberFacts JsCollections Model QueryState Format FormatFacts Sparkline Vdom QueryHeader Stage QueryInfo Samples Graph QueryList QueryListFacts StageDetail StageDetailView QueryDetail QueryDetailView LivePlan QueryPages ClusterHUD PageTitle WorkerList WorkerStatus QueryListView QueryListPage Timeline Poller Loop Tab QueryTree.
From stdpp Require Import relations.

(** ** Entry points *)

Inductive root :=
| RPageTitle (title : jstring)
| RClusterHUD
| RQueryList
| RQueryDetail
| RLivePlan (queryId : jstring) (isEmbedded : bool)
| RStageDetail
| RWorkerStatus
| RWorkerThreadList
| RWorkerList.

(** A call of [ReactDOM.render]: the component and the id of the element. *)
Definition mount : Type := root * jstring.

Definition index_entry : list mount :=
  [(RPageTitle (js "Cluster Overview"), js "title"); (RClusterHUD, js "cluster-hud"); (RQueryList, js "query-list")].
Definition query_entry : list mount :=
  [(RPageTitle (js "Query Details"), js "title"); (RQueryDetail, js "query-detail")].
Definition plan_entry (search : jstring) : list mount :=
  [(RPageTitle (js "Query Details"), js "title");
   (RLivePlan (getFirstParameter search) false, js "live-plan-container")].
Definition embedded_plan_entry (search : jstring) : list mount :=
  [(RLivePlan (getFirstParameter search) true, js "live-plan-container")].
Definition stage_entry : list mount :=
  [(RPageTitle (js "Query Details"), js "title"); (RStageDetail, js "stage-performance-header")].
Definition worker_entry : list mount :=
  [(RPageTitle (js "Worker Status"), js "title"); (RWorkerStatus, js "worker-status");
   (RWorkerThreadList, js "worker-threads")].
Definition workers_entry : list mount :=
  [(RPageTitle (js "Worker List"), js "title"); (RWorkerList, js "worker-list")].
Definition timeline_entry : list mount := [(RPageTitle (js "Query Details"), js "title")].

(** The entries of the bundler: the name of a bundle and its source. *)
Definition webpack_entries : list (jstring * jstring) :=
  [(js "index", js "/index.jsx"); (js "query", js "/query.jsx"); (js "plan", js "/plan.jsx");
   (js "embedded_plan", js "/embedded_plan.jsx"); (js "stage", js "/stage.jsx"); (js "worker", js "/worker.jsx");
   (js "workers", js "/workers.jsx"); (js "timeline", js "/timeline.jsx")].

(** What the bundle of an entry mounts on a page with a given search string. *)
Definition bundle_mounts (source search : jstring) : list mount :=
  if jeqb source (js "/index.jsx") then index_entry
  else if jeqb source (js "/query.jsx") then query_entry
  else if jeqb source (js "/plan.jsx") then plan_entry search
  else if jeqb source (js "/embedded_plan.jsx") then embedded_plan_entry search
  else if jeqb source (js "/stage.jsx") then stage_entry
  else if jeqb source (js "/worker.jsx") then worker_entry
  else if jeqb source (js "/workers.jsx") then workers_entry
  else if jeqb source (js "/timeline.jsx") then timeline_entry
  else [].

(** The identifiers of the elements of each page, in document order. *)
Definition index_ids : list jstring :=
  [js "title"; js "cluster-hud"; js "query-list-container"; js "query-list-title"; js "query-list"].
Definition query_ids : list jstring :=
  [js "title"; js "query-detail"].
Definition plan_ids : list jstring :=
  [js "title"; js "live-plan-container"].
Definition embedded_plan_ids : list jstring :=
  [js "live-plan-container"].
Definition stage_ids : list jstring :=
  [js "title"; js "stage-performance-header"; js "operator-canvas"; js "operator-detail-modal"; js "operator-detail"].
Definition worker_ids : list jstring :=
  [js "title"; js "worker-status"; js "worker-threads"].
Definition workers_ids : list jstring :=
  [js "title"; js "worker-list"].
Definition timeline_ids : list jstring :=
  [js "title"; js "queryId"; js "legend"; js "timeline"].

(** A page loads the bundle of the same name. *)
Definition html_ids (name : jstring) : list jstring :=
  if jeqb name (js "index") then index_ids
  else if jeqb name (js "query") then query_ids
  else if jeqb name (js "plan") then plan_ids
  else if jeqb name (js "embedded_plan") then embedded_plan_ids
  else if jeqb name (js "stage") then stage_ids
  else if jeqb name (js "worker") then worker_ids
  else if jeqb name (js "workers") then workers_ids
  else if jeqb name (js "timeline") then timeline_ids
  else [].

(** ** Requests *)

(** The address that [refreshLoop] (or the snapshot button of the threads) requests. *)
Definition title_request : jstring := js "/ui/api/cluster".
Definition hud_request : jstring := js "/ui/api/stats".
Definition ql_request : jstring := js "/ui/api/query".
Definition qd_request (search : jstring) : jstring := js "/ui/api/query/" ++ getFirstParameter search.
Definition lp_request (queryId : jstring) : jstring := js "/ui/api/query/" ++ queryId.
Definition sd_request (search : jstring) : jstring :=
  js "/ui/api/query/" ++ default (js "undefined") (JsString.split (js ".") (getFirstParameter search) !! 0).
Definition ws_request (search : jstring) : jstring :=
  js "/ui/api/worker/" ++ getFirstParameter search ++ js "/status".
Definition threads_request (search : jstring) : jstring :=
  js "/ui/api/worker/" ++ getFirstParameter search ++ js "/thread".
Definition wl_request : jstring := js "/ui/api/worker".

Definition root_request (search : jstring) (r : root) : jstring :=
  match r with
  | RPageTitle _ => title_request
  | RClusterHUD => hud_request
  | RQueryList => ql_request
  | RQueryDetail => qd_request search
  | RLivePlan queryId _ => lp_request queryId
  | RStageDetail => sd_request search
  | RWorkerStatus => ws_request search
  | RWorkerThreadList => threads_request search
  | RWorkerList => wl_request
  end.

(** The requests of a page; the timeline has a request in its own script. *)
Definition page_requests (name search : jstring) : list jstring :=
  (if jeqb name (js "timeline") then [timeline_request search] else [])
  ++ map (λ m, root_request search m.1) (bundle_mounts (js "/" ++ name ++ js ".jsx") search).

(** ** Links *)

(** The page and the search string that a link of the program leads to.  The links consist of
    characters that an address keeps as they are. *)
Definition follow (href : jstring) : jstring * jstring :=
  match indexOf (js ".html") href with
  | Some i => (substring 0 i href, substring_from (i + 5) href)
  | None => (href, [])
  end.

(** The addresses of the links in a view. *)
Definition hrefs {C H} (v : vnode C H) : list jstring :=
  omap (λ e, match attribute (js "href") e.1 with Some (AText s) => Some s | _ => None end)
    (elements_by_tag (js "a") v).

(** The page behind a link requests an address. *)
Definition leads_to (href address : jstring) : Prop :=
  address ∈ page_requests (follow href).1 (follow href).2.

(** ** Properties of the entry points *)

(** Every bundle mounts its components on distinct elements of its page, so that
    [ReactDOM.render] finds its container. *)
Theorem mounts_found search :
  Forall (λ e : jstring * jstring,
    let ids := map snd (bundle_mounts e.2 search) in
    ids ≠ [] ∧ NoDup ids ∧ NoDup (html_ids e.1) ∧ Forall (λ id, id ∈ html_ids e.1) ids) webpack_entries.
Proof.
  unfold webpack_entries. rewrite !Forall_cons, Forall_nil. cbn [fst snd]. split_and!; try exact I; cbv zeta;
    first [by vm_compute | apply (bool_decide_unpack _); vm_compute; exact I].
Qed.

(** ** Following links *)

Definition query_pages : list jstring := [js "query"; js "plan"; js "stage"; js "timeline"].

Lemma query_pages_cases name :
  name ∈ query_pages → name = js "query" ∨ name = js "plan" ∨ name = js "stage" ∨ name = js "timeline".
Proof.
  unfold query_pages. intros Hin. repeat (apply elem_of_cons in Hin as [->|Hin]; [tauto|]).
  by apply elem_of_nil in Hin.
Qed.

Lemma follow_link name p :
  name ∈ query_pages ∨ name = js "worker" → follow (name ++ js ".html?" ++ p) = (name, js "?" ++ p).
Proof.
  intros [[-> | [-> | [-> | ->]]]%query_pages_cases | ->];
    unfold follow, substring, substring_from; simpl; by rewrite ?drop_0.
Qed.

Lemma split_dot_none q : DOT ∉ q → JsString.split (js ".") q = [q].
Proof. intros Hq. apply (split_join DOT [q]); [done|]. by repeat constructor. Qed.

Lemma split_dot q s : DOT ∉ q → DOT ∉ s → JsString.split (js ".") (q ++ DOT :: s) = [q; s].
Proof. intros Hq Hs. apply (split_join DOT [q; s]); [done|]. by repeat constructor. Qed.

Lemma query_page_requests name q :
  name ∈ query_pages → AMP ∉ q → DOT ∉ q →
  js "/ui/api/query/" ++ q ∈ page_requests name (js "?" ++ q).
Proof.
  intros Hin Ha Hd. destruct (getFirstParameter_spec q [] Ha) as [Hp _].
  apply query_pages_cases in Hin as [-> | [-> | [-> | ->]]].
  - change (page_requests (js "query") (js "?" ++ q)) with [title_request; qd_request (js "?" ++ q)].
    unfold qd_request. rewrite Hp. apply list_elem_of_further, list_elem_of_here.
  - change (page_requests (js "plan") (js "?" ++ q))
      with [title_request; lp_request (getFirstParameter (js "?" ++ q))].
    unfold lp_request. rewrite Hp. apply list_elem_of_further, list_elem_of_here.
  - change (page_requests (js "stage") (js "?" ++ q)) with [title_request; sd_request (js "?" ++ q)].
    unfold sd_request. rewrite Hp, split_dot_none by done. apply list_elem_of_further, list_elem_of_here.
  - change (page_requests (js "timeline") (js "?" ++ q)) with [timeline_request (js "?" ++ q); title_request].
    apply list_elem_of_here.
Qed.

Lemma progress_links query bar :
  renderProgressBar query = Ok bar → hrefs bar = [].
Proof.
  unfold renderProgressBar, progressBar_ended, progressBar_running. intros Hbar.
  destruct (isQueryEnded query); apply res_bind_ok in Hbar as (pct & _ & Hbar);
    apply res_bind_ok in Hbar as (color & _ & Hbar); apply res_bind_ok in Hbar as (title & _ & [= <-]);
    vm_compute; reflexivity.
Qed.

Lemma hrefs_elem {C H} tag attrs (l : list (vnode C H)) :
  hrefs (VElem tag attrs l) =
  (if jeqb tag (js "a") then match attribute (js "href") attrs with Some (AText s) => [s] | _ => [] end else [])
  ++ concat (map hrefs l).
Proof.
  unfold hrefs at 1. cbn [elements_by_tag]. rewrite omap_app. f_equal.
  - destruct (jeqb tag (js "a")); [|done]. cbn [omap list_omap fst].
    by destruct (attribute (js "href") attrs) as [[]|].
  - induction l as [|v l IH]; [done|]. cbn [map concat]. rewrite omap_app. by rewrite IH.
Qed.

Lemma tab_links pathname query path name :
  hrefs (renderTab pathname query path name) = [path ++ js "?" ++ queryId query].
Proof. unfold renderTab. destruct (includes path pathname); by vm_compute. Qed.

(** The links of the header. *)
Lemma header_links pathname query view :
  header_render pathname query = Ok view →
  hrefs view = map (λ name, name ++ js ".html?" ++ queryId query) query_pages
               ++ [js "/ui/api/query/" ++ queryId query ++ js "?pretty"].
Proof.
  unfold header_render. intros (bar & Hbar & <-%Ok_inj)%res_bind_ok. apply progress_links in Hbar.
  unfold el. rewrite !hrefs_elem. cbn [map]. rewrite !hrefs_elem. cbn [map]. rewrite !hrefs_elem. cbn [map].
  rewrite !hrefs_elem. cbn [map]. rewrite !hrefs_elem. cbn [map]. rewrite !hrefs_elem. cbn [map].
  rewrite !hrefs_elem. cbn [map]. rewrite !tab_links, Hbar. by vm_compute.
Qed.

Lemma hrefs_VOpt {C H} o : hrefs (VOpt o : vnode C H) = [].
Proof. by destruct o. Qed.
Lemma hrefs_VWhen {C H} b (v : vnode C H) : hrefs v = [] → hrefs (VWhen b v) = [].
Proof. intros Hv. by destruct b. Qed.

Ltac collect_links := unfold el; repeat (rewrite !hrefs_elem; cbn [map]).

(** The links of a row of the list of queries, of a query in a memory pool and of a worker. *)
Lemma row_links `{DateParse, LocalTime} query row :
  QueryListItem_render query = Ok row → hrefs row = [js "query" ++ js ".html?" ++ queryId query].
Proof.
  unfold QueryListItem_render. intros Hrow.
  apply res_bind_ok in Hrow as (pct & _ & Hrow). apply res_bind_ok in Hrow as (color & _ & Hrow).
  apply res_bind_ok in Hrow as (stats & _ & Hrow). apply res_bind_ok in Hrow as (title & _ & <-%Ok_inj).
  assert (hrefs (splitDetails query stats) = []) as Hs.
  { unfold splitDetails. collect_links. rewrite hrefs_VWhen by (by vm_compute). by vm_compute. }
  assert (hrefs (session_user query) = []) as Hu.
  { unfold session_user, user_locked, user_plain. destruct (ftruthy _); collect_links; rewrite hrefs_VOpt; by vm_compute. }
  collect_links. rewrite Hs, Hu, !hrefs_VOpt. unfold timingDetails, memoryDetails. collect_links. by vm_compute.
Qed.

Lemma pool_query_links query reserved revocable total :
  hrefs (renderPoolQuery query reserved revocable total) = [js "query" ++ js ".html?" ++ query].
Proof. unfold renderPoolQuery. collect_links. by vm_compute. Qed.

Lemma worker_links w : hrefs (worker_row w) = replicate 2 (js "worker" ++ js ".html?" ++ w_nodeId w).
Proof. unfold worker_row. collect_links. by vm_compute. Qed.

Lemma query_link_leads name q :
  name ∈ query_pages → AMP ∉ q → DOT ∉ q → leads_to (name ++ js ".html?" ++ q) (js "/ui/api/query/" ++ q).
Proof. intros Hn Ha Hd. unfold leads_to. rewrite follow_link by auto. by apply query_page_requests. Qed.

(** C26: The links between the pages keep the query: the row of a query in the list has one link,
    and the header of the query pages has one for each of the four pages (and one to the
    document itself); the page behind each of them requests the document of this very query,
    for every query id without an ampersand or a dot. *)
Theorem query_links_followed `{DateParse, LocalTime} pathname query row view :
  AMP ∉ queryId query → DOT ∉ queryId query →
  QueryListItem_render query = Ok row → header_render pathname query = Ok view →
  let address := js "/ui/api/query/" ++ queryId query in
  length (hrefs row) = 1 ∧ Forall (λ h, leads_to h address) (hrefs row) ∧
  length (hrefs view) = 5 ∧ Forall (λ h, leads_to h address) (take 4 (hrefs view)) ∧
  map (λ h, (follow h).1) (take 4 (hrefs view)) = query_pages.
Proof.
  intros Ha Hd Hr Hv. cbv zeta. rewrite (row_links _ _ Hr), (header_links _ _ _ Hv). cbn [query_pages map app take].
  split_and!; try done.
  - apply Forall_cons. split; [|done]. apply query_link_leads; [apply list_elem_of_here|done..].
  - rewrite !Forall_cons, Forall_nil. split_and!; try done; apply query_link_leads; try done;
      apply list_elem_of_In; cbn; tauto.
Qed.

(** The links of the list of workers lead to the page that requests the status and the threads
    of this worker. *)
Theorem worker_links_followed w :
  AMP ∉ w_nodeId w →
  let address := js "/ui/api/worker/" ++ w_nodeId w in
  Forall (λ h, leads_to h (address ++ js "/status") ∧ leads_to h (address ++ js "/thread")) (hrefs (worker_row w)).
Proof.
  intros Ha. cbv zeta. rewrite worker_links. destruct (getFirstParameter_spec (w_nodeId w) [] Ha) as [Hp _].
  apply Forall_replicate. unfold leads_to. rewrite follow_link by auto. cbn [fst snd].
  change (page_requests (js "worker") (js "?" ++ w_nodeId w))
    with [title_request; ws_request (js "?" ++ w_nodeId w); threads_request (js "?" ++ w_nodeId w)].
  unfold ws_request, threads_request. rewrite Hp, <-!app_assoc.
  split; [apply list_elem_of_further, list_elem_of_here|apply list_elem_of_further, list_elem_of_further, list_elem_of_here].
Qed.

(** C25: A click on a stage of the live plan opens the stage page for exactly this stage: the
    page requests the document of the query, and once the document has arrived, the stage that
    the page looks up in it is the one that was clicked, for every stage id "query.number". *)
Theorem stage_click_followed (q : jstring) (n : N) data out st :
  AMP ∉ q → DOT ∉ q → (Z.of_N n < 2 ^ 53)%Z →
  queryId (qi data) = q → outputStage data = Some out →
  st ∈ getStages out → NoDup (stageId <$> getStages out) → stageId st = q ++ DOT :: dec n →
  let '(page, search) := follow (handleStageClick (stageId st)) in
  page = js "stage" ∧ sd_request search = js "/ui/api/query/" ++ q ∧
  findStage (Some (shown_stage_id data (sd_on_response data (sd_refresh search sd_constructor)))) out = Some st.
Proof.
  intros Ha Hd Hn Hq Ho Hst Hnd Hid.
  change (handleStageClick (stageId st)) with (js "stage" ++ js ".html?" ++ stageId st).
  rewrite follow_link by (left; apply list_elem_of_In; cbn; tauto). rewrite Hid.
  assert (AMP ∉ q ++ DOT :: dec n) as Ha'.
  { rewrite elem_of_app, elem_of_cons. intros [?|[?|Hin]]; [done|done|]. by apply (dec_no_char n AMP) in Hin. }
  destruct (getFirstParameter_spec _ [] Ha') as [Hp _].
  pose proof (split_dot q (dec n) Hd (dot_not_in_dec n)) as Hsp.
  split_and!; [done|unfold sd_request; by rewrite Hp, Hsp|].
  assert (shown_stage_id data (sd_on_response data (sd_refresh (js "?" ++ q ++ DOT :: dec n) sd_constructor))
          = q ++ DOT :: dec n) as ->.
  { unfold shown_stage_id, sd_on_response, sd_refresh. cbn [selectedStageId requestedStageId sd_constructor].
    rewrite Hp, Hsp. cbn [selector_text]. rewrite parseInt_dec, toString_of_Z, Hq by lia.
    unfold dec_Z. by destruct n. }
  rewrite <-Hid. by apply findStage_unique.
Qed.

(** ** The pages as tabs *)

(** The overview page: the components of index.jsx that poll. *)
Inductive index_root := IndexTitle | IndexHUD | IndexList.
#[export] Instance index_root_eq_dec : EqDecision index_root. Proof. solve_decision. Defined.

Section overview.
Context `{DateParse, LocalTime, LowerCase, JsSortLaws}.
Context (network_error : jstring) (start : Z).

Definition index_state (i : index_root) : Type :=
  match i with IndexTitle => title_state | IndexHUD => hud_state | IndexList => mounted_list end.
Definition index_response (i : index_root) : Type :=
  match i with
  | IndexTitle => Z * fetch_result
  | IndexHUD => hud_response
  | IndexList => ql_response
  end.
#[export] Instance index_poller (i : index_root) : Poller (index_state i) (index_response i) :=
  match i with
  | IndexTitle => title_poller (js "Cluster Overview") network_error start
  | IndexHUD => hud_poller
  | IndexList => ql_poller start
  end.

(** Answers to the list with distinct ids and complete records; any answers to the others. *)
Definition overview_answers (i : index_root) : index_response i → Prop :=
  match i with IndexList => good_response | _ => λ _, True end.

(** C13: On the overview page, the title bar and the charts never fall silent: whatever the answers
    to the three components are and in whatever order they arrive, and whatever the user does,
    each of the two has at any time exactly one request outstanding or one timer pending.  The
    same holds for the list of queries as long as the answers that it gets list distinct ids and
    complete records; then it is also never removed by an exception, and never shows a query
    twice. *)
Theorem overview_page_alive (t : tab index_root index_state) :
  (tab_reachable t → ∀ i, i ≠ IndexList → t_inflight t i + length (owned i (t_live t)) = 1) ∧
  (tab_reachable_on overview_answers t →
   t_inflight t IndexList + length (owned IndexList (t_live t)) = 1 ∧
   ml_removed (t_comp t IndexList) = false ∧
   NoDup (ids (displayedQueries (ql (ml (t_comp t IndexList)))))).
Proof.
  split.
  - intros Ht i Hi. apply phase_running; [by apply tab_reachable_exclusive|].
    pose proof (tab_reachable_loop i t Ht) as Hl. destruct i; [| |done].
    + apply (@loop_alive _ _ (title_poller (js "Cluster Overview") network_error start) (λ _, True)
        (abs (project IndexTitle t))); [by split_and!|intros; eexists; by split..|exact Hl].
    + apply (@loop_alive _ _ hud_poller (λ _, True) (abs (project IndexHUD t)));
        [by split_and!|intros; eexists; by split..|exact Hl].
  - intros Ht. pose proof healthy_response as Hr. pose proof healthy_failure as Hf.
    pose proof (healthy_user start) as Hu.
    destruct (tab_on_alive overview_answers IndexList list_healthy t) as [[Hs Hi _] Hg];
      [exact (healthy_init start)|exact (healthy_refresh start)|cbn; exact Hr|cbn; intros _; exact Hf|exact Hu|exact Ht|].
    split_and!; [exact Hg|done|].
    apply (fmap_nodup_sub _ _ (inv_known _ Hi) (inv_ids _ Hi)).
Qed.
End overview.

(** A page with a title bar and one component that may stop polling: query.html, plan.html and
    stage.html. *)
Inductive titled_root := Title | Main.
#[export] Instance titled_root_eq_dec : EqDecision titled_root. Proof. solve_decision. Defined.

Section titled.
Context {S R : Type} (P : Poller S R) (title network_error : jstring) (start : Z).

Definition titled_state (i : titled_root) : Type := match i with Title => title_state | Main => S end.
Definition titled_response (i : titled_root) : Type := match i with Title => Z * fetch_result | Main => R end.
#[export] Instance titled_poller (i : titled_root) : Poller (titled_state i) (titled_response i) :=
  match i with Title => title_poller title network_error start | Main => P end.

(** A component that has stopped stays silent while the title bar goes on. *)
Lemma titled_stopped (t t' : tab titled_root titled_state) :
  tab_reachable t → phase_of (project Main t) = Stopped → rtc tab_step t t' →
  t_inflight t' Main = 0 ∧ owned Main (t_live t') = [] ∧
  t_inflight t' Title + length (owned Title (t_live t')) = 1.
Proof.
  intros Ht Hs Hr.
  assert (tab_reachable t') as Ht' by (unfold tab_reachable; by etrans).
  assert (phase_of (project Main t') = Stopped) as Hs'.
  { clear Ht'. induction Hr as [|t t1 t2 [i Hi] _ IH]; [done|].
    assert (tab_reachable t1) as Ht1 by (eapply rtc_r; [exact Ht|by exists i]).
    apply IH; [done|]. destruct (tab_reachable_exclusive t Ht) as [Hex Hd].
    assert (tab_exclusive t) as Hte by done. destruct i.
    - pose proof (undisturbed_abs Main t t1 (step_undisturbed Title Main t t1 Hte ltac:(done) Hi)) as Ha.
      change (l_phase (abs (project Main t1)) = Stopped). by rewrite Ha.
    - pose proof (abs_step _ _ (Hex Main) (project_step Main t t1 Hi)) as Hl.
      apply (loop_stopped (abs (project Main t)) (abs (project Main t1)) Hs). by apply rtc_once. }
  split_and!.
  - unfold phase_of in Hs'. cbn in Hs'. by destruct (t_inflight t' Main), (owned Main (t_live t')).
  - unfold phase_of in Hs'. cbn in Hs'. by destruct (t_inflight t' Main), (owned Main (t_live t')).
  - apply phase_running; [by apply tab_reachable_exclusive|].
    apply (@loop_alive _ _ (title_poller title network_error start) (λ _, True) (abs (project Title t')));
      [by split_and!|intros; eexists; by split..|exact (tab_reachable_loop Title t' Ht')].
Qed.

(** A component stops with the answer after which the guard of [resetTimer] is false. *)
Lemma titled_answer_stops (t t' : tab titled_root titled_state) o s :
  tab_reachable t → component_step Main t (tab_answer Main o t) → 0 < t_inflight t Main →
  o (t_comp t Main) = Done s → @keep_polling _ _ P s = false → rtc tab_step (tab_answer Main o t) t' →
  t_inflight t' Main = 0 ∧ owned Main (t_live t') = [] ∧
  t_inflight t' Title + length (owned Title (t_live t')) = 1.
Proof.
  intros Ht Hst Hi Hs Hk. apply titled_stopped; [eapply rtc_r; [exact Ht|by exists Main]|].
  destruct (tab_reachable_exclusive t Ht) as [Hex _].
  destruct (@abs_answer _ _ P (project Main t) o (Hex Main) Hi) as [_ Ha].
  rewrite (project_answer Main). change (l_phase (abs (@answer _ _ P o (project Main t))) = Stopped).
  rewrite Ha. change (comp (project Main t)) with (t_comp t Main). rewrite Hs. cbn. by rewrite Hk.
Qed.
End titled.

(** ** Witnesses *)

Lemma page_refines_loop_witness :
  let p := @answer _ _ hud_poller (@on_response _ _ hud_poller (hud_sample 1000 500)) mounted in
  rtc (@loop_step _ _ hud_poller) loop_init (Loop (comp p) Waiting).
Proof.
  apply (@page_refines_loop _ _ hud_poller
    (@answer _ _ hud_poller (@on_response _ _ hud_poller (hud_sample 1000 500)) mounted)).
  apply rtc_once, (@step_response _ _ hud_poller). apply Nat.lt_0_1.
Defined.

Definition sample_index (i : index_root) : Poller (index_state i) (index_response i) :=
  @index_poller sample_dates sample_noon sample_lower insertion_js_sort (js "TypeError: Failed to fetch") 0 i.

(** The charts are answered first; the title bar and the list still wait for their answers. *)
Definition sample_overview : tab index_root index_state :=
  tab_answer (P := sample_index) IndexHUD (@on_response _ _ hud_poller (hud_sample 1000 500)) (tab_mounted (P := sample_index)).

Lemma sample_overview_reachable : tab_reachable (P := sample_index) sample_overview.
Proof.
  apply rtc_once. exists IndexHUD. apply (tab_step_response (P := sample_index) IndexHUD _ (hud_sample 1000 500)).
  apply Nat.lt_0_1.
Qed.

Lemma components_independent_witness :
  rtc (@loop_step _ _ (sample_index IndexHUD)) loop_init (abs (project IndexHUD sample_overview)) ∧
  l_phase (abs (project IndexHUD sample_overview)) = Waiting ∧
  l_phase (abs (project IndexList sample_overview)) = Requesting.
Proof.
  split; [|split; reflexivity].
  apply (components_independent (P := sample_index) sample_overview sample_overview_reachable).
Defined.

(** The list is answered first. *)
Definition sample_listed : tab index_root index_state :=
  tab_answer (P := sample_index) IndexList (@on_response _ _ (sample_index IndexList) sample_response)
    (tab_mounted (P := sample_index)).

Lemma overview_page_alive_witness :
  t_inflight sample_overview IndexHUD + length (owned IndexHUD (t_live sample_overview)) = 1 ∧
  displayedQueries (ql (ml (t_comp sample_listed IndexList))) ≠ [] ∧
  NoDup (ids (displayedQueries (ql (ml (t_comp sample_listed IndexList))))).
Proof.
  destruct (@overview_page_alive sample_dates sample_noon sample_lower insertion_js_sort insertion_js_sort_laws
    (js "TypeError: Failed to fetch") 0 sample_overview) as [Ha _].
  destruct (@overview_page_alive sample_dates sample_noon sample_lower insertion_js_sort insertion_js_sort_laws
    (js "TypeError: Failed to fetch") 0 sample_listed) as [_ Hl].
  split_and!; [by apply (Ha sample_overview_reachable)|vm_compute; discriminate|].
  apply Hl, rtc_once. exists IndexList.
  apply (tab_on_answer (P := sample_index) overview_answers IndexList _ sample_response sample_good). apply Nat.lt_0_1.
Defined.

Lemma query_links_followed_witness :
  let query := sample_query (js "20220511_091011_00001_abcde") (js "RUNNING") None None in
  length (hrefs (match @QueryListItem_render sample_dates sample_zone query with Ok v => v | Throw _ => VNothing end)) = 1 ∧
  map (λ h, (follow h).1) (take 4 (hrefs (match header_render (js "/ui/query.html") query with
    Ok v => v | Throw _ => VNothing end))) = query_pages.
Proof.
  cbv zeta.
  destruct (@query_links_followed sample_dates sample_zone (js "/ui/query.html")
    (sample_query (js "20220511_091011_00001_abcde") (js "RUNNING") None None)
    (match @QueryListItem_render sample_dates sample_zone
       (sample_query (js "20220511_091011_00001_abcde") (js "RUNNING") None None) with Ok v => v | Throw _ => VNothing end)
    (match header_render (js "/ui/query.html") (sample_query (js "20220511_091011_00001_abcde") (js "RUNNING") None None)
     with Ok v => v | Throw _ => VNothing end)) as (Hl & _ & _ & _ & Hp).
  - by apply (bool_decide_unpack _).
  - by apply (bool_decide_unpack _).
  - vm_compute. reflexivity.
  - vm_compute. reflexivity.
  - split; [exact Hl|exact Hp].
Defined.

Lemma stage_click_followed_witness :
  let data := sample_info (js "RUNNING") (Some sample_stage) false in
  findStage (Some (shown_stage_id data (sd_on_response data (sd_refresh (js "?q1.1") sd_constructor)))) sample_stage =
  last (getStages sample_stage).
Proof.
  apply (stage_click_followed (js "q1") 1 (sample_info (js "RUNNING") (Some sample_stage) false) sample_stage
    (List.nth 1 (getStages sample_stage) sample_stage)).
  - by apply (bool_decide_unpack _).
  - by apply (bool_decide_unpack _).
  - reflexivity.
  - reflexivity.
  - reflexivity.
  - apply list_elem_of_further, list_elem_of_here.
  - by apply (bool_decide_unpack _).
  - reflexivity.
Defined.
