(* ===== verification/Libraries.v ===== *)
(** * The live plan and the libraries of its pages

    The components use jQuery and its plugins, highlight.js and clipboard.js as global variables,
    which the HTML pages provide by script elements before the bundle; nothing in the bundle
    imports them.  LivePlan is mounted on two pages, plan.html and embedded_plan.html, and only
    the first one loads clipboard.js, which [componentDidMount] uses. *)

From S2P Require Import Prelude JsString JsNumber JsCollections Model QueryInfo Stage Samples Format Vdom QueryPages Graph LivePlan LivePlanFacts Pages Poller.
From stdpp Require Import relations.

Inductive library := JQuery | Bootstrap | SparklinePlugin | HighlightJs | ClipboardJs.
#[export] Instance library_eq_dec : EqDecision library.
Proof. solve_decision. Defined.

(** ** What a page loads *)

(** The library that a vendored script defines. *)
Definition provides (src : jstring) : option library :=
  if jeqb src (js "vendor/jquery/jquery-3.5.1.min.js") then Some JQuery
  else if jeqb src (js "vendor/bootstrap/js/bootstrap.js") then Some Bootstrap
  else if jeqb src (js "vendor/jquery.sparkline/jquery.sparkline.min.js") then Some SparklinePlugin
  else if jeqb src (js "vendor/highlightjs/9.3/highlight.pack.js") then Some HighlightJs
  else if jeqb src (js "vendor/clipboardjs/clipboard.min.js") then Some ClipboardJs
  else None.

(** The script elements of the two pages, in document order. *)
Definition plan_scripts : list jstring :=
  [js "vendor/jquery/jquery-3.5.1.min.js"; js "vendor/bootstrap/js/bootstrap.js";
   js "vendor/jquery.sparkline/jquery.sparkline.min.js"; js "vendor/highlightjs/9.3/highlight.pack.js";
   js "vendor/clipboardjs/clipboard.min.js"; js "dist/plan.js"].
Definition embedded_plan_scripts : list jstring :=
  [js "vendor/jquery/jquery-3.5.1.min.js"; js "vendor/bootstrap/js/bootstrap.js";
   js "vendor/jquery.sparkline/jquery.sparkline.min.js"; js "vendor/highlightjs/9.3/highlight.pack.js";
   js "dist/embedded_plan.js"].
Definition html_scripts (name : jstring) : list jstring :=
  if jeqb name (js "plan") then plan_scripts
  else if jeqb name (js "embedded_plan") then embedded_plan_scripts
  else [].

(** Where the bundler writes the bundle of an entry, seen from the pages. *)
Definition bundle_file (name : jstring) : jstring := js "dist/" ++ name ++ js ".js".

(** The libraries that are there when the bundle runs. *)
Definition loaded (name : jstring) : list library :=
  match index_of (bundle_file name) (html_scripts name) with
  | Some i => omap provides (take i (html_scripts name))
  | None => []
  end.

(** ** The live plan without clipboard.js *)

Section plan.
Context `{PlanParser, DagreRender, PlanBox}.

(** [componentDidMount]: the first request, then [new window.ClipboardJS], which throws if there
    is none; the exception removes the component, but not the request. *)
Definition lp_componentDidMount (embedded : bool) (pathname : jstring) (clipboard : bool) : page lp_state :=
  let p := @mounted _ _ (lp_poller embedded pathname) in
  if clipboard then p else set_comp (crash (comp p)) p.
End plan.

(** ** Properties *)

Section plan_facts.
Context `{PlanParser, DagreRender, PlanBox}.

(** plan.html has the library: the component is mounted as the refresh loop describes. *)
Lemma plan_mounts pathname :
  lp_componentDidMount false pathname (bool_decide (ClipboardJs ∈ loaded (js "plan"))) =
  @mounted _ _ (lp_poller false pathname).
Proof. reflexivity. Qed.

Definition lost (s : lp_state) : Prop := lp_crashed s = true ∧ lp_query s = None.

(** C21: On embedded_plan.html the live plan is removed as soon as it is mounted: [componentDidMount]
    throws after it has sent the first request.  Whatever is answered, nothing is ever shown
    and no document is stored, so that the guard of [resetTimer] always holds and the empty page
    polls for ever, one request or timer at a time. *)
Theorem embedded_plan_lost pathname p :
  rtc (@step _ _ (lp_poller true pathname))
    (lp_componentDidMount true pathname (bool_decide (ClipboardJs ∈ loaded (js "embedded_plan")))) p →
  lost (comp p) ∧ inflight p + length (live p) = 1.
Proof.
  replace (bool_decide _) with false by reflexivity. intros Hp.
  assert (exclusive (lp_componentDidMount true pathname false)) as Hm by (split; cbn; [lia|set_solver|done]).
  assert (lost (comp p) ∧ @goes_on _ _ (lp_poller true pathname) p) as [Hl Ha].
  { eapply (@steps_on_alive _ _ (lp_poller true pathname) lost (λ _, True)); [..|exact Hm| | |].
    - done.
    - intros r s _ [Hc Hq]. exists s. split; [|done]. cbn. unfold lp_on_response. by rewrite Hc.
    - intros now s [Hc Hq]. exists s. split; [|done]. cbn. unfold lp_on_failure. by rewrite Hc.
    - by intros s s' _ [].
    - done.
    - done.
    - eapply rtc_subrel; [|exact Hp]. intros q q' Hs. destruct Hs; by constructor. }
  split; [done|]. unfold goes_on in Ha. change (keep_polling (comp p)) with (lp_keep_polling (comp p)) in Ha.
  unfold lp_keep_polling in Ha. by rewrite (proj2 Hl) in Ha.
Qed.
End plan_facts.

(** The first answer arrives, with the final document of a query. *)
Lemma embedded_plan_lost_witness :
  let P := @lp_poller sample_parser sample_dagre sample_box true (js "/ui/embedded_plan.html") in
  let m := @lp_componentDidMount sample_parser sample_dagre sample_box true (js "/ui/embedded_plan.html") false in
  let p := @answer _ _ P (@on_response _ _ P final_info) m in
  lost (comp p) ∧ length (live p) = 1.
Proof.
  split; [|vm_compute; reflexivity].
  apply (@embedded_plan_lost sample_parser sample_dagre sample_box (js "/ui/embedded_plan.html")).
  apply rtc_once.
  apply (@step_response _ _ (@lp_poller sample_parser sample_dagre sample_box true (js "/ui/embedded_plan.html"))
    (@lp_componentDidMount sample_parser sample_dagre sample_box true (js "/ui/embedded_plan.html") false) final_info).
  apply Nat.lt_0_1.
Defined.
