(* ===== verification/PageTabs.v ===== *)
(** * The remaining pages as tabs

    query.html, plan.html and stage.html mount the title bar and one component that shows a
    query; workers.html mounts the title bar and the list of workers (Pages.v, [titled_poller]).
    The first three fall silent, apart from the title bar, with the final document of the query;
    the last one never does. *)

From S2P Require Import Prelude JsString JsNumber JsCollections Format QueryInfo Samples Graph Poller Loop Tab PageTitle QueryDetail QueryDetailView StageDetail StageDetailView LivePlan QueryPages QueryTree WorkerList LivePlanFacts PageSurvival Pages.
From stdpp Require Import relations.

(** ** The pages of a query *)

(** What query.jsx, plan.jsx and stage.jsx mount beside the title bar. *)
Inductive query_root := QueryRoot | PlanRoot | StageRoot.

Definition root_state (k : query_root) : Type :=
  match k with QueryRoot => tree | PlanRoot => lp_state | StageRoot => sd_state end.
Definition root_response (k : query_root) : Type :=
  match k with QueryRoot => Z * query_info | _ => query_info end.

(** The document of an answer, and whether an exception has removed the component. *)
Definition root_document (k : query_root) : root_response k → query_info :=
  match k with QueryRoot => λ r, r.2 | PlanRoot | StageRoot => λ q, q end.
Definition root_removed (k : query_root) : root_state k → bool :=
  match k with QueryRoot => tr_crashed | PlanRoot => lp_crashed | StageRoot => sd_crashed end.

Section query_tabs.
Context `{DateParse, LocalTime, UrlParser, JsSort, PlanParser, DagreRender, PlanBox}.
Context (pathname search : jstring).

Definition root_poller (k : query_root) : Poller (root_state k) (root_response k) :=
  match k with
  | QueryRoot => tree_poller pathname
  | PlanRoot => lp_poller false pathname
  | StageRoot => sd_poller pathname search
  end.

(** Drawing the plan changes neither the document nor the flag of the state. *)
Lemma lp_didUpdate_keeps s s' :
  lp_didUpdate s = Ok s' → lp_query s' = lp_query s ∧ lp_ended s' = lp_ended s.
Proof.
  unfold lp_didUpdate. cbn [lp_query set_svg]. destruct (lp_query s) as [q|] eqn:Hq.
  - intros (calls & _ & Hd)%res_bind_ok. unfold draw_plan in Hd.
    apply res_bind_ok in Hd as (size & _ & Hd). destruct (canvas_present _); [|done].
    apply Ok_inj in Hd as <-. by rewrite <- Hq.
  - by intros [= <-].
Qed.

Lemma lp_response_knows embedded q s s' :
  lp_crashed s = false → lp_on_response embedded pathname q s = Done s' →
  lp_query s' = Some q ∧ lp_ended s' = finalQueryInfo q.
Proof.
  intros Hc. unfold lp_on_response. rewrite Hc.
  destruct (lp_update _ _ _) as [s1|e] eqn:Hu; intros [= <-]; [|done].
  apply res_bind_ok in Hu as (view & _ & Hu). exact (lp_didUpdate_keeps _ _ Hu).
Qed.

(** Once the final document has been processed, the guard of [resetTimer] is false. *)
Lemma root_final k r s s' :
  root_removed k s = false → @on_response _ _ (root_poller k) r s = Done s' →
  finalQueryInfo (root_document k r) = true → @keep_polling _ _ (root_poller k) s' = false.
Proof.
  destruct k; cbn; intros Hc Hs Hf.
  - destruct r as [now q]. pose proof (response_query pathname (now, q) s Hc) as Hk.
    rewrite Hs in Hk. destruct Hk as [_ Hk]. apply response_knows in Hk as [Hq He].
    unfold tree_keep_polling, qd_keep_polling. cbn in Hf. by rewrite Hq, He, Hf.
  - apply lp_response_knows in Hs as [Hq He]; [|done]. unfold lp_keep_polling. by rewrite Hq, He, Hf.
  - apply sd_update_inv in Hs as ->; [|done]. unfold sd_keep_polling. cbn. by rewrite Hf.
Qed.

Context (network_error : jstring) (start : Z).

Definition query_tab_poller (k : query_root) (i : titled_root) :
  Poller (titled_state (S := root_state k) i) (titled_response (R := root_response k) i) :=
  titled_poller (root_poller k) (js "Query Details") network_error start i.

(** C24: On query.html, plan.html and stage.html, the component that shows the query stops when
    it has processed the final document, and only the title bar goes on: from then on, in
    whatever order further events happen, the component has neither a request nor a timer, and
    the title bar has exactly one. *)
Theorem finished_tabs_quiet k (t t' : tab titled_root (titled_state (S := root_state k))) r s :
  tab_reachable (P := query_tab_poller k) t → 0 < t_inflight t Main →
  root_removed k (t_comp t Main) = false →
  @on_response _ _ (root_poller k) r (t_comp t Main) = Done s →
  finalQueryInfo (root_document k r) = true →
  rtc (tab_step (P := query_tab_poller k))
    (tab_answer (P := query_tab_poller k) Main (@on_response _ _ (root_poller k) r) t) t' →
  t_inflight t' Main = 0 ∧ owned Main (t_live t') = [] ∧
  t_inflight t' Title + length (owned Title (t_live t')) = 1.
Proof.
  intros Ht Hi Hc Hs Hf Hr.
  eapply (titled_answer_stops (root_poller k)); [exact Ht| |exact Hi|exact Hs| |exact Hr].
  - exact (tab_step_response (P := query_tab_poller k) Main t r Hi).
  - exact (root_final k r (t_comp t Main) s Hc Hs Hf).
Qed.
End query_tabs.

(** ** The list of workers *)

Section workers_tab.
Context `{LocaleCompare, JsSort}.
Context (network_error : jstring) (start : Z).

Definition workers_poller (i : titled_root) :
  Poller (titled_state (S := wl_state) i) (titled_response (R := option (list worker)) i) :=
  titled_poller wl_poller (js "Worker List") network_error start i.

(** workers.html never falls silent: each of its two components has at any time exactly one
    request outstanding or one timer pending. *)
Theorem workers_page_alive (t : tab titled_root (titled_state (S := wl_state))) i :
  tab_reachable (P := workers_poller) t → t_inflight t i + length (owned i (t_live t)) = 1.
Proof.
  intros Ht.
  apply phase_running; [by apply (tab_reachable_exclusive (P := workers_poller))|].
  pose proof (tab_reachable_loop (P := workers_poller) i t Ht) as Hl. destruct i.
  - apply (@loop_alive _ _ (title_poller (js "Worker List") network_error start) (λ _, True) (abs (project Title t)));
      [by split_and!|intros; eexists; by split..|exact Hl].
  - apply (@loop_alive _ _ wl_poller (λ _, True) (abs (project Main t)));
      [by split_and!|intros; eexists; by split..|exact Hl].
Qed.
End workers_tab.

(** ** Witness *)

Definition sample_tab (k : query_root) (i : titled_root) :
  Poller (titled_state (S := root_state k) i) (titled_response (R := root_response k) i) :=
  @query_tab_poller sample_clock sample_zone hosts insertion_js_sort sample_parser strict_layout sample_box
    (js "/ui/query.html") (js "?q1.0") (js "TypeError: Failed to fetch") 0 k i.
Definition sample_root (k : query_root) : Poller (root_state k) (root_response k) :=
  @root_poller sample_clock sample_zone hosts insertion_js_sort sample_parser strict_layout sample_box
    (js "/ui/query.html") (js "?q1.0") k.
Definition sample_answer (k : query_root) : root_response k :=
  match k with
  | QueryRoot => (1652260300000%Z, final_info) | PlanRoot => final_info | StageRoot => final_stage_info
  end.

(** The tab after the first answer, the final document. *)
Definition sample_finished (k : query_root) : tab titled_root (titled_state (S := root_state k)) :=
  tab_answer (P := sample_tab k) Main (@on_response _ _ (sample_root k) (sample_answer k))
    (tab_mounted (P := sample_tab k)).
Definition sample_quiet (k : query_root) : Prop :=
  t_inflight (sample_finished k) Main = 0 ∧ owned Main (t_live (sample_finished k)) = [] ∧
  t_inflight (sample_finished k) Title + length (owned Title (t_live (sample_finished k))) = 1.

Lemma finished_tabs_quiet_witness : sample_quiet QueryRoot ∧ sample_quiet PlanRoot ∧ sample_quiet StageRoot.
Proof.
  assert (∀ k, sample_quiet k) as Hk.
  { intros k.
    apply (@finished_tabs_quiet sample_clock sample_zone hosts insertion_js_sort sample_parser strict_layout sample_box
      (js "/ui/query.html") (js "?q1.0") (js "TypeError: Failed to fetch") 0 k (tab_mounted (P := sample_tab k))
      (sample_finished k) (sample_answer k)
      (outcome_state (@on_response _ _ (sample_root k) (sample_answer k) (t_comp (tab_mounted (P := sample_tab k)) Main)))).
    - apply rtc_refl.
    - apply Nat.lt_0_1.
    - by destruct k.
    - destruct k; vm_compute; reflexivity.
    - by destruct k.
    - apply rtc_refl. }
  exact (conj (Hk QueryRoot) (conj (Hk PlanRoot) (Hk StageRoot))).
Defined.
