(* ===== verification/WorkerPage.v ===== *)
(** * The page of a worker

    worker.html mounts three components: the title bar and the status, which poll, and the list of
    threads, which takes a snapshot when its button is clicked.  They share the one thread on
    which the scripts of a page run: a handler that does not return stops all of them.  This
    file composes the tab of the first two (Tab.v, Pages.v) with the thread list
    (WorkerThreadList.v). *)

From S2P Require Import Prelude JsString JsNumber JsCollections Vdom Poller Loop Tab PageTitle WorkerStatus WorkerThreadList Pages.
From stdpp Require Import relations.

Section worker_page.
Context `{TimeString}.
Context (network_error : jstring) (start : Z).

#[export] Instance worker_poller (i : titled_root) : Poller (titled_state (S := ws_state) i) (titled_response (R := server_info) i) :=
  titled_poller ws_poller (js "Worker Status") network_error start i.

(** [wp_frozen]: a handler is running that does not return. *)
Record worker_page := {
  wp_tab : tab titled_root (titled_state (S := ws_state));
  wp_threads : wt_component;
  wp_frozen : bool;
}.

Definition worker_mounted : worker_page :=
  {| wp_tab := tab_mounted; wp_threads := wt_start; wp_frozen := false |}.

Definition set_threads (c : wt_component) (w : worker_page) : worker_page :=
  {| wp_tab := wp_tab w; wp_threads := c; wp_frozen := wp_frozen w |}.

(** An answer has been processed that the list, removed by an exception, does not show. *)
Definition late_answer (n : nat) (c : wt_component) : wt_component :=
  {| wt := wt c; requests := n; removed := removed c |}.

(** The steps of the page, when the coordinator only sends snapshots in [G]. *)
Inductive worker_step (G : list thread → Prop) : worker_page → worker_page → Prop :=
| wp_polls w t : wp_frozen w = false → tab_step (wp_tab w) t →
    worker_step G w {| wp_tab := t; wp_threads := wp_threads w; wp_frozen := false |}
| wp_lists w c : wp_frozen w = false → wt_step (wp_threads w) c → worker_step G w (set_threads c w)
| wp_late w threads fuel r n : wp_frozen w = false → removed (wp_threads w) = true → requests (wp_threads w) = S n →
    G threads → processThreads fuel threads = Some r → worker_step G w (set_threads (late_answer n (wp_threads w)) w)
| wp_late_failure w n : wp_frozen w = false → removed (wp_threads w) = true → requests (wp_threads w) = S n →
    worker_step G w (set_threads (late_answer n (wp_threads w)) w)
| wp_freezes w threads n : wp_frozen w = false → requests (wp_threads w) = S n →
    G threads → (∀ fuel, processThreads fuel threads = None) →
    worker_step G w {| wp_tab := wp_tab w; wp_threads := late_answer n (wp_threads w); wp_frozen := true |}.

Definition worker_reachable (G : list thread → Prop) (w : worker_page) : Prop := rtc (worker_step G) worker_mounted w.

Lemma worker_tab_reachable G w : worker_reachable G w → tab_reachable (wp_tab w).
Proof.
  revert w. apply (rtc_ind_r (λ w, tab_reachable (wp_tab w)) worker_mounted); [apply rtc_refl|].
  intros w w' _ Hs IH. destruct Hs; try done. by eapply rtc_r.
Qed.

(** Grouping a snapshot whose groups are ordinary ends. *)
Lemma ordinary_ends threads :
  Forall (λ t, ordinary t = true) threads → processThreads (S (length threads)) threads ≠ None.
Proof.
  intros Ho. destruct (grouped_loop threads (S (length threads)) [] threads [(ALL_THREADS, threads)]) as (r & Hr & _);
    [done|done|lia|apply grouped_init|]. unfold processThreads. cbn [length] in Hr. by rewrite Hr.
Qed.

(** C19: The title bar and the status of a worker go on for ever, each with one request or timer at
    any time, whatever the thread list does (it may even disappear), unless a snapshot freezes
    the page.  A snapshot whose thread groups are ordinary never does.  But one with a thread
    in a group called "All Threads" stops everything on the page as soon as it arrives: the
    grouping does not return, and no timer and no answer of any component is processed any
    more. *)
Theorem worker_page_alive G w :
  worker_reachable G w →
  (∀ i, t_inflight (wp_tab w) i + length (owned i (t_live (wp_tab w))) = 1) ∧
  ((∀ threads, G threads → Forall (λ t, ordinary t = true) threads) → wp_frozen w = false) ∧
  (∀ threads t n,
     wp_frozen w = false → requests (wp_threads w) = S n → G threads →
     Forall (λ t, threadGroup t ∉ prototype_keys) threads → t ∈ threads → threadGroup t = ALL_THREADS →
     ∃ w', worker_step G w w' ∧ wp_tab w' = wp_tab w ∧ ∀ w'', worker_step G w' w'' → False).
Proof.
  intros Hw. split_and!.
  - intros i. pose proof (worker_tab_reachable G w Hw) as Ht.
    apply phase_running; [by apply tab_reachable_exclusive|].
    pose proof (tab_reachable_loop i (wp_tab w) Ht) as Hl. destruct i.
    + apply (@loop_alive _ _ (title_poller (js "Worker Status") network_error start) (λ _, True)
        (abs (project Title (wp_tab w)))); [by split_and!|intros; eexists; by split..|exact Hl].
    + apply (@loop_alive _ _ ws_poller (λ s, ended s = false) (abs (project Main (wp_tab w)))); [..|exact Hl].
      * unfold state_invariant, preserved. by split_and!.
      * intros r s Hs. eexists. split; [done|]. cbn. unfold ws_keep_polling. cbn. by rewrite Hs.
      * intros now s Hs. eexists. split; [done|]. cbn. unfold ws_keep_polling. cbn. by rewrite Hs.
  - intros HG. revert w Hw. apply (rtc_ind_r (λ w, wp_frozen w = false) worker_mounted); [done|].
    intros w w' _ Hs IH. destruct Hs as [| | | |w threads n _ _ Hg Hn]; try done.
    exfalso. by apply (ordinary_ends threads (HG threads Hg)).
  - intros threads t n Hf Hr Hg Hp [j Hj]%list_elem_of_lookup Ht.
    exists {| wp_tab := wp_tab w; wp_threads := late_answer n (wp_threads w); wp_frozen := true |}. split_and!.
    + eapply (wp_freezes G w threads n); try done. intros fuel. by apply (loop_runs_on fuel 0 j _ threads t); [..|lia|done|].
    + done.
    + intros w'' Hs. by inversion Hs.
Qed.
End worker_page.

(** ** Witnesses *)

(** The page after a click on the button of the thread list. *)
Definition worker_asked : worker_page :=
  set_threads (@wt_update sample_time (handleNewSnapshotClick wt_constructor) 1) (worker_mounted [] 0%Z).

Lemma worker_page_alive_witness :
  t_inflight (wp_tab worker_asked) Main + length (owned Main (t_live (wp_tab worker_asked))) = 1 ∧
  ∃ w', @worker_step sample_time [] 0 (λ _, True) worker_asked w' ∧ wp_tab w' = wp_tab worker_asked ∧
        ∀ w'', @worker_step sample_time [] 0 (λ _, True) w' w'' → False.
Proof.
  destruct (@worker_page_alive sample_time [] 0%Z (λ _, True) worker_asked) as (Ha & _ & Hfr).
  - apply rtc_once.
    apply (@wp_lists sample_time [] 0%Z (λ _, True) (worker_mounted [] 0%Z)
      (@wt_update sample_time (handleNewSnapshotClick wt_constructor) 1)); [reflexivity|].
    apply (@wt_snapshot sample_time wt_start). reflexivity.
  - split; [apply Ha|].
    apply (Hfr [sample_thread (js "All Threads-1") (js "RUNNABLE")] (sample_thread (js "All Threads-1") (js "RUNNABLE")) 0).
    + reflexivity.
    + reflexivity.
    + exact I.
    + apply Forall_singleton. apply (bool_decide_unpack _). vm_compute. exact I.
    + apply list_elem_of_here.
    + vm_compute. reflexivity.
Defined.
